(** * A shallow embedding of the Gemini web client (gemininixiang)

    The development follows [client.py] (class [GeminiClient]),
    [server.py] ([verify_api_key], the cookie helpers, the session tracking
    and the streams of [chat_completions], the format conversion of
    [gemini_generate_content], the admin sessions) and [quite.py] (class
    [GeminiChatBot]).

    Modelling conventions.
    - A Python [str] is a sequence of Unicode code points: [pystr := list N].
      ASCII literals of the source are written [lit "..."].
    - Values decoded from JSON (and everything the client stores in its
      session context) are [pyval]s; Python floats are IEEE binary64 numbers
      ([PrimFloat.float]).
    - Fallible code returns [result]: [Ok v] or [Raise e] with [e] the class
      of the Python exception.  Every class used here derives from
      [Exception], so [except Exception] and a bare [except] catch all of them.
    - The client is modelled with [debug = False] (the constructor's default):
      the [if self.debug:] blocks are left out.  They print and dump files;
      the one in [_send_request] also retries an unparsed answer through
      [_send_stream_request], handing it the paths of the uploaded images.
    - Network traffic is a trace of [request]s; the remote side is an oracle
      [net] consulted with the number of requests issued so far.
    - Writes to the session file and to the log file only touch the file
      system and catch their own errors; the file system is not part of the
      modelled state. *)

From Stdlib Require Import String Ascii.
From Stdlib Require Import ZArith NArith Bool Lia.
From Stdlib Require Import DecimalFacts DecimalPos DecimalN DecimalZ.
From Stdlib Require Import Floats.
From Stdlib Require Import List.
Import ListNotations.

Set Implicit Arguments.
Local Open Scope N_scope.

(** ** Python strings *)

Definition pystr := list N.

Fixpoint lit (s : string) : pystr :=
  match s with
  | EmptyString => []
  | String c r => N_of_ascii c :: lit r
  end.

Fixpoint pystr_eqb (a b : pystr) : bool :=
  match a, b with
  | [], [] => true
  | x :: a', y :: b' => (x =? y) && pystr_eqb a' b'
  | _, _ => false
  end.

(** [s.startswith(p)]; [strip_prefix] also returns what follows the prefix. *)
Fixpoint strip_prefix (p s : pystr) : option pystr :=
  match p, s with
  | [], _ => Some s
  | x :: p', y :: s' => if x =? y then strip_prefix p' s' else None
  | _ :: _, [] => None
  end.

Definition startswith (s p : pystr) : bool :=
  match strip_prefix p s with Some _ => true | None => false end.

(** [str.isspace] for one code point (the Unicode White_Space set plus the
    four information separators, as CPython's [_PyUnicode_IsWhitespace]). *)
Definition is_space (c : N) : bool :=
  ((9 <=? c) && (c <=? 13)) || ((28 <=? c) && (c <=? 32))
  || (c =? 133) || (c =? 160) || (c =? 5760)
  || ((8192 <=? c) && (c <=? 8202))
  || (c =? 8232) || (c =? 8233) || (c =? 8239) || (c =? 8287) || (c =? 12288).

Fixpoint lstrip (s : pystr) : pystr :=
  match s with
  | c :: r => if is_space c then lstrip r else s
  | [] => []
  end.

Definition rstrip (s : pystr) : pystr := rev (lstrip (rev s)).

(** [s.strip()] *)
Definition strip (s : pystr) : pystr := rstrip (lstrip s).

(** [s.split(sep)] for a one-character separator: never empty. *)
Fixpoint split_on (sep : N) (s : pystr) : list pystr :=
  match s with
  | [] => [[]]
  | c :: r =>
      if c =? sep then [] :: split_on sep r
      else match split_on sep r with
           | l :: ls => (c :: l) :: ls
           | [] => [[c]]
           end
  end.

(** [sep.join(parts)] *)
Fixpoint join (sep : pystr) (parts : list pystr) : pystr :=
  match parts with
  | [] => []
  | [p] => p
  | p :: ps => p ++ sep ++ join sep ps
  end.

Definition is_ascii_digit (c : N) : bool := (48 <=? c) && (c <=? 57).

(** ** Exceptions and results *)

(** The exception classes met in the code; the text of their messages is
    kept only for [HTTPException].  [PlainException] is [Exception(...)]
    raised as such. *)
Inductive exn : Type :=
| TypeError
| IndexError
| KeyError
| AttributeError
| ValueError
| JSONDecodeError
| BinasciiError
| CookieExpiredError
| ImageUploadError
| HTTPException (status : Z) (detail : pystr)
| HTTPStatusError (status : Z)
| ConnectTimeout
| NetworkError
| PlainException.

Inductive result (A : Type) : Type :=
| Ok (a : A)
| Raise (e : exn).
Arguments Ok {A} a.
Arguments Raise {A} e.

Definition bind {A B} (m : result A) (k : A -> result B) : result B :=
  match m with
  | Ok a => k a
  | Raise e => Raise e
  end.

Declare Scope py_scope.
Delimit Scope py_scope with py.
Notation "x <- m ;; k" := (bind m (fun x => k))
  (at level 61, m at next level, right associativity) : py_scope.
Notation "m ;;; k" := (bind m (fun _ => k))
  (at level 61, right associativity) : py_scope.

(** ** Python values *)

Unset Elimination Schemes.
Inductive pyval : Type :=
| PNone
| PBool (b : bool)
| PInt (z : Z)
| PFloat (f : float)
| PStr (s : pystr)
| PList (l : list pyval)
| PDict (d : list (pystr * pyval)).
Set Elimination Schemes.

(** The induction principle of [pyval], with the elements of lists and
    dicts covered. *)
Section PyvalInduction.

Variable P : pyval -> Prop.
Hypothesis HNone : P PNone.
Hypothesis HBool : forall b, P (PBool b).
Hypothesis HInt : forall z, P (PInt z).
Hypothesis HFloat : forall f, P (PFloat f).
Hypothesis HStr : forall s, P (PStr s).
Hypothesis HList : forall l, Forall P l -> P (PList l).
Hypothesis HDict : forall d, Forall (fun kv => P (snd kv)) d -> P (PDict d).

Fixpoint pyval_ind (v : pyval) : P v :=
  match v with
  | PNone => HNone
  | PBool b => HBool b
  | PInt z => HInt z
  | PFloat f => HFloat f
  | PStr s => HStr s
  | PList l =>
      @HList l ((fix go (l : list pyval) : Forall P l :=
                match l with
                | [] => Forall_nil P
                | x :: xs => Forall_cons x (pyval_ind x) (go xs)
                end) l)
  | PDict d =>
      @HDict d ((fix go (d : list (pystr * pyval)) : Forall (fun kv => P (snd kv)) d :=
                match d with
                | [] => Forall_nil _
                | kv :: xs => Forall_cons kv (pyval_ind (snd kv)) (go xs)
                end) d)
  end.

End PyvalInduction.

(** [bool(v)] *)
Definition truthy (v : pyval) : bool :=
  match v with
  | PNone => false
  | PBool b => b
  | PInt z => negb (z =? 0)%Z
  | PFloat f => negb (PrimFloat.eqb f 0%float)
  | PStr s => match s with [] => false | _ => true end
  | PList l => match l with [] => false | _ => true end
  | PDict d => match d with [] => false | _ => true end
  end.

Definition isinstance_list (v : pyval) : bool :=
  match v with PList _ => true | _ => false end.
Definition isinstance_str (v : pyval) : bool :=
  match v with PStr _ => true | _ => false end.
Definition isinstance_dict (v : pyval) : bool :=
  match v with PDict _ => true | _ => false end.

(** [len(v)] *)
Definition py_len (v : pyval) : result nat :=
  match v with
  | PStr s => Ok (length s)
  | PList l => Ok (length l)
  | PDict d => Ok (length d)
  | _ => Raise TypeError
  end.

Fixpoint dict_get (d : list (pystr * pyval)) (k : pystr) : option pyval :=
  match d with
  | [] => None
  | (k', v) :: r => if pystr_eqb k' k then Some v else dict_get r k
  end.

(** [v[i]] for a literal index [i >= 0].  The keys of a decoded JSON object
    are strings, so an integer subscript of a dict is a [KeyError]. *)
Definition py_index (v : pyval) (i : nat) : result pyval :=
  match v with
  | PList l => match nth_error l i with Some x => Ok x | None => Raise IndexError end
  | PStr s => match nth_error s i with Some c => Ok (PStr [c]) | None => Raise IndexError end
  | PDict _ => Raise KeyError
  | _ => Raise TypeError
  end.

(** [v[k]] for a string key [k] *)
Definition py_getitem_str (v : pyval) (k : pystr) : result pyval :=
  match v with
  | PDict d => match dict_get d k with Some x => Ok x | None => Raise KeyError end
  | _ => Raise TypeError
  end.

(** [v == s] for a string literal [s] *)
Definition eq_str (v : pyval) (s : pystr) : bool :=
  match v with PStr t => pystr_eqb t s | _ => false end.

(** [v == n] for an integer literal [n] other than 0 and 1 (which [False]
    and [True] also equal) *)
Definition eq_int (v : pyval) (n : Z) : bool :=
  match v with
  | PInt z => (z =? n)%Z
  | PFloat f => PrimFloat.eqb f (PrimFloat.of_uint63 (Uint63.of_Z n))
  | _ => false
  end.

(** ** The [json] module

    [json.dumps(v, ensure_ascii=False, separators=(',', ':'))] and
    [json.loads(s)] as the standard library defines them (the scanner of
    [json.decoder] / [json.scanner]).  The two conversions the library
    delegates to the float type, [float.__repr__] and [float(str)], are
    parameters.  Not modelled: the interpreter's recursion limit and the
    limit on the number of digits of an integer literal. *)

Section Json.

Variable float_repr : float -> pystr.
Variable py_float : pystr -> float.

(** *** Encoding *)

Fixpoint uint_digits (d : Decimal.uint) : pystr :=
  match d with
  | Decimal.Nil => []
  | Decimal.D0 r => 48 :: uint_digits r
  | Decimal.D1 r => 49 :: uint_digits r
  | Decimal.D2 r => 50 :: uint_digits r
  | Decimal.D3 r => 51 :: uint_digits r
  | Decimal.D4 r => 52 :: uint_digits r
  | Decimal.D5 r => 53 :: uint_digits r
  | Decimal.D6 r => 54 :: uint_digits r
  | Decimal.D7 r => 55 :: uint_digits r
  | Decimal.D8 r => 56 :: uint_digits r
  | Decimal.D9 r => 57 :: uint_digits r
  end.

(** [int.__repr__] *)
Definition int_repr (z : Z) : pystr :=
  match Z.to_int z with
  | Decimal.Pos d => uint_digits d
  | Decimal.Neg d => 45 :: uint_digits d
  end.

Definition hex_digit (n : N) : N := if n <? 10 then 48 + n else 87 + n.

(** [ESCAPE_DCT] of [json.encoder], applied by [encode_basestring] *)
Definition escape_char (c : N) : pystr :=
  if c =? 34 then [92; 34]
  else if c =? 92 then [92; 92]
  else if c =? 8 then [92; 98]
  else if c =? 12 then [92; 102]
  else if c =? 10 then [92; 110]
  else if c =? 13 then [92; 114]
  else if c =? 9 then [92; 116]
  else if c <? 32 then [92; 117; 48; 48; hex_digit (c / 16); hex_digit (c mod 16)]
  else [c].

Definition encode_basestring (s : pystr) : pystr :=
  34 :: flat_map escape_char s ++ [34].

Definition float_str (f : float) : pystr :=
  if PrimFloat.is_nan f then lit "NaN"
  else if PrimFloat.is_infinity f then
    (if PrimFloat.ltb f 0%float then lit "-Infinity" else lit "Infinity")
  else float_repr f.

Fixpoint json_dumps (v : pyval) : pystr :=
  match v with
  | PNone => lit "null"
  | PBool true => lit "true"
  | PBool false => lit "false"
  | PInt z => int_repr z
  | PFloat f => float_str f
  | PStr s => encode_basestring s
  | PList l =>
      91 :: (fix elems (l : list pyval) : pystr :=
               match l with
               | [] => []
               | x :: xs =>
                   json_dumps x ++ match xs with [] => [] | _ => 44 :: elems xs end
               end) l ++ [93]
  | PDict d =>
      123 :: (fix members (d : list (pystr * pyval)) : pystr :=
                match d with
                | [] => []
                | (k, x) :: xs =>
                    encode_basestring k ++ 58 :: json_dumps x
                    ++ match xs with [] => [] | _ => 44 :: members xs end
                end) d ++ [125]
  end.

Fixpoint dumps_elems (l : list pyval) : pystr :=
  match l with
  | [] => []
  | x :: xs => json_dumps x ++ match xs with [] => [] | _ => 44 :: dumps_elems xs end
  end.

(** *** Decoding *)

Definition is_json_ws (c : N) : bool :=
  (c =? 32) || (c =? 9) || (c =? 10) || (c =? 13).

Fixpoint skip_ws (s : pystr) : pystr :=
  match s with
  | c :: r => if is_json_ws c then skip_ws r else s
  | [] => []
  end.

Definition hex_val (c : N) : option N :=
  if (48 <=? c) && (c <=? 57) then Some (c - 48)
  else if (97 <=? c) && (c <=? 102) then Some (c - 87)
  else if (65 <=? c) && (c <=? 70) then Some (c - 55)
  else None.

Definition hex4 (a b c d : N) : option N :=
  match hex_val a, hex_val b, hex_val c, hex_val d with
  | Some x, Some y, Some z, Some w => Some (((x * 16 + y) * 16 + z) * 16 + w)
  | _, _, _, _ => None
  end.

(** [BACKSLASH] of [json.decoder] *)
Definition unescape (e : N) : option N :=
  if e =? 34 then Some 34
  else if e =? 92 then Some 92
  else if e =? 47 then Some 47
  else if e =? 98 then Some 8
  else if e =? 102 then Some 12
  else if e =? 110 then Some 10
  else if e =? 114 then Some 13
  else if e =? 116 then Some 9
  else None.

Definition is_high_surrogate (u : N) : bool := (55296 <=? u) && (u <=? 56319).
Definition is_low_surrogate (u : N) : bool := (56320 <=? u) && (u <=? 57343).
Definition join_surrogates (u u2 : N) : N :=
  65536 + ((u - 55296) * 1024 + (u2 - 56320)).

Definition cons_char (c : N) (r : option (pystr * pystr)) : option (pystr * pystr) :=
  match r with
  | Some (t, rest) => Some (c :: t, rest)
  | None => None
  end.

(** [scanstring] in strict mode, started after the opening quote: the
    decoded string and what follows the closing quote. *)
Fixpoint scanstring (s : pystr) {struct s} : option (pystr * pystr) :=
  match s with
  | [] => None
  | c :: r =>
      if c =? 34 then Some ([], r)
      else if c =? 92 then
        match r with
        | [] => None
        | e :: r1 =>
            if e =? 117 then
              match r1 with
              | h1 :: h2 :: h3 :: h4 :: r2 =>
                  match hex4 h1 h2 h3 h4 with
                  | None => None
                  | Some uni =>
                      if is_high_surrogate uni then
                        match r2 with
                        | b :: u :: r3 =>
                            if (b =? 92) && (u =? 117) then
                              match r3 with
                              | g1 :: g2 :: g3 :: g4 :: r4 =>
                                  match hex4 g1 g2 g3 g4 with
                                  | None => None
                                  | Some uni2 =>
                                      if is_low_surrogate uni2
                                      then cons_char (join_surrogates uni uni2) (scanstring r4)
                                      else cons_char uni (scanstring r2)
                                  end
                              | _ => None
                              end
                            else cons_char uni (scanstring r2)
                        | _ => cons_char uni (scanstring r2)
                        end
                      else cons_char uni (scanstring r2)
                  end
              | _ => None
              end
            else
              match unescape e with
              | Some x => cons_char x (scanstring r1)
              | None => None
              end
        end
      else if c <? 32 then None
      else cons_char c (scanstring r)
  end.

Fixpoint take_digits (s : pystr) : pystr * pystr :=
  match s with
  | c :: r =>
      if is_ascii_digit c
      then let (d, rest) := take_digits r in (c :: d, rest)
      else ([], s)
  | [] => ([], [])
  end.

(** The three groups of [NUMBER_RE]: the integer part (an optional minus
    sign, then either a single 0 or a digit 1-9 followed by any digits), the
    optional fraction (a dot and at least one digit) and the optional
    exponent (e or E, an optional sign, at least one digit). *)
Definition match_integer (s : pystr) : option (pystr * pystr) :=
  let (sign, s1) :=
    match s with
    | c :: r => if c =? 45 then ([45], r) else ([], s)
    | [] => ([], s)
    end in
  match s1 with
  | c :: r =>
      if c =? 48 then Some (sign ++ [48], r)
      else if is_ascii_digit c
      then let (d, rest) := take_digits r in Some (sign ++ c :: d, rest)
      else None
  | [] => None
  end.

Definition match_frac (s : pystr) : pystr * pystr :=
  match s with
  | c :: r =>
      if c =? 46 then
        match take_digits r with
        | ([], _) => ([], s)
        | (d, rest) => (46 :: d, rest)
        end
      else ([], s)
  | [] => ([], s)
  end.

Definition match_exp (s : pystr) : pystr * pystr :=
  match s with
  | c :: r =>
      if (c =? 101) || (c =? 69) then
        let (sg, r1) :=
          match r with
          | x :: r' => if (x =? 45) || (x =? 43) then ([x], r') else ([], r)
          | [] => ([], r)
          end in
        match take_digits r1 with
        | ([], _) => ([], s)
        | (d, rest) => (c :: sg ++ d, rest)
        end
      else ([], s)
  | [] => ([], s)
  end.

Definition digit_cons (c : N) (r : Decimal.uint) : Decimal.uint :=
  if c =? 48 then Decimal.D0 r
  else if c =? 49 then Decimal.D1 r
  else if c =? 50 then Decimal.D2 r
  else if c =? 51 then Decimal.D3 r
  else if c =? 52 then Decimal.D4 r
  else if c =? 53 then Decimal.D5 r
  else if c =? 54 then Decimal.D6 r
  else if c =? 55 then Decimal.D7 r
  else if c =? 56 then Decimal.D8 r
  else Decimal.D9 r.

Fixpoint digits_uint (s : pystr) : Decimal.uint :=
  match s with
  | [] => Decimal.Nil
  | c :: r => digit_cons c (digits_uint r)
  end.

(** [int(lexeme)] for a lexeme matched by the first group *)
Definition py_int (lexeme : pystr) : Z :=
  match lexeme with
  | c :: r =>
      if c =? 45 then Z.of_int (Decimal.Neg (digits_uint r))
      else Z.of_int (Decimal.Pos (digits_uint lexeme))
  | [] => 0%Z
  end.

Definition scan_number (s : pystr) : option (pyval * pystr) :=
  match match_integer s with
  | None => None
  | Some (integer, r1) =>
      let (frac, r2) := match_frac r1 in
      let (exp, r3) := match_exp r2 in
      match frac, exp with
      | [], [] => Some (PInt (py_int integer), r3)
      | _, _ => Some (PFloat (py_float (integer ++ frac ++ exp)), r3)
      end
  end.

(** A later duplicate key replaces the value and keeps the first position. *)
Fixpoint dict_set (d : list (pystr * pyval)) (k : pystr) (v : pyval)
  : list (pystr * pyval) :=
  match d with
  | [] => [(k, v)]
  | (k', v') :: r =>
      if pystr_eqb k' k then (k', v) :: r else (k', v') :: dict_set r k v
  end.

Definition scan_constant (s : pystr) : option (pyval * pystr) :=
  match strip_prefix (lit "NaN") s with
  | Some r => Some (PFloat PrimFloat.nan, r)
  | None =>
  match strip_prefix (lit "Infinity") s with
  | Some r => Some (PFloat PrimFloat.infinity, r)
  | None =>
  match strip_prefix (lit "-Infinity") s with
  | Some r => Some (PFloat PrimFloat.neg_infinity, r)
  | None => None
  end end end.

(** [scan_once], [JSONArray] and [JSONObject]; [fuel] bounds the depth of
    the calls. *)
Fixpoint scan_once (fuel : nat) (s : pystr) {struct fuel} : option (pyval * pystr) :=
  match fuel with
  | O => None
  | S fuel' =>
      match s with
      | [] => None
      | c :: r =>
          if c =? 34 then
            match scanstring r with
            | Some (t, rest) => Some (PStr t, rest)
            | None => None
            end
          else if c =? 123 then
            match skip_ws r with
            | c2 :: r2 =>
                if c2 =? 125 then Some (PDict [], r2)
                else match parse_members fuel' (skip_ws r) [] with
                     | Some (d, rest) => Some (PDict d, rest)
                     | None => None
                     end
            | [] => None
            end
          else if c =? 91 then
            match skip_ws r with
            | c2 :: r2 =>
                if c2 =? 93 then Some (PList [], r2)
                else match parse_elems fuel' (skip_ws r) with
                     | Some (l, rest) => Some (PList l, rest)
                     | None => None
                     end
            | [] => None
            end
          else
            match strip_prefix (lit "null") s with
            | Some rest => Some (PNone, rest)
            | None =>
            match strip_prefix (lit "true") s with
            | Some rest => Some (PBool true, rest)
            | None =>
            match strip_prefix (lit "false") s with
            | Some rest => Some (PBool false, rest)
            | None =>
            match scan_number s with
            | Some res => Some res
            | None => scan_constant s
            end end end end
      end
  end

with parse_elems (fuel : nat) (s : pystr) {struct fuel} : option (list pyval * pystr) :=
  match fuel with
  | O => None
  | S fuel' =>
      match scan_once fuel' s with
      | None => None
      | Some (v, r) =>
          match skip_ws r with
          | c :: r' =>
              if c =? 93 then Some ([v], r')
              else if c =? 44 then
                match parse_elems fuel' (skip_ws r') with
                | Some (vs, rest) => Some (v :: vs, rest)
                | None => None
                end
              else None
          | [] => None
          end
      end
  end

with parse_members (fuel : nat) (s : pystr) (acc : list (pystr * pyval)) {struct fuel}
  : option (list (pystr * pyval) * pystr) :=
  match fuel with
  | O => None
  | S fuel' =>
      match s with
      | c :: r =>
          if c =? 34 then
            match scanstring r with
            | None => None
            | Some (k, r1) =>
                match skip_ws r1 with
                | c1 :: r2 =>
                    if c1 =? 58 then
                      match scan_once fuel' (skip_ws r2) with
                      | None => None
                      | Some (v, r3) =>
                          let acc' := dict_set acc k v in
                          match skip_ws r3 with
                          | c3 :: r4 =>
                              if c3 =? 125 then Some (acc', r4)
                              else if c3 =? 44
                              then parse_members fuel' (skip_ws r4) acc'
                              else None
                          | [] => None
                          end
                      end
                    else None
                | [] => None
                end
            end
          else None
      | [] => None
      end
  end.

(** [json.loads(s)] for a [str]; [None] stands for [JSONDecodeError]. *)
Definition json_loads (s : pystr) : option pyval :=
  match scan_once (S (2 * List.length s)) (skip_ws s) with
  | Some (v, rest) =>
      match skip_ws rest with
      | [] => Some v
      | _ :: _ => None
      end
  | None => None
  end.

End Json.


(** *** Size and shape of values, for the decoder's fuel *)

Fixpoint size (v : pyval) : nat :=
  match v with
  | PList l =>
      S ((fix elems (l : list pyval) : nat :=
            match l with
            | [] => O
            | x :: xs => S (size x + elems xs)
            end) l)
  | _ => 1%nat
  end.

Fixpoint size_elems (l : list pyval) : nat :=
  match l with
  | [] => O
  | x :: xs => S (size x + size_elems xs)
  end.

(** Values made of [None], booleans, integers, strings and lists. *)
Fixpoint plain (v : pyval) : bool :=
  match v with
  | PNone | PBool _ | PInt _ | PStr _ => true
  | PFloat _ | PDict _ => false
  | PList l => forallb plain l
  end.

Definition not_digit_start (rest : pystr) : bool :=
  match rest with [] => true | c :: _ => negb (is_ascii_digit c) end.

(** The first character of an encoded value is neither white space nor a
    closing bracket. *)
Definition value_start (c : N) : bool :=
  negb (is_json_ws c) && negb (c =? 93).

(** What may follow a number without being read as part of it. *)
Definition terminated (rest : pystr) : bool :=
  match rest with
  | [] => true
  | c :: _ => negb (is_ascii_digit c || (c =? 46) || (c =? 101) || (c =? 69))
  end.

(** ** The outside world

    What the client cannot compute by itself: the remote servers, the
    random number generator, the clock, and the library conversions that
    are not modelled bit by bit. *)

Definition pybytes := list N.

Record response : Type := {
  status_code : Z;
  resp_headers : list (pystr * pystr);
  resp_text : pystr;
  resp_content : pybytes
}.

Inductive body : Type :=
| NoBody
| FormData (fields : list (pystr * pyval))
| Content (data : pybytes).

(** One HTTP request: [httpx.get(url)] or
    [session.post(url, params=..., headers=..., data=... / content=...)]. *)
Inductive request : Type :=
| Get (url : pystr)
| Post (url : pystr) (params : list (pystr * pystr))
       (headers : list (pystr * pystr)) (payload : body).

Inductive net_result : Type :=
| Responded (r : response)
| Failed (e : exn).

Inductive file_state : Type :=
| Absent
| Unreadable
| Holds (text : pystr).

Record environment : Type := {
  (** the answer to the [n]-th request of the run *)
  net : nat -> request -> net_result;
  (** [random.randint(a, b)] at the [n]-th draw *)
  randint : nat -> Z -> Z -> Z;
  (** [str(uuid.uuid4()).upper()] at the [n]-th draw *)
  uuid4_upper : nat -> pystr;
  (** [int(time.time() * 1000)] at the [n]-th draw *)
  time_ms : nat -> Z;
  (** [int(time.time())] at the [n]-th draw *)
  time_s : nat -> Z;
  (** [base64.b64decode]; [None] when it raises *)
  b64decode : pystr -> option pybytes;
  b64encode : pybytes -> pystr;
  (** the builtin [str()] on a decoded value *)
  py_str : pyval -> pystr;
  (** the digit property [str.isdigit] reads from the Unicode database,
      consulted for the characters beyond ASCII *)
  unicode_isdigit : N -> bool;
  float_repr : float -> pystr;
  py_float : pystr -> float;
  (** the session file [conversation_state.json] when the client starts *)
  session_file : file_state
}.

(** ** The client object *)

(** [Message(role, content)] *)
Record Message : Type := { role : pyval; content : pyval }.

Record client : Type := {
  bl : option pystr;
  snlm0e : option pystr;
  push_id : option pystr;
  conversation_id : pyval;
  response_id : pyval;
  choice_id : pyval;
  request_count : Z;
  messages : list Message;
  max_history_messages : Z
}.

Definition set_bl (v : option pystr) (c : client) : client :=
  {| bl := v; snlm0e := snlm0e c; push_id := push_id c;
     conversation_id := conversation_id c; response_id := response_id c;
     choice_id := choice_id c; request_count := request_count c;
     messages := messages c; max_history_messages := max_history_messages c |}.
Definition set_conversation_id (v : pyval) (c : client) : client :=
  {| bl := bl c; snlm0e := snlm0e c; push_id := push_id c;
     conversation_id := v; response_id := response_id c;
     choice_id := choice_id c; request_count := request_count c;
     messages := messages c; max_history_messages := max_history_messages c |}.
Definition set_response_id (v : pyval) (c : client) : client :=
  {| bl := bl c; snlm0e := snlm0e c; push_id := push_id c;
     conversation_id := conversation_id c; response_id := v;
     choice_id := choice_id c; request_count := request_count c;
     messages := messages c; max_history_messages := max_history_messages c |}.
Definition set_choice_id (v : pyval) (c : client) : client :=
  {| bl := bl c; snlm0e := snlm0e c; push_id := push_id c;
     conversation_id := conversation_id c; response_id := response_id c;
     choice_id := v; request_count := request_count c;
     messages := messages c; max_history_messages := max_history_messages c |}.
Definition set_request_count (v : Z) (c : client) : client :=
  {| bl := bl c; snlm0e := snlm0e c; push_id := push_id c;
     conversation_id := conversation_id c; response_id := response_id c;
     choice_id := choice_id c; request_count := v;
     messages := messages c; max_history_messages := max_history_messages c |}.
Definition set_messages (v : list Message) (c : client) : client :=
  {| bl := bl c; snlm0e := snlm0e c; push_id := push_id c;
     conversation_id := conversation_id c; response_id := response_id c;
     choice_id := choice_id c; request_count := request_count c;
     messages := v; max_history_messages := max_history_messages c |}.

(** ** Stateful computations

    A method runs in a [world]: the client object it mutates, the requests
    issued so far (oldest first) and the number of draws taken from the
    random generator and the clock.  An exception leaves the mutations made
    before it in place. *)

Record world : Type := {
  self : client;
  trace : list request;
  draws : nat
}.

Definition M (A : Type) : Type := world -> result A * world.

Definition ret {A} (a : A) : M A := fun w => (Ok a, w).
Definition raise {A} (e : exn) : M A := fun w => (Raise e, w).
Definition bindM {A B} (m : M A) (k : A -> M B) : M B :=
  fun w => match m w with
           | (Ok a, w') => k a w'
           | (Raise e, w') => (Raise e, w')
           end.
(** [try: m  except Exception as e: h e] *)
Definition catch {A} (m : M A) (h : exn -> M A) : M A :=
  fun w => match m w with
           | (Ok a, w') => (Ok a, w')
           | (Raise e, w') => h e w'
           end.
Definition lift {A} (r : result A) : M A := fun w => (r, w).
Definition get_self : M client := fun w => (Ok (self w), w).
Definition modify (f : client -> client) : M unit :=
  fun w => (Ok tt, {| self := f (self w); trace := trace w; draws := draws w |}).
Definition draw {A} (oracle : nat -> A) : M A :=
  fun w => (Ok (oracle (draws w)),
            {| self := self w; trace := trace w; draws := S (draws w) |}).

(** A computation whose result does not depend on the world it starts in. *)
Definition world_blind {A} (m : M A) : Prop :=
  forall w1 w2, fst (m w1) = fst (m w2).

Declare Scope m_scope.
Delimit Scope m_scope with m.
Notation "x <- m ;; k" := (bindM m (fun x => k))
  (at level 61, m at next level, right associativity) : m_scope.
Notation "m ;;; k" := (bindM m (fun _ => k))
  (at level 61, right associativity) : m_scope.

(** [for x in l: body x], threading an accumulator *)
Fixpoint for_each {A B} (l : list A) (acc : B) (body : A -> B -> M B) : M B :=
  match l with
  | [] => ret acc
  | x :: xs => bindM (body x acc) (fun acc' => for_each xs acc' body)
  end.

Definition opt_truthy (o : option pystr) : bool :=
  match o with Some (_ :: _) => true | _ => false end.
Definition opt_val (o : option pystr) : pyval :=
  match o with Some s => PStr s | None => PNone end.

(** [a or b] *)
Definition py_or (a b : pyval) : pyval := if truthy a then a else b.

(** [for x in v] *)
Definition py_iter (v : pyval) : result (list pyval) :=
  match v with
  | PList l => Ok l
  | PStr s => Ok (map (fun c => PStr [c]) s)
  | PDict d => Ok (map (fun kv => PStr (fst kv)) d)
  | _ => Raise TypeError
  end.

(** [d.get(k, default)] *)
Definition py_get (v : pyval) (k : pystr) (default : pyval) : result pyval :=
  match v with
  | PDict d => Ok (match dict_get d k with Some x => x | None => default end)
  | _ => Raise AttributeError
  end.

(** [k in d] for a dict [d] *)
Definition has_key (d : list (pystr * pyval)) (k : pystr) : bool :=
  match dict_get d k with Some _ => true | None => false end.

(** [text += v] for a [str] [text] *)
Definition str_add (text : pystr) (v : pyval) : result pystr :=
  match v with
  | PStr s => Ok (text ++ s)
  | _ => Raise TypeError
  end.

(** [final_text] after a round that offers [t]: replaced when [t] is longer. *)
Definition choose (ft t : pystr) : pystr :=
  if Nat.ltb (List.length ft) (List.length t) then t else ft.

(** The value of [final_text] after the loop over [lines], started with
    [ft]: the first of the longest candidate texts, if longer than [ft]. *)
Fixpoint longest (texts : list pystr) (ft : pystr) : pystr :=
  match texts with
  | [] => ft
  | t :: rest => longest rest (choose ft t)
  end.

(** ** [client.py] *)

(** An entry of the [images] lists the client builds:
    [{"mime_type": ..., "data": ...}] *)
Record image_entry : Type := { mime_type : pystr; data : pystr }.

Definition BASE_URL : pystr := lit "https://gemini.google.com".

Definition int_list (l : list Z) : pyval := PList (map PInt l).

(** [f"image_{n}.png"] *)
Definition image_filename (n : Z) : pystr :=
  lit "image_" ++ int_repr n ++ lit ".png".

(** The list bound to [inner_data] in [_build_request_data]. *)
Definition build_inner_data (c : client) (text : pystr) (image_data : pyval)
    (session_id : pystr) (timestamp : Z) : list pyval :=
  let conv_id := py_or (conversation_id c) (PStr []) in
  let resp_id := py_or (response_id c) (PStr []) in
  let choice := py_or (choice_id c) (PStr []) in
  [ PList [PStr text; PInt 0; PNone; image_data; PNone; PNone; PInt 0];
    PList [PStr (lit "zh-CN")];
    PList [conv_id; resp_id; choice; PNone; PNone; PNone; PNone; PNone; PNone; PStr []];
    opt_val (snlm0e c);
    PNone; PNone;
    int_list [1%Z];
    PInt 1;
    PNone; PNone;
    PInt 1;
    PInt 0 ]
  ++ repeat PNone 5
  ++ [ PList [int_list [0%Z]]; PInt 0 ]
  ++ repeat PNone 8
  ++ [ PInt 1; PNone; PNone; int_list [4%Z] ]
  ++ repeat PNone 10
  ++ [ int_list [1%Z] ]
  ++ repeat PNone 11
  ++ [ PInt 0 ]
  ++ repeat PNone 5
  ++ [ PStr session_id; PNone; PList [] ]
  ++ repeat PNone 4
  ++ [ int_list [(timestamp / 1000)%Z; ((timestamp mod 1000) * 1000000)%Z] ].

(** The identifiers echoed to the server are made of [None], booleans,
    integers, strings and lists: so is every [str], which is what the
    client declares them to be. *)
Definition context_plain (c : client) : bool :=
  plain (py_or (conversation_id c) (PStr []))
  && plain (py_or (response_id c) (PStr []))
  && plain (py_or (choice_id c) (PStr [])).

Section Client.

Variable E : environment.

Definition dumps : pyval -> pystr := json_dumps (float_repr E).
Definition loads (s : pystr) : result pyval :=
  match json_loads (py_float E) s with
  | Some v => Ok v
  | None => Raise JSONDecodeError
  end.
(** [json.loads(v)] for a value that need not be a [str] *)
Definition loads_val (v : pyval) : result pyval :=
  match v with
  | PStr s => loads s
  | _ => Raise TypeError
  end.

(** [session.post] / [httpx.get]: the request joins the trace, the remote
    side answers or the call raises. *)
Definition http (rq : request) : M response :=
  fun w =>
    let w' := {| self := self w; trace := trace w ++ [rq]; draws := draws w |} in
    match net E (List.length (trace w)) rq with
    | Responded r => (Ok r, w')
    | Failed e => (Raise e, w')
    end.

(** *** [_build_request_data]

    [rnd], [session_id] and [timestamp] are the values drawn from
    [random.randint(100000, 999999)], [str(uuid.uuid4()).upper()] and
    [int(time.time() * 1000)].  [model] is unused in the source and
    [url_context] / [tools] only select a debug message. *)
Definition build_request_data_with (c : client) (text : pystr)
    (images : list image_entry) (image_paths : list pystr)
    (rnd : Z) (session_id : pystr) (timestamp : Z) : pystr :=
  let image_data :=
    match image_paths with
    | path :: _ =>
        let mime := match images with
                    | img :: _ => mime_type img
                    | [] => lit "image/png"
                    end in
        PList [PList [PList [PStr path; PInt 1; PNone; PStr mime];
                      PStr (image_filename rnd)]]
    | [] => PNone
    end in
  let inner_data := build_inner_data c text image_data session_id timestamp in
  let inner_json := dumps (PList inner_data) in
  let outer_data := [PNone; PStr inner_json] in
  dumps (PList outer_data).

Definition _build_request_data (text : pystr) (images : list image_entry)
    (image_paths : list pystr) : M pystr :=
  (c <- get_self ;;
   image_data <-
     match image_paths with
     | path :: _ =>
         let mime := match images with
                     | img :: _ => mime_type img
                     | [] => lit "image/png"
                     end in
         rnd <- draw (fun n => randint E n 100000 999999) ;;
         ret (PList [PList [PList [PStr path; PInt 1; PNone; PStr mime];
                            PStr (image_filename rnd)]])
     | [] => ret PNone
     end ;;
   session_id <- draw (uuid4_upper E) ;;
   timestamp <- draw (time_ms E) ;;
   let inner_data := build_inner_data c text image_data session_id timestamp in
   let inner_json := dumps (PList inner_data) in
   let outer_data := [PNone; PStr inner_json] in
   ret (dumps (PList outer_data)))%m.

(** *** [_parse_response] *)

(** Conditions are evaluated left to right; [a &&& b] is Python's
    [a and b] for conditions that may raise. *)
Definition andr (a b : result bool) : result bool :=
  match a with
  | Ok true => b
  | Ok false => Ok false
  | Raise e => Raise e
  end.
Notation "a &&& b" := (andr a b) (at level 40, left associativity).

Definition len_gt (v : pyval) (n : nat) : result bool :=
  bind (py_len v) (fun l => Ok (Nat.ltb n l)).
Definition len_ge (v : pyval) (n : nat) : result bool :=
  bind (py_len v) (fun l => Ok (Nat.leb n l)).
Definition len_eq (v : pyval) (n : nat) : result bool :=
  bind (py_len v) (fun l => Ok (Nat.eqb l n)).
(** [bool(v[i])] *)
Definition truthy_at (v : pyval) (i : nat) : result bool :=
  bind (py_index v i) (fun x => Ok (truthy x)).
Definition is_list_at (v : pyval) (i : nat) : result bool :=
  bind (py_index v i) (fun x => Ok (isinstance_list x)).
Definition is_none_at (v : pyval) (i : nat) : result bool :=
  bind (py_index v i) (fun x => Ok (match x with PNone => true | _ => false end)).

Definition FALLBACK : pystr := [26080; 27861; 35299; 26512; 21709; 24212].

(** [c.isdigit()]: among the ASCII characters only 0-9 are digits; beyond
    them the Unicode database decides. *)
Definition isdigit_char (c : N) : bool :=
  if c <? 128 then is_ascii_digit c else unicode_isdigit E c.

(** [line.isdigit()] *)
Definition isdigit (s : pystr) : bool :=
  match s with
  | [] => false
  | _ => forallb isdigit_char s
  end.

(** The update of the session context from [inner_json[1]]. *)
Definition update_context (inner_json : pyval) : M unit :=
  (c1 <- lift (len_gt inner_json 1 &&& truthy_at inner_json 1) ;;
   if c1 then
     i1 <- lift (py_index inner_json 1) ;;
     if isinstance_list i1 then
       cA <- lift (len_gt i1 0 &&& truthy_at i1 0) ;;
       (if cA then
          x <- lift (py_index i1 0) ;;
          c <- get_self ;;
          modify (set_conversation_id (py_or x (conversation_id c)))
        else ret tt) ;;;
       cB <- lift (len_gt i1 1 &&& truthy_at i1 1) ;;
       if cB then
         x <- lift (py_index i1 1) ;;
         c <- get_self ;;
         modify (set_response_id (py_or x (response_id c)))
       else
         cC <- lift (len_eq i1 2 &&& is_none_at i1 0 &&& truthy_at i1 1) ;;
         if cC then
           x <- lift (py_index i1 1) ;;
           c <- get_self ;;
           modify (set_response_id (py_or x (response_id c))) ;;;
           cD <- lift (len_gt inner_json 16 &&& truthy_at inner_json 16) ;;
           if cD then
             y <- lift (py_index inner_json 16) ;;
             c <- get_self ;;
             modify (set_conversation_id (py_or y (conversation_id c)))
           else ret tt
         else ret tt
     else ret tt
   else ret tt)%m.

(** The inner loop over [part.get("parts", [])]. *)
Definition subpart_text (text : pystr) (subpart : pyval) : result pystr :=
  match subpart with
  | PStr s => Ok (text ++ s)
  | PDict d =>
      if has_key d (lit "text")
      then bind (py_getitem_str subpart (lit "text")) (str_add text)
      else Ok text
  | _ => Ok text
  end.

Fixpoint fold_result {A B} (f : B -> A -> result B) (l : list A) (acc : B) : result B :=
  match l with
  | [] => Ok acc
  | x :: xs => bind (f acc x) (fold_result f xs)
  end.

(** The last resort of the loop over the parts:
    [for key in ["text", "content", "value"]: if key in part: ...; break] *)
Fixpoint first_key_text (keys : list pystr) (d : list (pystr * pyval)) (text : pystr)
  : pystr :=
  match keys with
  | [] => text
  | key :: rest =>
      match dict_get d key with
      | Some x => text ++ py_str E x
      | None => first_key_text rest d text
      end
  end.

(** One round of [for part in content_parts]. *)
Definition part_text (text : pystr) (part : pyval) : result pystr :=
  match part with
  | PStr s => Ok (text ++ s)
  | PDict d =>
      if has_key d (lit "text") then
        bind (py_getitem_str part (lit "text")) (str_add text)
      else if has_key d (lit "content") then
        bind (py_getitem_str part (lit "content")) (fun x => Ok (text ++ py_str E x))
      else if has_key d (lit "parts") then
        bind (py_get part (lit "parts") (PList [])) (fun ps =>
        bind (py_iter ps) (fun subs => fold_result subpart_text subs text))
      else if has_key d (lit "inlineData") then Ok text
      else if has_key d (lit "functionCall") then Ok text
      else Ok (first_key_text [lit "text"; lit "content"; lit "value"] d text)
  | _ => Ok (text ++ py_str E part)
  end.

(** The text of [content_parts = candidate[1]]. *)
Definition content_text (content_parts : pyval) : result pystr :=
  match content_parts with
  | PList l => fold_result part_text l []
  | PStr s => Ok s
  | _ => Ok (py_str E content_parts)
  end.

Definition nonempty (s : pystr) : bool :=
  match s with [] => false | _ => true end.

(** The part of the loop body headed "extract the text content": the new
    value of [final_text]. *)
Definition extract_text (inner_json : pyval) (final_text : pystr) : M pystr :=
  (c4 <- lift (Ok (truthy inner_json) &&& len_gt inner_json 4 &&& truthy_at inner_json 4) ;;
   if c4 then
     candidates <- lift (py_index inner_json 4) ;;
     cc <- lift (Ok (truthy candidates) &&& len_gt candidates 0) ;;
     if cc then
       candidate <- lift (py_index candidates 0) ;;
       c1 <- lift (Ok (truthy candidate) &&& len_gt candidate 1 &&& truthy_at candidate 1) ;;
       if c1 then
         content_parts <- lift (py_index candidate 1) ;;
         text <- lift (content_text content_parts) ;;
         if Nat.ltb 0 (List.length (strip text)) then
           if Nat.ltb (List.length final_text) (List.length text)
              || negb (nonempty final_text) then
             c0 <- lift (len_gt candidate 0) ;;
             (if c0 then
                x <- lift (py_index candidate 0) ;;
                c <- get_self ;;
                modify (set_choice_id (py_or x (choice_id c)))
              else ret tt) ;;;
             ret text
           else ret final_text
         else ret final_text
       else ret final_text
     else ret final_text
   else ret final_text)%m.
(* [candidate[0]] is read after [final_text = text]; it cannot raise there,
   [candidate[1]] having been read from the same value. *)

(** The body of the inner [try] for one stripped line. *)
Definition parse_line (line : pystr) (final_text : pystr) : M pystr :=
  (data <- lift (loads line) ;;
   c0 <- lift (Ok (isinstance_list data) &&& len_gt data 0 &&& is_list_at data 0) ;;
   if c0 then
     actual_data <- lift (py_index data 0) ;;
     c1 <- lift (len_ge actual_data 3
                 &&& bind (py_index actual_data 0) (fun x => Ok (eq_str x (lit "wrb.fr")))) ;;
     if c1 then
       cit <- lift (len_ge actual_data 6 &&& truthy_at actual_data 5
                    &&& is_list_at actual_data 5) ;;
       skip <- lift (if cit then
                       bind (py_index actual_data 5) (fun a5 =>
                       bind (len_gt a5 0) (fun some =>
                       bind (if some then py_index a5 0 else Ok PNone) (fun citation_type =>
                       Ok (eq_int citation_type 9))))
                     else Ok false) ;;
       if skip then ret final_text
       else
         a2 <- lift (py_index actual_data 2) ;;
         if truthy a2 then
           inner_json <- lift (loads_val a2) ;;
           update_context inner_json ;;;
           extract_text inner_json final_text
         else ret final_text
     else ret final_text
   else ret final_text)%m.

(** One round of [for line in lines]. *)
Definition process_line (raw : pystr) (final_text : pystr) : M pystr :=
  let line := strip raw in
  if negb (nonempty line) || startswith line (lit ")]}'") then ret final_text
  else if isdigit line then ret final_text
  else catch (parse_line line final_text) (fun _ => ret final_text).

Definition _parse_response (response_text : pystr) : M pystr :=
  catch
    (let lines := split_on 10 response_text in
     final_text <- for_each lines [] process_line ;;
     if nonempty final_text && nonempty (strip final_text)
     then ret (strip final_text)
     else ret FALLBACK)%m
    (fun _ => ret FALLBACK).

(** The frame the loop looks for in a decoded line: a list whose first
    element is a list of at least three elements headed by [wrb.fr]. *)
Definition wrb_frame (data : pyval) : bool :=
  match data with
  | PList (PList (PStr tag :: _ :: _ :: _) :: _) => pystr_eqb tag (lit "wrb.fr")
  | _ => false
  end.

(** The lines the loop passes over: empty once stripped, starting with the
    anti-hijacking prefix, made of digits, not JSON, or JSON of another shape. *)
Definition skipped_line (raw : pystr) : bool :=
  let line := strip raw in
  negb (nonempty line) || startswith line (lit ")]}'") || isdigit line
  || match json_loads (py_float E) line with
     | None => true
     | Some data => negb (wrb_frame data)
     end.

(** The citation marker the loop skips: [actual_data[5]] is a non-empty
    list headed by 9. *)
Definition citation_marked (actual_data : list pyval) : bool :=
  match nth_error actual_data 5 with
  | Some (PList (x :: _)) => eq_int x 9
  | _ => false
  end.

(** A line that decodes to the frame around a payload whose decoded array
    has a candidate list at index 4, the first candidate holding the text
    parts [parts] at index 1. *)
Definition carries_text_parts (raw : pystr) (parts : list pystr) : Prop :=
  exists x1 payload tail rest inner cid ctail crest,
    json_loads (py_float E) (strip raw)
    = Some (PList (PList (PStr (lit "wrb.fr") :: x1 :: PStr payload :: tail) :: rest))
    /\ json_loads (py_float E) payload = Some (PList inner)
    /\ nth_error inner 4
       = Some (PList (PList (cid :: PList (map PStr parts) :: ctail) :: crest))
    /\ parts <> [].

(** The candidate text of a line: what the loop of [_parse_response] stores
    for it when [final_text] is still empty ([[]] when it stores nothing). *)
Definition line_text (raw : pystr) (w : world) : pystr :=
  match fst (process_line raw [] w) with
  | Ok t => t
  | Raise _ => []
  end.

(** *** Regular expressions and string helpers of the client *)

(** The longest prefix whose characters satisfy [p], and the rest. *)
Fixpoint span (p : N -> bool) (s : pystr) : pystr * pystr :=
  match s with
  | c :: r => if p c then let (a, b) := span p r in (c :: a, b) else ([], s)
  | [] => ([], [])
  end.

(** [sub in s] *)
Fixpoint contains (s sub : pystr) : bool :=
  startswith s sub ||
  match s with
  | [] => false
  | _ :: r => contains r sub
  end.

(** [re.match(r'data:([^;]+);base64,(.+)', url)]: the two groups *)
Definition match_data_url (url : pystr) : option (pystr * pystr) :=
  match strip_prefix (lit "data:") url with
  | None => None
  | Some r =>
      let (mime, r1) := span (fun c => negb (c =? 59)) r in
      match mime with
      | [] => None
      | _ =>
          match strip_prefix (lit ";base64,") r1 with
          | None => None
          | Some r2 =>
              let (d, _) := span (fun c => negb (c =? 10)) r2 in
              match d with
              | [] => None
              | _ => Some (mime, d)
              end
          end
      end
  end.

(** [re.search] for the pattern of [_upload_image]: the literal
    [/contrib_service/] followed by at least one character that is neither
    white space nor a single or double quote; the whole match. *)
Fixpoint search_contrib_path (text : pystr) : option pystr :=
  let here :=
    match strip_prefix (lit "/contrib_service/") text with
    | Some r =>
        let (run, _) := span (fun c => negb (is_space c || (c =? 34) || (c =? 39))) r in
        match run with
        | [] => None
        | _ => Some (lit "/contrib_service/" ++ run)
        end
    | None => None
    end in
  match here with
  | Some m => Some m
  | None =>
      match text with
      | [] => None
      | _ :: r => search_contrib_path r
      end
  end.

Definition CFB2H_KEY : pystr := [34] ++ lit "cfb2h" ++ [34; 58; 34].

(** [re.search] for the pattern of [_fetch_bl]: the quoted key [cfb2h], a
    colon, and a quoted non-empty value without quotes; the value. *)
Fixpoint search_cfb2h (text : pystr) : option pystr :=
  let here :=
    match strip_prefix CFB2H_KEY text with
    | Some r =>
        match span (fun c => negb (c =? 34)) r with
        | ((_ :: _) as run, _ :: _) => Some run
        | _ => None
        end
    | None => None
    end in
  match here with
  | Some m => Some m
  | None =>
      match text with
      | [] => None
      | _ :: r => search_cfb2h r
      end
  end.

(** [headers.get(name)] of an httpx response: the values of the fields of
    that (lower-case) name, joined by a comma and a space. *)
Definition headers_get (h : list (pystr * pystr)) (name : pystr) : option pystr :=
  match filter (fun kv => pystr_eqb (fst kv) name) h with
  | [] => None
  | vs => Some (join (lit ", ") (map snd vs))
  end.

(** [s.split(";")[0]] *)
Definition before_semicolon (s : pystr) : pystr :=
  match split_on 59 s with
  | x :: _ => x
  | [] => []
  end.

(** [l[start:]] *)
Definition py_slice_from {A} (l : list A) (start : Z) : list A :=
  let len := Z.of_nat (List.length l) in
  let i := if (start <? 0)%Z then Z.max (start + len) 0 else Z.min start len in
  skipn (Z.to_nat i) l.

(** *** [_extract_image_path] *)

Fixpoint _extract_image_path (data : pyval) : option pystr :=
  match data with
  | PStr s => if startswith s (lit "/contrib_service/") then Some s else None
  | PDict d =>
      (fix values (d : list (pystr * pyval)) : option pystr :=
         match d with
         | [] => None
         | (_, value) :: rest =>
             match _extract_image_path value with
             | Some ((_ :: _) as r) => Some r
             | _ => values rest
             end
         end) d
  | PList l =>
      (fix items (l : list pyval) : option pystr :=
         match l with
         | [] => None
         | item :: rest =>
             match _extract_image_path item with
             | Some ((_ :: _) as r) => Some r
             | _ => items rest
             end
         end) l
  | _ => None
  end.

(** *** [_upload_image] *)

Definition UPLOAD_URL : pystr := lit "https://push.clients6.google.com/upload/".

Definition browser_headers : list (pystr * pystr) :=
  [ (lit "accept", lit "*/*");
    (lit "accept-language", lit "zh-CN,zh;q=0.9,en;q=0.8");
    (lit "origin", lit "https://gemini.google.com");
    (lit "referer", lit "https://gemini.google.com/");
    (lit "sec-fetch-dest", lit "empty");
    (lit "sec-fetch-mode", lit "cors");
    (lit "sec-fetch-site", lit "same-site");
    (lit "x-browser-channel", lit "stable");
    (lit "x-browser-copyright", lit "Copyright 2025 Google LLC. All Rights reserved.");
    (lit "x-browser-validation", lit "Aj9fzfu+SaGLBY9Oqr3S7RokOtM=");
    (lit "x-browser-year", lit "2025");
    (lit "x-client-data",
     lit "CIa2yQEIpbbJAQipncoBCNvaygEIk6HLAQiFoM0BCJaMzwEIkZHPAQiSpM8BGOyFzwEYsobPAQ==") ].

Definition init_headers (push : pystr) (image_data : pybytes) : list (pystr * pystr) :=
  browser_headers ++
  [ (lit "content-type", lit "application/x-www-form-urlencoded;charset=utf-8");
    (lit "push-id", push);
    (lit "x-goog-upload-command", lit "start");
    (lit "x-goog-upload-header-content-length",
     int_repr (Z.of_nat (List.length image_data)));
    (lit "x-goog-upload-protocol", lit "resumable");
    (lit "x-tenant-id", lit "bard-storage") ].

Definition upload_headers (push : pystr) (mime : pystr) : list (pystr * pystr) :=
  browser_headers ++
  [ (lit "content-type", mime);
    (lit "push-id", push);
    (lit "x-goog-upload-command", lit "upload, finalize");
    (lit "x-goog-upload-offset", lit "0");
    (lit "x-tenant-id", lit "bard-storage");
    (lit "x-client-pctx", lit "CgcSBWjK7pYx") ].

(** [f"{upload_url}?upload_id={upload_id}&upload_protocol=resumable"] *)
Definition final_upload_url (upload_id : pystr) : pystr :=
  UPLOAD_URL ++ lit "?upload_id=" ++ upload_id ++ lit "&upload_protocol=resumable".

Definition unauthorized (r : response) : bool :=
  (status_code r =? 401)%Z || (status_code r =? 403)%Z.

Definition some_or_empty (o : option pystr) : pystr :=
  match o with Some s => s | None => [] end.

Definition _upload_image (image_data : pybytes) (mime : pystr) : M pystr :=
  (c <- get_self ;;
   if negb (opt_truthy (push_id c)) then raise CookieExpiredError
   else
     catch
       (n <- draw (fun k => randint E k 100000 999999) ;;
        let filename := image_filename n in
        (* step one: obtain the upload id *)
        init_resp <- http (Post UPLOAD_URL []
                             (init_headers (some_or_empty (push_id c)) image_data)
                             (FormData [(lit "File name", PStr filename)])) ;;
        if unauthorized init_resp then raise CookieExpiredError
        else
          match headers_get (resp_headers init_resp) (lit "x-guploader-uploadid") with
          | None | Some [] => raise CookieExpiredError
          | Some upload_id =>
              (* step two: send the image data *)
              upload_resp <- http (Post (final_upload_url upload_id) []
                                     (upload_headers (some_or_empty (push_id c)) mime)
                                     (Content image_data)) ;;
              if unauthorized upload_resp then raise CookieExpiredError
              else if negb (status_code upload_resp =? 200)%Z then raise PlainException
              else
                let response_text := resp_text upload_resp in
                let image_path :=
                  match json_loads (py_float E) response_text with
                  | Some response_json => _extract_image_path response_json
                  | None => search_contrib_path response_text
                  end in
                match image_path with
                | None | Some [] => raise CookieExpiredError
                | Some path =>
                    if contains path (lit "/contrib_service/")
                       && Nat.ltb (List.length path) 40
                    then raise CookieExpiredError
                    else ret path
                end
          end)
       (fun e =>
          match e with
          | CookieExpiredError => raise CookieExpiredError
          | _ => raise ImageUploadError
          end))%m.

(** *** [_send_request] and [_send_stream_request] *)

Definition STREAM_URL : pystr :=
  BASE_URL ++ lit "/_/BardChatUi/data/assistant.lamda.BardFrontendService/StreamGenerate".

Definition request_params (c : client) (rnd : Z) : list (pystr * pystr) :=
  [ (lit "bl", some_or_empty (bl c));
    (lit "f.sid", []);
    (lit "hl", lit "zh-CN");
    (lit "_reqid", int_repr (request_count c * 100000 + rnd));
    (lit "rt", lit "c") ].

(** [form_data = {"f.req": req_data, "at": self.snlm0e}] *)
Definition form_data (c : client) (req_data : pystr) : list (pystr * pyval) :=
  [ (lit "f.req", PStr req_data); (lit "at", opt_val (snlm0e c)) ].

(** [resp.raise_for_status()] *)
Definition raise_for_status (r : response) : M unit :=
  if ((200 <=? status_code r) && (status_code r <? 300))%Z then ret tt
  else raise (HTTPStatusError (status_code r)).

(** [for img in images: ... self._upload_image(...) ...] *)
Definition upload_all (images : list image_entry) : M (list pystr) :=
  for_each images []
    (fun img image_paths =>
       match b64decode E (data img) with
       | None => raise BinasciiError
       | Some img_data =>
           bindM (_upload_image img_data (mime_type img))
                 (fun path => ret (image_paths ++ [path]))
       end).

Record ChatCompletionResponse : Type := {
  id : pystr;
  created : Z;
  model : pystr;
  (** index, message, finish_reason *)
  choices : list (Z * Message * pystr);
  (** prompt_tokens, completion_tokens, total_tokens *)
  usage : Z * Z * Z
}.

Definition append_message (m : Message) (c : client) : client :=
  set_messages (messages c ++ [m]) c.

Definition len_z (s : pystr) : Z := Z.of_nat (List.length s).

Definition _send_request (text : pystr) (images : list image_entry) : M ChatCompletionResponse :=
  (c <- get_self ;;
   rnd <- draw (fun k => randint E k 10000 99999) ;;
   let params := request_params c rnd in
   (* upload the images to obtain their paths *)
   image_paths <-
     match images with
     | _ :: _ =>
         if negb (opt_truthy (push_id c)) then raise CookieExpiredError
         else
           catch (upload_all images)
                 (fun e =>
                    match e with
                    | CookieExpiredError => raise CookieExpiredError
                    | _ => raise ImageUploadError
                    end)
     | [] => ret []
     end ;;
   req_data <- _build_request_data text images image_paths ;;
   c <- get_self ;;
   catch
     (resp <- http (Post STREAM_URL params [] (FormData (form_data c req_data))) ;;
      raise_for_status resp ;;;
      modify (fun c => set_request_count (request_count c + 1)%Z c) ;;;
      reply_text <- _parse_response (resp_text resp) ;;
      (* save the assistant's reply *)
      let reply := {| role := PStr (lit "assistant"); content := PStr reply_text |} in
      modify (append_message reply) ;;;
      c <- get_self ;;
      now1 <- draw (time_s E) ;;
      now2 <- draw (time_s E) ;;
      ret {| id := lit "chatcmpl-"
                   ++ py_str E (py_or (conversation_id c) (PStr (lit "gemini")))
                   ++ lit "-" ++ int_repr now1;
             created := now2;
             model := lit "gemini-web";
             choices := [(0%Z, reply, lit "stop")];
             usage := (len_z text, len_z reply_text, (len_z text + len_z reply_text)%Z) |})
     (fun _ => raise PlainException))%m.

(** The text of [content_parts] in the streaming loop. *)
Definition stream_part_text (current_text : pystr) (part : pyval) : result pystr :=
  match part with
  | PStr s => Ok (current_text ++ strip s)
  | PDict d =>
      if has_key d (lit "text") then
        bind (py_getitem_str part (lit "text")) (str_add current_text)
      else if has_key d (lit "content") then
        bind (py_getitem_str part (lit "content"))
             (fun x => Ok (current_text ++ py_str E x))
      else Ok current_text
  | _ => Ok current_text
  end.

Definition stream_content_text (content_parts : pyval) : result pystr :=
  match content_parts with
  | PList l => fold_result stream_part_text l []
  | PStr s => Ok s
  | _ => Ok []
  end.

(** The body of the [try] for one stripped line of the streamed response:
    the chunks yielded so far and [last_text]. *)
Definition stream_line (line : pystr) (acc : list pystr * pystr)
  : M (list pystr * pystr) :=
  (data <- lift (loads line) ;;
   c0 <- lift (Ok (isinstance_list data) &&& len_gt data 0 &&& is_list_at data 0) ;;
   if c0 then
     actual_data <- lift (py_index data 0) ;;
     c1 <- lift (len_ge actual_data 3
                 &&& bind (py_index actual_data 0) (fun x => Ok (eq_str x (lit "wrb.fr")))
                 &&& truthy_at actual_data 2) ;;
     if c1 then
       a2 <- lift (py_index actual_data 2) ;;
       inner_json <- lift (loads_val a2) ;;
       (* update the session context *)
       k1 <- lift (len_gt inner_json 1 &&& truthy_at inner_json 1) ;;
       (if k1 then
          i1 <- lift (py_index inner_json 1) ;;
          if isinstance_list i1 then
            cA <- lift (len_gt i1 0 &&& truthy_at i1 0) ;;
            (if cA then
               x <- lift (py_index i1 0) ;;
               c <- get_self ;;
               modify (set_conversation_id (py_or x (conversation_id c)))
             else ret tt) ;;;
            cB <- lift (len_gt i1 1 &&& truthy_at i1 1) ;;
            if cB then
              x <- lift (py_index i1 1) ;;
              c <- get_self ;;
              modify (set_response_id (py_or x (response_id c)))
            else ret tt
          else ret tt
        else ret tt) ;;;
       (* extract the text content *)
       c4 <- lift (Ok (truthy inner_json) &&& len_gt inner_json 4
                   &&& truthy_at inner_json 4) ;;
       if c4 then
         candidates <- lift (py_index inner_json 4) ;;
         cc <- lift (Ok (truthy candidates) &&& len_gt candidates 0) ;;
         if cc then
           candidate <- lift (py_index candidates 0) ;;
           k <- lift (Ok (truthy candidate) &&& len_gt candidate 1
                      &&& truthy_at candidate 1) ;;
           if k then
             content_parts <- lift (py_index candidate 1) ;;
             current_text <- lift (stream_content_text content_parts) ;;
             let (chunks, last_text) := acc in
             if nonempty current_text
                && Nat.ltb (List.length last_text) (List.length current_text)
             then
               (* only the new part is yielded *)
               let new_text := skipn (List.length last_text) current_text in
               if nonempty new_text then ret (chunks ++ [new_text], current_text)
               else ret acc
             else ret acc
           else ret acc
         else ret acc
       else ret acc
     else ret acc
   else ret acc)%m.

(** The generator, run to its end: the chunks it yields.  [image_paths] is
    [None] unless the caller passes the paths of images already uploaded. *)
Definition _send_stream_request (text : pystr) (images : list image_entry)
    (image_paths : option (list pystr)) : M (list pystr) :=
  (c <- get_self ;;
   rnd <- draw (fun k => randint E k 10000 99999) ;;
   let params := request_params c rnd in
   (* upload the images unless their paths were given *)
   image_paths <-
     match image_paths with
     | Some paths => ret paths
     | None =>
         match images with
         | _ :: _ =>
             if negb (opt_truthy (push_id c)) then raise CookieExpiredError
             else catch (upload_all images) (fun _ => raise ImageUploadError)
         | [] => ret []
         end
     end ;;
   req_data <- _build_request_data text images image_paths ;;
   c <- get_self ;;
   catch
     (resp <- http (Post STREAM_URL params [] (FormData (form_data c req_data))) ;;
      raise_for_status resp ;;;
      modify (fun c => set_request_count (request_count c + 1)%Z c) ;;;
      let lines := split_on 10 (resp_text resp) in
      out <- for_each lines ([], [])
               (fun raw acc =>
                  let line := strip raw in
                  if negb (nonempty line) || startswith line (lit ")]}'") || isdigit line
                  then ret acc
                  else catch (stream_line line acc) (fun _ => ret acc)) ;;
      ret (fst out))
     (fun _ => raise PlainException))%m.

(** What [_send_stream_request] does once the answer is there. *)
Definition stream_after_post (resp : response) : M (list pystr) :=
  bindM (raise_for_status resp) (fun _ =>
  bindM (modify (fun c => set_request_count (request_count c + 1)%Z c)) (fun _ =>
  let lines := split_on 10 (resp_text resp) in
  bindM (for_each lines ([], [])
           (fun raw acc =>
              let line := strip raw in
              if negb (nonempty line) || startswith line (lit ")]}'") || isdigit line
              then ret acc
              else catch (stream_line line acc) (fun _ => ret acc)))
        (fun out => ret (fst out)))).


(** *** [_parse_content] *)

(** A value used as a [str] (a method of [str] is called on it). *)
Definition as_str (v : pyval) : result pystr :=
  match v with
  | PStr s => Ok s
  | _ => Raise AttributeError
  end.

(** [" ".join(text_parts)] *)
Fixpoint join_values (parts : list pyval) : result (list pystr) :=
  match parts with
  | [] => Ok []
  | PStr s :: rest => bind (join_values rest) (fun l => Ok (s :: l))
  | _ :: _ => Raise TypeError
  end.

(** The image behind the [content-type] and body of a download. *)
Definition downloaded_image (resp : response) : image_entry :=
  {| mime_type :=
       before_semicolon
         (match headers_get (resp_headers resp) (lit "content-type") with
          | Some v => v
          | None => lit "image/jpeg"
          end);
     data := b64encode E (resp_content resp) |}.

(** One round of [for item in content]: the text parts and images so far. *)
Definition parse_item (item : pyval) (acc : list pyval * list image_entry)
  : M (list pyval * list image_entry) :=
  let (text_parts, images) := acc in
  (ty <- lift (py_get item (lit "type") PNone) ;;
   if eq_str ty (lit "text") then
     t <- lift (py_get item (lit "text") (PStr [])) ;;
     ret (text_parts ++ [t], images)
   else if eq_str ty (lit "image_url") then
     image_url_data <- lift (py_get item (lit "image_url") (PDict [])) ;;
     url <- (if isinstance_str image_url_data then ret image_url_data
             else lift (py_get image_url_data (lit "url") (PStr []))) ;;
     if negb (truthy url) then ret acc
     else
       u <- lift (as_str url) ;;
       if startswith u (lit "data:") then
         match match_data_url u with
         | Some (mime, d) => ret (text_parts, images ++ [{| mime_type := mime; data := d |}])
         | None => ret acc
         end
       else if startswith u (lit "http://") || startswith u (lit "https://") then
         catch
           (resp <- http (Get u) ;;
            if (status_code resp =? 200)%Z
            then ret (text_parts, images ++ [downloaded_image resp])
            else ret acc)
           (fun _ => ret acc)
       else
         match b64decode E (firstn 100 u) with
         | Some _ => ret (text_parts, images ++ [{| mime_type := lit "image/png"; data := u |}])
         | None => ret acc
         end
   else ret acc)%m.

Definition _parse_content (content : pyval) : M (pystr * list image_entry) :=
  match content with
  | PStr s => ret (s, [])
  | _ =>
      (items <- lift (py_iter content) ;;
       acc <- for_each items ([], []) parse_item ;;
       let (text_parts, images) := acc in
       match text_parts with
       | [] => ret ([], images)
       | _ => parts <- lift (join_values text_parts) ;;
              ret (join (lit " ") parts, images)
       end)%m
  end.

(** *** [chat] *)

(** The truncation of the history after the messages were taken in. *)
Definition limit_history (c : client) : client :=
  if (max_history_messages c <? Z.of_nat (List.length (messages c)))%Z then
    let keep_count := max_history_messages c in
    let keep_count := if (keep_count mod 2 =? 1)%Z then (keep_count - 1)%Z else keep_count in
    set_messages (py_slice_from (messages c) (- keep_count)) c
  else c.

Definition reset : M unit :=
  modify (fun c =>
            set_messages []
              (set_choice_id (PStr [])
                 (set_response_id (PStr []) (set_conversation_id (PStr []) c)))).

(** One round of [for msg in messages]: [text] and [images] so far. *)
Definition take_message (msg : pyval) (acc : pystr * list image_entry) : M (pystr * list image_entry) :=
  (r <- lift (py_get msg (lit "role") (PStr [])) ;;
   content <- lift (py_get msg (lit "content") (PStr [])) ;;
   if eq_str r (lit "user") then
     modify (append_message {| role := PStr (lit "user"); content := content |}) ;;;
     _parse_content content
   else if eq_str r (lit "assistant") then
     modify (append_message {| role := PStr (lit "assistant"); content := content |}) ;;;
     ret acc
   else ret acc)%m.

(** The part of [chat] headed "process the input": [text] and [images]. *)
Definition intake (messages : pyval) (message : option pystr)
    (image : option pybytes) (image_url : option pystr) : M (pystr * list image_entry) :=
  if truthy messages then
    (msgs <- lift (py_iter messages) ;;
     acc <- for_each msgs ([], []) take_message ;;
     modify limit_history ;;;
     ret acc)%m
  else if opt_truthy message then
    let text := some_or_empty message in
    (modify (append_message {| role := PStr (lit "user"); content := PStr text |}) ;;;
     match image with
     | Some ((_ :: _) as bytes) =>
         ret (text, [{| mime_type := lit "image/jpeg"; data := b64encode E bytes |}])
     | _ =>
         if opt_truthy image_url then
           let u := some_or_empty image_url in
           if startswith u (lit "data:") then
             match match_data_url u with
             | Some (mime, d) => ret (text, [{| mime_type := mime; data := d |}])
             | None => ret (text, [])
             end
           else
             catch (resp <- http (Get u) ;; ret (text, [downloaded_image resp]))
                   (fun _ => ret (text, []))
         else ret (text, [])
     end)%m
  else ret ([], []).

(** What [chat] returns: the completion, or the generator of the streamed
    chunks, which runs only when its consumer iterates it. *)
Inductive chat_result : Type :=
| Completion (r : ChatCompletionResponse)
| Stream (generator : M (list pystr)).

Definition chat (messages : pyval) (message : option pystr)
    (image : option pybytes) (image_url : option pystr)
    (reset_context : bool) (stream : bool) : M chat_result :=
  ((if reset_context then reset else ret tt) ;;;
   ti <- intake messages message image image_url ;;
   let (text, images) := ti in
   if negb (nonempty text) then raise ValueError
   else if stream then ret (Stream (_send_stream_request text images None))
   else r <- _send_request text images ;; ret (Completion r))%m.

(** *** [__init__] and the session file *)

Definition DEFAULT_BL : pystr := lit "boq_assistant-bard-web-server_20241209.00_p0".

Definition _fetch_bl : M unit :=
  catch
    (resp <- http (Get BASE_URL) ;;
     match search_cfb2h (resp_text resp) with
     | Some v => modify (set_bl (Some v))
     | None => modify (set_bl (Some DEFAULT_BL))
     end)%m
    (fun _ => modify (set_bl (Some DEFAULT_BL))).

(** [[Message(role=msg["role"], content=msg["content"]) for msg in messages_data]] *)
Fixpoint load_messages (messages_data : list pyval) : result (list Message) :=
  match messages_data with
  | [] => Ok []
  | msg :: rest =>
      bind (py_getitem_str msg (lit "role")) (fun r =>
      bind (py_getitem_str msg (lit "content")) (fun ct =>
      bind (load_messages rest) (fun l =>
      Ok ({| role := r; content := ct |} :: l))))
  end.

Definition _load_session_state : M unit :=
  match session_file E with
  | Absent => ret tt
  | file =>
      catch
        (state <- match file with
                  | Holds text => lift (loads text)
                  | _ => raise PlainException
                  end ;;
         conv <- lift (py_get state (lit "conversation_id") (PStr [])) ;;
         modify (set_conversation_id conv) ;;;
         resp <- lift (py_get state (lit "response_id") (PStr [])) ;;
         modify (set_response_id resp) ;;;
         ch <- lift (py_get state (lit "choice_id") (PStr [])) ;;
         modify (set_choice_id ch) ;;;
         messages_data <- lift (py_get state (lit "messages") (PList [])) ;;
         items <- lift (py_iter messages_data) ;;
         msgs <- lift (load_messages items) ;;
         modify (set_messages msgs) ;;;
         modify limit_history)%m
        (fun _ => reset)
  end.

(** The constructor: the client it builds, or the exception, with the
    requests issued on the way.  Creating the httpx session and filling its
    cookie jar send nothing and are not modelled. *)
Definition __init__ (snlm0e bl push_id : option pystr) : result unit * world :=
  let c := {| bl := bl; snlm0e := snlm0e; push_id := push_id;
              conversation_id := PStr []; response_id := PStr [];
              choice_id := PStr []; request_count := 0%Z;
              messages := []; max_history_messages := 100%Z |} in
  ((if negb (opt_truthy snlm0e) then raise ValueError else ret tt) ;;;
   (if negb (opt_truthy bl) then _fetch_bl else ret tt) ;;;
   _load_session_state)%m
  {| self := c; trace := []; draws := 0 |}.

End Client.

(** ** [server.py] *)

Definition API_KEY : pystr := lit "sk-gemini".

(** [verify_api_key], for whatever value the constant [API_KEY] has. *)
Definition verify_api_key_with (api_key : pystr) (authorization : option pystr)
  : result bool :=
  if negb (nonempty api_key) then Ok true
  else
    match authorization with
    | None => Raise (HTTPException 401 (lit "Invalid API key"))
    | Some a =>
        if negb (nonempty a) || negb (startswith a (lit "Bearer "))
           || negb (pystr_eqb (skipn 7 a) api_key)
        then Raise (HTTPException 401 (lit "Invalid API key"))
        else Ok true
    end.

Definition verify_api_key (authorization : option pystr) : result bool :=
  verify_api_key_with API_KEY authorization.

(** The handlers [list_models], [list_models_v1beta], [chat_completions],
    [reset_context] and [gemini_generate_content] all start with
    [verify_api_key(authorization)]; [handler] is the rest of their body. *)
Definition guarded_endpoint {A} (handler : result A) (authorization : option pystr)
  : result A :=
  bind (verify_api_key authorization) (fun _ => handler).

(** ** Properties of the requests a method issues *)

Definition is_get (rq : request) : bool :=
  match rq with Get _ => true | Post _ _ _ _ => false end.

(** A chat request: a POST to the [StreamGenerate] endpoint. *)
Definition is_chat_post (rq : request) : bool :=
  match rq with
  | Post url _ _ _ => pystr_eqb url STREAM_URL
  | Get _ => false
  end.

(** The chat request [rq] carries the token of client [c]: under the key
    [at] of its form data, and at index 3 of the inner array encoded in
    [f.req]. *)
Definition carries_token (E : environment) (c : client) (rq : request) : Prop :=
  exists params req_data inner_data,
    rq = Post STREAM_URL params []
           (FormData [(lit "f.req", PStr req_data); (lit "at", opt_val (snlm0e c))])
    /\ req_data = dumps E (PList [PNone; PStr (dumps E (PList inner_data))])
    /\ nth_error inner_data 3 = Some (opt_val (snlm0e c)).

(** The method [m], started in any world whose client satisfies [I], keeps
    [I] and issues only requests that satisfy [P]. *)
Definition emits (I : client -> Prop) (P : request -> Prop) {A} (m : M A) : Prop :=
  forall w r w',
    I (self w) -> m w = (r, w') ->
    I (self w') /\ exists new, trace w' = trace w ++ new /\ Forall P new.

(** ** A concrete world for the examples

    Every server answers 200 with an empty body, the random generator
    returns its lower bound and the clock stands still. *)

Definition empty_response : response :=
  {| status_code := 200%Z; resp_headers := []; resp_text := []; resp_content := [] |}.

Definition example_env : environment :=
  {| net := fun _ _ => Responded empty_response;
     randint := fun _ a _ => a;
     uuid4_upper := fun _ => lit "00000000-0000-4000-8000-000000000000";
     time_ms := fun _ => 1700000000123%Z;
     time_s := fun _ => 1700000000%Z;
     b64decode := fun s => Some s;
     b64encode := fun b => b;
     py_str := fun _ => [];
     unicode_isdigit := fun _ => false;
     float_repr := fun _ => lit "0.0";
     py_float := fun _ => 0%float;
     session_file := Absent |}.

Definition example_client : client :=
  {| bl := Some DEFAULT_BL; snlm0e := Some (lit "token"); push_id := None;
     conversation_id := PStr (lit "c_1"); response_id := PStr (lit "r_1");
     choice_id := PStr (lit "rc_1"); request_count := 0%Z;
     messages := []; max_history_messages := 100%Z |}.

Definition example_world : world :=
  {| self := example_client; trace := []; draws := 0 |}.

(** The same client with a push id, and servers that accept an upload: the
    first answer carries an upload id, the later ones the path of the image. *)
Definition example_client_push : client :=
  {| bl := Some DEFAULT_BL; snlm0e := Some (lit "token"); push_id := Some (lit "feeds/abc");
     conversation_id := PStr (lit "c_1"); response_id := PStr (lit "r_1");
     choice_id := PStr (lit "rc_1"); request_count := 0%Z;
     messages := []; max_history_messages := 100%Z |}.

Definition example_world_push : world :=
  {| self := example_client_push; trace := []; draws := 0 |}.

Definition upload_env : environment :=
  {| net := fun n _ =>
              match n with
              | O => Responded {| status_code := 200%Z;
                                  resp_headers := [(lit "x-guploader-uploadid", lit "upload-1")];
                                  resp_text := []; resp_content := [] |}
              | S _ => Responded {| status_code := 200%Z; resp_headers := [];
                                    resp_text := lit "/contrib_service/ttl_1d/1234567890abcdefghij";
                                    resp_content := [] |}
              end;
     randint := randint example_env;
     uuid4_upper := uuid4_upper example_env;
     time_ms := time_ms example_env;
     time_s := time_s example_env;
     b64decode := b64decode example_env;
     b64encode := b64encode example_env;
     py_str := py_str example_env;
     unicode_isdigit := unicode_isdigit example_env;
     float_repr := float_repr example_env;
     py_float := py_float example_env;
     session_file := Absent |}.

Definition example_image : image_entry :=
  {| mime_type := lit "image/png"; data := lit "aGVsbG8=" |}.

(** OpenAI-format messages for the examples. *)
Definition text_message (r : string) (text : pystr) : pyval :=
  PDict [(lit "role", PStr (lit r)); (lit "content", PStr text)].

Definition text_part (text : pystr) : pyval :=
  PDict [(lit "type", PStr (lit "text")); (lit "text", PStr text)].

Definition image_part (url : pystr) : pyval :=
  PDict [(lit "type", PStr (lit "image_url"));
         (lit "image_url", PDict [(lit "url", PStr url)])].

Definition parts_message (parts : list pyval) : pyval :=
  PDict [(lit "role", PStr (lit "user")); (lit "content", PList parts)].

(** A client whose history is limited to one message. *)
Definition example_client_limit_one : client :=
  {| bl := Some DEFAULT_BL; snlm0e := Some (lit "token"); push_id := None;
     conversation_id := PStr []; response_id := PStr []; choice_id := PStr [];
     request_count := 0%Z; messages := []; max_history_messages := 1%Z |}.

Definition example_world_limit_one : world :=
  {| self := example_client_limit_one; trace := []; draws := 0 |}.

(** A line of a response: the frame around a payload whose first candidate
    holds [parts], followed by [tail]. *)
Definition example_line (parts : list pystr) (tail : list pyval) : pystr :=
  let payload :=
    json_dumps (float_repr example_env)
      (PList [PNone; PNone; PNone; PNone;
              PList [PList [PStr (lit "rc_2"); PList (map PStr parts)]]]) in
  json_dumps (float_repr example_env)
    (PList [PList (PStr (lit "wrb.fr") :: PNone :: PStr payload :: tail)]).

(** The methods change the client only through updates which leave the two
    tokens alone. *)
Definition same_tokens (c0 c : client) : Prop :=
  snlm0e c = snlm0e c0 /\ push_id c = push_id c0.

(** Whatever is posted to the chat endpoint carries the token of [c0]. *)
Definition token_policy (E : environment) (c0 : client) (rq : request) : Prop :=
  is_chat_post rq = true -> carries_token E c0 rq.

(** ** Vocabulary for the properties of the remaining code *)

(** The strings met in [data], in the order [_extract_image_path] visits
    them: the items of a list and the values of a dict, depth first. *)
Fixpoint string_leaves (data : pyval) : list pystr :=
  match data with
  | PStr s => [s]
  | PList l =>
      (fix items (l : list pyval) : list pystr :=
         match l with
         | [] => []
         | item :: rest => string_leaves item ++ items rest
         end) l
  | PDict d =>
      (fix values (d : list (pystr * pyval)) : list pystr :=
         match d with
         | [] => []
         | (_, value) :: rest => string_leaves value ++ values rest
         end) d
  | _ => []
  end.

(** [{"role": m.role, "content": m.content}], the form in which
    [get_history] and [_save_session_state] give a message out. *)
Definition message_dict (m : Message) : pyval :=
  PDict [(lit "role", role m); (lit "content", content m)].

(** [get_history] *)
Definition get_history (c : client) : list pyval := map message_dict (messages c).

(** The [state] that [_save_session_state] writes to the session file (the
    write itself, [json.dump] with an indentation, is not modelled). *)
Definition saved_state (c : client) : pyval :=
  PDict [(lit "conversation_id", conversation_id c);
         (lit "response_id", response_id c);
         (lit "choice_id", choice_id c);
         (lit "messages", PList (map message_dict (messages c)))].

(** A client without conversation: no identifiers, no history. *)
Definition cleared (c : client) : Prop :=
  conversation_id c = PStr [] /\ response_id c = PStr []
  /\ choice_id c = PStr [] /\ messages c = [].

(** The client settings that a conversation does not touch. *)
Definition same_settings (c0 c : client) : Prop :=
  bl c = bl c0 /\ snlm0e c = snlm0e c0 /\ push_id c = push_id c0
  /\ request_count c = request_count c0
  /\ max_history_messages c = max_history_messages c0.

(** The environment [E] with another session file. *)
Definition with_session_file (E : environment) (file : file_state) : environment :=
  {| net := net E; randint := randint E; uuid4_upper := uuid4_upper E;
     time_ms := time_ms E; time_s := time_s E;
     b64decode := b64decode E; b64encode := b64encode E;
     py_str := py_str E; unicode_isdigit := unicode_isdigit E;
     float_repr := float_repr E; py_float := py_float E;
     session_file := file |}.

(** A client in the middle of a conversation. *)
Definition example_client_talking : client :=
  {| bl := Some DEFAULT_BL; snlm0e := Some (lit "token"); push_id := None;
     conversation_id := PStr (lit "c_1"); response_id := PStr (lit "r_1");
     choice_id := PStr (lit "rc_1"); request_count := 1%Z;
     messages := [ {| role := PStr (lit "user"); content := PStr (lit "hi") |};
                   {| role := PStr (lit "assistant"); content := PStr (lit "hello") |} ];
     max_history_messages := 100%Z |}.

(** The message under which the reply [reply_text] enters the history. *)
Definition assistant_message (reply_text : pystr) : Message :=
  {| role := PStr (lit "assistant"); content := PStr reply_text |}.

Definition user_message (text : pystr) : Message :=
  {| role := PStr (lit "user"); content := PStr text |}.

(** Requests of an image upload: anything but a chat request. *)
Definition no_chat_post (new : list request) : Prop :=
  Forall (fun rq => is_chat_post rq = false) new.

(** Every value the method [m] returns satisfies [Q]. *)
Definition yields {A} (Q : A -> Prop) (m : M A) : Prop :=
  forall w a w', m w = (Ok a, w') -> Q a.

(** The chunks yielded so far are not empty, and their lengths add up to the
    length of [last_text]. *)
Definition chunks_inv (acc : list pystr * pystr) : Prop :=
  Forall (fun chunk => nonempty chunk = true) (fst acc)
  /\ List.length (concat (fst acc)) = List.length (snd acc).

(** One round of the loop over the lines of a streamed answer. *)
Definition stream_round (E : environment) (raw : pystr) (acc : list pystr * pystr)
  : M (list pystr * pystr) :=
  let line := strip raw in
  if negb (nonempty line) || startswith line (lit ")]}'") || isdigit E line
  then ret acc
  else catch (stream_line E line acc) (fun _ => ret acc).

(** The environment [E] with another remote side. *)
Definition with_net (E : environment) (remote : nat -> request -> net_result)
  : environment :=
  {| net := remote; randint := randint E; uuid4_upper := uuid4_upper E;
     time_ms := time_ms E; time_s := time_s E;
     b64decode := b64decode E; b64encode := b64encode E;
     py_str := py_str E; unicode_isdigit := unicode_isdigit E;
     float_repr := float_repr E; py_float := py_float E;
     session_file := session_file E |}.

(** A server that streams a reply in two steps, and one that is down. *)
Definition stream_env : environment :=
  with_net example_env
    (fun _ _ =>
       Responded {| status_code := 200%Z; resp_headers := [];
                    resp_text := example_line [lit "Hel"] [] ++ [10]
                                 ++ example_line [lit "Hello"] [];
                    resp_content := [] |}).

Definition offline_env : environment :=
  with_net example_env (fun _ _ => Failed ConnectTimeout).

(** The [text] fields of the parts of type [text] in a message content, in
    order: what [_parse_content] collects in [text_parts]. *)
Fixpoint text_fields (items : list pyval) : list pyval :=
  match items with
  | [] => []
  | item :: rest =>
      match py_get item (lit "type") PNone with
      | Ok ty =>
          if eq_str ty (lit "text") then
            match py_get item (lit "text") (PStr []) with
            | Ok t => t :: text_fields rest
            | Raise _ => text_fields rest
            end
          else text_fields rest
      | Raise _ => text_fields rest
      end
  end.

(** A client whose history is limited to two messages. *)
Definition example_client_limit_two : client :=
  {| bl := Some DEFAULT_BL; snlm0e := Some (lit "token"); push_id := None;
     conversation_id := PStr []; response_id := PStr []; choice_id := PStr [];
     request_count := 0%Z; messages := []; max_history_messages := 2%Z |}.

(** ** [server.py]: cookies and configuration *)

(** The [prefixes] of [clean_cookie_string]; 12304 is the left black
    lenticular bracket. *)
Definition COOKIE_PREFIXES : list pystr :=
  [ lit "cookie:"; lit "cookie"; lit "Cookie:"; lit "Cookie";
    lit "COOKIE:"; lit "COOKIE";
    12304 :: lit "cookie"; 12304 :: lit "Cookie"; 12304 :: lit "COOKIE";
    lit "[cookie"; lit "[Cookie"; lit "[COOKIE" ].

(** [if cookie_str.startswith(":"): cookie_str = cookie_str[1:].strip()] *)
Definition drop_colon (cookie_str : pystr) : pystr :=
  match cookie_str with
  | c :: tail => if c =? 58 then strip tail else cookie_str
  | [] => cookie_str
  end.

(** The loop [for prefix in prefixes: ... break] on the stripped string. *)
Fixpoint strip_label (prefixes : list pystr) (cookie_str : pystr) : pystr :=
  match prefixes with
  | [] => cookie_str
  | prefix :: rest =>
      match strip_prefix prefix cookie_str with
      | Some tail => drop_colon (strip tail)
      | None => strip_label rest cookie_str
      end
  end.

Definition clean_cookie_string (cookie_str : pystr) : pystr :=
  match cookie_str with
  | [] => cookie_str
  | _ => strip_label COOKIE_PREFIXES (strip cookie_str)
  end.

Definition COOKIE_FIELD_MAP : list (pystr * pystr) :=
  [ (lit "__Secure-1PSID", lit "SECURE_1PSID");
    (lit "__Secure-1PSIDTS", lit "SECURE_1PSIDTS");
    (lit "SAPISID", lit "SAPISID");
    (lit "__Secure-1PAPISID", lit "SAPISID");
    (lit "SID", lit "SID");
    (lit "HSID", lit "HSID");
    (lit "SSID", lit "SSID");
    (lit "APISID", lit "APISID") ].

(** [COOKIE_FIELD_MAP[key]] when [key in COOKIE_FIELD_MAP] *)
Fixpoint cookie_field (map : list (pystr * pystr)) (key : pystr) : option pystr :=
  match map with
  | [] => None
  | (k, field) :: rest => if pystr_eqb k key then Some field else cookie_field rest key
  end.

(** [item[:i]] and [item[i + 1:]] for [i = item.index("=")], when [=] is in
    [item] *)
Definition split_at_equals (item : pystr) : option (pystr * pystr) :=
  match span (fun c => negb (c =? 61)) item with
  | (key, _ :: value) => Some (key, value)
  | (_, []) => None
  end.

(** One round of the loop of [parse_cookie_string] *)
Definition parse_cookie_item (result : list (pystr * pyval)) (item : pystr)
  : list (pystr * pyval) :=
  let item := strip item in
  match split_at_equals item with
  | Some (key, value) =>
      let key := strip key in
      let value := strip value in
      match cookie_field COOKIE_FIELD_MAP key with
      | Some field => dict_set result field (PStr value)
      | None => result
      end
  | None => result
  end.

Definition parse_cookie_string (cookie_str : pystr) : list (pystr * pyval) :=
  match cookie_str with
  | [] => []
  | _ => fold_left parse_cookie_item (split_on 59 (clean_cookie_string cookie_str)) []
  end.

(** The fields of [_config] that [get_client] reads; the admin page stores
    strings in them. *)
Record config : Type := {
  SNLM0E : pystr;
  SECURE_1PSID : pystr;
  SECURE_1PSIDTS : pystr;
  SAPISID : pystr;
  SID : pystr;
  HSID : pystr;
  SSID : pystr;
  APISID : pystr;
  PUSH_ID : pystr
}.

(** The [cookies] string that [get_client] hands to the client. *)
Definition client_cookies (c : config) : pystr :=
  let cookies := lit "__Secure-1PSID=" ++ SECURE_1PSID c in
  let cookies := if nonempty (SECURE_1PSIDTS c)
                 then cookies ++ lit "; __Secure-1PSIDTS=" ++ SECURE_1PSIDTS c
                 else cookies in
  let cookies := if nonempty (SAPISID c)
                 then cookies ++ lit "; SAPISID=" ++ SAPISID c
                      ++ lit "; __Secure-1PAPISID=" ++ SAPISID c
                 else cookies in
  let cookies := if nonempty (SID c) then cookies ++ lit "; SID=" ++ SID c
                 else cookies in
  let cookies := if nonempty (HSID c) then cookies ++ lit "; HSID=" ++ HSID c
                 else cookies in
  let cookies := if nonempty (SSID c) then cookies ++ lit "; SSID=" ++ SSID c
                 else cookies in
  let cookies := if nonempty (APISID c) then cookies ++ lit "; APISID=" ++ APISID c
                 else cookies in
  cookies.

(** A value that can stand in a cookie string: no semicolon, no white space
    at its ends. *)
Definition cookie_value (v : pystr) : Prop :=
  strip v = v /\ forallb (fun c => negb (c =? 59)) v = true.

(** [_set_cookies_from_string] (client.py): the cookies set in the jar of the
    session, a later one of the same name replacing the earlier.
    [item.split("=", 1)] cuts at the first [=]. *)
Definition set_cookie_item (jar : list (pystr * pyval)) (item : pystr)
  : list (pystr * pyval) :=
  let item := strip item in
  match split_at_equals item with
  | Some (key, value) => dict_set jar (strip key) (PStr (strip value))
  | None => jar
  end.

Definition _set_cookies_from_string (cookies_str : pystr) (jar : list (pystr * pyval))
  : list (pystr * pyval) :=
  fold_left set_cookie_item (split_on 59 cookies_str) jar.

(** The cookies that [get_client] writes into the string, by name and value:
    the first always, the others when their value is not empty. *)
Definition client_cookie_pairs (c : config) : list (pystr * pystr) :=
  (lit "__Secure-1PSID", SECURE_1PSID c)
  :: filter (fun kv => nonempty (snd kv))
       [ (lit "__Secure-1PSIDTS", SECURE_1PSIDTS c);
         (lit "SAPISID", SAPISID c);
         (lit "__Secure-1PAPISID", SAPISID c);
         (lit "SID", SID c);
         (lit "HSID", HSID c);
         (lit "SSID", SSID c);
         (lit "APISID", APISID c) ].

(** A cookie name as the server writes it: it starts with a character that
    is not white space and holds neither [=] nor [;]. *)
Definition cookie_name (k : pystr) : bool :=
  match k with
  | c :: _ => negb (is_space c)
  | [] => false
  end && forallb (fun c => negb (c =? 61) && negb (c =? 59)) k.

(** The cookie fields of a configuration can stand in a cookie string, and
    the first one is there. *)
Definition config_cookies_ok (c : config) : Prop :=
  SECURE_1PSID c <> []
  /\ cookie_value (SECURE_1PSID c) /\ cookie_value (SECURE_1PSIDTS c)
  /\ cookie_value (SAPISID c) /\ cookie_value (SID c) /\ cookie_value (HSID c)
  /\ cookie_value (SSID c) /\ cookie_value (APISID c).

(** The entry of a non-empty configuration field. *)
Definition field_entry (name : string) (v : pystr) : list (pystr * pyval) :=
  if nonempty v then [(lit name, PStr v)] else [].

Definition example_config : config :=
  {| SNLM0E := lit "token"; SECURE_1PSID := lit "g.a000-abc";
     SECURE_1PSIDTS := lit "sidts-1"; SAPISID := lit "sap/1"; SID := [];
     HSID := lit "h=1"; SSID := []; APISID := []; PUSH_ID := [] |}.

(** ** [server.py]: the session tracking of [chat_completions] *)

(** A message of a request: a [ChatMessage] object, or a plain dict (the two
    forms the helpers accept). *)
Inductive server_message : Type :=
| ChatMessage (role : pystr) (content : pyval)
| DictMessage (d : list (pystr * pyval)).

(** [m.role if hasattr(m, 'role') else m.get('role', '')] *)
Definition message_role (m : server_message) : pyval :=
  match m with
  | ChatMessage r _ => PStr r
  | DictMessage d => match dict_get d (lit "role") with Some r => r | None => PStr [] end
  end.

(** [m.content if hasattr(m, 'content') else m.get('content', '')] *)
Definition message_content (m : server_message) : pyval :=
  match m with
  | ChatMessage _ ct => ct
  | DictMessage d => match dict_get d (lit "content") with Some ct => ct | None => PStr [] end
  end.

(** [[item.get('text', '') for item in content if item.get('type') == 'text']] *)
Fixpoint hash_text_parts (content : list pyval) : result (list pyval) :=
  match content with
  | [] => Ok []
  | item :: rest =>
      bind (py_get item (lit "type") PNone) (fun ty =>
      if eq_str ty (lit "text") then
        bind (py_get item (lit "text") (PStr [])) (fun t =>
        bind (hash_text_parts rest) (fun l => Ok (t :: l)))
      else hash_text_parts rest)
  end.

Section ServerSession.

(** [str()] of a content that is not a list *)
Variable content_str : pyval -> pystr.
(** [hashlib.md5(s.encode()).hexdigest()]; encoding a lone surrogate raises *)
Variable md5_hex : pystr -> result pystr.

(** The loop of [get_user_messages_hash]: [content_str] after the messages. *)
Fixpoint user_contents (messages : list server_message) (acc : pystr) : result pystr :=
  match messages with
  | [] => Ok acc
  | m :: rest =>
      if negb (eq_str (message_role m) (lit "user")) then user_contents rest acc
      else
        match message_content m with
        | PList items =>
            bind (hash_text_parts items) (fun text_parts =>
            bind (join_values text_parts) (fun parts =>
            user_contents rest (acc ++ join (lit " ") parts ++ lit "|")))
        | PStr s => user_contents rest (acc ++ s ++ lit "|")
        | other => user_contents rest (acc ++ content_str other ++ lit "|")
        end
  end.

Definition get_user_messages_hash (messages : list server_message) : result pystr :=
  bind (user_contents messages []) md5_hex.

(** [[i for i, m in enumerate(current_messages) if role(m) == "user"]] *)
Fixpoint user_indices_from (i : nat) (messages : list server_message) : list nat :=
  match messages with
  | [] => []
  | m :: rest =>
      if eq_str (message_role m) (lit "user")
      then i :: user_indices_from (S i) rest
      else user_indices_from (S i) rest
  end.

Definition has_assistant (messages : list server_message) : bool :=
  existsb (fun m => eq_str (message_role m) (lit "assistant")) messages.

Definition is_continuation (current_messages : list server_message) (last_hash : pystr)
  : result bool :=
  if negb (nonempty last_hash) then Ok false
  else if has_assistant current_messages then Ok true
  else if Nat.ltb 1 (List.length current_messages) then Ok true
  else
    let user_indices := user_indices_from 0 current_messages in
    if Nat.leb (List.length user_indices) 1 then Ok false
    else
      let last_user_idx := last user_indices 0%nat in
      let prev_messages := firstn last_user_idx current_messages in
      bind (get_user_messages_hash prev_messages) (fun prev_hash =>
      Ok (pystr_eqb prev_hash last_hash)).

(** [should_reset] in [chat_completions]; [and] evaluates its right operand
    only when the left one holds. *)
Definition should_reset (request_messages : list server_message) (c : client)
    (last_hash : pystr) : result bool :=
  if Nat.eqb (List.length request_messages) 1
     && negb (has_assistant request_messages)
     && negb (truthy (conversation_id c))
     && Nat.eqb (List.length (messages c)) 0
  then bind (is_continuation request_messages last_hash) (fun b => Ok (negb b))
  else Ok false.

End ServerSession.

(** ** [json.dumps] with its defaults

    [ensure_ascii=True] and the separators [", "] and [": "], as [quite.py]
    calls it. *)

Definition hex4_digits (n : N) : pystr :=
  [hex_digit (n / 4096); hex_digit (n / 256 mod 16);
   hex_digit (n / 16 mod 16); hex_digit (n mod 16)].

(** The replacement [json.encoder] makes for one character under
    [ensure_ascii]: the short escapes, the printable ASCII characters as
    they are, [\uXXXX] for the rest of the basic plane and a surrogate pair
    beyond it. *)
Definition escape_char_ascii (c : N) : pystr :=
  if c =? 34 then [92; 34]
  else if c =? 92 then [92; 92]
  else if c =? 8 then [92; 98]
  else if c =? 12 then [92; 102]
  else if c =? 10 then [92; 110]
  else if c =? 13 then [92; 114]
  else if c =? 9 then [92; 116]
  else if (32 <=? c) && (c <=? 126) then [c]
  else if c <? 65536 then 92 :: 117 :: hex4_digits c
  else
    let n := c - 65536 in
    (92 :: 117 :: hex4_digits (55296 + (n / 1024) mod 1024))
    ++ 92 :: 117 :: hex4_digits (56320 + n mod 1024).

Definition encode_basestring_ascii (s : pystr) : pystr :=
  34 :: flat_map escape_char_ascii s ++ [34].

Section JsonDefault.

Variable float_repr : float -> pystr.

Fixpoint json_dumps_default (v : pyval) : pystr :=
  match v with
  | PNone => lit "null"
  | PBool true => lit "true"
  | PBool false => lit "false"
  | PInt z => int_repr z
  | PFloat f => float_str float_repr f
  | PStr s => encode_basestring_ascii s
  | PList l =>
      91 :: (fix elems (l : list pyval) : pystr :=
               match l with
               | [] => []
               | x :: xs =>
                   json_dumps_default x
                   ++ match xs with [] => [] | _ => 44 :: 32 :: elems xs end
               end) l ++ [93]
  | PDict d =>
      123 :: (fix members (d : list (pystr * pyval)) : pystr :=
                match d with
                | [] => []
                | (k, x) :: xs =>
                    encode_basestring_ascii k ++ 58 :: 32 :: json_dumps_default x
                    ++ match xs with [] => [] | _ => 44 :: 32 :: members xs end
                end) d ++ [125]
  end.

Fixpoint dumps_default_elems (l : list pyval) : pystr :=
  match l with
  | [] => []
  | x :: xs =>
      json_dumps_default x
      ++ match xs with [] => [] | _ => 44 :: 32 :: dumps_default_elems xs end
  end.

End JsonDefault.

(** A text of code points up to U+10FFFF without high surrogates (which the
    decoder would join with an escaped low surrogate that follows). *)
Definition text_ok (s : pystr) : bool :=
  forallb (fun c => negb (is_high_surrogate c) && (c <=? 1114111)) s.

(** Plain values whose strings are such texts. *)
Fixpoint plain_text (v : pyval) : bool :=
  match v with
  | PNone | PBool _ | PInt _ => true
  | PStr s => text_ok s
  | PFloat _ | PDict _ => false
  | PList l => forallb plain_text l
  end.

(** * The terminal chat bot of [quite.py]

    Class [GeminiChatBot]: [step_1_init] reads the session key from the
    start page and [send_message] posts one message and keeps the context
    ids of the answer.  The calls of the [requests] library go to the
    oracle [remote], consulted with the number of calls made so far; all of
    them pass [verify=False].  The [print] calls are left out. *)

Module Quite.

Record bot : Type := {
  cookie : pystr;
  user_agent : pystr;
  proxy_port : Z;
  headers : list (pystr * pystr);
  proxies : list (pystr * pystr);
  snlm0e : option pystr;
  cid : pyval;
  rid : pyval;
  rcid : pyval
}.

Definition set_snlm0e (v : option pystr) (b : bot) : bot :=
  {| cookie := cookie b; user_agent := user_agent b; proxy_port := proxy_port b;
     headers := headers b; proxies := proxies b;
     snlm0e := v; cid := cid b; rid := rid b; rcid := rcid b |}.
Definition set_cid (v : pyval) (b : bot) : bot :=
  {| cookie := cookie b; user_agent := user_agent b; proxy_port := proxy_port b;
     headers := headers b; proxies := proxies b;
     snlm0e := snlm0e b; cid := v; rid := rid b; rcid := rcid b |}.
Definition set_rid (v : pyval) (b : bot) : bot :=
  {| cookie := cookie b; user_agent := user_agent b; proxy_port := proxy_port b;
     headers := headers b; proxies := proxies b;
     snlm0e := snlm0e b; cid := cid b; rid := v; rcid := rcid b |}.
Definition set_rcid (v : pyval) (b : bot) : bot :=
  {| cookie := cookie b; user_agent := user_agent b; proxy_port := proxy_port b;
     headers := headers b; proxies := proxies b;
     snlm0e := snlm0e b; cid := cid b; rid := rid b; rcid := v |}.

(** [GeminiChatBot(cookie, user_agent, proxy_port)], the port an [int] *)
Definition __init__ (cookie0 user_agent0 : pystr) (proxy_port0 : Z) : bot :=
  {| cookie := strip cookie0;
     user_agent := strip user_agent0;
     proxy_port := proxy_port0;
     headers :=
       [(lit "Host", lit "gemini.google.com");
        (lit "User-Agent", strip user_agent0);
        (lit "Cookie", strip cookie0);
        (lit "Accept", lit "*/*");
        (lit "Origin", lit "https://gemini.google.com");
        (lit "Referer", lit "https://gemini.google.com/");
        (lit "X-Same-Domain", lit "1");
        (lit "Content-Type", lit "application/x-www-form-urlencoded;charset=UTF-8")];
     proxies :=
       [(lit "http", lit "http://127.0.0.1:" ++ int_repr proxy_port0);
        (lit "https", lit "http://127.0.0.1:" ++ int_repr proxy_port0)];
     snlm0e := None;
     cid := PStr [];
     rid := PStr [];
     rcid := PStr [] |}.

(** One call of the [requests] library. *)
Inductive call : Type :=
| requests_get (url : pystr) (hdrs prx : list (pystr * pystr))
| requests_post (url : pystr) (params data hdrs prx : list (pystr * pystr)).

(** The bot, the calls made so far (oldest first) and the number of random
    draws taken. *)
Record session : Type := {
  this : bot;
  calls : list call;
  drawn : nat
}.

Definition SNLM0E_KEY : pystr := [34] ++ lit "SNlM0e" ++ [34; 58; 34].

(** [re.search] for the pattern of [step_1_init]: the quoted key [SNlM0e],
    a colon, a quote, the shortest run of characters other than a newline
    and a closing quote; the run. *)
Fixpoint search_snlm0e (text : pystr) : option pystr :=
  let here :=
    match strip_prefix SNLM0E_KEY text with
    | Some r =>
        match span (fun c => negb ((c =? 34) || (c =? 10))) r with
        | (run, c :: _) => if c =? 34 then Some run else None
        | (_, []) => None
        end
    | None => None
    end in
  match here with
  | Some m => Some m
  | None =>
      match text with
      | [] => None
      | _ :: r => search_snlm0e r
      end
  end.

Definition INIT_URL : pystr := lit "https://gemini.google.com/".
Definition URL : pystr :=
  lit "https://gemini.google.com/_/BardChatUi/data/assistant.lamda.BardFrontendService/StreamGenerate".

(** The messages [send_message] returns in place of an answer. *)
Definition NOT_INITIALISED : pystr :=
  [10060; 32; 38169; 35823; 58; 32; 26410; 21021; 22987; 21270; 23494; 38053].
Definition REFUSED : pystr :=
  [10060; 26381; 21153; 22120; 25298; 32477; 58; 32].
Definition UNPARSED : pystr :=
  [10060; 32; 26410; 33021; 35299; 26512; 36820; 22238; 20869; 23481; 32; 40;
   71; 111; 111; 103; 108; 101; 32; 21487; 33021; 36820; 22238; 20102; 31354;
   25968; 25454; 41].
Definition REQUEST_FAILED : pystr :=
  [10060; 32; 35831; 27714; 24322; 24120; 58; 32].

(** [v[i][j]...] *)
Fixpoint py_path (v : pyval) (idx : list nat) : result pyval :=
  match idx with
  | [] => Ok v
  | i :: r => bind (py_index v i) (fun x => py_path x r)
  end.

(** The array [send_message] encodes into [f.req]. *)
Definition inner_request (message : pystr) (b : bot) : pyval :=
  PList [PList [PStr message; PInt 0; PNone; PList []; PNone; PNone; PInt 0];
         PList [PStr (lit "zh-CN")];
         PList [cid b; rid b; rcid b];
         PNone; PNone; PNone; PList [PNone]; PInt 0; PList []].

Inductive flow : Type := Next | Break.

(** The body of [if len(inner_data) > 4 and inner_data[4]:].  An exception
    leaves the assignments made before it in place and goes on to the next
    line; the one raised by the read of the response id is passed over. *)
Definition take_reply (inner_data : pyval) (parsed_text : pyval) (b : bot)
  : flow * pyval * bot :=
  match py_path inner_data [4; 0; 1; 0]%nat with
  | Raise _ => (Next, parsed_text, b)
  | Ok text =>
      match py_path inner_data [1; 0]%nat with
      | Raise _ => (Next, text, b)
      | Ok c =>
          match py_path inner_data [4; 0; 0]%nat with
          | Raise _ => (Next, text, set_cid c b)
          | Ok rc =>
              match py_path inner_data [4; 0; 1; 1]%nat with
              | Ok r => (Break, text, set_rid r (set_rcid rc (set_cid c b)))
              | Raise _ => (Break, text, set_rcid rc (set_cid c b))
              end
          end
      end
  end.

Section Bot.

Variable E : environment.
(** the answer to the [n]-th call of the run *)
Variable remote : nat -> call -> net_result.
(** [str(e)] for an exception of the [requests] library *)
Variable exn_str : exn -> pystr.

Definition issue (rq : call) (s : session) : net_result * session :=
  (remote (List.length (calls s)) rq,
   {| this := this s; calls := calls s ++ [rq]; drawn := drawn s |}).

(** [step_1_init]: the result and the session afterwards. *)
Definition step_1_init (s : session) : bool * session :=
  let b := this s in
  let init_headers :=
    filter (fun kv => negb (pystr_eqb (fst kv) (lit "Content-Type"))) (headers b) in
  let (answer, s1) := issue (requests_get INIT_URL init_headers (proxies b)) s in
  match answer with
  | Failed _ => (false, s1)
  | Responded response =>
      if negb (status_code response =? 200)%Z then (false, s1)
      else
        match search_snlm0e (resp_text response) with
        | Some key =>
            (true, {| this := set_snlm0e (Some key) b;
                      calls := calls s1; drawn := drawn s1 |})
        | None => (false, s1)
        end
  end.

Definition default_dumps : pyval -> pystr := json_dumps_default (float_repr E).

(** The decoded payload of a line holding a frame: [json_data[0][2]] when
    [json_data] is a non-empty list whose first element is a list of more
    than two elements, the third a string.  [Ok None] when one of the tests
    fails. *)
Definition frame_payload (line : pystr) : result (option pyval) :=
  (json_data <- loads E line ;;
   is_frame <- andr (Ok (isinstance_list json_data)) (len_gt json_data 0) ;;
   if is_frame then
     first <- py_index json_data 0 ;;
     long <- andr (Ok (isinstance_list first)) (len_gt first 2) ;;
     if long then
       payload_str <- py_index first 2 ;;
       match payload_str with
       | PStr text => inner_data <- loads E text ;; Ok (Some inner_data)
       | _ => Ok None
       end
     else Ok None
   else Ok None)%py.

(** The body of the loop over the lines of the answer. *)
Definition read_line (line : pystr) (parsed_text : pyval) (b : bot)
  : flow * pyval * bot :=
  if negb (nonempty (strip line)) then (Next, parsed_text, b)
  else
    match frame_payload line with
    | Ok (Some inner_data) =>
        match andr (len_gt inner_data 4) (truthy_at inner_data 4) with
        | Ok true => take_reply inner_data parsed_text b
        | _ => (Next, parsed_text, b)
        end
    | _ => (Next, parsed_text, b)
    end.

Fixpoint read_lines (lines : list pystr) (parsed_text : pyval) (b : bot)
  : pyval * bot :=
  match lines with
  | [] => (parsed_text, b)
  | line :: rest =>
      match read_line line parsed_text b with
      | (Break, text, b') => (text, b')
      | (Next, text, b') => read_lines rest text b'
      end
  end.

(** The lines of the answer, the prefix [)]}'] dropped. *)
Definition answer_lines (raw_text : pystr) : list pystr :=
  split_on 10 match strip_prefix (lit ")]}'") raw_text with
              | Some r => r
              | None => raw_text
              end.

(** [send_message]: the returned value and the session afterwards. *)
Definition send_message (message : pystr) (s : session) : pyval * session :=
  let b := this s in
  match snlm0e b with
  | None | Some [] => (PStr NOT_INITIALISED, s)
  | Some token =>
      let params :=
        [(lit "bl", lit "boq_assistant-bard-web-server_20240519.16_p0");
         (lit "_reqid", int_repr (randint E (drawn s) 100000 999999));
         (lit "rt", lit "c")] in
      let req_json := PList [PNone; PStr (default_dumps (inner_request message b))] in
      let data := [(lit "f.req", default_dumps req_json); (lit "at", token)] in
      let (answer, s1) :=
        issue (requests_post URL params data (headers b) (proxies b))
              {| this := b; calls := calls s; drawn := S (drawn s) |} in
      match answer with
      | Failed e => (PStr (REQUEST_FAILED ++ exn_str e), s1)
      | Responded resp =>
          if negb (status_code resp =? 200)%Z
          then (PStr (REFUSED ++ int_repr (status_code resp)), s1)
          else
            let (parsed_text, b') :=
              read_lines (answer_lines (resp_text resp)) PNone b in
            (if truthy parsed_text then parsed_text else PStr UNPARSED,
             {| this := b'; calls := calls s1; drawn := drawn s1 |})
      end
  end.

End Bot.

(** The three context ids of the bot. *)
Definition memory (b : bot) : pyval * pyval * pyval := (cid b, rid b, rcid b).

End Quite.

(** A bot holding a session key, and a server whose answer is one frame
    with the text [Hello] and the ids [c_2], [r_2] and [rc_2]. *)
Definition example_bot : Quite.bot :=
  Quite.set_snlm0e (Some (lit "key"))
    (Quite.__init__ (lit " SID=abc ") (lit "Mozilla/5.0") 7897).

Definition example_session : Quite.session :=
  {| Quite.this := example_bot; Quite.calls := []; Quite.drawn := 0 |}.

Definition example_answer : pystr :=
  lit ")]}'" ++ [10; 10]
  ++ json_dumps (float_repr example_env)
       (PList [PList [PStr (lit "wrb.fr"); PNone;
                      PStr (json_dumps (float_repr example_env)
                              (PList [PNone;
                                      PList [PStr (lit "c_2"); PStr (lit "r_1")];
                                      PNone; PNone;
                                      PList [PList [PStr (lit "rc_2");
                                                    PList [PStr (lit "Hello");
                                                           PStr (lit "r_2")]]]]))]])
  ++ [10].

Definition example_remote (n : nat) (rq : Quite.call) : net_result :=
  Responded {| status_code := 200%Z; resp_headers := [];
               resp_text := example_answer; resp_content := [] |}.

(** A start page holding the session key. *)
Definition example_page : pystr :=
  lit "<script>{" ++ Quite.SNLM0E_KEY ++ lit "key" ++ [34] ++ lit "}</script>".

Definition example_page_remote (n : nat) (rq : Quite.call) : net_result :=
  Responded {| status_code := 200%Z; resp_headers := [];
               resp_text := example_page; resp_content := [] |}.

(** * The streams and the format conversion of [server.py] *)

(** [range(start, stop, step)] for a step of at least 1: at most [stop]
    values. *)
Fixpoint range_from (fuel i stop step : nat) : list nat :=
  match fuel with
  | O => []
  | S fuel' => if Nat.ltb i stop then i :: range_from fuel' (i + step) stop step else []
  end.

Definition py_range (start stop step : nat) : list nat :=
  range_from stop start stop step.

(** [s[i:j]] for [0 <= i <= j] *)
Definition py_slice {A} (s : list A) (i j : nat) : list A :=
  firstn (j - i) (skipn i s).

Section FakeStream.

Variable float_repr : float -> pystr.
Variables completion_id model : pystr.
Variable created_time : Z.

(** The dict [chunk_data] of [chat_completions]. *)
Definition chunk_data (delta finish_reason : pyval) : pyval :=
  PDict [(lit "id", PStr completion_id);
         (lit "object", PStr (lit "chat.completion.chunk"));
         (lit "created", PInt created_time);
         (lit "model", PStr model);
         (lit "choices",
          PList [PDict [(lit "index", PInt 0);
                        (lit "delta", delta);
                        (lit "finish_reason", finish_reason)]])].

(** One server-sent event: [f"data: {json.dumps(chunk_data)}\n\n"] *)
Definition sse_event (v : pyval) : pystr :=
  lit "data: " ++ json_dumps_default float_repr v ++ [10; 10].

Definition role_event : pystr :=
  sse_event (chunk_data (PDict [(lit "role", PStr (lit "assistant"))]) PNone).
Definition content_event (chunk_text : pystr) : pystr :=
  sse_event (chunk_data (PDict [(lit "content", PStr chunk_text)]) PNone).
Definition stop_event : pystr :=
  sse_event (chunk_data (PDict []) (PStr (lit "stop"))).
Definition DONE_EVENT : pystr := lit "data: [DONE]" ++ [10; 10].

(** [generate_fake_stream] of [chat_completions]: the events it yields,
    the pauses between them left out. *)
Definition generate_fake_stream (reply_content : pystr) : list pystr :=
  let chunk_size := 10%nat in
  role_event
  :: map (fun i => content_event (py_slice reply_content i (i + chunk_size)))
         (py_range 0 (List.length reply_content) chunk_size)
  ++ [stop_event; DONE_EVENT].

End FakeStream.

(** [k in v] for a string [k] *)
Definition py_in_str (k : pystr) (v : pyval) : result bool :=
  match v with
  | PDict d => Ok (has_key d k)
  | PList l => Ok (existsb (fun x => eq_str x k) l)
  | PStr s => Ok (contains s k)
  | _ => Raise TypeError
  end.

Section GeminiFormat.

Variable E : environment.

(** A value formatted into an f-string: a [str] as it is, [str()] of the
    others. *)
Definition format_value (v : pyval) : pystr :=
  match v with
  | PStr s => s
  | _ => py_str E v
  end.

(** One round of [for part in parts] in [gemini_generate_content]. *)
Definition convert_part (message_content : list pyval) (part : pyval)
  : result (list pyval) :=
  (has_text <- py_in_str (lit "text") part ;;
   if has_text then
     t <- py_getitem_str part (lit "text") ;;
     Ok (message_content
         ++ [PDict [(lit "type", PStr (lit "text")); (lit "text", t)]])
   else
     has_inline <- py_in_str (lit "inlineData") part ;;
     if has_inline then
       inline_data <- py_getitem_str part (lit "inlineData") ;;
       mime <- py_get inline_data (lit "mimeType") (PStr (lit "image/jpeg")) ;;
       d <- py_get inline_data (lit "data") (PStr []) ;;
       Ok (message_content
           ++ [PDict [(lit "type", PStr (lit "image_url"));
                      (lit "image_url",
                       PDict [(lit "url",
                               PStr (lit "data:" ++ format_value mime
                                     ++ lit ";base64," ++ format_value d))])]])
     else Ok message_content)%py.

(** One round of [for content in request.contents]: the message appended
    to [messages]. *)
Definition convert_content (content : list (pystr * pyval)) : result pyval :=
  let role := match dict_get content (lit "role") with
              | Some r => r
              | None => PStr (lit "user")
              end in
  let parts := match dict_get content (lit "parts") with
               | Some p => p
               | None => PList []
               end in
  let new_role := PStr (if eq_str role (lit "user") then lit "user" else lit "model") in
  (items <- py_iter parts ;;
   message_content <- fold_result convert_part items [] ;;
   only_text <-
     andr (Ok (Nat.eqb (List.length message_content) 1))
          (first <- py_index (PList message_content) 0 ;;
           ty <- py_get first (lit "type") PNone ;;
           Ok (eq_str ty (lit "text"))) ;;
   if only_text then
     first <- py_index (PList message_content) 0 ;;
     t <- py_getitem_str first (lit "text") ;;
     Ok (PDict [(lit "role", new_role); (lit "content", t)])
   else
     Ok (PDict [(lit "role", new_role); (lit "content", PList message_content)]))%py.

End GeminiFormat.

(** The parts of a Gemini request: a text or an inline image. *)
Inductive gemini_part : Type :=
| TextPart (text : pystr)
| InlinePart (mimeType data : pystr).

Definition part_json (p : gemini_part) : pyval :=
  match p with
  | TextPart t => PDict [(lit "text", PStr t)]
  | InlinePart m d =>
      PDict [(lit "inlineData",
              PDict [(lit "mimeType", PStr m); (lit "data", PStr d)])]
  end.

(** An inline image whose type is non-empty and free of semicolons and
    whose data are non-empty and free of newlines. *)
Definition part_ok (p : gemini_part) : bool :=
  match p with
  | TextPart _ => true
  | InlinePart m d =>
      nonempty m && forallb (fun c => negb (c =? 59)) m
      && nonempty d && forallb (fun c => negb (c =? 10)) d
  end.

Definition part_texts (parts : list gemini_part) : list pystr :=
  flat_map (fun p => match p with TextPart t => [t] | InlinePart _ _ => [] end) parts.

Definition part_images (parts : list gemini_part) : list image_entry :=
  flat_map (fun p => match p with
                     | TextPart _ => []
                     | InlinePart m d => [{| mime_type := m; data := d |}]
                     end) parts.

(** The item of an OpenAI-format content that stands for a part. *)
Definition part_item (p : gemini_part) : pyval :=
  match p with
  | TextPart t => PDict [(lit "type", PStr (lit "text")); (lit "text", PStr t)]
  | InlinePart m d =>
      PDict [(lit "type", PStr (lit "image_url"));
             (lit "image_url",
              PDict [(lit "url", PStr (lit "data:" ++ m ++ lit ";base64," ++ d))])]
  end.

Definition example_parts : list gemini_part :=
  [TextPart (lit "What is"); InlinePart (lit "image/png") (lit "aGVsbG8=");
   TextPart (lit "this?")].

(** * The admin sessions of [server.py]

    [_admin_sessions] is a set of tokens; [secrets.token_hex(32)] is the
    oracle [token_hex], consulted with the number of tokens drawn so far. *)

Definition ADMIN_USERNAME : pystr := lit "admin".
Definition ADMIN_PASSWORD : pystr := lit "admin123".

(** [x in s], [s.add(x)] and [s.discard(x)] for a set of strings kept as a
    list without repetition *)
Definition set_mem (x : pystr) (s : list pystr) : bool := existsb (pystr_eqb x) s.
Definition set_add (x : pystr) (s : list pystr) : list pystr :=
  if set_mem x s then s else x :: s.
Definition set_discard (x : pystr) (s : list pystr) : list pystr :=
  filter (fun y => negb (pystr_eqb x y)) s.

Record admin_state : Type := {
  _admin_sessions : list pystr;
  tokens_drawn : nat
}.

(** [verify_admin_session], given the cookie [admin_session] of the
    request ([None] when it has none) *)
Definition verify_admin_session (st : admin_state) (token : option pystr) : bool :=
  if negb (opt_truthy token)
     || negb match token with
             | Some t => set_mem t (_admin_sessions st)
             | None => false
             end
  then false
  else true.

(** What [admin_login] answers: the body, and the cookie [admin_session]
    it sets. *)
Inductive login_reply : Type :=
| LoggedIn (body : pyval) (admin_session : pystr)
| Refused (body : pyval).

Definition LOGIN_OK : pystr := [30331; 24405; 25104; 21151].
Definition LOGIN_WRONG : pystr :=
  [29992; 25143; 21517; 25110; 23494; 30721; 38169; 35823].

Section AdminSessions.

Variable token_hex : nat -> pystr.

(** [admin_login], given the decoded body [data] of the request *)
Definition admin_login (data : pyval) (st : admin_state)
  : result (login_reply * admin_state) :=
  (username <- py_get data (lit "username") (PStr []) ;;
   password <- py_get data (lit "password") (PStr []) ;;
   if eq_str username ADMIN_USERNAME && eq_str password ADMIN_PASSWORD then
     let token := token_hex (tokens_drawn st) in
     Ok (LoggedIn (PDict [(lit "success", PBool true); (lit "message", PStr LOGIN_OK)])
                  token,
         {| _admin_sessions := set_add token (_admin_sessions st);
            tokens_drawn := S (tokens_drawn st) |})
   else
     Ok (Refused (PDict [(lit "success", PBool false);
                         (lit "message", PStr LOGIN_WRONG)]),
         st))%py.

(** [admin_logout]: the sessions afterwards (the answer is always the
    redirection to the login page, the cookie deleted). *)
Definition admin_logout (token : option pystr) (st : admin_state) : admin_state :=
  if opt_truthy token
     && match token with
        | Some t => set_mem t (_admin_sessions st)
        | None => false
        end
  then {| _admin_sessions :=
            set_discard (some_or_empty token) (_admin_sessions st);
          tokens_drawn := tokens_drawn st |}
  else st.

(** The requests that touch the sessions, and the state after a sequence
    of them; a login that raises leaves the state as it was. *)
Inductive admin_call : Type :=
| Login (data : pyval)
| Logout (token : option pystr).

Definition admin_step (st : admin_state) (c : admin_call) : admin_state :=
  match c with
  | Login data =>
      match admin_login data st with
      | Ok (_, st') => st'
      | Raise _ => st
      end
  | Logout token => admin_logout token st
  end.

Definition admin_run (calls : list admin_call) : admin_state :=
  fold_left admin_step calls {| _admin_sessions := []; tokens_drawn := 0 |}.

End AdminSessions.

(** The body of a login request. *)
Definition credentials (username password : pystr) : pyval :=
  PDict [(lit "username", PStr username); (lit "password", PStr password)].

Definition example_token_hex (n : nat) : pystr :=
  lit "5f2b8c1d" ++ int_repr (Z.of_nat n).

(** The messages the loop of [chat] appends to the history for the items of
    a [messages] list: one for each item of role [user] or [assistant], in
    order, with the content of the item. *)
Definition taken_message (msg : pyval) : list Message :=
  match py_get msg (lit "role") (PStr []),
        py_get msg (lit "content") (PStr []) with
  | Ok r, Ok c =>
      if eq_str r (lit "user") then [{| role := PStr (lit "user"); content := c |}]
      else if eq_str r (lit "assistant")
      then [{| role := PStr (lit "assistant"); content := c |}]
      else []
  | _, _ => []
  end.

Definition taken_messages (items : list pyval) : list Message :=
  flat_map taken_message items.

(** The content of the last message of role [user] in a [messages] list,
    if there is one. *)
Fixpoint last_user_content (items : list pyval) : option pyval :=
  match items with
  | [] => None
  | msg :: rest =>
      match last_user_content rest with
      | Some c => Some c
      | None =>
          match py_get msg (lit "role") (PStr []),
                py_get msg (lit "content") (PStr []) with
          | Ok r, Ok c => if eq_str r (lit "user") then Some c else None
          | _, _ => None
          end
      end
  end.

(** * Facts about the [json] model *)


(** ** Strings *)

Lemma hex_small (c : N) :
  c < 32 ->
  hex4 48 48 (hex_digit (c / 16)) (hex_digit (c mod 16)) = Some c
  /\ is_high_surrogate c = false.
Proof.
  intro H.
  assert (E : exists n, c = N.of_nat n /\ (n < 32)%nat).
  { exists (N.to_nat c). split; [now rewrite N2Nat.id | lia]. }
  destruct E as (n & -> & Hn).
  do 32 (destruct n as [|n]; [vm_compute; split; reflexivity|]).
  lia.
Qed.

Lemma scanstring_plain_char (c : N) (r : pystr) :
  (c =? 34) = false -> (c =? 92) = false -> (c <? 32) = false ->
  scanstring (c :: r) = cons_char c (scanstring r).
Proof. intros H1 H2 H3. cbn [scanstring]. now rewrite H1, H2, H3. Qed.

Lemma scanstring_escaped_char (c : N) (tl : pystr) :
  scanstring (escape_char c ++ tl) = cons_char c (scanstring tl).
Proof.
  unfold escape_char.
  destruct (c =? 34) eqn:E34.
  { apply N.eqb_eq in E34; subst c. reflexivity. }
  destruct (c =? 92) eqn:E92.
  { apply N.eqb_eq in E92; subst c. reflexivity. }
  destruct (c =? 8) eqn:E8.
  { apply N.eqb_eq in E8; subst c. reflexivity. }
  destruct (c =? 12) eqn:E12.
  { apply N.eqb_eq in E12; subst c. reflexivity. }
  destruct (c =? 10) eqn:E10.
  { apply N.eqb_eq in E10; subst c. reflexivity. }
  destruct (c =? 13) eqn:E13.
  { apply N.eqb_eq in E13; subst c. reflexivity. }
  destruct (c =? 9) eqn:E9.
  { apply N.eqb_eq in E9; subst c. reflexivity. }
  destruct (c <? 32) eqn:E32.
  - apply N.ltb_lt in E32. destruct (hex_small E32) as [Hh Hs].
    change ([92; 117; 48; 48; hex_digit (c / 16); hex_digit (c mod 16)] ++ tl)
      with (92 :: 117 :: 48 :: 48 :: hex_digit (c / 16) :: hex_digit (c mod 16) :: tl).
    cbn [scanstring]. 
    change (92 =? 34) with false. change (92 =? 92) with true.
    change (117 =? 117) with true. cbv iota.
    rewrite Hh, Hs. reflexivity.
  - apply scanstring_plain_char; assumption.
Qed.

Lemma scanstring_encode (s rest : pystr) :
  scanstring (flat_map escape_char s ++ 34 :: rest) = Some (s, rest).
Proof.
  induction s as [|c s IH]; [reflexivity|].
  cbn [flat_map]. rewrite <- app_assoc, scanstring_escaped_char, IH. reflexivity.
Qed.

(** ** Integers *)

Lemma take_digits_uint (d : Decimal.uint) (rest : pystr) :
  match rest with [] => true | c :: _ => negb (is_ascii_digit c) end = true ->
  take_digits (uint_digits d ++ rest) = (uint_digits d, rest).
Proof.
  intro Hr.
  induction d; cbn [uint_digits app take_digits];
    try (change (is_ascii_digit _) with true; cbv iota; rewrite IHd; reflexivity).
  destruct rest as [|c r]; [reflexivity|].
  cbn [take_digits]. apply negb_true_iff in Hr. now rewrite Hr.
Qed.

Lemma digits_uint_digits (d : Decimal.uint) : digits_uint (uint_digits d) = d.
Proof. induction d; cbn [uint_digits digits_uint]; try rewrite IHd; reflexivity. Qed.

Lemma pos_to_uint_head (p : positive) :
  match Pos.to_uint p with
  | Decimal.Nil | Decimal.D0 _ => False
  | _ => True
  end.
Proof.
  pose proof (DecimalPos.Unsigned.to_uint_nonnil p) as Hnil.
  pose proof (DecimalPos.Unsigned.to_uint_nonzero p) as Hz.
  assert (Hn : Decimal.unorm (Pos.to_uint p) = Pos.to_uint p).
  { rewrite <- (DecimalPos.Unsigned.to_of (Pos.to_uint p)).
    rewrite DecimalPos.Unsigned.of_to. reflexivity. }
  destruct (Pos.to_uint p) as [|u|u|u|u|u|u|u|u|u|u] eqn:E; try exact I.
  - now apply Hnil.
  - rewrite DecimalFacts.unorm_D0 in Hn.
    assert (Hlen : (Decimal.nb_digits (Decimal.unorm u) <= Decimal.nb_digits u)%nat).
    { destruct u; [|apply DecimalFacts.nb_digits_unorm; discriminate ..].
      exfalso. apply Hz. reflexivity. }
    rewrite Hn in Hlen. cbn in Hlen. lia.
Qed.


Lemma terminated_not_digit (rest : pystr) :
  terminated rest = true -> not_digit_start rest = true.
Proof.
  destruct rest as [|c r]; [reflexivity|]. cbn.
  rewrite negb_true_iff, !orb_false_iff. intros [[[H _] _] _].
  now rewrite H.
Qed.

Lemma match_integer_pos (p : positive) (rest : pystr) :
  not_digit_start rest = true ->
  match_integer (uint_digits (Pos.to_uint p) ++ rest)
  = Some (uint_digits (Pos.to_uint p), rest).
Proof.
  intro Hr. pose proof (pos_to_uint_head p) as Hh.
  destruct (Pos.to_uint p) as [|u|u|u|u|u|u|u|u|u|u]; try contradiction;
    cbn [uint_digits app]; unfold match_integer;
    match goal with |- context [?c :: uint_digits u ++ rest] =>
      change (c =? 45) with false; cbv iota beta;
      change (c =? 48) with false; change (is_ascii_digit c) with true; cbv iota
    end;
    rewrite (take_digits_uint u rest Hr); reflexivity.
Qed.

Lemma uint_digits_pos_head (p : positive) :
  exists c r, uint_digits (Pos.to_uint p) = c :: r
              /\ is_ascii_digit c = true /\ (c =? 48) = false.
Proof.
  pose proof (pos_to_uint_head p) as Hh.
  destruct (Pos.to_uint p) as [|u|u|u|u|u|u|u|u|u|u]; try contradiction;
    cbn [uint_digits]; eexists; eexists; (split; [reflexivity|split; reflexivity]).
Qed.

Lemma match_frac_terminated (rest : pystr) :
  terminated rest = true -> match_frac rest = ([], rest).
Proof.
  destruct rest as [|c r]; [reflexivity|]. cbn.
  rewrite negb_true_iff, !orb_false_iff. intros [[[_ H] _] _].
  now rewrite H.
Qed.

Lemma match_exp_terminated (rest : pystr) :
  terminated rest = true -> match_exp rest = ([], rest).
Proof.
  destruct rest as [|c r]; [reflexivity|]. cbn.
  rewrite negb_true_iff, !orb_false_iff. intros [[[_ _] H1] H2].
  now rewrite H1, H2.
Qed.

Section JsonRoundTrip.

Variable float_repr : float -> pystr.
Variable py_float : pystr -> float.

Lemma scan_number_int (z : Z) (rest : pystr) :
  terminated rest = true ->
  scan_number py_float (int_repr z ++ rest) = Some (PInt z, rest).
Proof.
  intro Hr. pose proof (terminated_not_digit rest Hr) as Hd.
  unfold scan_number, int_repr.
  destruct z as [|p|p]; cbn [Z.to_int].
  - cbn [uint_digits app]. unfold match_integer.
    change (48 =? 45) with false. cbv iota beta. change (48 =? 48) with true.
    cbv iota. rewrite (match_frac_terminated rest Hr), (match_exp_terminated rest Hr).
    reflexivity.
  - rewrite (match_integer_pos p rest Hd).
    rewrite (match_frac_terminated rest Hr), (match_exp_terminated rest Hr).
    f_equal. f_equal. f_equal.
    destruct (uint_digits_pos_head p) as (c & r & E & Hc & _).
    unfold py_int. rewrite E.
    assert (H45 : (c =? 45) = false).
    { unfold is_ascii_digit in Hc. apply andb_true_iff in Hc.
      destruct Hc as [H1 _]. apply N.leb_le in H1. apply N.eqb_neq. lia. }
    rewrite H45, <- E, digits_uint_digits.
    exact (DecimalZ.of_to (Z.pos p)).
  - change ((45 :: uint_digits (Pos.to_uint p)) ++ rest)
      with (45 :: (uint_digits (Pos.to_uint p) ++ rest)).
    unfold match_integer at 1. change (45 =? 45) with true. cbv iota beta.
    pose proof (match_integer_pos p rest Hd) as Hm. unfold match_integer in Hm.
    destruct (uint_digits_pos_head p) as (c & r & E & Hc & H48).
    rewrite E in *. cbn [app] in *.
    assert (H45 : (c =? 45) = false).
    { unfold is_ascii_digit in Hc. apply andb_true_iff in Hc.
      destruct Hc as [H1 _]. apply N.leb_le in H1. apply N.eqb_neq. lia. }
    rewrite H45 in Hm. cbv iota beta in Hm. rewrite H48, Hc in *.
    destruct (take_digits (r ++ rest)) as [dg rs].
    injection Hm as Hm1 Hm2. subst rs dg.
    rewrite (match_frac_terminated rest Hr), (match_exp_terminated rest Hr).
    cbn [app]. f_equal. f_equal. f_equal.
    unfold py_int. change (45 =? 45) with true. cbv iota.
    rewrite <- E, digits_uint_digits.
    exact (DecimalZ.of_to (Z.neg p)).
Qed.

Lemma dumps_list (l : list pyval) :
  json_dumps float_repr (PList l) = 91 :: dumps_elems float_repr l ++ [93].
Proof. reflexivity. Qed.

Lemma size_list (l : list pyval) : size (PList l) = S (size_elems l).
Proof. reflexivity. Qed.

Lemma int_repr_head (z : Z) :
  exists c r, int_repr z = c :: r /\ (is_ascii_digit c = true \/ c = 45).
Proof.
  unfold int_repr. destruct z as [|p|p]; cbn [Z.to_int].
  - exists 48, []. split; [reflexivity|left; reflexivity].
  - destruct (uint_digits_pos_head p) as (c & r & E & Hc & _).
    exists c, r. split; [exact E|left; exact Hc].
  - eexists; eexists. split; [reflexivity|right; reflexivity].
Qed.

Lemma scan_once_number_start (fuel : nat) (c : N) (r : pystr) :
  is_ascii_digit c = true \/ c = 45 ->
  scan_once py_float (S fuel) (c :: r)
  = match scan_number py_float (c :: r) with
    | Some res => Some res
    | None => scan_constant (c :: r)
    end.
Proof.
  intro Hc.
  assert (Hrange : 45 <= c <= 57).
  { destruct Hc as [Hc| ->]; [|lia].
    unfold is_ascii_digit in Hc. apply andb_true_iff in Hc.
    destruct Hc as [H1 H2]. apply N.leb_le in H1, H2. lia. }
  cbn [scan_once].
  replace (c =? 34) with false by (symmetry; apply N.eqb_neq; lia).
  replace (c =? 123) with false by (symmetry; apply N.eqb_neq; lia).
  replace (c =? 91) with false by (symmetry; apply N.eqb_neq; lia).
  cbn [lit strip_prefix]. 
  replace (N_of_ascii "n" =? c) with false by (symmetry; apply N.eqb_neq; cbn; lia).
  replace (N_of_ascii "t" =? c) with false by (symmetry; apply N.eqb_neq; cbn; lia).
  replace (N_of_ascii "f" =? c) with false by (symmetry; apply N.eqb_neq; cbn; lia).
  reflexivity.
Qed.


Lemma dumps_head (v : pyval) :
  plain v = true ->
  exists c r, json_dumps float_repr v = c :: r /\ value_start c = true.
Proof.
  destruct v as [|b|z|f|s|l|d]; cbn [plain]; intro Hp; try discriminate.
  - eexists; eexists; split; reflexivity.
  - destruct b; eexists; eexists; split; reflexivity.
  - destruct (int_repr_head z) as (c & r & E & Hc).
    exists c, r. split; [exact E|].
    assert (Hrange : 45 <= c <= 57).
    { destruct Hc as [Hc| ->]; [|lia].
      unfold is_ascii_digit in Hc. apply andb_true_iff in Hc.
      destruct Hc as [H1 H2]. apply N.leb_le in H1, H2. lia. }
    unfold value_start, is_json_ws.
    replace (c =? 32) with false by (symmetry; apply N.eqb_neq; lia).
    replace (c =? 9) with false by (symmetry; apply N.eqb_neq; lia).
    replace (c =? 10) with false by (symmetry; apply N.eqb_neq; lia).
    replace (c =? 13) with false by (symmetry; apply N.eqb_neq; lia).
    replace (c =? 93) with false by (symmetry; apply N.eqb_neq; lia).
    reflexivity.
  - eexists; eexists; split; reflexivity.
  - eexists; eexists; split; reflexivity.
Qed.

Lemma skip_ws_value_start (c : N) (r : pystr) :
  value_start c = true -> skip_ws (c :: r) = c :: r.
Proof.
  unfold value_start. intro H. apply andb_true_iff in H. destruct H as [H _].
  apply negb_true_iff in H. cbn [skip_ws]. now rewrite H.
Qed.

Lemma dumps_elems_head (l : list pyval) (tl : pystr) :
  l <> [] -> forallb plain l = true ->
  exists c r, dumps_elems float_repr l ++ tl = c :: r /\ value_start c = true.
Proof.
  destruct l as [|x xs]; [congruence|]. intros _ Hp.
  cbn [forallb] in Hp. apply andb_true_iff in Hp. destruct Hp as [Hx _].
  destruct (dumps_head x Hx) as (c & r & E & Hc).
  cbn [dumps_elems]. rewrite E. eexists; eexists. split; [reflexivity|exact Hc].
Qed.

Lemma roundtrip_fuel (fuel : nat) :
  (forall v rest, plain v = true -> (size v <= fuel)%nat -> terminated rest = true ->
     scan_once py_float fuel (json_dumps float_repr v ++ rest) = Some (v, rest))
  /\ (forall l rest, l <> [] -> forallb plain l = true -> (size_elems l <= fuel)%nat ->
        parse_elems py_float fuel (dumps_elems float_repr l ++ 93 :: rest) = Some (l, rest)).
Proof.
  induction fuel as [|fuel [IHv IHl]].
  - split.
    + intros v rest _ Hs _. destruct v; cbn in Hs; lia.
    + intros l rest Hl _ Hs. destruct l; [congruence|cbn in Hs; lia].
  - split.
    + intros v rest Hp Hs Hr.
      destruct v as [|b|z|f|s|l|d]; cbn [plain] in Hp; try discriminate.
      * reflexivity.
      * destruct b; reflexivity.
      * destruct (int_repr_head z) as (c & r & E & Hc).
        cbn [json_dumps].
        pose proof (scan_number_int z rest Hr) as Hn.
        rewrite E in *. cbn [app] in *.
        rewrite (scan_once_number_start fuel (r ++ rest) Hc), Hn. reflexivity.
      * cbn [json_dumps]. unfold encode_basestring.
        change ((34 :: flat_map escape_char s ++ [34]) ++ rest)
          with (34 :: ((flat_map escape_char s ++ [34]) ++ rest)).
        rewrite <- app_assoc. cbn [app scan_once].
        change (34 =? 34) with true. cbv iota.
        rewrite scanstring_encode. reflexivity.
      * rewrite dumps_list. rewrite size_list in Hs.
        change ((91 :: dumps_elems float_repr l ++ [93]) ++ rest)
          with (91 :: ((dumps_elems float_repr l ++ [93]) ++ rest)).
        rewrite <- app_assoc. cbn [app].
        destruct l as [|x xs].
        -- reflexivity.
        -- assert (Hne : x :: xs <> []) by discriminate.
           destruct (dumps_elems_head (93 :: rest) Hne Hp) as (c & r & E & Hc).
           cbn [scan_once]. change (91 =? 34) with false.
           change (91 =? 123) with false. change (91 =? 91) with true. cbv iota.
           rewrite E, (@skip_ws_value_start c r Hc).
           replace (c =? 93) with false.
           2:{ unfold value_start in Hc. apply andb_true_iff in Hc.
               destruct Hc as [_ Hc]. apply negb_true_iff in Hc. now rewrite Hc. }
           rewrite <- E, (IHl (x :: xs) rest Hne Hp); [reflexivity|lia].
    + intros l rest Hne Hp Hs.
      destruct l as [|x xs]; [congruence|].
      cbn [size_elems] in Hs. cbn [forallb] in Hp.
      apply andb_true_iff in Hp. destruct Hp as [Hx Hxs].
      cbn [parse_elems dumps_elems].
      destruct xs as [|y ys].
      * rewrite <- app_assoc. cbn [app].
        rewrite (IHv x (93 :: rest) Hx); [|lia|reflexivity].
        reflexivity.
      * rewrite <- app_assoc.
        change ((44 :: dumps_elems float_repr (y :: ys)) ++ 93 :: rest)
          with (44 :: (dumps_elems float_repr (y :: ys) ++ 93 :: rest)).
        rewrite (IHv x _ Hx); [|lia|reflexivity].
        cbn [skip_ws]. change (is_json_ws 44) with false. cbv iota.
        change (44 =? 93) with false. change (44 =? 44) with true. cbv iota.
        assert (Hne' : y :: ys <> []) by discriminate.
        destruct (dumps_elems_head (93 :: rest) Hne' Hxs) as (c & r & E & Hc).
        rewrite E, (@skip_ws_value_start c r Hc), <- E.
        rewrite (IHl (y :: ys) rest Hne' Hxs); [reflexivity|lia].
Qed.

(** The encoded text is long enough to pay for the decoder's fuel. *)
Lemma dumps_length (v : pyval) :
  plain v = true ->
  (1 <= List.length (json_dumps float_repr v))%nat
  /\ (size v <= 2 * List.length (json_dumps float_repr v))%nat.
Proof.
  induction v as [|b|z|f|s|l IH|d IH] using pyval_ind; cbn [plain]; intro Hp;
    try discriminate.
  - cbn. lia.
  - destruct b; cbn; lia.
  - destruct (int_repr_head z) as (c & r & E & _). cbn [json_dumps size].
    rewrite E. cbn [List.length]. lia.
  - cbn [json_dumps size]. unfold encode_basestring. cbn [List.length]. lia.
  - rewrite dumps_list, size_list. cbn [List.length]. rewrite length_app.
    cbn [List.length].
    assert (H : (size_elems l <= 2 * List.length (dumps_elems float_repr l) + 1)%nat).
    { induction l as [|x xs IHxs]; [cbn; lia|].
      cbn [forallb] in Hp. apply andb_true_iff in Hp. destruct Hp as [Hx Hxs].
      inversion IH as [|? ? IHx IHrest]; subst.
      specialize (IHx Hx). specialize (IHxs IHrest Hxs).
      cbn [size_elems dumps_elems]. rewrite length_app.
      destruct xs as [|y ys].
      - cbn [size_elems List.length] in *. lia.
      - cbn [List.length]. lia. }
    lia.
Qed.

(** [json.loads] undoes [json.dumps] on plain values. *)
Lemma json_roundtrip (v : pyval) :
  plain v = true ->
  json_loads py_float (json_dumps float_repr v) = Some v.
Proof.
  intro Hp. unfold json_loads.
  destruct (dumps_head v Hp) as (c & r & E & Hc).
  destruct (dumps_length v Hp) as [_ Hlen].
  destruct (roundtrip_fuel (S (2 * List.length (json_dumps float_repr v)))) as [Hv _].
  specialize (Hv v [] Hp).
  rewrite app_nil_r in Hv.
  rewrite E, (@skip_ws_value_start c r Hc), <- E.
  rewrite Hv; [reflexivity|lia|reflexivity].
Qed.

End JsonRoundTrip.

(** * Facts about the state monad *)


Lemma blind_ret {A} (a : A) : world_blind (ret a).
Proof. intros w1 w2. reflexivity. Qed.

Lemma blind_raise {A} (e : exn) : world_blind (@raise A e).
Proof. intros w1 w2. reflexivity. Qed.

Lemma blind_lift {A} (r : result A) : world_blind (lift r).
Proof. intros w1 w2. reflexivity. Qed.

Lemma blind_modify (f : client -> client) : world_blind (modify f).
Proof. intros w1 w2. reflexivity. Qed.

Lemma blind_bind {A B} (m : M A) (k : A -> M B) :
  world_blind m -> (forall a, world_blind (k a)) -> world_blind (bindM m k).
Proof.
  intros Hm Hk w1 w2. unfold bindM. specialize (Hm w1 w2).
  destruct (m w1) as [[a1|e1] w1'], (m w2) as [[a2|e2] w2']; cbn in Hm;
    try discriminate; try (injection Hm as ->; try apply Hk; reflexivity).
Qed.

Lemma blind_catch {A} (m : M A) (h : exn -> M A) :
  world_blind m -> (forall e, world_blind (h e)) -> world_blind (catch m h).
Proof.
  intros Hm Hh w1 w2. unfold catch. specialize (Hm w1 w2).
  destruct (m w1) as [[a1|e1] w1'], (m w2) as [[a2|e2] w2']; cbn in Hm;
    try discriminate; try (injection Hm as ->; try apply Hh; reflexivity).
Qed.

(** Reading the client only to update it. *)
Lemma blind_update {A} (f : client -> client -> client) (k : M A) :
  world_blind k ->
  world_blind (bindM get_self (fun c => bindM (modify (f c)) (fun _ => k))).
Proof.
  intros Hk w1 w2. unfold bindM, get_self, modify. apply Hk.
Qed.

Lemma blind_update_last (f : client -> client -> client) :
  world_blind (bindM get_self (fun c => modify (f c))).
Proof. intros w1 w2. reflexivity. Qed.

Lemma blind_for_each {A B} (body : A -> B -> M B) (l : list A) :
  (forall x acc, world_blind (body x acc)) ->
  forall acc, world_blind (for_each l acc body).
Proof.
  intro Hb. induction l as [|x xs IH]; intro acc; cbn [for_each].
  - apply blind_ret.
  - apply blind_bind; [apply Hb|intro; apply IH].
Qed.

Lemma blind_if {A} (b : bool) (m1 m2 : M A) :
  world_blind m1 -> world_blind m2 -> world_blind (if b then m1 else m2).
Proof. destruct b; auto. Qed.

Section ParseResponse.

Variable E : environment.

Ltac blind :=
  repeat first
    [ apply blind_ret | apply blind_raise | apply blind_lift | apply blind_modify
    | apply blind_update_last
    | apply blind_update
    | apply blind_if
    | apply blind_bind; [|intro]
    | apply blind_catch; [|intro] ].

Lemma update_context_blind inner_json : world_blind (update_context inner_json).
Proof. unfold update_context. blind. Qed.

Lemma extract_text_blind inner_json ft : world_blind (extract_text E inner_json ft).
Proof. unfold extract_text. blind. Qed.

Lemma parse_line_blind line ft : world_blind (parse_line E line ft).
Proof.
  unfold parse_line. blind; first [apply update_context_blind | apply extract_text_blind].
Qed.

Lemma process_line_blind raw ft : world_blind (process_line E raw ft).
Proof.
  unfold process_line. blind; apply parse_line_blind.
Qed.


Lemma lstrip_length (s : pystr) : (List.length (lstrip s) <= List.length s)%nat.
Proof.
  induction s as [|c r IH]; cbn [lstrip]; [lia|].
  destruct (is_space c); cbn [List.length]; lia.
Qed.

Lemma strip_length (s : pystr) : (List.length (strip s) <= List.length s)%nat.
Proof.
  unfold strip, rstrip. rewrite length_rev.
  etransitivity; [apply lstrip_length|]. rewrite length_rev. apply lstrip_length.
Qed.

Lemma choose_nil (ft : pystr) : choose ft [] = ft.
Proof.
  unfold choose.
  replace (List.length ft <? List.length (@nil N))%nat with false; [reflexivity|].
  symmetry. apply Nat.ltb_ge. cbn. lia.
Qed.

Lemma choose_taken (ft text : pystr) :
  Nat.ltb 0 (List.length (strip text)) = true ->
  Nat.ltb (List.length ft) (List.length text) || negb (nonempty ft) = true ->
  choose ft text = text.
Proof.
  intros Hs H. unfold choose. apply Nat.ltb_lt in Hs.
  pose proof (strip_length text) as Hl.
  apply orb_true_iff in H. destruct H as [H|H].
  - now rewrite H.
  - destruct ft; [|discriminate]. cbn [List.length].
    replace (0 <? List.length text)%nat with true; [reflexivity|].
    symmetry. apply Nat.ltb_lt. lia.
Qed.

Lemma choose_kept (ft text : pystr) :
  Nat.ltb (List.length ft) (List.length text) || negb (nonempty ft) = false ->
  choose ft text = ft.
Proof.
  intro H. apply orb_false_iff in H. destruct H as [H _].
  unfold choose. now rewrite H.
Qed.

Ltac run_step :=
  match goal with
  | |- context [match ?x with _ => _ end] =>
      lazymatch x with
      | context [match _ with _ => _ end] => fail
      | _ => destruct x eqn:?
      end
  end.

Lemma candidate_head (c : pyval) :
  andr (andr (Ok (truthy c)) (len_gt c 1)) (truthy_at c 1) = Ok true ->
  len_gt c 0 = Ok true /\ exists x, py_index c 0 = Ok x.
Proof.
  destruct c as [|b|z|f|s|l|d]; cbn; try discriminate;
    try (destruct b; discriminate);
    try (destruct (negb _); discriminate).
  - destruct s as [|x [|y s]]; cbn; try discriminate. intros _. eauto.
  - destruct l as [|x [|y l]]; cbn; try discriminate. intros _. eauto.
  - destruct d as [|x [|y d]]; cbn; discriminate.
Qed.

Ltac candidate_contradiction :=
  match goal with
  | H : andr (andr (Ok (truthy ?c)) (len_gt ?c 1)) (truthy_at ?c 1) = Ok true |- _ =>
      destruct (candidate_head c H) as [? [? ?]]; congruence
  end.

Ltac empty_contradiction :=
  match goal with
  | H : _ || negb (nonempty []) = false |- _ =>
      cbn in H; rewrite orb_true_r in H; discriminate
  end.

Lemma extract_text_choose inner_json ft w :
  match fst (extract_text E inner_json [] w) with
  | Raise e => fst (extract_text E inner_json ft w) = Raise e
  | Ok t0 => fst (extract_text E inner_json ft w) = Ok (choose ft t0)
  end.
Proof.
  unfold extract_text, bindM, lift, ret, get_self, modify.
  repeat (cbv beta iota zeta; cbn [fst]; run_step); cbv beta iota zeta; cbn [fst];
    try reflexivity; try discriminate;
    rewrite ?choose_nil; try reflexivity.
  all: first [ now rewrite choose_taken | now rewrite choose_kept
             | candidate_contradiction | empty_contradiction ].
Qed.

Lemma parse_line_choose line ft w :
  match fst (parse_line E line [] w) with
  | Raise e => fst (parse_line E line ft w) = Raise e
  | Ok t0 => fst (parse_line E line ft w) = Ok (choose ft t0)
  end.
Proof.
  unfold parse_line, bindM, lift, ret, bind.
  repeat (cbv beta iota zeta; cbn [fst];
          match goal with
          | |- context [match ?x with _ => _ end] =>
              lazymatch x with
              | context [match _ with _ => _ end] => fail
              | context [extract_text] => fail
              | _ => destruct x eqn:?
              end
          end);
    cbv beta iota zeta; cbn [fst]; try reflexivity; try discriminate;
    rewrite ?choose_nil; try reflexivity.
  all: apply extract_text_choose.
Qed.

(** A round of the loop never raises, and what it leaves in [final_text]
    is the longer of the old value and the line's candidate text. *)
Lemma process_line_choose raw ft w :
  fst (process_line E raw ft w) = Ok (choose ft (line_text E raw w)).
Proof.
  unfold line_text, process_line.
  destruct (negb (nonempty (strip raw)) || startswith (strip raw) (lit ")]}'")).
  { unfold ret. cbn [fst]. now rewrite choose_nil. }
  destruct (isdigit E (strip raw)).
  { unfold ret. cbn [fst]. now rewrite choose_nil. }
  unfold catch, ret.
  pose proof (parse_line_choose (strip raw) ft w) as H.
  destruct (parse_line E (strip raw) [] w) as [[t0|e0] w0];
    destruct (parse_line E (strip raw) ft w) as [[t1|e1] w1]; cbn [fst] in *;
    try discriminate; try congruence.
  now rewrite choose_nil.
Qed.

(** A candidate text is stored only when it is not white space alone. *)
Lemma extract_text_accepted inner_json w :
  match fst (extract_text E inner_json [] w) with
  | Raise _ => True
  | Ok t => t = [] \/ nonempty (strip t) = true
  end.
Proof.
  unfold extract_text, bindM, lift, ret, get_self, modify.
  repeat (cbv beta iota zeta; cbn [fst]; run_step); cbv beta iota zeta; cbn [fst];
    try exact I; try (left; reflexivity).
  all: right;
    match goal with
    | H : Nat.ltb 0 (List.length (strip ?t)) = true |- nonempty (strip ?t) = true =>
        destruct (strip t); [discriminate H|reflexivity]
    end.
Qed.

Lemma parse_line_accepted line w :
  match fst (parse_line E line [] w) with
  | Raise _ => True
  | Ok t => t = [] \/ nonempty (strip t) = true
  end.
Proof.
  unfold parse_line, bindM, lift, ret, bind.
  repeat (cbv beta iota zeta; cbn [fst];
          match goal with
          | |- context [match ?x with _ => _ end] =>
              lazymatch x with
              | context [match _ with _ => _ end] => fail
              | context [extract_text] => fail
              | _ => destruct x eqn:?
              end
          end);
    cbv beta iota zeta; cbn [fst]; try exact I; try (left; reflexivity).
  all: apply extract_text_accepted.
Qed.

Lemma line_text_accepted raw w :
  line_text E raw w = [] \/ nonempty (strip (line_text E raw w)) = true.
Proof.
  unfold line_text, process_line.
  destruct (negb (nonempty (strip raw)) || startswith (strip raw) (lit ")]}'"));
    [left; reflexivity|].
  destruct (isdigit E (strip raw)); [left; reflexivity|].
  unfold catch, ret.
  pose proof (parse_line_accepted (strip raw) w) as H.
  destruct (parse_line E (strip raw) [] w) as [[t0|e0] w0]; cbn [fst] in *;
    [exact H|left; reflexivity].
Qed.

Lemma line_text_blind raw w1 w2 : line_text E raw w1 = line_text E raw w2.
Proof.
  unfold line_text. now rewrite (process_line_blind raw [] w1 w2).
Qed.


Lemma loop_longest lines w0 : forall ft w,
  fst (for_each lines ft (process_line E) w)
  = Ok (longest (map (fun raw => line_text E raw w0) lines) ft).
Proof.
  induction lines as [|raw rest IH]; intros ft w; cbn [for_each map longest].
  - reflexivity.
  - unfold bindM. pose proof (process_line_choose raw ft w) as H.
    destruct (process_line E raw ft w) as [[t|e] w']; cbn [fst] in H; [|discriminate].
    injection H as ->. rewrite IH. now rewrite (line_text_blind raw w w0).
Qed.

(** The returned text in closed form. *)
Lemma parse_response_value response_text w w0 :
  fst (_parse_response E response_text w)
  = Ok (let ft := longest (map (fun raw => line_text E raw w0)
                                 (split_on 10 response_text)) [] in
        if nonempty ft && nonempty (strip ft) then strip ft else FALLBACK).
Proof.
  unfold _parse_response, catch, bindM.
  pose proof (loop_longest (split_on 10 response_text) w0 [] w) as H.
  cbv zeta.
  match goal with
  | |- context [@for_each ?A ?B ?l ?a ?b w] =>
      pose proof (H : fst (@for_each A B l a b w) = _) as H'; clear H;
      destruct (@for_each A B l a b w) as [[ft|e] w']
  end; cbn [fst] in H'; [|discriminate H'].
  injection H' as ->.
  destruct (nonempty _ && nonempty _); reflexivity.
Qed.

Lemma parse_line_other_shape line ft w data :
  json_loads (py_float E) line = Some data ->
  wrb_frame data = false ->
  parse_line E line ft w = (Ok ft, w).
Proof.
  intros Hl Hf. unfold parse_line, bindM, lift, ret, loads. rewrite Hl.
  destruct data as [|b|z|f|s|l|d]; try reflexivity.
  destruct l as [|a l]; [reflexivity|].
  destruct a as [|b|z|f|s|l0|d]; try reflexivity.
  destruct l0 as [|x0 [|x1 [|x2 l0]]]; try reflexivity.
  assert (Hx : eq_str x0 (lit "wrb.fr") = false).
  { destruct x0; try reflexivity. exact Hf. }
  cbn [isinstance_list andr len_gt py_len bind List.length Nat.ltb Nat.leb
       is_list_at py_index nth_error len_ge].
  rewrite Hx. reflexivity.
Qed.

Lemma process_line_skipped raw ft w :
  skipped_line E raw = true -> process_line E raw ft w = (Ok ft, w).
Proof.
  unfold skipped_line, process_line. cbv zeta.
  destruct (negb (nonempty (strip raw)) || startswith (strip raw) (lit ")]}'"));
    [reflexivity|].
  destruct (isdigit E (strip raw)); [reflexivity|].
  cbn [orb]. intro H. unfold catch.
  destruct (json_loads (py_float E) (strip raw)) as [data|] eqn:Hl.
  - apply negb_true_iff in H.
    now rewrite (parse_line_other_shape (strip raw) ft w Hl H).
  - unfold parse_line, bindM, lift, loads. now rewrite Hl.
Qed.

Lemma process_line_returns raw ft w :
  exists ft' w', process_line E raw ft w = (Ok ft', w').
Proof.
  pose proof (process_line_choose raw ft w) as H.
  destruct (process_line E raw ft w) as [[t|e] w']; cbn [fst] in H; [|discriminate H].
  eauto.
Qed.

Lemma longest_nil (texts : list pystr) :
  (forall t, In t texts -> t = []) -> longest texts [] = [].
Proof.
  induction texts as [|t rest IH]; intro H; cbn [longest]; [reflexivity|].
  rewrite (H t (or_introl eq_refl)). rewrite choose_nil.
  apply IH. intros t' Ht'. apply H. now right.
Qed.

(** *** A line that carries a candidate text *)

Lemma update_context_list (inner : list pyval) (w : world) :
  exists w', update_context (PList inner) w = (Ok tt, w').
Proof.
  unfold update_context, bindM, lift, ret, get_self, modify.
  destruct inner as [|a [|b inner]]; [cbn; eauto ..|].
  cbn [len_gt py_len bind List.length Nat.ltb Nat.leb andr truthy_at py_index nth_error].
  destruct (truthy b) eqn:Hb; [|eauto].
  destruct b as [|?|?|?|?|l1|?]; cbn [isinstance_list]; eauto.
  destruct l1 as [|p [|q l1]]; [discriminate Hb| |].
  - cbn [len_gt py_len bind List.length Nat.ltb Nat.leb andr truthy_at py_index
         nth_error len_eq Nat.eqb].
    destruct (truthy p); eauto.
  - cbn [len_gt py_len bind List.length Nat.ltb Nat.leb andr truthy_at py_index
         nth_error len_eq Nat.eqb is_none_at].
    destruct (truthy p), (truthy q); eauto.
    all: destruct l1; cbn [Nat.eqb andr List.length]; eauto.
    all: destruct p; cbn [andr]; eauto.
Qed.

Lemma lstrip_head (s : pystr) c r : lstrip s = c :: r -> is_space c = false.
Proof.
  induction s as [|x s IH]; cbn [lstrip]; [discriminate|].
  destruct (is_space x) eqn:Hx; [exact IH|].
  intro H. injection H as -> _. exact Hx.
Qed.

Lemma lstrip_suffix (s : pystr) : exists p, s = p ++ lstrip s.
Proof.
  induction s as [|x s [p IH]]; cbn [lstrip]; [now exists []|].
  destruct (is_space x).
  - exists (x :: p). cbn. now rewrite <- IH.
  - now exists [].
Qed.

Lemma rstrip_prefix (s : pystr) : exists u, s = rstrip s ++ u.
Proof.
  unfold rstrip. destruct (lstrip_suffix (rev s)) as [p Hp].
  exists (rev p). rewrite <- rev_app_distr, <- Hp. now rewrite rev_involutive.
Qed.

Lemma strip_head (s : pystr) c r : strip s = c :: r -> is_space c = false.
Proof.
  unfold strip. intro H. destruct (rstrip_prefix (lstrip s)) as [u Hu].
  rewrite H in Hu. cbn in Hu. exact (lstrip_head s Hu).
Qed.

Lemma json_ws_space (c : N) : is_json_ws c = true -> is_space c = true.
Proof.
  unfold is_json_ws. rewrite !orb_true_iff, !N.eqb_eq.
  intros [[[->| ->]| ->]| ->]; reflexivity.
Qed.

Lemma scan_number_not_list s l rest :
  scan_number (py_float E) s <> Some (PList l, rest).
Proof.
  unfold scan_number. destruct (match_integer s) as [[i r1]|]; [|discriminate].
  destruct (match_frac r1) as [fr r2], (match_exp r2) as [ex r3].
  destruct fr, ex; discriminate.
Qed.

Lemma scan_constant_not_list s l rest : scan_constant s <> Some (PList l, rest).
Proof.
  unfold scan_constant.
  repeat match goal with
         | |- context [match ?x with _ => _ end] => destruct x
         end; discriminate.
Qed.

Lemma scan_once_list_head fuel s l rest :
  scan_once (py_float E) fuel s = Some (PList l, rest) -> exists r, s = 91 :: r.
Proof.
  destruct fuel as [|fuel]; [discriminate|]. cbn [scan_once].
  destruct s as [|c r]; [discriminate|].
  destruct (c =? 34) eqn:H34.
  { destruct (scanstring r) as [[t rs]|]; discriminate. }
  destruct (c =? 123) eqn:H123.
  { destruct (skip_ws r) as [|c2 r2]; [discriminate|].
    destruct (c2 =? 125); [discriminate|].
    destruct (parse_members _ _ _ _) as [[d rs]|]; discriminate. }
  destruct (c =? 91) eqn:H91.
  { apply N.eqb_eq in H91. subst c. eauto. }
  destruct (strip_prefix (lit "null") (c :: r)); [discriminate|].
  destruct (strip_prefix (lit "true") (c :: r)); [discriminate|].
  destruct (strip_prefix (lit "false") (c :: r)); [discriminate|].
  destruct (scan_number (py_float E) (c :: r)) as [[v rs]|] eqn:Hn.
  - intro H. injection H as -> ->. now apply scan_number_not_list in Hn.
  - intro H. now apply scan_constant_not_list in H.
Qed.

(** A stripped line that decodes to a list starts with a bracket: it is
    not empty, does not carry the prefix and is not made of digits. *)
Lemma list_line_enters raw l :
  json_loads (py_float E) (strip raw) = Some (PList l) ->
  negb (nonempty (strip raw)) || startswith (strip raw) (lit ")]}'") = false
  /\ isdigit E (strip raw) = false.
Proof.
  unfold json_loads. intro H.
  destruct (scan_once _ _ _) as [[v rest]|] eqn:Hs; [|discriminate].
  destruct (skip_ws rest); [|discriminate]. injection H as ->.
  apply scan_once_list_head in Hs. destruct Hs as [r Hr].
  destruct (strip raw) as [|c t] eqn:Hst; [discriminate|].
  pose proof (strip_head raw Hst) as Hc.
  assert (Hws : is_json_ws c = false).
  { destruct (is_json_ws c) eqn:Hj; [|reflexivity].
    apply json_ws_space in Hj. congruence. }
  cbn [skip_ws] in Hr. rewrite Hws in Hr. injection Hr as -> ->.
  split; reflexivity.
Qed.

Lemma fold_part_text_strings (parts : list pystr) (acc : pystr) :
  fold_result (part_text E) (map PStr parts) acc = Ok (acc ++ concat parts).
Proof.
  revert acc. induction parts as [|p parts IH]; intro acc; cbn [map fold_result concat].
  - now rewrite app_nil_r.
  - cbn [part_text bind]. rewrite IH. now rewrite app_assoc.
Qed.

Lemma nonempty_strip (s : pystr) :
  nonempty (strip s) = true -> Nat.ltb 0 (List.length (strip s)) = true /\ s <> [].
Proof.
  intro H. split.
  - destruct (strip s); [discriminate|reflexivity].
  - intros ->. discriminate.
Qed.

Lemma json_loads_nonempty (s : pystr) v :
  json_loads (py_float E) s = Some v -> s <> [].
Proof. intros H ->. discriminate. Qed.

Lemma extract_text_candidate inner cid parts ctail crest w :
  nth_error inner 4
  = Some (PList (PList (cid :: PList (map PStr parts) :: ctail) :: crest)) ->
  nonempty (strip (concat parts)) = true ->
  fst (extract_text E (PList inner) [] w) = Ok (concat parts).
Proof.
  intros Hn Hs.
  destruct inner as [|i0 [|i1 [|i2 [|i3 [|i4 inner]]]]]; try discriminate Hn.
  cbn [nth_error] in Hn. injection Hn as ->.
  destruct (nonempty_strip _ Hs) as [Hlen Hne].
  assert (Hparts : parts <> []) by (intros ->; now apply Hne).
  assert (Htr : truthy (PList (map PStr parts)) = true).
  { destruct parts; [congruence|reflexivity]. }
  unfold extract_text, bindM, lift, ret, get_self, modify.
  cbn [andr len_gt py_len bind List.length Nat.ltb Nat.leb truthy_at
       py_index nth_error].
  change (truthy (PList (i0 :: i1 :: i2 :: i3 :: PList (PList (cid :: PList (map PStr parts) :: ctail) :: crest) :: inner))) with true.
  change (truthy (PList (PList (cid :: PList (map PStr parts) :: ctail) :: crest))) with true.
  change (truthy (PList (cid :: PList (map PStr parts) :: ctail))) with true.
  cbv iota beta. rewrite Htr. cbv iota beta.
  cbn [content_text]. rewrite (fold_part_text_strings parts []). cbn [app].
  cbn [andr]. cbv iota beta.
  destruct (strip (concat parts)); [discriminate Hs|].
  destruct (concat parts); [congruence|]. reflexivity.
Qed.

Lemma citation_check (a0 a1 a2 : pyval) (tail : list pyval) :
  let actual := a0 :: a1 :: a2 :: tail in
  exists cit,
    andr (andr (len_ge (PList actual) 6) (truthy_at (PList actual) 5))
         (is_list_at (PList actual) 5) = Ok cit
    /\ (if cit
        then bind (py_index (PList actual) 5) (fun a5 =>
             bind (len_gt a5 0) (fun some =>
             bind (if some then py_index a5 0 else Ok PNone) (fun citation_type =>
             Ok (eq_int citation_type 9))))
        else Ok false) = Ok (citation_marked actual).
Proof.
  cbv zeta. unfold citation_marked.
  destruct tail as [|a3 [|a4 [|a5 tail]]]; try (exists false; split; reflexivity).
  cbn [len_ge py_len bind List.length Nat.leb andr truthy_at py_index nth_error
       is_list_at].
  destruct a5 as [|b|z|f|s|l|d].
  6: { destruct l as [|x l]; [exists false|exists true]; split; reflexivity. }
  all: exists false; split; [|reflexivity].
  all: cbn [bind isinstance_list].
  all: match goal with
       | |- (if ?c then _ else _) = _ => destruct c; reflexivity
       end.
Qed.

(** The candidate text of a line of the expected shape whose first
    candidate holds the strings [parts]. *)
Lemma candidate_line_text raw x1 payload tail rest inner cid parts ctail crest w :
  json_loads (py_float E) (strip raw)
  = Some (PList (PList (PStr (lit "wrb.fr") :: x1 :: PStr payload :: tail) :: rest)) ->
  citation_marked (PStr (lit "wrb.fr") :: x1 :: PStr payload :: tail) = false ->
  json_loads (py_float E) payload = Some (PList inner) ->
  nth_error inner 4
  = Some (PList (PList (cid :: PList (map PStr parts) :: ctail) :: crest)) ->
  nonempty (strip (concat parts)) = true ->
  line_text E raw w = concat parts.
Proof.
  intros Hl Hc Hp Hn Hs.
  unfold line_text, process_line.
  destruct (list_line_enters raw Hl) as [H1 H2]. rewrite H1, H2.
  unfold catch, parse_line, bindM, lift, ret, loads. rewrite Hl.
  set (actual := PStr (lit "wrb.fr") :: x1 :: PStr payload :: tail) in *.
  assert (Hc0 : andr (andr (Ok (isinstance_list (PList (PList actual :: rest))))
                           (len_gt (PList (PList actual :: rest)) 0))
                     (is_list_at (PList (PList actual :: rest)) 0) = Ok true)
    by reflexivity.
  assert (Hi0 : py_index (PList (PList actual :: rest)) 0 = Ok (PList actual))
    by reflexivity.
  assert (Hc1 : andr (len_ge (PList actual) 3)
                     (bind (py_index (PList actual) 0)
                           (fun x => Ok (eq_str x (lit "wrb.fr")))) = Ok true)
    by reflexivity.
  assert (Hi2 : py_index (PList actual) 2 = Ok (PStr payload)) by reflexivity.
  rewrite Hc0. cbv iota beta. rewrite Hi0. cbv iota beta. rewrite Hc1. cbv iota beta.
  destruct (citation_check (PStr (lit "wrb.fr")) x1 (PStr payload) tail)
    as (cit & Hcit & Hskip).
  cbv zeta in Hcit, Hskip. fold actual in Hcit, Hskip.
  rewrite Hcit. cbv iota beta. rewrite Hskip, Hc.
  cbv iota beta. rewrite Hi2. cbv iota beta.
  assert (Ht : truthy (PStr payload) = true).
  { pose proof (json_loads_nonempty Hp). destruct payload; [congruence|reflexivity]. }
  rewrite Ht. cbv iota beta. cbn [loads_val]. unfold loads. rewrite Hp.
  destruct (update_context_list inner w) as [w' Hu]. rewrite Hu.
  pose proof (@extract_text_candidate inner cid parts ctail crest w' Hn Hs) as He.
  destruct (extract_text E (PList inner) [] w') as [[t|e] w'']; cbn [fst] in *.
  - now injection He.
  - discriminate He.
Qed.

End ParseResponse.

(** C3: [_parse_response] never raises; the lines that are empty, carry the
    prefix, are made of digits or do not decode to the expected frame are
    passed over (nothing changes); and when no line offers a candidate text
    the result is the fixed fallback string. *)
Theorem parse_response_total (E : environment) (response_text : pystr) (w : world) :
  (exists s w', _parse_response E response_text w = (Ok s, w'))
  /\ (forall raw ft w1, exists ft' w1', process_line E raw ft w1 = (Ok ft', w1'))
  /\ (forall raw ft w1,
        skipped_line E raw = true -> process_line E raw ft w1 = (Ok ft, w1))
  /\ ((forall raw w1, In raw (split_on 10 response_text) -> line_text E raw w1 = []) ->
      fst (_parse_response E response_text w) = Ok FALLBACK).
Proof.
  split; [|split; [|split]].
  - pose proof (parse_response_value E response_text w w) as H.
    destruct (_parse_response E response_text w) as [[s|e] w'];
      cbn [fst] in H; [|discriminate H].
    eauto.
  - intros. apply process_line_returns.
  - intros. now apply process_line_skipped.
  - intro H. rewrite (parse_response_value E response_text w w). cbv zeta.
    rewrite longest_nil; [reflexivity|].
    intros t Ht. apply in_map_iff in Ht. destruct Ht as (raw & <- & Hin).
    now apply H.
Qed.


Lemma parse_response_total_witness :
  (exists s w', _parse_response example_env (lit "junk") example_world = (Ok s, w'))
  /\ process_line example_env (lit " 12345 ") [] example_world = (Ok [], example_world)
  /\ fst (_parse_response example_env (lit "junk") example_world) = Ok FALLBACK.
Proof.
  destruct (parse_response_total example_env (lit "junk") example_world)
    as (H1 & _ & H3 & H4).
  split; [exact H1|]. split.
  - apply H3. vm_compute. reflexivity.
  - apply H4. intros raw w1 [<-|[]].
    rewrite (@line_text_blind example_env _ w1 example_world).
    vm_compute. reflexivity.
Defined.

Lemma choose_shorter (ft t : pystr) :
  (List.length t <= List.length ft)%nat -> choose ft t = ft.
Proof. intro H. unfold choose. apply Nat.ltb_ge in H. now rewrite H. Qed.

Lemma longest_bounded (post : list pystr) (t : pystr) :
  (forall x, In x post -> (List.length x <= List.length t)%nat) ->
  longest post t = t.
Proof.
  induction post as [|x post IH]; intro H; cbn [longest]; [reflexivity|].
  rewrite choose_shorter by (apply H; now left).
  apply IH. intros y Hy. apply H. now right.
Qed.

Lemma longest_pick (pre post : list pystr) (t : pystr) :
  (forall x, In x pre -> (List.length x < List.length t)%nat) ->
  (forall x, In x post -> (List.length x <= List.length t)%nat) ->
  forall ft, (List.length ft < List.length t)%nat ->
  longest (pre ++ t :: post) ft = t.
Proof.
  intros Hpre Hpost. induction pre as [|x pre IH]; intros ft Hft; cbn [app longest].
  - unfold choose at 1. apply Nat.ltb_lt in Hft. rewrite Hft.
    now apply longest_bounded.
  - apply IH.
    + intros y Hy. apply Hpre. now right.
    + unfold choose. destruct (Nat.ltb _ _); [apply Hpre; now left|exact Hft].
Qed.

(** The loop keeps the first of the texts of greatest length. *)
Lemma longest_first (f : pystr -> pystr) (lines : list pystr) :
  forall ft,
    (longest (map f lines) ft = ft
     /\ forall l, In l lines -> (List.length (f l) <= List.length ft)%nat)
    \/ exists pre best post,
         lines = pre ++ best :: post
         /\ longest (map f lines) ft = f best
         /\ (List.length ft < List.length (f best))%nat
         /\ (forall l, In l pre -> (List.length (f l) < List.length (f best))%nat)
         /\ (forall l, In l post -> (List.length (f l) <= List.length (f best))%nat).
Proof.
  induction lines as [|x lines IH]; intro ft; cbn [map longest].
  - left. split; [reflexivity|]. intros l [].
  - unfold choose. destruct (Nat.ltb (List.length ft) (List.length (f x))) eqn:Hlt.
    + apply Nat.ltb_lt in Hlt. right.
      destruct (IH (f x)) as [[Hl Hall]|(pre & best & post & -> & Hl & Hb & Hpre & Hpost)].
      * exists [], x, lines. split; [reflexivity|]. split; [exact Hl|].
        split; [exact Hlt|]. split; [intros l []|exact Hall].
      * exists (x :: pre), best, post. split; [reflexivity|]. split; [exact Hl|].
        split; [lia|]. split; [|exact Hpost].
        intros l [<-|Hin]; [exact Hb|now apply Hpre].
    + apply Nat.ltb_ge in Hlt.
      destruct (IH ft) as [[Hl Hall]|(pre & best & post & -> & Hl & Hb & Hpre & Hpost)].
      * left. split; [exact Hl|]. intros l [<-|Hin]; [exact Hlt|now apply Hall].
      * right. exists (x :: pre), best, post. split; [reflexivity|].
        split; [exact Hl|]. split; [exact Hb|]. split; [|exact Hpost].
        intros l [<-|Hin]; [lia|now apply Hpre].
Qed.

(** C4, as amended: when a line of the body decodes to the [wrb.fr] frame
    without the citation marker 9, its payload decodes to an array whose
    index 4 is a candidate list whose first candidate holds at index 1 the
    strings [parts], and their concatenation is not white space only, then
    that concatenation is the candidate text of the line, and
    [_parse_response] returns, in place of the fallback string, the
    candidate text of the first line among those whose candidate text is
    longest (the lengths taken before stripping), stripped, a text that is
    not empty.  It is the concatenation of the given line, stripped, when
    every earlier line offers a shorter candidate text and no later line a
    longer one. *)
Theorem candidate_text_returned (E : environment) (w : world)
    (response_text : pystr) (raw : pystr)
    (x1 : pyval) (payload : pystr) (tail rest inner : list pyval)
    (cid : pyval) (parts : list pystr) (ctail crest : list pyval) :
  In raw (split_on 10 response_text) ->
  json_loads (py_float E) (strip raw)
  = Some (PList (PList (PStr (lit "wrb.fr") :: x1 :: PStr payload :: tail) :: rest)) ->
  citation_marked (PStr (lit "wrb.fr") :: x1 :: PStr payload :: tail) = false ->
  json_loads (py_float E) payload = Some (PList inner) ->
  nth_error inner 4
  = Some (PList (PList (cid :: PList (map PStr parts) :: ctail) :: crest)) ->
  nonempty (strip (concat parts)) = true ->
  (forall w1, line_text E raw w1 = concat parts)
  /\ (exists pre best post,
        split_on 10 response_text = pre ++ best :: post
        /\ (forall l w1, In l pre ->
              (List.length (line_text E l w1) < List.length (line_text E best w1))%nat)
        /\ (forall l w1, In l post ->
              (List.length (line_text E l w1) <= List.length (line_text E best w1))%nat)
        /\ nonempty (strip (line_text E best w)) = true
        /\ fst (_parse_response E response_text w) = Ok (strip (line_text E best w)))
  /\ (forall pre post,
        split_on 10 response_text = pre ++ raw :: post ->
        (forall l w1, In l pre ->
           (List.length (line_text E l w1) < List.length (concat parts))%nat) ->
        (forall l w1, In l post ->
           (List.length (line_text E l w1) <= List.length (concat parts))%nat) ->
        fst (_parse_response E response_text w) = Ok (strip (concat parts))).
Proof.
  intros Hin Hl Hc Hp Hn Hs.
  assert (Htext : forall w1, line_text E raw w1 = concat parts).
  { intro w1.
    exact (@candidate_line_text E raw x1 payload tail rest inner cid parts ctail crest
             w1 Hl Hc Hp Hn Hs). }
  destruct (nonempty_strip _ Hs) as [_ Hne].
  assert (Hpos : (0 < List.length (concat parts))%nat).
  { destruct (concat parts); [congruence|cbn; lia]. }
  split; [exact Htext|]. split.
  - destruct (longest_first (fun l => line_text E l w) (split_on 10 response_text) [])
      as [[_ Hall]|(pre & best & post & Hsplit & Hlong & Hb & Hpre & Hpost)].
    + specialize (Hall raw Hin). cbv beta in Hall. rewrite Htext in Hall.
      cbn [List.length] in Hall. lia.
    + exists pre, best, post. split; [exact Hsplit|].
      split.
      { intros l w1 Hl1. rewrite !(line_text_blind E _ w1 w). now apply Hpre. }
      split.
      { intros l w1 Hl1. rewrite !(line_text_blind E _ w1 w). now apply Hpost. }
      assert (Hacc : nonempty (strip (line_text E best w)) = true).
      { destruct (line_text_accepted E best w) as [Hnil|Hacc]; [|exact Hacc].
        rewrite Hnil in Hb. cbn [List.length] in Hb. lia. }
      split; [exact Hacc|].
      rewrite (parse_response_value E response_text w w). cbv zeta.
      rewrite Hlong, Hacc.
      destruct (line_text E best w); [cbn [List.length] in Hb; lia|reflexivity].
  - intros pre post Hsplit Hpre Hpost.
    rewrite (parse_response_value E response_text w w). cbv zeta.
    rewrite Hsplit, map_app. cbn [map]. rewrite Htext.
    rewrite longest_pick.
    + rewrite Hs. destruct (concat parts); [congruence|reflexivity].
    + intros x Hx. apply in_map_iff in Hx. destruct Hx as (l & <- & Hin1).
      now apply Hpre.
    + intros x Hx. apply in_map_iff in Hx. destruct Hx as (l & <- & Hin1).
      now apply Hpost.
    + exact Hpos.
Qed.

Lemma candidate_text_returned_witness :
  fst (_parse_response example_env
         (lit ")]}'" ++ [10] ++ lit "25" ++ [10]
          ++ example_line [lit "Hel"] [] ++ [10]
          ++ example_line [lit " Hello, "; lit "world "] [] ++ [10]
          ++ example_line [lit "Hi"] [])
         example_world)
  = Ok (lit "Hello, world").
Proof.
  refine (proj2 (proj2
            (@candidate_text_returned example_env example_world _
               (example_line [lit " Hello, "; lit "world "] [])
               PNone _ [] [] _ (PStr (lit "rc_2")) [lit " Hello, "; lit "world "] [] []
               _ _ _ _ _ _))
            [lit ")]}'"; lit "25"; example_line [lit "Hel"] []]
            [example_line [lit "Hi"] []] _ _ _).
  - vm_compute. tauto.
  - vm_compute. reflexivity.
  - reflexivity.
  - vm_compute. reflexivity.
  - reflexivity.
  - vm_compute. reflexivity.
  - vm_compute. reflexivity.
  - intros l w1 [<-|[<-|[<-|[]]]];
      rewrite (@line_text_blind example_env _ w1 example_world); vm_compute; lia.
  - intros l w1 [<-|[]];
      rewrite (@line_text_blind example_env _ w1 example_world); vm_compute; lia.
Defined.

(** The ranking goes by the length before stripping: of a line with the
    text of an [a] between two pairs of spaces and a later line with the
    text [hey], the first wins and [a] is returned. *)
Example candidate_text_unstripped_length :
  fst (_parse_response example_env
         (example_line [lit "  a  "] [] ++ [10] ++ example_line [lit "hey"] [])
         example_world)
  = Ok (lit "a").
Proof. vm_compute. reflexivity. Qed.


(** C4 as stated fails: a candidate made of white space yields the fallback
    string, a frame marked with the citation marker 9 is passed over, and of
    two lines carrying text the longer one wins. *)
Lemma candidate_text_counterexample :
  (carries_text_parts example_env (example_line [lit " "] []) [lit " "]
   /\ fst (_parse_response example_env (example_line [lit " "] []) example_world)
      = Ok FALLBACK
   /\ FALLBACK <> strip (concat [lit " "]))
  /\ (carries_text_parts example_env
        (example_line [lit "Hello"] [PNone; PNone; PList [PInt 9]]) [lit "Hello"]
      /\ fst (_parse_response example_env
                (example_line [lit "Hello"] [PNone; PNone; PList [PInt 9]])
                example_world)
         = Ok FALLBACK
      /\ FALLBACK <> strip (concat [lit "Hello"]))
  /\ (carries_text_parts example_env (example_line [lit "Hi"] []) [lit "Hi"]
      /\ In (example_line [lit "Hi"] [])
            (split_on 10 (example_line [lit "Hello, world"] [] ++ [10]
                          ++ example_line [lit "Hi"] []))
      /\ fst (_parse_response example_env
                (example_line [lit "Hello, world"] [] ++ [10]
                 ++ example_line [lit "Hi"] [])
                example_world)
         = Ok (lit "Hello, world")
      /\ lit "Hello, world" <> strip (concat [lit "Hi"])).
Proof.
  assert (Hcarry : forall parts tail,
             parts <> [] ->
             json_loads (py_float example_env) (strip (example_line parts tail))
             = Some (PList [PList (PStr (lit "wrb.fr") :: PNone
                                   :: PStr (json_dumps (float_repr example_env)
                                              (PList [PNone; PNone; PNone; PNone;
                                                      PList [PList [PStr (lit "rc_2");
                                                                    PList (map PStr parts)]]]))
                                   :: tail)]) ->
             json_loads (py_float example_env)
               (json_dumps (float_repr example_env)
                  (PList [PNone; PNone; PNone; PNone;
                          PList [PList [PStr (lit "rc_2"); PList (map PStr parts)]]]))
             = Some (PList [PNone; PNone; PNone; PNone;
                            PList [PList [PStr (lit "rc_2"); PList (map PStr parts)]]]) ->
             carries_text_parts example_env (example_line parts tail) parts).
  { intros parts tail Hne H1 H2.
    exists PNone, (json_dumps (float_repr example_env)
                     (PList [PNone; PNone; PNone; PNone;
                             PList [PList [PStr (lit "rc_2"); PList (map PStr parts)]]])),
      tail, [], [PNone; PNone; PNone; PNone;
                 PList [PList [PStr (lit "rc_2"); PList (map PStr parts)]]],
      (PStr (lit "rc_2")), [], [].
    repeat split; assumption. }
  split; [|split].
  - split; [|split].
    + apply Hcarry; [discriminate|vm_compute; reflexivity|vm_compute; reflexivity].
    + vm_compute. reflexivity.
    + vm_compute. discriminate.
  - split; [|split].
    + apply Hcarry; [discriminate|vm_compute; reflexivity|vm_compute; reflexivity].
    + vm_compute. reflexivity.
    + vm_compute. discriminate.
  - split; [|split; [|split]].
    + apply Hcarry; [discriminate|vm_compute; reflexivity|vm_compute; reflexivity].
    + vm_compute. tauto.
    + vm_compute. reflexivity.
    + vm_compute. discriminate.
Qed.

(** * Facts about [_build_request_data] *)

Section RequestData.

Variable E : environment.

Lemma inner_data_plain (c : client) (text : pystr) (image_data : pyval)
    (session_id : pystr) (timestamp : Z) :
  context_plain c = true ->
  plain image_data = true ->
  plain (PList (build_inner_data c text image_data session_id timestamp)) = true.
Proof.
  unfold context_plain. rewrite !andb_true_iff. intros [[Hc Hr] Hch] Hi.
  unfold build_inner_data. cbn [plain].
  rewrite !forallb_app. cbn [forallb plain repeat int_list map].
  rewrite Hc, Hr, Hch, Hi.
  destruct (snlm0e c); reflexivity.
Qed.

(** What [_build_request_data] returns, with the values it draws. *)
Lemma build_request_data_value (text : pystr) (images : list image_entry)
    (image_paths : list pystr) (w : world) :
  exists image_data session_id timestamp w',
    _build_request_data E text images image_paths w
    = (Ok (dumps E (PList [PNone;
                           PStr (dumps E (PList (build_inner_data (self w) text image_data
                                                   session_id timestamp)))])), w')
    /\ plain image_data = true
    /\ self w' = self w /\ trace w' = trace w.
Proof.
  unfold _build_request_data, bindM, get_self, draw, ret.
  destruct image_paths as [|path rest].
  - exists PNone. do 3 eexists. cbn [self trace].
    split; [reflexivity|]. split; [reflexivity|]. split; reflexivity.
  - exists (PList [PList [PList [PStr path; PInt 1; PNone;
                                 PStr match images with
                                      | img :: _ => mime_type img
                                      | [] => lit "image/png"
                                      end];
                          PStr (image_filename (randint E (draws w) 100000 999999))]]).
    do 3 eexists. cbn [self trace].
    split; [reflexivity|]. split; [reflexivity|]. split; reflexivity.
Qed.

End RequestData.

(** C1: the value of [f.req] is doubly JSON-encoded.  Decoding the string
    [_build_request_data] returns gives a two-element array, [null] and a
    string; decoding that string gives the inner request array, whose
    element [0][0] is the input text. *)
Theorem f_req_doubly_encoded (E : environment) (w : world) (text : pystr)
    (images : list image_entry) (image_paths : list pystr) :
  context_plain (self w) = true ->
  exists s w' inner_json inner_data first,
    _build_request_data E text images image_paths w = (Ok s, w')
    /\ json_loads (py_float E) s = Some (PList [PNone; PStr inner_json])
    /\ json_loads (py_float E) inner_json = Some (PList inner_data)
    /\ nth_error inner_data 0 = Some (PList (PStr text :: first)).
Proof.
  intro Hc.
  destruct (build_request_data_value E text images image_paths w)
    as (image_data & sid & ts & w' & Hrun & Hi & _ & _).
  exists (dumps E (PList [PNone;
                          PStr (dumps E (PList (build_inner_data (self w) text image_data
                                                  sid ts)))])), w',
    (dumps E (PList (build_inner_data (self w) text image_data sid ts))),
    (build_inner_data (self w) text image_data sid ts).
  eexists. split; [exact Hrun|]. split; [|split].
  - unfold dumps. apply json_roundtrip. reflexivity.
  - unfold dumps. apply json_roundtrip. now apply inner_data_plain.
  - reflexivity.
Qed.

Lemma f_req_doubly_encoded_witness :
  exists s w' inner_json inner_data first,
    _build_request_data example_env (lit "hello") [] [] example_world = (Ok s, w')
    /\ json_loads (py_float example_env) s = Some (PList [PNone; PStr inner_json])
    /\ json_loads (py_float example_env) inner_json = Some (PList inner_data)
    /\ nth_error inner_data 0 = Some (PList (PStr (lit "hello") :: first)).
Proof.
  apply (@f_req_doubly_encoded example_env example_world (lit "hello") [] []).
  reflexivity.
Defined.

(** C2: the element at index 2 of the inner request array starts with the
    client's conversation_id, response_id and choice_id, each one verbatim,
    or the empty string in place of an unset (falsy) one. *)
Theorem context_ids_echoed (E : environment) (w : world) (text : pystr)
    (images : list image_entry) (image_paths : list pystr) :
  exists s w' inner_data rest,
    _build_request_data E text images image_paths w = (Ok s, w')
    /\ s = dumps E (PList [PNone; PStr (dumps E (PList inner_data))])
    /\ nth_error inner_data 2
       = Some (PList
                 ((if truthy (conversation_id (self w))
                   then conversation_id (self w) else PStr [])
                  :: (if truthy (response_id (self w))
                      then response_id (self w) else PStr [])
                  :: (if truthy (choice_id (self w))
                      then choice_id (self w) else PStr [])
                  :: rest)).
Proof.
  destruct (build_request_data_value E text images image_paths w)
    as (image_data & sid & ts & w' & Hrun & _ & _ & _).
  eexists. exists w', (build_inner_data (self w) text image_data sid ts).
  eexists. split; [exact Hrun|]. split; reflexivity.
Qed.

(** * Facts about the requests issued *)

Section Emits.

Variable I : client -> Prop.
Variable P : request -> Prop.

Lemma emits_nothing {A} (m : M A) :
  (forall w, exists r d, m w = (r, {| self := self w; trace := trace w; draws := d |})) ->
  emits I P m.
Proof.
  intros H w r w' Hi Hm. destruct (H w) as (r0 & d & Hw). rewrite Hw in Hm.
  injection Hm as <- <-. cbn. split; [exact Hi|].
  exists []. split; [now rewrite app_nil_r|constructor].
Qed.

Lemma emits_ret {A} (a : A) : emits I P (ret a).
Proof. apply emits_nothing. intro w. exists (Ok a), (draws w). now destruct w. Qed.

Lemma emits_raise {A} (e : exn) : emits I P (@raise A e).
Proof. apply emits_nothing. intro w. exists (Raise e), (draws w). now destruct w. Qed.

Lemma emits_lift {A} (r : result A) : emits I P (lift r).
Proof. apply emits_nothing. intro w. exists r, (draws w). now destruct w. Qed.

Lemma emits_draw {A} (oracle : nat -> A) : emits I P (draw oracle).
Proof. apply emits_nothing. intro w. eexists. eexists. reflexivity. Qed.

Lemma emits_modify (f : client -> client) :
  (forall c, I c -> I (f c)) -> emits I P (modify f).
Proof.
  intros Hf w r w' Hi Hm. unfold modify in Hm. injection Hm as <- <-. cbn.
  split; [now apply Hf|]. exists []. split; [now rewrite app_nil_r|constructor].
Qed.

Lemma emits_bind {A B} (m : M A) (k : A -> M B) :
  emits I P m -> (forall a, emits I P (k a)) -> emits I P (bindM m k).
Proof.
  intros Hm Hk w r w' Hi Hrun. unfold bindM in Hrun.
  destruct (m w) as [[a|e] w1] eqn:Em.
  - destruct (Hm w (Ok a) w1 Hi Em) as (Hi1 & new1 & Ht1 & Hp1).
    destruct (Hk a w1 r w' Hi1 Hrun) as (Hi2 & new2 & Ht2 & Hp2).
    split; [exact Hi2|]. exists (new1 ++ new2).
    split; [now rewrite Ht2, Ht1, app_assoc|now apply Forall_app].
  - injection Hrun as <- <-. exact (Hm w (Raise e) w1 Hi Em).
Qed.

Lemma emits_catch {A} (m : M A) (h : exn -> M A) :
  emits I P m -> (forall e, emits I P (h e)) -> emits I P (catch m h).
Proof.
  intros Hm Hh w r w' Hi Hrun. unfold catch in Hrun.
  destruct (m w) as [[a|e] w1] eqn:Em.
  - injection Hrun as <- <-. exact (Hm w (Ok a) w1 Hi Em).
  - destruct (Hm w (Raise e) w1 Hi Em) as (Hi1 & new1 & Ht1 & Hp1).
    destruct (Hh e w1 r w' Hi1 Hrun) as (Hi2 & new2 & Ht2 & Hp2).
    split; [exact Hi2|]. exists (new1 ++ new2).
    split; [now rewrite Ht2, Ht1, app_assoc|now apply Forall_app].
Qed.

(** Reading the client: the continuation only meets clients satisfying [I]. *)
Lemma emits_get {A} (k : client -> M A) :
  (forall c, I c -> emits I P (k c)) -> emits I P (bindM get_self k).
Proof.
  intros Hk w r w' Hi Hrun. unfold bindM, get_self in Hrun.
  exact (Hk (self w) Hi w r w' Hi Hrun).
Qed.

Lemma emits_for_each {A B} (body : A -> B -> M B) (l : list A) :
  (forall x acc, emits I P (body x acc)) ->
  forall acc, emits I P (for_each l acc body).
Proof.
  intro Hb. induction l as [|x xs IH]; intro acc; cbn [for_each].
  - apply emits_ret.
  - apply emits_bind; [apply Hb|intro; apply IH].
Qed.

Lemma emits_if {A} (b : bool) (m1 m2 : M A) :
  emits I P m1 -> emits I P m2 -> emits I P (if b then m1 else m2).
Proof. destruct b; auto. Qed.

Lemma emits_http (E : environment) (rq : request) : P rq -> emits I P (http E rq).
Proof.
  intros Hp w r w' Hi Hrun. unfold http in Hrun.
  destruct (net E (List.length (trace w)) rq); injection Hrun as <- <-; cbn;
    (split; [exact Hi|exists [rq]; split; [reflexivity|now constructor]]).
Qed.

End Emits.

Lemma emits_weaken (I : client -> Prop) (P Q : request -> Prop) {A} (m : M A) :
  (forall rq, P rq -> Q rq) -> emits I P m -> emits I Q m.
Proof.
  intros Hpq Hm w r w' Hi Hrun.
  destruct (Hm w r w' Hi Hrun) as (Hi' & new & Ht & Hp).
  split; [exact Hi'|]. exists new. split; [exact Ht|].
  eapply Forall_impl; [exact Hpq|exact Hp].
Qed.

Ltac emits_step :=
  first
    [ apply emits_ret | apply emits_raise | apply emits_lift | apply emits_draw
    | apply emits_if
    | apply emits_bind; [|intro]
    | apply emits_catch; [|intro] ].

(** * Facts about the requests of the client *)

Lemma emits_get_self (I : client -> Prop) (P : request -> Prop) : emits I P get_self.
Proof. apply emits_nothing. intro w. exists (Ok (self w)), (draws w). now destruct w. Qed.

Lemma emits_bind_val (I : client -> Prop) (P : request -> Prop) {A B}
    (Q : A -> Prop) (m : M A) (k : A -> M B) :
  emits I P m ->
  (forall w a w', I (self w) -> m w = (Ok a, w') -> Q a) ->
  (forall a, Q a -> emits I P (k a)) ->
  emits I P (bindM m k).
Proof.
  intros Hm Hq Hk w r w' Hi Hrun. unfold bindM in Hrun.
  destruct (m w) as [[a|e] w1] eqn:Em.
  - destruct (Hm w (Ok a) w1 Hi Em) as (Hi1 & new1 & Ht1 & Hp1).
    destruct (Hk a (Hq w a w1 Hi Em) w1 r w' Hi1 Hrun) as (Hi2 & new2 & Ht2 & Hp2).
    split; [exact Hi2|]. exists (new1 ++ new2).
    split; [now rewrite Ht2, Ht1, app_assoc|now apply Forall_app].
  - injection Hrun as <- <-. exact (Hm w (Raise e) w1 Hi Em).
Qed.

Ltac emits_auto :=
  repeat first
    [ emits_step
    | apply emits_get_self
    | apply emits_modify; intros ? ?; assumption
    | apply emits_for_each; intros ? ?
    | match goal with
      | |- emits _ _ (match ?x with _ => _ end) => destruct x
      | |- emits _ _ (let (_, _) := ?x in _) => destruct x
      end ].

Section Send.

Variable E : environment.
Variable c0 : client.
Variable P : request -> Prop.

Let I := same_tokens c0.

Lemma update_context_emits inner_json : emits I P (update_context inner_json).
Proof. unfold update_context. emits_auto. Qed.

Lemma extract_text_emits inner_json ft : emits I P (extract_text E inner_json ft).
Proof. unfold extract_text. emits_auto. Qed.

Lemma parse_line_emits line ft : emits I P (parse_line E line ft).
Proof.
  unfold parse_line. emits_auto;
    first [apply update_context_emits | apply extract_text_emits].
Qed.

Lemma parse_response_emits response_text : emits I P (_parse_response E response_text).
Proof.
  unfold _parse_response, process_line. emits_auto; try apply parse_line_emits.
Qed.

Lemma build_request_data_emits text images image_paths :
  emits I P (_build_request_data E text images image_paths).
Proof. unfold _build_request_data. emits_auto. Qed.

Lemma stream_line_emits line acc : emits I P (stream_line E line acc).
Proof. unfold stream_line. emits_auto. Qed.

Lemma stream_after_post_emits resp : emits I P (stream_after_post E resp).
Proof.
  unfold stream_after_post.
  apply emits_bind; [unfold raise_for_status; emits_auto|intros _].
  apply emits_bind; [apply emits_modify; intros ? ?; assumption|intros _].
  cbv zeta.
  apply emits_bind; [|intro; apply emits_ret].
  apply emits_for_each. intros raw acc.
  apply emits_if; [apply emits_ret|].
  apply emits_catch; [apply stream_line_emits|intro; apply emits_ret].
Qed.

Hypothesis upload_url_ok :
  forall params headers payload, P (Post UPLOAD_URL params headers payload).
Hypothesis final_upload_url_ok :
  forall upload_id params headers payload,
    P (Post (final_upload_url upload_id) params headers payload).

Lemma upload_image_emits image_data mime : emits I P (_upload_image E image_data mime).
Proof.
  unfold _upload_image. emits_auto; try (apply emits_http; auto).
Qed.

Lemma upload_all_emits images : emits I P (upload_all E images).
Proof.
  unfold upload_all. apply emits_for_each. intros img acc.
  destruct (b64decode E (data img)); [|apply emits_raise].
  apply emits_bind; [apply upload_image_emits|intro; apply emits_ret].
Qed.

End Send.

Section ChatRequests.

Variable E : environment.
Variable c0 : client.

Lemma upload_url_policy params headers payload :
  (token_policy E c0) (Post UPLOAD_URL params headers payload).
Proof. intro H. vm_compute in H. discriminate H. Qed.

Lemma final_upload_url_policy upload_id params headers payload :
  (token_policy E c0) (Post (final_upload_url upload_id) params headers payload).
Proof. intro H. vm_compute in H. discriminate H. Qed.

Lemma chat_post_policy (c : client) params req_data inner_data :
  same_tokens c0 c ->
  req_data = dumps E (PList [PNone; PStr (dumps E (PList inner_data))]) ->
  nth_error inner_data 3 = Some (opt_val (snlm0e c0)) ->
  (token_policy E c0) (Post STREAM_URL params [] (FormData (form_data c req_data))).
Proof.
  intros [Hs _] Hr Hn _. exists params, req_data, inner_data.
  unfold form_data. rewrite Hs. auto.
Qed.

Lemma build_request_data_token text images image_paths w req_data w' :
  same_tokens c0 (self w) ->
  _build_request_data E text images image_paths w = (Ok req_data, w') ->
  exists inner_data,
    req_data = dumps E (PList [PNone; PStr (dumps E (PList inner_data))])
    /\ nth_error inner_data 3 = Some (opt_val (snlm0e c0)).
Proof.
  intros [Hs _] Hrun.
  destruct (build_request_data_value E text images image_paths w)
    as (image_data & sid & ts & w1 & Hv & _).
  rewrite Hv in Hrun.
  assert (Hreq : req_data
                 = dumps E (PList [PNone;
                                   PStr (dumps E (PList (build_inner_data (self w) text
                                                           image_data sid ts)))]))
    by congruence.
  exists (build_inner_data (self w) text image_data sid ts).
  split; [exact Hreq|]. cbn. now rewrite Hs.
Qed.

Lemma after_post_emits (text : pystr) (resp : response) :
  emits (same_tokens c0) (token_policy E c0)
    (bindM (raise_for_status resp) (fun _ =>
     bindM (modify (fun c => set_request_count (request_count c + 1)%Z c)) (fun _ =>
     bindM (_parse_response E (resp_text resp)) (fun reply_text =>
     let reply := {| role := PStr (lit "assistant"); content := PStr reply_text |} in
     bindM (modify (append_message reply)) (fun _ =>
     bindM get_self (fun c =>
     bindM (draw (time_s E)) (fun now1 =>
     bindM (draw (time_s E)) (fun now2 =>
     ret {| id := lit "chatcmpl-"
                  ++ py_str E (py_or (conversation_id c) (PStr (lit "gemini")))
                  ++ lit "-" ++ int_repr now1;
            created := now2;
            model := lit "gemini-web";
            choices := [(0%Z, reply, lit "stop")];
            usage := (len_z text, len_z reply_text,
                      (len_z text + len_z reply_text)%Z) |})))))))).
Proof.
  apply emits_bind; [unfold raise_for_status; emits_auto|intros _].
  apply emits_bind; [apply emits_modify; intros ? ?; assumption|intros _].
  apply emits_bind; [apply parse_response_emits|intro reply_text].
  cbv zeta.
  apply emits_bind; [apply emits_modify; intros ? ?; assumption|intros _].
  emits_auto.
Qed.

Lemma send_request_emits text images :
  emits (same_tokens c0) (token_policy E c0) (_send_request E text images).
Proof.
  unfold _send_request.
  apply emits_get. intros c Hc.
  apply emits_bind; [apply emits_draw|intro rnd]. cbv zeta.
  apply emits_bind.
  { destruct images as [|img rest]; [apply emits_ret|].
    destruct (negb (opt_truthy (push_id c))); [apply emits_raise|].
    apply emits_catch.
    - apply upload_all_emits;
        [apply upload_url_policy|apply final_upload_url_policy].
    - intro e. destruct e; apply emits_raise. }
  intro image_paths.
  apply emits_bind_val
    with (Q := fun req_data =>
                 exists inner_data,
                   req_data = dumps E (PList [PNone; PStr (dumps E (PList inner_data))])
                   /\ nth_error inner_data 3 = Some (opt_val (snlm0e c0))).
  { apply build_request_data_emits. }
  { intros w a w' Hi Hrun. exact (@build_request_data_token _ _ _ w a w' Hi Hrun). }
  intros req_data (inner_data & Hr & Hn).
  apply emits_get. intros c' Hc'.
  apply emits_catch; [|intro; apply emits_raise].
  apply emits_bind.
  { apply emits_http. exact (@chat_post_policy c' _ req_data inner_data Hc' Hr Hn). }
  intro resp. apply after_post_emits.
Qed.

Lemma send_stream_request_emits text images image_paths :
  emits (same_tokens c0) (token_policy E c0) (_send_stream_request E text images image_paths).
Proof.
  unfold _send_stream_request.
  apply emits_get. intros c Hc.
  apply emits_bind; [apply emits_draw|intro rnd]. cbv zeta.
  apply emits_bind.
  { destruct image_paths as [paths|]; [apply emits_ret|].
    destruct images as [|img rest]; [apply emits_ret|].
    destruct (negb (opt_truthy (push_id c))); [apply emits_raise|].
    apply emits_catch.
    - apply upload_all_emits;
        [apply upload_url_policy|apply final_upload_url_policy].
    - intro e. apply emits_raise. }
  intro paths.
  apply emits_bind_val
    with (Q := fun req_data =>
                 exists inner_data,
                   req_data = dumps E (PList [PNone; PStr (dumps E (PList inner_data))])
                   /\ nth_error inner_data 3 = Some (opt_val (snlm0e c0))).
  { apply build_request_data_emits. }
  { intros w a w' Hi Hrun. exact (@build_request_data_token _ _ _ w a w' Hi Hrun). }
  intros req_data (inner_data & Hr & Hn).
  apply emits_get. intros c' Hc'.
  apply emits_catch; [|intro; apply emits_raise].
  apply emits_bind.
  { apply emits_http. exact (@chat_post_policy c' _ req_data inner_data Hc' Hr Hn). }
  intro resp. apply (@stream_after_post_emits E c0 (token_policy E c0) resp).
Qed.

Lemma emits_silent {A} (m : M A) (w : world) :
  emits (same_tokens (self w)) (fun _ => False) m -> trace (snd (m w)) = trace w.
Proof.
  intro H. destruct (m w) as [r w'] eqn:Hrun.
  destruct (H w r w' (conj eq_refl eq_refl) Hrun) as (_ & new & Ht & Hf).
  cbn. destruct new as [|rq new]; [now rewrite app_nil_r in Ht|].
  inversion Hf as [|? ? Hrq]. contradiction.
Qed.

End ChatRequests.

(** C5: the token is required on every request.  Without a value for
    [snlm0e] the constructor raises [ValueError] before any request is sent;
    and every POST to the chat endpoint issued by [_send_request] or by
    [_send_stream_request] has the client's token under the key [at] of its
    form data and at index 3 of the array encoded in [f.req]. *)
Theorem snlm0e_required (E : environment) :
  (forall snlm0e bl push_id,
     opt_truthy snlm0e = false ->
     fst (__init__ E snlm0e bl push_id) = Raise ValueError
     /\ trace (snd (__init__ E snlm0e bl push_id)) = [])
  /\ (forall text images w,
        exists new,
          trace (snd (_send_request E text images w)) = trace w ++ new
          /\ Forall (fun rq => is_chat_post rq = true -> carries_token E (self w) rq) new)
  /\ (forall text images image_paths w,
        exists new,
          trace (snd (_send_stream_request E text images image_paths w)) = trace w ++ new
          /\ Forall (fun rq => is_chat_post rq = true -> carries_token E (self w) rq) new).
Proof.
  split; [|split].
  - intros tok bl push H. unfold __init__, bindM. rewrite H. cbn. split; reflexivity.
  - intros text images w.
    destruct (_send_request E text images w) as [r w'] eqn:Hrun.
    destruct (@send_request_emits E (self w) text images w r w'
                (conj eq_refl eq_refl) Hrun) as (_ & new & Ht & Hp).
    exists new. split; assumption.
  - intros text images image_paths w.
    destruct (_send_stream_request E text images image_paths w) as [r w'] eqn:Hrun.
    destruct (@send_stream_request_emits E (self w) text images image_paths w r w'
                (conj eq_refl eq_refl) Hrun) as (_ & new & Ht & Hp).
    exists new. split; assumption.
Qed.

Lemma snlm0e_required_witness :
  (fst (__init__ example_env None None None) = Raise ValueError
   /\ trace (snd (__init__ example_env None None None)) = [])
  /\ (fst (__init__ example_env (Some []) None (Some (lit "push"))) = Raise ValueError
      /\ trace (snd (__init__ example_env (Some []) None (Some (lit "push")))) = []).
Proof.
  destruct (snlm0e_required example_env) as (H & _ & _).
  split; apply H; reflexivity.
Defined.


(** The statement is not empty: a plain call of [_send_request] does post
    to the chat endpoint, and that is all it sends. *)
Example send_request_posts :
  exists rq,
    trace (snd (_send_request example_env (lit "hi") [] example_world)) = [rq]
    /\ is_chat_post rq = true.
Proof. eexists. split; vm_compute; reflexivity. Qed.

(** * Facts about [_upload_image] *)

Lemma app_length_one (w : world) (rq : request) :
  List.length (trace w ++ [rq]) = S (List.length (trace w)).
Proof. rewrite length_app. cbn. lia. Qed.

(** C7: the upload is a two-step sequence.  Without a push id nothing is
    sent.  Otherwise the first request is the POST with the command [start];
    the POST with the command [upload, finalize] follows it exactly when
    the first was answered, with a status other than 401 and 403 and a
    non-empty [x-guploader-uploadid] header, and then it is the second and
    last request, the data its body and that value in its URL; in every
    other case the first request stays the only one and the method raises,
    [CookieExpiredError] when the header is absent. *)
Theorem upload_handshake (E : environment) (w : world) (image_data : pybytes)
    (mime : pystr) :
  let push := some_or_empty (push_id (self w)) in
  let init :=
    Post (lit "https://push.clients6.google.com/upload/") []
      (init_headers push image_data)
      (FormData [(lit "File name",
                  PStr (image_filename (randint E (draws w) 100000 999999)))]) in
  let data_post := fun upload_id =>
    Post (lit "https://push.clients6.google.com/upload/?upload_id=" ++ upload_id
          ++ lit "&upload_protocol=resumable") []
      (upload_headers push mime) (Content image_data) in
  let r := fst (_upload_image E image_data mime w) in
  let w' := snd (_upload_image E image_data mime w) in
  In (lit "x-goog-upload-command", lit "start") (init_headers push image_data)
  /\ In (lit "x-goog-upload-command", lit "upload, finalize") (upload_headers push mime)
  /\ (if opt_truthy (push_id (self w)) then
        match net E (List.length (trace w)) init with
        | Responded resp =>
            match headers_get (resp_headers resp) (lit "x-guploader-uploadid") with
            | Some ((_ :: _) as upload_id) =>
                if unauthorized resp
                then r = Raise CookieExpiredError /\ trace w' = trace w ++ [init]
                else trace w' = trace w ++ [init; data_post upload_id]
            | _ => r = Raise CookieExpiredError /\ trace w' = trace w ++ [init]
            end
        | Failed e =>
            r = Raise match e with
                      | CookieExpiredError => CookieExpiredError
                      | _ => ImageUploadError
                      end
            /\ trace w' = trace w ++ [init]
        end
      else r = Raise CookieExpiredError /\ trace w' = trace w)
  /\ (forall resp,
        opt_truthy (push_id (self w)) = true ->
        net E (List.length (trace w)) init = Responded resp ->
        headers_get (resp_headers resp) (lit "x-guploader-uploadid") = None ->
        r = Raise CookieExpiredError /\ trace w' = trace w ++ [init]).
Proof.
  cbv zeta.
  split. { unfold init_headers. apply in_or_app. right. cbn. tauto. }
  split. { unfold upload_headers. apply in_or_app. right. cbn. tauto. }
  change (lit "https://push.clients6.google.com/upload/") with UPLOAD_URL.
  unfold _upload_image, bindM, get_self, catch, draw, http, raise, ret.
  destruct (opt_truthy (push_id (self w))) eqn:Hpush; cbn [negb].
  2:{ split; [cbn; auto|]. intros resp H. discriminate H. }
  cbn [trace self draws].
  set (init := Post UPLOAD_URL [] _ _).
  destruct (net E (List.length (trace w)) init) as [resp|e] eqn:Hnet.
  2:{ split.
      - destruct e; cbn; auto.
      - intros resp H1 H2. discriminate H2. }
  destruct (headers_get (resp_headers resp) (lit "x-guploader-uploadid"))
    as [[|u0 us]|] eqn:Hh.
  - split.
    + destruct (unauthorized resp); cbn; split; reflexivity.
    + intros resp' _ Hr Hn. injection Hr as <-. congruence.
  - destruct (unauthorized resp) eqn:Hun.
    + split; [cbn; auto|]. intros resp' _ Hr Hn. injection Hr as <-. congruence.
    + split.
      * change (lit "https://push.clients6.google.com/upload/?upload_id="
                ++ (u0 :: us) ++ lit "&upload_protocol=resumable")
          with (final_upload_url (u0 :: us)).
        cbn [trace]. rewrite (app_length_one w init).
        set (post2 := Post (final_upload_url (u0 :: us)) [] _ _).
        destruct (net E (S (List.length (trace w))) post2) as [resp2|e2];
          [|destruct e2; cbn; now rewrite <- app_assoc].
        destruct (unauthorized resp2); [cbn; now rewrite <- app_assoc|].
        destruct (negb (status_code resp2 =? 200)%Z); [cbn; now rewrite <- app_assoc|].
        destruct (match json_loads (py_float E) (resp_text resp2) with
                  | Some j => _extract_image_path j
                  | None => search_contrib_path (resp_text resp2)
                  end) as [[|p0 ps]|]; try (cbn; now rewrite <- app_assoc).
        destruct (contains (p0 :: ps) (lit "/contrib_service/")
                  && Nat.ltb (List.length (p0 :: ps)) 40);
          cbn; now rewrite <- app_assoc.
      * intros resp' _ Hr Hn. injection Hr as <-. congruence.
  - split.
    + destruct (unauthorized resp); cbn; split; reflexivity.
    + intros resp' _ _ _. destruct (unauthorized resp); cbn; split; reflexivity.
Qed.

Lemma upload_handshake_witness :
  trace (snd (_upload_image upload_env [1; 2; 3] (lit "image/png") example_world_push))
  = [Post (lit "https://push.clients6.google.com/upload/") []
       (init_headers (lit "feeds/abc") [1; 2; 3])
       (FormData [(lit "File name", PStr (image_filename 100000))]);
     Post (lit "https://push.clients6.google.com/upload/?upload_id=upload-1&upload_protocol=resumable")
       [] (upload_headers (lit "feeds/abc") (lit "image/png")) (Content [1; 2; 3])]
  /\ fst (_upload_image example_env [1; 2; 3] (lit "image/png") example_world_push)
     = Raise CookieExpiredError
  /\ trace (snd (_upload_image example_env [1; 2; 3] (lit "image/png") example_world_push))
     = [Post UPLOAD_URL [] (init_headers (lit "feeds/abc") [1; 2; 3])
          (FormData [(lit "File name", PStr (image_filename 100000))])].
Proof.
  split.
  - destruct (upload_handshake upload_env example_world_push [1; 2; 3] (lit "image/png"))
      as (_ & _ & H & _).
    exact H.
  - destruct (upload_handshake example_env example_world_push [1; 2; 3] (lit "image/png"))
      as (_ & _ & _ & H).
    apply (H empty_response); reflexivity.
Defined.

(** The two steps, when the servers accept the upload. *)
Example upload_two_steps :
  _upload_image upload_env [1; 2; 3] (lit "image/png") example_world_push
  = (Ok (lit "/contrib_service/ttl_1d/1234567890abcdefghij"),
     {| self := example_client_push;
        trace := [Post UPLOAD_URL [] (init_headers (lit "feeds/abc") [1; 2; 3])
                    (FormData [(lit "File name", PStr (image_filename 100000))]);
                  Post (final_upload_url (lit "upload-1")) []
                    (upload_headers (lit "feeds/abc") (lit "image/png"))
                    (Content [1; 2; 3])];
        draws := 1 |}).
Proof. vm_compute. reflexivity. Qed.

(** C6, as amended: without a push id [_upload_image] raises
    [CookieExpiredError] and does nothing else; [_send_request] with images,
    and [_send_stream_request] with images and no paths handed in, raise it
    without sending anything; [_send_stream_request] given the paths of
    images already uploaded skips the check, uploads nothing and posts the
    chat request. *)
Theorem push_id_required (E : environment) (w : world) :
  opt_truthy (push_id (self w)) = false ->
  (forall image_data mime,
     _upload_image E image_data mime w = (Raise CookieExpiredError, w))
  /\ (forall text img rest,
        fst (_send_request E text (img :: rest) w) = Raise CookieExpiredError
        /\ trace (snd (_send_request E text (img :: rest) w)) = trace w)
  /\ (forall text img rest,
        fst (_send_stream_request E text (img :: rest) None w) = Raise CookieExpiredError
        /\ trace (snd (_send_stream_request E text (img :: rest) None w)) = trace w)
  /\ (forall text images paths,
        fst (_send_stream_request E text images (Some paths) w) <> Raise CookieExpiredError
        /\ exists rq,
             trace (snd (_send_stream_request E text images (Some paths) w))
             = trace w ++ [rq]
             /\ is_chat_post rq = true).
Proof.
  intro Hp. split; [|split; [|split]].
  - intros. unfold _upload_image, bindM, get_self. now rewrite Hp.
  - intros. unfold _send_request, bindM, get_self, draw. cbn [self].
    rewrite Hp. cbn. auto.
  - intros. unfold _send_stream_request, bindM, get_self, draw. cbn [self].
    rewrite Hp. cbn. auto.
  - intros text images paths.
    destruct (build_request_data_value E text images paths
                {| self := self w; trace := trace w; draws := S (draws w) |})
      as (image_data & sid & ts & w1 & Hv & _ & Hs & Ht).
    cbn [self trace] in Hs, Ht.
    destruct (_send_stream_request E text images (Some paths) w) as [r w'] eqn:Hrun.
    cbn [fst snd].
    unfold _send_stream_request, bindM at 1 2 3, get_self, draw, ret in Hrun.
    cbn [self trace draws] in Hrun.
    unfold bindM at 1 in Hrun. rewrite Hv in Hrun.
    unfold bindM at 1, get_self, catch in Hrun.
    unfold bindM at 1, http in Hrun.
    set (rq := Post STREAM_URL _ _ _) in Hrun.
    assert (Hrq : is_chat_post rq = true) by reflexivity.
    destruct (net E (List.length (trace w1)) rq) as [resp|e].
    + set (w2 := {| self := self w1; trace := trace w1 ++ [rq]; draws := draws w1 |})
        in Hrun.
      pose proof (@emits_silent _ (stream_after_post E resp) w2
                    (@stream_after_post_emits E (self w2) (fun _ => False) resp)) as Hsil.
      change (bindM (raise_for_status resp) _) with (stream_after_post E resp) in Hrun.
      destruct (stream_after_post E resp w2) as [[out|e] w3] eqn:Hrest;
        cbn [fst snd] in Hsil; injection Hrun as <- <-.
      * split; [discriminate|]. exists rq. split; [|exact Hrq].
        rewrite Hsil. unfold w2. cbn. now rewrite Ht.
      * split; [discriminate|]. exists rq. split; [|exact Hrq].
        rewrite Hsil. unfold w2. cbn. now rewrite Ht.
    + injection Hrun as <- <-. split; [discriminate|].
      exists rq. split; [cbn; now rewrite Ht|exact Hrq].
Qed.

Lemma push_id_required_witness :
  _upload_image example_env [1; 2; 3] (lit "image/png") example_world
  = (Raise CookieExpiredError, example_world)
  /\ fst (_send_request example_env (lit "hi") [example_image] example_world)
     = Raise CookieExpiredError
  /\ fst (_send_stream_request example_env (lit "hi") [example_image] None example_world)
     = Raise CookieExpiredError.
Proof.
  destruct (@push_id_required example_env example_world eq_refl) as (H1 & H2 & H3 & _).
  split; [apply H1|]. split; [apply H2|apply H3].
Defined.

(** C6 as stated fails: handed the paths of images already uploaded,
    [_send_stream_request] does not raise although images are supplied and
    the push id is unset. *)
Lemma push_id_counterexample :
  push_id (self example_world) = None
  /\ fst (_send_stream_request example_env (lit "hi") [example_image]
            (Some [lit "/contrib_service/ttl_1d/1234567890abcdefghij"]) example_world)
     = Ok []
  /\ Ok [] <> @Raise (list pystr) CookieExpiredError.
Proof.
  split; [reflexivity|]. split; [vm_compute; reflexivity|discriminate].
Qed.

(** * Facts about [chat] and the history *)

Section History.

Local Open Scope Z_scope.

Lemma slice_last {A} (l : list A) (k : Z) :
  0 < k <= Z.of_nat (List.length l) ->
  py_slice_from l (- k) = skipn (List.length l - Z.to_nat k) l.
Proof.
  intro H. unfold py_slice_from.
  replace (- k <? 0) with true by (symmetry; apply Z.ltb_lt; lia).
  f_equal. lia.
Qed.

(** For a limit of at least two the truncation does what it is meant to do:
    the history fits the limit, what is kept is the end of the old history,
    and after a truncation the number kept is even. *)
Lemma limit_history_holds (c : client) :
  2 <= max_history_messages c ->
  Z.of_nat (List.length (messages (limit_history c))) <= max_history_messages c
  /\ (exists dropped, messages c = dropped ++ messages (limit_history c))
  /\ (max_history_messages c < Z.of_nat (List.length (messages c)) ->
      Z.even (Z.of_nat (List.length (messages (limit_history c)))) = true
      /\ Z.of_nat (List.length (messages (limit_history c)))
         = max_history_messages c - max_history_messages c mod 2).
Proof.
  intro Hmax. unfold limit_history.
  destruct (max_history_messages c <? Z.of_nat (List.length (messages c))) eqn:Hlt.
  - apply Z.ltb_lt in Hlt.
    set (keep := if max_history_messages c mod 2 =? 1
                 then max_history_messages c - 1 else max_history_messages c).
    assert (Hk : keep = max_history_messages c - max_history_messages c mod 2).
    { unfold keep. pose proof (Z.mod_pos_bound (max_history_messages c) 2 ltac:(lia)).
      destruct (max_history_messages c mod 2 =? 1) eqn:E1.
      - apply Z.eqb_eq in E1. lia.
      - apply Z.eqb_neq in E1. lia. }
    assert (Hkr : 0 < keep <= Z.of_nat (List.length (messages c))).
    { pose proof (Z.mod_pos_bound (max_history_messages c) 2 ltac:(lia)). lia. }
    cbn [messages set_messages].
    rewrite (slice_last _ Hkr).
    assert (Hlen : Z.of_nat (List.length (skipn (List.length (messages c) - Z.to_nat keep)
                                           (messages c))) = keep).
    { rewrite length_skipn. lia. }
    split; [|split].
    + rewrite Hlen. pose proof (Z.mod_pos_bound (max_history_messages c) 2 ltac:(lia)). lia.
    + exists (firstn (List.length (messages c) - Z.to_nat keep) (messages c)).
      now rewrite firstn_skipn.
    + intros _. rewrite Hlen. split; [|exact Hk].
      rewrite Hk. rewrite Z.even_spec.
      exists (max_history_messages c / 2).
      pose proof (Z.div_mod (max_history_messages c) 2 ltac:(lia)). lia.
  - apply Z.ltb_ge in Hlt. split; [exact Hlt|]. split; [now exists []|]. lia.
Qed.

End History.

(** C8 at the failing input: with [max_history_messages = 1] the history
    taken in from three messages keeps all three, and so does the history
    loaded from a session file: [keep_count] is 0 and [messages[-0:]] is
    the whole list. *)
Theorem history_limit_one_not_enforced :
  let msgs := PList [text_message "user" (lit "a");
                     text_message "assistant" (lit "b");
                     text_message "user" (lit "c")] in
  let w1 := snd (intake example_env msgs None None None example_world_limit_one) in
  let file := Holds (json_dumps (float_repr example_env)
                       (PDict [(lit "messages", msgs)])) in
  let w2 := snd (_load_session_state
                   {| net := net example_env; randint := randint example_env;
                      uuid4_upper := uuid4_upper example_env;
                      time_ms := time_ms example_env; time_s := time_s example_env;
                      b64decode := b64decode example_env;
                      b64encode := b64encode example_env;
                      py_str := py_str example_env;
                      unicode_isdigit := unicode_isdigit example_env;
                      float_repr := float_repr example_env;
                      py_float := py_float example_env;
                      session_file := file |}
                   example_world_limit_one) in
  fst (intake example_env msgs None None None example_world_limit_one)
  = Ok (lit "c", [])
  /\ max_history_messages (self w1) = 1%Z
  /\ List.length (messages (self w1)) = 3%nat
  /\ max_history_messages (self w2) = 1%Z
  /\ List.length (messages (self w2)) = 3%nat.
Proof. vm_compute. repeat split. Qed.

Section Intake.

Variable E : environment.
Variable I : client -> Prop.

Hypothesis I_append : forall m c, I c -> I (append_message m c).
Hypothesis I_limit : forall c, I c -> I (limit_history c).

Let P := fun rq => is_get rq = true.

Lemma parse_item_emits item acc : emits I P (parse_item E item acc).
Proof.
  unfold parse_item. destruct acc as [text_parts images].
  emits_auto; apply emits_http; reflexivity.
Qed.

Lemma parse_content_emits content : emits I P (_parse_content E content).
Proof.
  unfold _parse_content.
  destruct content; try apply emits_ret;
    (apply emits_bind; [apply emits_lift|intro items];
     apply emits_bind; [apply emits_for_each; intros; apply parse_item_emits|intro acc];
     destruct acc as [text_parts images]; destruct text_parts; emits_auto).
Qed.

Lemma take_message_emits msg acc : emits I P (take_message E msg acc).
Proof.
  unfold take_message.
  apply emits_bind; [apply emits_lift|intro r].
  apply emits_bind; [apply emits_lift|intro ct].
  apply emits_if.
  - apply emits_bind; [apply emits_modify; intros; now apply I_append|intros _].
    apply parse_content_emits.
  - apply emits_if; [|apply emits_ret].
    apply emits_bind; [apply emits_modify; intros; now apply I_append|intros _].
    apply emits_ret.
Qed.

Lemma intake_emits messages message image image_url :
  emits I P (intake E messages message image image_url).
Proof.
  unfold intake.
  apply emits_if.
  - apply emits_bind; [apply emits_lift|intro msgs].
    apply emits_bind; [apply emits_for_each; intros; apply take_message_emits|intro acc].
    apply emits_bind; [apply emits_modify; intros; now apply I_limit|intros _].
    apply emits_ret.
  - apply emits_if; [|apply emits_ret].
    apply emits_bind; [apply emits_modify; intros; now apply I_append|intros _].
    destruct image as [[|b bs]|]; try apply emits_ret;
      (apply emits_if; [|apply emits_ret];
       apply emits_if;
       [destruct (match_data_url _) as [[mime d]|]; apply emits_ret
       |apply emits_catch;
        [apply emits_bind; [apply emits_http; reflexivity|intro; apply emits_ret]
        |intro; apply emits_ret]]).
Qed.

End Intake.

Section HistoryBound.

Variable E : environment.

Local Open Scope Z_scope.

Lemma limit_history_max (c : client) :
  max_history_messages (limit_history c) = max_history_messages c.
Proof.
  unfold limit_history.
  destruct (max_history_messages c <? Z.of_nat (List.length (messages c)));
    reflexivity.
Qed.

(** With a limit of at least two, the history left by the intake of a
    [messages] list fits the limit. *)
Lemma intake_history_bounded (msgs : pyval) (message : option pystr)
    (image : option pybytes) (image_url : option pystr)
    (w w' : world) (r : pystr * list image_entry) :
  truthy msgs = true ->
  2 <= max_history_messages (self w) ->
  intake E msgs message image image_url w = (Ok r, w') ->
  max_history_messages (self w') = max_history_messages (self w)
  /\ Z.of_nat (List.length (messages (self w'))) <= max_history_messages (self w').
Proof.
  intros Ht Hmax Hrun. unfold intake in Hrun. rewrite Ht in Hrun.
  unfold bindM at 1, lift in Hrun.
  destruct (py_iter msgs) as [items|e]; [|discriminate Hrun].
  unfold bindM at 1 in Hrun.
  destruct (for_each items ([], []) (take_message E) w) as [[acc|e] w1] eqn:Hloop;
    [|discriminate Hrun].
  assert (Hinv : max_history_messages (self w1) = max_history_messages (self w)).
  { refine (proj1 (@emits_for_each
                     (fun c => max_history_messages c = max_history_messages (self w))
                     (fun rq => is_get rq = true) _ _ (take_message E) items _
                     ([], []) w (Ok acc) w1 eq_refl Hloop)).
    intros x a. apply take_message_emits. intros m c Hc. exact Hc. }
  unfold bindM, modify, ret in Hrun. injection Hrun as _ <-. cbn [self].
  rewrite limit_history_max. split; [exact Hinv|].
  apply limit_history_holds. now rewrite Hinv.
Qed.

(** The same for the history loaded from the session file; a file that is
    absent leaves the history as it is (empty, in the constructor), a file
    that cannot be used resets it. *)
Lemma load_session_history_bounded (w : world) :
  2 <= max_history_messages (self w) ->
  Z.of_nat (List.length (messages (self w))) <= max_history_messages (self w) ->
  max_history_messages (self (snd (_load_session_state E w)))
  = max_history_messages (self w)
  /\ Z.of_nat (List.length (messages (self (snd (_load_session_state E w)))))
     <= max_history_messages (self w).
Proof.
  intros Hmax Hlen. unfold _load_session_state.
  destruct (session_file E) as [| |text].
  - split; [reflexivity|exact Hlen].
  - cbn. split; [reflexivity|lia].
  - unfold reset, catch, bindM, lift, modify, raise, ret.
    repeat match goal with
           | |- context [match ?x with _ => _ end] =>
               lazymatch x with
               | context [limit_history] => fail
               | _ => destruct x
               end
           end;
      cbn [snd self messages max_history_messages set_messages set_choice_id
           set_response_id set_conversation_id List.length];
      first
        [ split; [reflexivity|lia]
        | rewrite limit_history_max; split; [reflexivity|];
          match goal with
          | |- context [limit_history ?c] =>
              change (max_history_messages (self w)) with (max_history_messages c);
              apply limit_history_holds; exact Hmax
          end ].
Qed.

End HistoryBound.

Lemma reset_or_not (reset_context : bool) (w : world) :
  exists w0, (if reset_context then reset else ret tt) w = (Ok tt, w0)
             /\ trace w0 = trace w.
Proof. destruct reset_context; eexists; split; reflexivity. Qed.

(** C9, as amended.  [text] and [images] are what the intake of the inputs
    yields.  Up to the check on [text] the only requests are downloads (GET)
    of the images the messages point to.  With an empty [text], as when
    neither [messages] nor [message] is given, [chat] raises [ValueError] and
    goes no further; with a non-empty [text] it does not raise there and
    hands over to [_send_request], or returns the generator of
    [_send_stream_request] without having run it. *)
Theorem chat_text_check (E : environment) (messages : pyval) (message : option pystr)
    (image : option pybytes) (image_url : option pystr) (reset_context stream : bool)
    (w : world) (text : pystr) (images : list image_entry) (w1 : world) :
  intake E messages message image image_url
    (snd ((if reset_context then reset else ret tt) w)) = (Ok (text, images), w1) ->
  (exists downloads,
     trace w1 = trace w ++ downloads
     /\ Forall (fun rq => is_get rq = true) downloads)
  /\ (text = [] ->
      chat E messages message image image_url reset_context stream w
      = (Raise ValueError, w1))
  /\ (text <> [] ->
      chat E messages message image image_url reset_context stream w
      = if stream
        then (Ok (Stream (_send_stream_request E text images None)), w1)
        else bindM (_send_request E text images) (fun r => ret (Completion r)) w1)
  /\ (truthy messages = false -> opt_truthy message = false ->
      text = [] /\ trace w1 = trace w).
Proof.
  intro Hin.
  destruct (reset_or_not reset_context w) as (w0 & Hreset & Ht0).
  rewrite Hreset in Hin. cbn [snd] in Hin.
  split; [|split; [|split]].
  - assert (Hi : emits (fun _ => True) (fun rq => is_get rq = true)
                   (intake E messages message image image_url))
      by (apply intake_emits; auto).
    destruct (Hi w0 _ w1 I Hin) as (_ & new & Hnew & Hp).
    exists new. split; [now rewrite Hnew, Ht0|exact Hp].
  - intros ->. unfold chat, bindM. rewrite Hreset, Hin. reflexivity.
  - intro Hne. unfold chat. unfold bindM at 1. rewrite Hreset.
    unfold bindM at 1. rewrite Hin.
    destruct text as [|ch text]; [congruence|]. cbn [nonempty negb].
    destruct stream; reflexivity.
  - intros Hm Hmsg. unfold intake in Hin. rewrite Hm, Hmsg in Hin.
    injection Hin as <- _ <-. split; [reflexivity|exact Ht0].
Qed.

Lemma chat_text_check_witness :
  chat example_env PNone None None None false false example_world
  = (Raise ValueError, example_world)
  /\ chat example_env
       (PList [parts_message [image_part (lit "data:image/png;base64,aGVsbG8=")]])
       None None None false false example_world
     = (Raise ValueError,
        snd (intake example_env
               (PList [parts_message [image_part (lit "data:image/png;base64,aGVsbG8=")]])
               None None None example_world)).
Proof.
  split.
  - apply (@chat_text_check example_env PNone None None None false false
             example_world [] [] example_world eq_refl).
    reflexivity.
  - apply (@chat_text_check example_env
             (PList [parts_message [image_part (lit "data:image/png;base64,aGVsbG8=")]])
             None None None false false example_world []
             [{| mime_type := lit "image/png"; data := lit "aGVsbG8=" |}]).
    + vm_compute. reflexivity.
    + reflexivity.
Defined.

(** C9 as stated fails: a request is sent before the [ValueError] when the
    last user message only points to an image to download; two empty text
    parts are joined into a single space, which is not empty, so that the
    chat request goes out; and with [stream] set nothing is sent by the time
    [chat] returns. *)
Lemma chat_text_counterexample :
  (fst (chat example_env
          (PList [parts_message [image_part (lit "http://example.com/a.png")]])
          None None None false false example_world) = Raise ValueError
   /\ trace (snd (chat example_env
                    (PList [parts_message [image_part (lit "http://example.com/a.png")]])
                    None None None false false example_world))
      = [Get (lit "http://example.com/a.png")])
  /\ (fst (intake example_env (PList [parts_message [text_part []; text_part []]])
             None None None example_world) = Ok (lit " ", [])
      /\ (exists r, fst (chat example_env
                           (PList [parts_message [text_part []; text_part []]])
                           None None None false false example_world)
                    = Ok (Completion r))
      /\ (exists rq, trace (snd (chat example_env
                                   (PList [parts_message [text_part []; text_part []]])
                                   None None None false false example_world)) = [rq]
                     /\ is_chat_post rq = true))
  /\ (chat example_env PNone (Some (lit "hi")) None None false true example_world
      = (Ok (Stream (_send_stream_request example_env (lit "hi") [] None)),
         snd (intake example_env PNone (Some (lit "hi")) None None example_world))
      /\ trace (snd (chat example_env PNone (Some (lit "hi")) None None false true
                       example_world)) = []).
Proof.
  split; [|split].
  - split; vm_compute; reflexivity.
  - split; [vm_compute; reflexivity|]. split.
    + eexists. vm_compute. reflexivity.
    + eexists. split; vm_compute; reflexivity.
  - split; [reflexivity|reflexivity].
Qed.

Lemma pystr_eqb_eq (a b : pystr) : pystr_eqb a b = true <-> a = b.
Proof.
  revert b. induction a as [|x a IH]; intros [|y b]; cbn; split;
    try congruence; try reflexivity.
  - intro H. apply andb_true_iff in H as [Hx Hab].
    apply N.eqb_eq in Hx. apply IH in Hab. congruence.
  - intro H. injection H as -> ->. rewrite N.eqb_refl. now apply IH.
Qed.

Lemma strip_prefix_app (p s r : pystr) :
  strip_prefix p s = Some r <-> s = p ++ r.
Proof.
  revert s. induction p as [|x p IH]; intros s; cbn.
  - split; congruence.
  - destruct s as [|y s]; [split; discriminate|].
    destruct (N.eqb_spec x y) as [->|Hne].
    + rewrite IH. split; congruence.
    + split; [discriminate|]. intro H. injection H as H _. congruence.
Qed.

Lemma strip_prefix_skipn (p s r : pystr) :
  strip_prefix p s = Some r -> skipn (length p) s = r.
Proof.
  intro H. apply strip_prefix_app in H. subst s.
  induction p as [|x p IH]; [reflexivity|exact IH].
Qed.

(** The three tests of the second [if] fail together exactly for the header
    made of the word Bearer, a space and the key. *)
Lemma bearer_test (api_key a : pystr) :
  negb (nonempty a) || negb (startswith a (lit "Bearer "))
    || negb (pystr_eqb (skipn 7 a) api_key) = false
  <-> a = lit "Bearer " ++ api_key.
Proof.
  split.
  - intro H. apply orb_false_iff in H as [H Heq].
    apply orb_false_iff in H as [_ Hsw].
    apply negb_false_iff in Hsw, Heq. apply pystr_eqb_eq in Heq.
    unfold startswith in Hsw.
    destruct (strip_prefix (lit "Bearer ") a) as [r|] eqn:Hr; [|discriminate].
    pose proof (strip_prefix_skipn _ _ Hr) as Hs.
    change (length (lit "Bearer ")) with 7%nat in Hs.
    apply strip_prefix_app in Hr. congruence.
  - intros ->.
    assert (Hsw : startswith (lit "Bearer " ++ api_key) (lit "Bearer ") = true).
    { unfold startswith.
      now rewrite (proj2 (strip_prefix_app (lit "Bearer ") _ api_key) eq_refl). }
    rewrite Hsw.
    change (skipn 7 (lit "Bearer " ++ api_key)) with api_key.
    rewrite (proj2 (pystr_eqb_eq api_key api_key) eq_refl). reflexivity.
Qed.

(** C10.  [API_KEY] is a non-empty constant, so that [verify_api_key] never
    takes its first exit; it raises [HTTPException] with status 401 and
    detail Invalid API key exactly when the [Authorization] header is not
    the word Bearer, a space and [API_KEY] (a missing header included), and
    returns [True] otherwise; an endpoint that begins with the call raises
    the same exception whatever the rest of its body does. *)
Theorem api_key_enforced (authorization : option pystr) :
  nonempty API_KEY = true
  /\ API_KEY = lit "sk-gemini"
  /\ (verify_api_key authorization
        = Raise (HTTPException 401 (lit "Invalid API key"))
      <-> authorization <> Some (lit "Bearer " ++ API_KEY))
  /\ (authorization = Some (lit "Bearer " ++ API_KEY) ->
      verify_api_key authorization = Ok true)
  /\ (forall (A : Type) (handler : result A),
        authorization <> Some (lit "Bearer " ++ API_KEY) ->
        guarded_endpoint handler authorization
        = Raise (HTTPException 401 (lit "Invalid API key")))
  /\ (forall (A : Type) (handler : result A),
        authorization = Some (lit "Bearer " ++ API_KEY) ->
        guarded_endpoint handler authorization = handler).
Proof.
  assert (Hraise : verify_api_key authorization
                   = Raise (HTTPException 401 (lit "Invalid API key"))
                   <-> authorization <> Some (lit "Bearer " ++ API_KEY)).
  { unfold verify_api_key, verify_api_key_with.
    change (negb (nonempty API_KEY)) with false. cbv iota.
    destruct authorization as [a|]; [|split; [discriminate|reflexivity]].
    pose proof (bearer_test API_KEY a) as Hb.
    destruct (negb (nonempty a) || negb (startswith a (lit "Bearer "))
              || negb (pystr_eqb (skipn 7 a) API_KEY)).
    - split; [|reflexivity]. intros _ Heq. injection Heq as Heq.
      apply Hb in Heq. discriminate Heq.
    - split; [discriminate|]. intro Hne. exfalso. apply Hne. f_equal.
      now apply Hb. }
  assert (Hok : authorization = Some (lit "Bearer " ++ API_KEY) ->
                verify_api_key authorization = Ok true).
  { intros ->. reflexivity. }
  repeat split; try apply Hraise; try exact Hok.
  - intros A handler Hne. unfold guarded_endpoint.
    now rewrite (proj2 Hraise Hne).
  - intros A handler Heq. unfold guarded_endpoint. now rewrite (Hok Heq).
Qed.

Lemma api_key_enforced_witness :
  verify_api_key (Some (lit "Bearer sk-gemini")) = Ok true
  /\ verify_api_key (Some (lit "bearer sk-gemini"))
     = Raise (HTTPException 401 (lit "Invalid API key"))
  /\ guarded_endpoint (Ok 0%Z) None
     = Raise (HTTPException 401 (lit "Invalid API key")).
Proof.
  split; [|split].
  - destruct (api_key_enforced (Some (lit "Bearer sk-gemini")))
      as (_ & _ & _ & Hok & _).
    apply Hok. reflexivity.
  - destruct (api_key_enforced (Some (lit "bearer sk-gemini")))
      as (_ & _ & Hraise & _).
    apply Hraise. intro H. vm_compute in H. discriminate H.
  - destruct (api_key_enforced None) as (_ & _ & _ & _ & Hguard & _).
    apply Hguard. intro H. discriminate H.
Defined.

(** * Further facts about the client *)

(** ** [_extract_image_path] *)

Lemma find_app_first {A} (p : A -> bool) (l1 l2 : list A) :
  find p (l1 ++ l2) = match find p l1 with Some x => Some x | None => find p l2 end.
Proof.
  induction l1 as [|x l1 IH]; cbn; [reflexivity|].
  destruct (p x); [reflexivity|exact IH].
Qed.

Lemma startswith_nonempty (s p : pystr) :
  p <> [] -> startswith s p = true -> s <> [].
Proof.
  intros Hp Hs ->. unfold startswith in Hs. destruct p; [congruence|discriminate Hs].
Qed.

Lemma extract_image_path_find (data : pyval) :
  _extract_image_path data
  = find (fun s => startswith s (lit "/contrib_service/")) (string_leaves data).
Proof.
  induction data as [|b|z|f|s|l IH|d IH] using pyval_ind; try reflexivity.
  - cbn [_extract_image_path string_leaves].
    induction l as [|item rest IHl]; [reflexivity|].
    rewrite find_app_first.
    inversion IH as [|? ? Hitem Hrest]; subst.
    rewrite <- Hitem. rewrite <- (IHl Hrest).
    destruct (_extract_image_path item) as [[|c r]|] eqn:Hi; try reflexivity.
    exfalso. symmetry in Hitem. apply find_some in Hitem.
    destruct Hitem as [_ Hs]. discriminate Hs.
  - cbn [_extract_image_path string_leaves].
    induction d as [|[k value] rest IHd]; [reflexivity|].
    rewrite find_app_first.
    inversion IH as [|? ? Hitem Hrest]; subst. cbn [snd] in Hitem.
    rewrite <- Hitem. rewrite <- (IHd Hrest).
    destruct (_extract_image_path value) as [[|c r]|] eqn:Hi; try reflexivity.
    exfalso. symmetry in Hitem. apply find_some in Hitem.
    destruct Hitem as [_ Hs]. discriminate Hs.
Qed.

(** X1.  [_extract_image_path] returns the first string of the data, in the order
    of its traversal (items of lists and values of dicts, depth first), that
    starts with [/contrib_service/], and [None] exactly when no string of
    the data does. *)
Theorem extract_image_path_first (data : pyval) :
  _extract_image_path data
  = find (fun s => startswith s (lit "/contrib_service/")) (string_leaves data)
  /\ match _extract_image_path data with
     | Some path =>
         In path (string_leaves data)
         /\ startswith path (lit "/contrib_service/") = true
     | None =>
         forallb (fun s => negb (startswith s (lit "/contrib_service/")))
           (string_leaves data) = true
     end.
Proof.
  split; [apply extract_image_path_find|].
  rewrite extract_image_path_find.
  destruct (find _ (string_leaves data)) as [path|] eqn:Hf.
  - now apply find_some in Hf.
  - apply forallb_forall. intros s Hs.
    now rewrite (find_none _ _ Hf s Hs).
Qed.

Example extract_image_path_nested :
  _extract_image_path
    (PList [PInt 1; PDict [(lit "a", PList [PStr (lit "x"); PStr (lit "/contrib_service/p")])];
            PStr (lit "/contrib_service/q")])
  = Some (lit "/contrib_service/p").
Proof. reflexivity. Qed.

(** ** [_fetch_bl] *)

Lemma span_app (p : N -> bool) (s : pystr) :
  fst (span p s) ++ snd (span p s) = s.
Proof.
  induction s as [|c r IH]; [reflexivity|]. cbn.
  destruct (p c); [|reflexivity].
  destruct (span p r) as [a b]. cbn in *. now rewrite IH.
Qed.

Lemma span_all (p : N -> bool) (s : pystr) :
  forallb p (fst (span p s)) = true.
Proof.
  induction s as [|c r IH]; [reflexivity|]. cbn.
  destruct (p c) eqn:Hc; [|reflexivity].
  destruct (span p r) as [a b]. cbn in *. now rewrite Hc, IH.
Qed.

Lemma span_stop (p : N -> bool) (s : pystr) (c : N) (r : pystr) :
  snd (span p s) = c :: r -> p c = false.
Proof.
  induction s as [|x s IH]; cbn; [discriminate|].
  destruct (p x) eqn:Hx.
  - destruct (span p s) as [a b]. cbn in *. exact IH.
  - intro H. injection H as <- _. exact Hx.
Qed.

(** What [search_cfb2h] finds is a non-empty run without quotes that stands
    in the text between the key and a closing quote. *)
Lemma search_cfb2h_sound (text v : pystr) :
  search_cfb2h text = Some v ->
  v <> []
  /\ forallb (fun c => negb (c =? 34)) v = true
  /\ exists before after, text = before ++ CFB2H_KEY ++ v ++ 34 :: after.
Proof.
  induction text as [|c text IH].
  - cbn. discriminate.
  - intro H. cbn [search_cfb2h] in H.
    destruct (strip_prefix CFB2H_KEY (c :: text)) as [r|] eqn:Hk.
    + pose proof (span_app (fun c => negb (c =? 34)) r) as Happ.
      pose proof (span_all (fun c => negb (c =? 34)) r) as Hall.
      pose proof (@span_stop (fun c => negb (c =? 34)) r) as Hstop.
      destruct (span (fun c => negb (c =? 34)) r) as [[|x run] [|q after]];
        cbn [fst snd] in *;
        try (apply IH in H; destruct H as (Hv & Hq & before & after' & ->);
             split; [exact Hv|]; split; [exact Hq|];
             exists (c :: before), after'; reflexivity).
      injection H as <-. split; [discriminate|]. split; [exact Hall|].
      specialize (Hstop q after eq_refl). apply negb_false_iff, N.eqb_eq in Hstop.
      subst q. exists [], after. cbn [app].
      apply strip_prefix_app in Hk. rewrite Hk, <- Happ. reflexivity.
    + apply IH in H. destruct H as (Hv & Hq & before & after & ->).
      split; [exact Hv|]. split; [exact Hq|].
      exists (c :: before), after. reflexivity.
Qed.

Example search_cfb2h_example :
  search_cfb2h ([34] ++ lit "x" ++ [34; 58; 34] ++ lit "1"
                ++ [34; 44] ++ CFB2H_KEY ++ lit "boq_1" ++ [34; 125])
  = Some (lit "boq_1").
Proof. reflexivity. Qed.


(** ** The session file *)

Lemma limit_history_settings (c0 c : client) :
  same_settings c0 c -> same_settings c0 (limit_history c).
Proof.
  unfold limit_history.
  destruct (max_history_messages c <? Z.of_nat (List.length (messages c)))%Z;
    intro H; exact H.
Qed.

(** X3.  [_load_session_state] never raises and sends nothing; it leaves the
    tokens, [bl], the request count and the history limit alone.  Without a
    session file the client stays as it is.  With one, the state is restored
    as a whole (the three identifiers, and the history cut to the limit) or
    not at all: a file that cannot be read or decoded, or whose content has
    not the expected shape, leaves a client without conversation. *)
Theorem load_session_all_or_nothing (E : environment) (w : world) :
  exists c',
    _load_session_state E w
    = (Ok tt, {| self := c'; trace := trace w; draws := draws w |})
    /\ same_settings (self w) c'
    /\ match session_file E with
       | Absent => c' = self w
       | Unreadable => cleared c'
       | Holds text =>
           cleared c'
           \/ exists state conv resp ch items msgs,
                loads E text = Ok state
                /\ py_get state (lit "conversation_id") (PStr []) = Ok conv
                /\ py_get state (lit "response_id") (PStr []) = Ok resp
                /\ py_get state (lit "choice_id") (PStr []) = Ok ch
                /\ bind (py_get state (lit "messages") (PList [])) py_iter = Ok items
                /\ load_messages items = Ok msgs
                /\ c' = limit_history
                          (set_messages msgs
                             (set_choice_id ch
                                (set_response_id resp
                                   (set_conversation_id conv (self w)))))
       end.
Proof.
  unfold _load_session_state.
  destruct (session_file E) as [| |text].
  - exists (self w). split; [now destruct w|]. split; [repeat split|reflexivity].
  - eexists. split; [reflexivity|]. split; repeat split.
  - unfold reset, catch, bindM, lift, modify, raise, ret.
    destruct (loads E text) as [state|e] eqn:Hst; cbn [self trace draws];
      [|eexists; split; [reflexivity|]; split; [repeat split|left; repeat split]].
    destruct (py_get state (lit "conversation_id") (PStr [])) as [conv|e] eqn:Hconv;
      cbn [self trace draws];
      [|eexists; split; [reflexivity|]; split; [repeat split|left; repeat split]].
    destruct (py_get state (lit "response_id") (PStr [])) as [resp|e] eqn:Hresp;
      cbn [self trace draws];
      [|eexists; split; [reflexivity|]; split; [repeat split|left; repeat split]].
    destruct (py_get state (lit "choice_id") (PStr [])) as [ch|e] eqn:Hch;
      cbn [self trace draws];
      [|eexists; split; [reflexivity|]; split; [repeat split|left; repeat split]].
    destruct (py_get state (lit "messages") (PList [])) as [md|e] eqn:Hmd;
      cbn [self trace draws];
      [|eexists; split; [reflexivity|]; split; [repeat split|left; repeat split]].
    destruct (py_iter md) as [items|e] eqn:Hit; cbn [self trace draws];
      [|eexists; split; [reflexivity|]; split; [repeat split|left; repeat split]].
    destruct (load_messages items) as [msgs|e] eqn:Hl; cbn [self trace draws];
      [|eexists; split; [reflexivity|]; split; [repeat split|left; repeat split]].
    eexists. split; [reflexivity|]. split.
    + apply limit_history_settings. repeat split.
    + right. exists state, conv, resp, ch, items, msgs.
      rewrite Hmd. cbn [bind]. repeat split; assumption.
Qed.

Lemma load_messages_dicts (msgs : list Message) :
  load_messages (map message_dict msgs) = Ok msgs.
Proof.
  induction msgs as [|[r ct] msgs IH]; [reflexivity|].
  cbn [map load_messages]. unfold message_dict at 1 2.
  cbn [role content]. 
  change (py_getitem_str (PDict [(lit "role", r); (lit "content", ct)]) (lit "role"))
    with (Ok r).
  change (py_getitem_str (PDict [(lit "role", r); (lit "content", ct)]) (lit "content"))
    with (Ok ct).
  cbn [bind]. rewrite IH. reflexivity.
Qed.

(** X4.  Round trip through the session file: from a file whose content decodes
    to the state that [_save_session_state] writes for a client [c0] whose
    history fits the limit, [_load_session_state] restores the identifiers
    and the history of [c0]. *)
Theorem session_state_round_trip (E : environment) (w : world) (c0 : client)
    (text : pystr) :
  session_file E = Holds text ->
  json_loads (py_float E) text = Some (saved_state c0) ->
  (Z.of_nat (List.length (messages c0)) <= max_history_messages (self w))%Z ->
  exists c',
    _load_session_state E w
    = (Ok tt, {| self := c'; trace := trace w; draws := draws w |})
    /\ conversation_id c' = conversation_id c0
    /\ response_id c' = response_id c0
    /\ choice_id c' = choice_id c0
    /\ messages c' = messages c0
    /\ get_history c' = get_history c0.
Proof.
  intros Hfile Hdec Hlen.
  unfold _load_session_state. rewrite Hfile.
  unfold catch, bindM at 1, lift, loads. rewrite Hdec.
  unfold saved_state.
  unfold bindM, lift, modify, ret.
  change (py_get (PDict _) (lit "conversation_id") (PStr []))
    with (Ok (conversation_id c0)).
  change (py_get (PDict _) (lit "response_id") (PStr []))
    with (Ok (response_id c0)).
  change (py_get (PDict _) (lit "choice_id") (PStr []))
    with (Ok (choice_id c0)).
  change (py_get (PDict _) (lit "messages") (PList []))
    with (Ok (PList (map message_dict (messages c0)))).
  cbn [py_iter self trace draws]. rewrite load_messages_dicts.
  cbn [self trace draws].
  eexists. split; [reflexivity|].
  unfold limit_history. cbn [messages max_history_messages set_messages set_choice_id
                             set_response_id set_conversation_id].
  replace (max_history_messages (self w) <? Z.of_nat (List.length (messages c0)))%Z
    with false by (symmetry; apply Z.ltb_ge; exact Hlen).
  unfold get_history. cbn. repeat split.
Qed.

Lemma session_state_round_trip_witness :
  exists c',
    _load_session_state
      (with_session_file example_env
         (Holds (json_dumps (float_repr example_env) (saved_state example_client_talking))))
      example_world
    = (Ok tt, {| self := c'; trace := []; draws := 0 |})
    /\ conversation_id c' = PStr (lit "c_1")
    /\ response_id c' = PStr (lit "r_1")
    /\ choice_id c' = PStr (lit "rc_1")
    /\ messages c' = messages example_client_talking
    /\ get_history c' = get_history example_client_talking.
Proof.
  apply (@session_state_round_trip
           (with_session_file example_env
              (Holds (json_dumps (float_repr example_env)
                        (saved_state example_client_talking))))
           example_world example_client_talking
           (json_dumps (float_repr example_env) (saved_state example_client_talking))).
  - reflexivity.
  - vm_compute. reflexivity.
  - vm_compute. discriminate.
Defined.

(** ** The constructor *)

Lemma load_session_silent (E : environment) (w : world) :
  exists c',
    _load_session_state E w
    = (Ok tt, {| self := c'; trace := trace w; draws := draws w |})
    /\ same_settings (self w) c'.
Proof.
  unfold _load_session_state.
  destruct (session_file E) as [| |text].
  - exists (self w). split; [now destruct w|repeat split].
  - eexists. split; [reflexivity|repeat split].
  - unfold reset, catch, bindM, lift, modify, raise, ret.
    repeat match goal with
           | |- context [match ?x with _ => _ end] =>
               lazymatch x with
               | context [limit_history] => fail
               | _ => destruct x
               end
           end;
      cbn [self trace draws];
      (eexists; split; [reflexivity|]);
      first [ apply limit_history_settings; repeat split | repeat split ].
Qed.

Lemma fetch_bl_value (E : environment) (w : world) :
  exists v,
    _fetch_bl E w
    = (Ok tt, {| self := set_bl (Some v) (self w);
                 trace := trace w ++ [Get BASE_URL];
                 draws := draws w |})
    /\ v <> [].
Proof.
  unfold _fetch_bl, catch, bindM, http, modify.
  destruct (net E (List.length (trace w)) (Get BASE_URL)) as [resp|e].
  - destruct (search_cfb2h (resp_text resp)) as [v|] eqn:Hs.
    + exists v. split; [reflexivity|]. now apply search_cfb2h_sound in Hs.
    + exists DEFAULT_BL. split; [reflexivity|discriminate].
  - exists DEFAULT_BL. split; [reflexivity|discriminate].
Qed.

(** X5.  Given a token, the constructor does not raise.  It sends nothing when
    [bl] is given and one GET to the base URL when it is not; the client it
    builds has the token and the push id it was given, a non-empty [bl] (the
    one given, if any), no request counted and a history limit of 100. *)
Theorem init_builds_client (E : environment) (token b push : option pystr) :
  opt_truthy token = true ->
  exists c',
    __init__ E token b push
    = (Ok tt, {| self := c';
                 trace := if opt_truthy b then [] else [Get BASE_URL];
                 draws := 0 |})
    /\ snlm0e c' = token
    /\ push_id c' = push
    /\ opt_truthy (bl c') = true
    /\ (if opt_truthy b then bl c' = b else True)
    /\ request_count c' = 0%Z
    /\ max_history_messages c' = 100%Z.
Proof.
  intro Htok. unfold __init__. unfold bindM at 1. rewrite Htok. cbn [negb ret].
  unfold bindM at 1.
  destruct (opt_truthy b) eqn:Hb; cbn [negb].
  - unfold ret at 1.
    match goal with
    | |- context [_load_session_state E ?w0] =>
        destruct (load_session_silent E w0) as (c' & Hrun & Hs)
    end.
    rewrite Hrun. cbn [self trace draws] in *.
    destruct Hs as (Hbl & Hsn & Hpu & Hrc & Hmax). cbn in Hbl, Hsn, Hpu, Hrc, Hmax.
    exists c'. split; [reflexivity|]. rewrite Hbl, Hsn, Hpu, Hrc, Hmax.
    repeat split. exact Hb.
  - match goal with
    | |- context [_fetch_bl E ?w0] =>
        destruct (fetch_bl_value E w0) as (v & Hf & Hv)
    end.
    rewrite Hf. cbn [self trace draws app].
    match goal with
    | |- context [_load_session_state E ?w0] =>
        destruct (load_session_silent E w0) as (c' & Hrun & Hs)
    end.
    rewrite Hrun. cbn [self trace draws] in *.
    destruct Hs as (Hbl & Hsn & Hpu & Hrc & Hmax). cbn in Hbl, Hsn, Hpu, Hrc, Hmax.
    exists c'. split; [reflexivity|]. rewrite Hbl, Hsn, Hpu, Hrc, Hmax.
    repeat split. destruct v; [congruence|reflexivity].
Qed.

Lemma init_builds_client_witness :
  exists c',
    __init__ example_env (Some (lit "token")) None (Some (lit "feeds/abc"))
    = (Ok tt, {| self := c'; trace := [Get BASE_URL]; draws := 0 |})
    /\ snlm0e c' = Some (lit "token")
    /\ push_id c' = Some (lit "feeds/abc")
    /\ opt_truthy (bl c') = true
    /\ True
    /\ request_count c' = 0%Z
    /\ max_history_messages c' = 100%Z.
Proof.
  apply (@init_builds_client example_env (Some (lit "token")) None (Some (lit "feeds/abc"))).
  reflexivity.
Defined.

(** ** [_upload_image] *)

Lemma search_contrib_path_prefix (text path : pystr) :
  search_contrib_path text = Some path ->
  startswith path (lit "/contrib_service/") = true.
Proof.
  induction text as [|c text IH]; intro H; cbn [search_contrib_path] in H.
  - destruct (strip_prefix (lit "/contrib_service/") []); [|discriminate H].
    destruct (span _ _) as [[|x run] rest]; [discriminate H|].
    injection H as <-. reflexivity.
  - destruct (strip_prefix (lit "/contrib_service/") (c :: text)) as [r|].
    + destruct (span _ r) as [[|x run] rest].
      * now apply IH.
      * injection H as <-. reflexivity.
    + now apply IH.
Qed.

Lemma startswith_contains (s p : pystr) : startswith s p = true -> contains s p = true.
Proof. intro H. destruct s; cbn; now rewrite H. Qed.

(** X6.  What [_upload_image] can end in: the path of the uploaded image, which
    starts with [/contrib_service/] and has at least 40 characters, or one
    of the two exceptions [CookieExpiredError] and [ImageUploadError];
    whatever goes wrong on the way (network failure, unexpected status) is
    turned into [ImageUploadError].  The client is not changed. *)
Theorem upload_image_outcome (E : environment) (image_data : pybytes) (mime : pystr)
    (w : world) :
  match fst (_upload_image E image_data mime w) with
  | Ok path =>
      startswith path (lit "/contrib_service/") = true
      /\ (40 <= List.length path)%nat
  | Raise e => e = CookieExpiredError \/ e = ImageUploadError
  end
  /\ self (snd (_upload_image E image_data mime w)) = self w.
Proof.
  destruct (_upload_image E image_data mime w) as [r w'] eqn:Hrun. cbn [fst snd].
  unfold _upload_image, bindM at 1, get_self in Hrun.
  destruct (opt_truthy (push_id (self w))); cbn [negb] in Hrun;
    [|injection Hrun as <- <-; split; [now left|reflexivity]].
  unfold catch, bindM, draw, http, raise, ret in Hrun. cbn [self trace draws] in Hrun.
  destruct (net E _ _) as [init_resp|e]; cbn [self trace draws] in Hrun;
    [|destruct e; injection Hrun as <- <-; split; auto].
  destruct (unauthorized init_resp); [injection Hrun as <- <-; split; auto|].
  destruct (headers_get _ _) as [[|u upload_id]|];
    try (injection Hrun as <- <-; split; now auto).
  destruct (net E _ _) as [upload_resp|e]; cbn [self trace draws] in Hrun;
    [|destruct e; injection Hrun as <- <-; split; auto].
  destruct (unauthorized upload_resp); [injection Hrun as <- <-; split; auto|].
  destruct (negb (status_code upload_resp =? 200)%Z);
    [injection Hrun as <- <-; split; auto|].
  cbv zeta in Hrun.
  set (ip := match json_loads (py_float E) (resp_text upload_resp) with
             | Some response_json => _extract_image_path response_json
             | None => search_contrib_path (resp_text upload_resp)
             end) in Hrun.
  assert (Hpre : forall p, ip = Some p ->
                           startswith p (lit "/contrib_service/") = true);
    [unfold ip
    |destruct ip as [[|c path]|]; try (injection Hrun as <- <-; split; now auto)].
  { intros p Hp.
    destruct (json_loads (py_float E) (resp_text upload_resp)) as [js|].
    - rewrite extract_image_path_find in Hp. now apply find_some in Hp.
    - now apply search_contrib_path_prefix in Hp. }
  specialize (Hpre _ eq_refl).
  rewrite (startswith_contains _ _ Hpre) in Hrun. cbn [andb] in Hrun.
  destruct (Nat.ltb (List.length (c :: path)) 40) eqn:Hlen;
    [injection Hrun as <- <-; split; auto|].
  injection Hrun as <- <-. cbn [self]. split; [|reflexivity].
  split; [exact Hpre|]. apply Nat.ltb_ge in Hlen. exact Hlen.
Qed.

(** ** What the parts of a request keep *)

Section Keeps.

Variable E : environment.
Variable I : client -> Prop.
Variable P : request -> Prop.

Hypothesis I_conversation : forall v c, I c -> I (set_conversation_id v c).
Hypothesis I_response : forall v c, I c -> I (set_response_id v c).
Hypothesis I_choice : forall v c, I c -> I (set_choice_id v c).

Ltac keeps :=
  repeat first
    [ emits_step
    | apply emits_get_self
    | apply emits_modify; intros ? ?;
      first [apply I_conversation | apply I_response | apply I_choice]; assumption
    | apply emits_for_each; intros ? ?
    | match goal with
      | |- emits _ _ (match ?x with _ => _ end) => destruct x
      | |- emits _ _ (let (_, _) := ?x in _) => destruct x
      end ].

Lemma update_context_keeps inner_json : emits I P (update_context inner_json).
Proof. unfold update_context. keeps. Qed.

Lemma extract_text_keeps inner_json ft : emits I P (extract_text E inner_json ft).
Proof. unfold extract_text. keeps. Qed.

Lemma parse_line_keeps line ft : emits I P (parse_line E line ft).
Proof.
  unfold parse_line. keeps;
    first [apply update_context_keeps | apply extract_text_keeps].
Qed.

Lemma parse_response_keeps response_text : emits I P (_parse_response E response_text).
Proof.
  unfold _parse_response, process_line. keeps; try apply parse_line_keeps.
Qed.

Lemma stream_line_keeps line acc : emits I P (stream_line E line acc).
Proof. unfold stream_line. keeps. Qed.

End Keeps.

Section Uploads.

Variable E : environment.
Variable I : client -> Prop.

Let P := fun rq => is_chat_post rq = false.

Lemma upload_image_keeps image_data mime : emits I P (_upload_image E image_data mime).
Proof.
  unfold _upload_image.
  repeat first
    [ emits_step
    | apply emits_get_self
    | apply emits_http; reflexivity
    | match goal with
      | |- emits _ _ (match ?x with _ => _ end) => destruct x
      end ].
Qed.

Lemma upload_all_keeps images : emits I P (upload_all E images).
Proof.
  unfold upload_all. apply emits_for_each. intros img acc.
  destruct (b64decode E (data img)); [|apply emits_raise].
  apply emits_bind; [apply upload_image_keeps|intro; apply emits_ret].
Qed.

End Uploads.

(** ** [_send_request] *)

Section SendRequest.

Variable E : environment.

(** The upload phase of both request methods. *)
Lemma upload_phase (images : list image_entry) (c : client)
    (handler : exn -> M (list pystr)) (w : world) :
  (forall e w0, exists e', handler e w0 = (Raise e', w0)
                           /\ (e' = CookieExpiredError \/ e' = ImageUploadError)) ->
  let phase :=
    match images with
    | _ :: _ =>
        if negb (opt_truthy (push_id c)) then raise CookieExpiredError
        else catch (upload_all E images) handler
    | [] => ret []
    end in
  self (snd (phase w)) = self w
  /\ (exists new, trace (snd (phase w)) = trace w ++ new /\ no_chat_post new
                  /\ (images = [] -> new = []))
  /\ match fst (phase w) with
     | Ok _ => True
     | Raise e => (e = CookieExpiredError \/ e = ImageUploadError) /\ images <> []
     end.
Proof.
  intros Hh phase.
  assert (Hemits : emits (fun c1 => c1 = self w) (fun rq => is_chat_post rq = false) phase).
  { unfold phase. destruct images as [|img rest]; [apply emits_ret|].
    destruct (negb (opt_truthy (push_id c))); [apply emits_raise|].
    apply emits_catch; [apply upload_all_keeps|].
    intros e w0 r w1 Hi Hrun. destruct (Hh e w0) as (e' & He & _).
    rewrite He in Hrun. injection Hrun as <- <-. split; [exact Hi|].
    exists []. split; [now rewrite app_nil_r|constructor]. }
  destruct (phase w) as [r w1] eqn:Hrun. cbn [fst snd].
  destruct (Hemits w r w1 eq_refl Hrun) as (Hself & new & Ht & Hp).
  split; [exact Hself|]. split.
  - exists new. split; [exact Ht|]. split; [exact Hp|].
    intros ->. unfold phase, ret in Hrun. injection Hrun as _ <-.
    rewrite <- (app_nil_r (trace w)) in Ht at 1. now apply app_inv_head in Ht.
  - destruct r as [paths|e]; [exact I|].
    unfold phase in Hrun. destruct images as [|img rest]; [discriminate Hrun|].
    split; [|discriminate].
    destruct (negb (opt_truthy (push_id c))).
    + injection Hrun as <- _. now left.
    + unfold catch in Hrun.
      destruct (upload_all E (img :: rest) w) as [[a|e0] w0]; [discriminate Hrun|].
      destruct (Hh e0 w0) as (e' & He & Hor). rewrite He in Hrun.
      injection Hrun as <- _. exact Hor.
Qed.

(** The client fields a parsed answer does not touch. *)
Lemma parse_response_frame (response_text : pystr) (w : world) :
  exists reply_text w',
    _parse_response E response_text w = (Ok reply_text, w')
    /\ nonempty reply_text = true
    /\ messages (self w') = messages (self w)
    /\ same_settings (self w) (self w')
    /\ trace w' = trace w.
Proof.
  pose proof (parse_response_value E response_text w w) as Hv.
  pose proof (@parse_response_keeps E
                (fun c => messages c = messages (self w) /\ same_settings (self w) c)
                (fun _ => False)
                (fun v c H => H) (fun v c H => H) (fun v c H => H) response_text) as Hk.
  destruct (_parse_response E response_text w) as [[reply_text|e] w'] eqn:Hrun;
    cbn [fst] in Hv; [|discriminate Hv].
  destruct (Hk w _ w' (conj eq_refl (conj eq_refl (conj eq_refl (conj eq_refl
                        (conj eq_refl eq_refl))))) Hrun)
    as ((Hm & Hs) & new & Ht & Hf).
  exists reply_text, w'. split; [reflexivity|]. split.
  - injection Hv as ->. cbv zeta.
    destruct (nonempty _ && nonempty (strip _)) eqn:Hn; [|reflexivity].
    now apply andb_true_iff in Hn.
  - split; [exact Hm|]. split; [exact Hs|].
    destruct new as [|rq new]; [now rewrite app_nil_r in Ht|].
    inversion Hf as [|? ? Hrq]. contradiction.
Qed.

Lemma upload_handler_wraps (e : exn) (w0 : world) :
  exists e',
    match e with
    | CookieExpiredError => @raise (list pystr) CookieExpiredError
    | _ => raise ImageUploadError
    end w0 = (Raise e', w0)
    /\ (e' = CookieExpiredError \/ e' = ImageUploadError).
Proof. destruct e; eexists; (split; [reflexivity|auto]). Qed.

(** How a run of [_send_request] ends. *)
Lemma send_request_run (text : pystr) (images : list image_entry) (w : world) :
  exists uploads,
    no_chat_post uploads
    /\ (images = [] -> uploads = [])
    /\ match _send_request E text images w with
       | (Ok r, w') =>
           exists reply_text rq,
             nonempty reply_text = true
             /\ choices r = [(0%Z, assistant_message reply_text, lit "stop")]
             /\ usage r = (len_z text, len_z reply_text,
                           (len_z text + len_z reply_text)%Z)
             /\ model r = lit "gemini-web"
             /\ messages (self w') = messages (self w) ++ [assistant_message reply_text]
             /\ request_count (self w') = (request_count (self w) + 1)%Z
             /\ bl (self w') = bl (self w)
             /\ snlm0e (self w') = snlm0e (self w)
             /\ push_id (self w') = push_id (self w)
             /\ max_history_messages (self w') = max_history_messages (self w)
             /\ trace w' = trace w ++ uploads ++ [rq]
             /\ is_chat_post rq = true
       | (Raise e, w') =>
           self w' = self w
           /\ ((e = CookieExpiredError \/ e = ImageUploadError)
               /\ images <> [] /\ trace w' = trace w ++ uploads
               \/ e = PlainException
                  /\ exists rq, trace w' = trace w ++ uploads ++ [rq]
                                /\ is_chat_post rq = true)
       end.
Proof.
  unfold _send_request.
  unfold bindM at 1, get_self at 1. unfold bindM at 1, draw at 1.
  cbv beta iota zeta. cbn [self trace draws].
  set (w0 := {| self := self w; trace := trace w; draws := S (draws w) |}).
  pose proof (@upload_phase images (self w) _ w0 upload_handler_wraps) as Hup.
  cbv zeta in Hup. unfold bindM at 1.
  match type of Hup with
  | context [fst (?ph w0)] => destruct (ph w0) as [[paths|e] w1] eqn:Hph
  end; cbn [fst snd] in Hup;
    destruct Hup as (Hs1 & (uploads & Ht1 & Hnc & Hnil) & Herr);
    exists uploads; (split; [exact Hnc|]); (split; [exact Hnil|]).
  2:{ destruct Herr as [Hor Hne]. split; [exact Hs1|]. left. auto. }
  destruct (build_request_data_value E text images paths w1)
    as (image_data & sid & ts & w2 & Hb & _ & Hs2 & Ht2).
  unfold bindM at 1. rewrite Hb. unfold bindM at 1, get_self at 1.
  unfold catch. unfold bindM at 1, http at 1.
  set (rq := Post STREAM_URL _ _ _).
  assert (Hrq : is_chat_post rq = true) by reflexivity.
  destruct (net E (List.length (trace w2)) rq) as [resp|e0].
  2:{ unfold raise. cbn [self trace]. split; [now rewrite Hs2, Hs1|].
      right. split; [reflexivity|].
      exists rq. split; [|exact Hrq]. rewrite Ht2, Ht1. cbn [trace w0].
      now rewrite app_assoc. }
  unfold bindM at 1, raise_for_status at 1.
  destruct ((200 <=? status_code resp)%Z && (status_code resp <? 300)%Z).
  2:{ unfold raise. cbn [self trace]. split; [now rewrite Hs2, Hs1|].
      right. split; [reflexivity|].
      exists rq. split; [|exact Hrq]. rewrite Ht2, Ht1. cbn [trace w0].
      now rewrite app_assoc. }
  unfold ret at 1. unfold bindM at 1, modify at 1. cbn [self trace draws].
  set (w4 := {| self := set_request_count _ _; trace := _; draws := _ |}).
  destruct (parse_response_frame (resp_text resp) w4)
    as (reply_text & w5 & Hp & Hne & Hm5 & Hset5 & Ht5).
  unfold bindM at 1. rewrite Hp.
  unfold bindM, modify, get_self, draw, ret. cbn [self trace draws].
  exists reply_text, rq.
  destruct Hset5 as (Hbl & Hsn & Hpu & Hrc & Hmax).
  cbn [self request_count set_request_count bl snlm0e push_id max_history_messages
       messages] in Hm5, Hbl, Hsn, Hpu, Hrc, Hmax.
  cbn [choices usage model append_message set_messages messages request_count bl
       snlm0e push_id max_history_messages].
  rewrite Hm5, Hrc, Hbl, Hsn, Hpu, Hmax, Ht5. cbn [trace].
  unfold w4. cbn [self trace messages request_count bl snlm0e push_id
                  max_history_messages set_request_count].
  rewrite Hs2, Hs1, Ht2, Ht1. cbn [self trace w0].
  repeat split; try reflexivity; try assumption.
  now rewrite app_assoc.
Qed.

(** X7.  A successful [_send_request] has sent the chat request last, after the
    uploads of the images if any; it has counted the request and appended the
    reply, which is never empty (the parsed text or the fallback string), to
    the history; the completion it returns holds that same reply as its
    single choice, and its usage adds the lengths of the text and of the
    reply.  Tokens, [bl] and the history limit are unchanged. *)
Theorem send_request_records_reply (text : pystr) (images : list image_entry)
    (w : world) (r : ChatCompletionResponse) :
  fst (_send_request E text images w) = Ok r ->
  exists reply_text uploads rq,
    nonempty reply_text = true
    /\ choices r = [(0%Z, assistant_message reply_text, lit "stop")]
    /\ usage r = (len_z text, len_z reply_text, (len_z text + len_z reply_text)%Z)
    /\ messages (self (snd (_send_request E text images w)))
       = messages (self w) ++ [assistant_message reply_text]
    /\ request_count (self (snd (_send_request E text images w)))
       = (request_count (self w) + 1)%Z
    /\ snlm0e (self (snd (_send_request E text images w))) = snlm0e (self w)
    /\ push_id (self (snd (_send_request E text images w))) = push_id (self w)
    /\ bl (self (snd (_send_request E text images w))) = bl (self w)
    /\ trace (snd (_send_request E text images w)) = trace w ++ uploads ++ [rq]
    /\ is_chat_post rq = true
    /\ no_chat_post uploads.
Proof.
  intro Hok.
  destruct (send_request_run text images w) as (uploads & Hnc & _ & Hrun).
  destruct (_send_request E text images w) as [[r0|e] w'];
    cbn [fst snd] in *; [|discriminate Hok].
  injection Hok as ->.
  destruct Hrun as (reply_text & rq & Hne & Hch & Hus & _ & Hm & Hrc & Hbl & Hsn
                    & Hpu & _ & Ht & Hrq).
  exists reply_text, uploads, rq. repeat split; assumption.
Qed.

(** X8.  A failed [_send_request] leaves the client as it was.  It raises
    [CookieExpiredError] or [ImageUploadError] only when there are images,
    and then no chat request has been sent; every failure of the chat
    request itself (no connection, a status outside 2xx) is raised as a
    plain [Exception], after the one chat request. *)
Theorem send_request_failure (text : pystr) (images : list image_entry)
    (w : world) (e : exn) :
  fst (_send_request E text images w) = Raise e ->
  self (snd (_send_request E text images w)) = self w
  /\ exists uploads,
       no_chat_post uploads
       /\ ((e = CookieExpiredError \/ e = ImageUploadError)
           /\ images <> []
           /\ trace (snd (_send_request E text images w)) = trace w ++ uploads
           \/ e = PlainException
              /\ exists rq,
                   trace (snd (_send_request E text images w))
                   = trace w ++ uploads ++ [rq]
                   /\ is_chat_post rq = true).
Proof.
  intro Hfail.
  destruct (send_request_run text images w) as (uploads & Hnc & _ & Hrun).
  destruct (_send_request E text images w) as [[r0|e0] w'];
    cbn [fst snd] in *; [discriminate Hfail|].
  injection Hfail as ->.
  destruct Hrun as [Hself Hcases].
  split; [exact Hself|]. exists uploads. split; [exact Hnc|exact Hcases].
Qed.

End SendRequest.

Lemma send_request_records_reply_witness :
  exists reply_text uploads rq,
    nonempty reply_text = true
    /\ choices (match fst (_send_request example_env (lit "hi") [] example_world) with
                | Ok r => r
                | Raise _ => {| id := []; created := 0; model := []; choices := [];
                                usage := (0, 0, 0)%Z |}
                end)
       = [(0%Z, assistant_message reply_text, lit "stop")]
    /\ messages (self (snd (_send_request example_env (lit "hi") [] example_world)))
       = [assistant_message reply_text]
    /\ trace (snd (_send_request example_env (lit "hi") [] example_world))
       = uploads ++ [rq]
    /\ is_chat_post rq = true.
Proof.
  destruct (@send_request_records_reply example_env (lit "hi") [] example_world
              (match fst (_send_request example_env (lit "hi") [] example_world) with
               | Ok r => r
               | Raise _ => {| id := []; created := 0; model := []; choices := [];
                               usage := (0, 0, 0)%Z |}
               end))
    as (reply_text & uploads & rq & H1 & H2 & _ & H4 & _ & _ & _ & _ & H9 & H10 & _).
  - vm_compute. reflexivity.
  - exists reply_text, uploads, rq. repeat split; assumption.
Defined.

Lemma send_request_failure_witness :
  self (snd (_send_request example_env (lit "hi") [example_image] example_world))
  = example_client
  /\ fst (_send_request example_env (lit "hi") [example_image] example_world)
     = Raise CookieExpiredError.
Proof.
  split.
  - apply (@send_request_failure example_env (lit "hi") [example_image] example_world
             CookieExpiredError).
    reflexivity.
  - reflexivity.
Defined.

(** ** [chat] with a single message *)

Section ChatMessage.

Variable E : environment.

Lemma intake_message_run (msgs : pyval) (message : option pystr)
    (image : option pybytes) (image_url : option pystr) (w : world) :
  truthy msgs = false ->
  opt_truthy message = true ->
  exists images w1,
    intake E msgs message image image_url w = (Ok (some_or_empty message, images), w1)
    /\ self w1 = append_message (user_message (some_or_empty message)) (self w).
Proof.
  intros Hm Hmsg. unfold intake. rewrite Hm, Hmsg.
  unfold bindM at 1, modify at 1. cbn [self trace draws].
  destruct image as [[|b bytes]|];
    try (eexists; eexists; split; reflexivity).
  - destruct (opt_truthy image_url); [|eexists; eexists; split; reflexivity].
    destruct (startswith (some_or_empty image_url) (lit "data:")).
    + destruct (match_data_url _) as [[mime d]|]; eexists; eexists; split; reflexivity.
    + unfold catch, bindM, http, ret. cbn [self trace draws].
      destruct (net E _ _); eexists; eexists; split; reflexivity.
  - destruct (opt_truthy image_url); [|eexists; eexists; split; reflexivity].
    destruct (startswith (some_or_empty image_url) (lit "data:")).
    + destruct (match_data_url _) as [[mime d]|]; eexists; eexists; split; reflexivity.
    + unfold catch, bindM, http, ret. cbn [self trace draws].
      destruct (net E _ _); eexists; eexists; split; reflexivity.
Qed.

(** X9.  [chat] called with one message and [stream] off: the message enters the
    history as a user message, after the old history or, with
    [reset_context], in place of it.  When the call succeeds the reply
    follows it, the same reply that the completion returns; when the call
    fails, with an exception other than [ValueError], the user message stays
    in the history without a reply. *)
Theorem chat_message_history (msgs : pyval) (message : option pystr)
    (image : option pybytes) (image_url : option pystr) (reset_context : bool)
    (w : world) :
  truthy msgs = false ->
  opt_truthy message = true ->
  match chat E msgs message image image_url reset_context false w with
  | (Ok (Completion r), w') =>
      exists reply_text,
        nonempty reply_text = true
        /\ choices r = [(0%Z, assistant_message reply_text, lit "stop")]
        /\ messages (self w')
           = (if reset_context then [] else messages (self w))
             ++ [user_message (some_or_empty message); assistant_message reply_text]
  | (Ok (Stream _), _) => False
  | (Raise e, w') =>
      e <> ValueError
      /\ messages (self w')
         = (if reset_context then [] else messages (self w))
           ++ [user_message (some_or_empty message)]
  end.
Proof.
  intros Hm Hmsg. unfold chat. unfold bindM at 1.
  set (w0 := snd ((if reset_context then reset else ret tt) w)).
  assert (Hreset : (if reset_context then reset else ret tt) w = (Ok tt, w0))
    by (unfold w0; destruct reset_context; reflexivity).
  assert (Hbefore : messages (self w0) = if reset_context then [] else messages (self w))
    by (unfold w0; destruct reset_context; reflexivity).
  rewrite Hreset.
  destruct (intake_message_run msgs message image image_url w0 Hm Hmsg)
    as (images & w1 & Hin & Hs1).
  unfold bindM at 1. rewrite Hin.
  assert (Htext : nonempty (some_or_empty message) = true)
    by (destruct message as [[|c m]|]; try discriminate Hmsg; reflexivity).
  rewrite Htext. cbn [negb]. unfold bindM at 1.
  destruct (send_request_run E (some_or_empty message) images w1)
    as (uploads & _ & _ & Hrun).
  destruct (_send_request E (some_or_empty message) images w1) as [[r|e] w'].
  - destruct Hrun as (reply_text & rq & Hne & Hch & _ & _ & Hmsgs & _).
    unfold ret. exists reply_text. split; [exact Hne|]. split; [exact Hch|].
    rewrite Hmsgs, Hs1. unfold append_message. cbn [messages set_messages].
    rewrite Hbefore, <- app_assoc. reflexivity.
  - destruct Hrun as (Hself & Hcases). split.
    + destruct Hcases as [([-> | ->] & _)|(-> & _)]; discriminate.
    + rewrite Hself, Hs1. unfold append_message. cbn [messages set_messages].
      now rewrite Hbefore.
Qed.

End ChatMessage.

Lemma chat_message_history_witness :
  exists reply_text,
    messages (self (snd (chat example_env PNone (Some (lit "hi")) None None false false
                           {| self := example_client_talking; trace := []; draws := 0 |})))
    = messages example_client_talking
      ++ [user_message (lit "hi"); assistant_message reply_text].
Proof.
  pose proof (@chat_message_history example_env PNone (Some (lit "hi")) None None false
                {| self := example_client_talking; trace := []; draws := 0 |}
                eq_refl eq_refl) as H.
  destruct (chat example_env PNone (Some (lit "hi")) None None false false
              {| self := example_client_talking; trace := []; draws := 0 |})
    as [[[r|g]|e] w'] eqn:Hrun.
  - destruct H as (reply_text & _ & _ & Hm). exists reply_text. exact Hm.
  - destruct H.
  - exfalso. vm_compute in Hrun. discriminate Hrun.
Defined.

(** ** [_send_stream_request] *)

Section Yields.

Context {A : Type} (Q : A -> Prop).

Lemma yields_ret (a : A) : Q a -> yields Q (ret a).
Proof. intros Hq w a' w' H. injection H as <- _. exact Hq. Qed.

Lemma yields_raise (e : exn) : yields Q (@raise A e).
Proof. intros w a w' H. discriminate H. Qed.

Lemma yields_bind {B} (m : M B) (k : B -> M A) :
  (forall b, yields Q (k b)) -> yields Q (bindM m k).
Proof.
  intros Hk w a w' H. unfold bindM in H.
  destruct (m w) as [[b|e] w1]; [|discriminate H].
  exact (Hk b w1 a w' H).
Qed.

Lemma yields_catch (m : M A) (h : exn -> M A) :
  yields Q m -> (forall e, yields Q (h e)) -> yields Q (catch m h).
Proof.
  intros Hm Hh w a w' H. unfold catch in H.
  destruct (m w) as [[b|e] w1] eqn:Em.
  - injection H as <- <-. exact (Hm w b w1 Em).
  - exact (Hh e w1 a w' H).
Qed.

Lemma yields_if (b : bool) (m1 m2 : M A) :
  yields Q m1 -> yields Q m2 -> yields Q (if b then m1 else m2).
Proof. destruct b; auto. Qed.

End Yields.

Lemma yields_for_each {A B} (Q : B -> Prop) (body : A -> B -> M B) (l : list A) :
  (forall x acc, Q acc -> yields Q (body x acc)) ->
  forall acc, Q acc -> yields Q (for_each l acc body).
Proof.
  intro Hb. induction l as [|x xs IH]; intros acc Hq; cbn [for_each].
  - now apply yields_ret.
  - intros w a w' H. unfold bindM in H.
    destruct (body x acc w) as [[acc1|e] w1] eqn:Eb; [|discriminate H].
    exact (IH acc1 (Hb x acc Hq w acc1 w1 Eb) w1 a w' H).
Qed.

Section StreamChunks.

Variable E : environment.

Lemma chunks_inv_next (chunks : list pystr) (last_text current_text : pystr) :
  chunks_inv (chunks, last_text) ->
  Nat.ltb (List.length last_text) (List.length current_text) = true ->
  chunks_inv (chunks ++ [skipn (List.length last_text) current_text], current_text).
Proof.
  intros [Hne Hlen] Hlt. apply Nat.ltb_lt in Hlt. cbn [fst snd] in *.
  assert (Hnew : List.length (skipn (List.length last_text) current_text)
                 = (List.length current_text - List.length last_text)%nat)
    by apply length_skipn.
  split; cbn [fst snd].
  - apply Forall_app. split; [exact Hne|]. constructor; [|constructor].
    destruct (skipn (List.length last_text) current_text); [cbn in Hnew; lia|reflexivity].
  - rewrite concat_app, length_app, Hlen. cbn [concat]. rewrite app_nil_r, Hnew. lia.
Qed.

Lemma stream_line_chunks (line : pystr) (acc : list pystr * pystr) :
  chunks_inv acc -> yields chunks_inv (stream_line E line acc).
Proof.
  intro Hacc. unfold stream_line.
  repeat first
    [ apply yields_ret; exact Hacc
    | apply yields_bind; intro
    | match goal with
      | |- yields _ (let (_, _) := ?x in _) => destruct x
      | |- yields _ (if nonempty ?c && Nat.ltb ?a ?b then _ else _) =>
          destruct (nonempty c); cbn [andb]; [destruct (Nat.ltb a b) eqn:Hlt|]
      | |- yields _ (if nonempty (skipn _ _) then _ else _) =>
          destruct (nonempty (skipn _ _))
      end
    | apply yields_if ].
  apply yields_ret. now apply chunks_inv_next.
Qed.

Lemma stream_round_chunks (raw : pystr) (acc : list pystr * pystr) :
  chunks_inv acc -> yields chunks_inv (stream_round E raw acc).
Proof.
  intro Hacc. unfold stream_round. cbv zeta.
  apply yields_if; [now apply yields_ret|].
  apply yields_catch; [now apply stream_line_chunks|].
  intro. now apply yields_ret.
Qed.

End StreamChunks.

Section StreamRun.

Variable E : environment.
Variable I : client -> Prop.
Variable P : request -> Prop.

Hypothesis I_conversation : forall v c, I c -> I (set_conversation_id v c).
Hypothesis I_response : forall v c, I c -> I (set_response_id v c).

(** The streaming loop sets the conversation and response identifiers and
    nothing else. *)
Lemma stream_line_context line acc : emits I P (stream_line E line acc).
Proof.
  unfold stream_line.
  repeat first
    [ emits_step
    | apply emits_get_self
    | apply emits_modify; intros ? ?;
      first [apply I_conversation | apply I_response]; assumption
    | match goal with
      | |- emits _ _ (match ?x with _ => _ end) => destruct x
      | |- emits _ _ (let (_, _) := ?x in _) => destruct x
      end ].
Qed.

Lemma stream_round_context raw acc : emits I P (stream_round E raw acc).
Proof.
  unfold stream_round. cbv zeta.
  apply emits_if; [apply emits_ret|].
  apply emits_catch; [apply stream_line_context|intro; apply emits_ret].
Qed.

End StreamRun.

(** The fields of the client that streaming leaves alone. *)
Lemma stream_loop_run (E : environment) (lines : list pystr) (w : world) :
  exists out w',
    for_each lines ([], []) (stream_round E) w = (Ok out, w')
    /\ chunks_inv out
    /\ trace w' = trace w
    /\ messages (self w') = messages (self w)
    /\ choice_id (self w') = choice_id (self w)
    /\ same_settings (self w) (self w').
Proof.
  pose (I0 := fun c => messages c = messages (self w)
                       /\ choice_id c = choice_id (self w)
                       /\ same_settings (self w) c).
  assert (Hk : emits I0 (fun _ => False) (for_each lines ([], []) (stream_round E))).
  { apply emits_for_each. intros raw acc.
    apply stream_round_context; intros v c H; exact H. }
  assert (Hok : forall ls acc w0, exists out w1,
               for_each ls acc (stream_round E) w0 = (Ok out, w1)).
  { induction ls as [|raw ls IH]; intros acc w0; cbn [for_each].
    - eexists. eexists. reflexivity.
    - unfold bindM.
      assert (Hround : exists acc1 w1, stream_round E raw acc w0 = (Ok acc1, w1)).
      { unfold stream_round. cbv zeta.
        destruct (negb _ || _ || _); [eexists; eexists; reflexivity|].
        unfold catch. destruct (stream_line E (strip raw) acc w0) as [[a|e] w1];
          eexists; eexists; reflexivity. }
      destruct Hround as (acc1 & w1 & ->). apply IH. }
  destruct (Hok lines ([], []) w) as (out & w' & Hrun).
  exists out, w'. split; [exact Hrun|].
  split.
  - refine (@yields_for_each _ _ chunks_inv (stream_round E) lines _ ([], []) _ w out w' Hrun).
    + intros x acc Hacc. now apply stream_round_chunks.
    + split; [constructor|reflexivity].
  - destruct (Hk w _ w' (conj eq_refl (conj eq_refl (conj eq_refl (conj eq_refl
                          (conj eq_refl (conj eq_refl eq_refl)))))) Hrun)
      as ((Hm & Hc & Hs) & new & Ht & Hf).
    split; [|auto].
    destruct new as [|rq new]; [now rewrite app_nil_r in Ht|].
    inversion Hf as [|? ? Hrq]. contradiction.
Qed.

Section SendStream.

Variable E : environment.

Lemma stream_handler_wraps (e : exn) (w0 : world) :
  exists e',
    (fun _ : exn => @raise (list pystr) ImageUploadError) e w0 = (Raise e', w0)
    /\ (e' = CookieExpiredError \/ e' = ImageUploadError).
Proof. exists ImageUploadError. split; [reflexivity|now right]. Qed.

(** How a run of the generator of [_send_stream_request] ends. *)
Lemma send_stream_run (text : pystr) (images : list image_entry)
    (image_paths : option (list pystr)) (w : world) :
  exists uploads,
    no_chat_post uploads
    /\ match _send_stream_request E text images image_paths w with
       | (Ok chunks, w') =>
           exists rq,
             Forall (fun chunk => nonempty chunk = true) chunks
             /\ messages (self w') = messages (self w)
             /\ choice_id (self w') = choice_id (self w)
             /\ request_count (self w') = (request_count (self w) + 1)%Z
             /\ bl (self w') = bl (self w)
             /\ snlm0e (self w') = snlm0e (self w)
             /\ push_id (self w') = push_id (self w)
             /\ trace w' = trace w ++ uploads ++ [rq]
             /\ is_chat_post rq = true
       | (Raise e, w') =>
           self w' = self w
           /\ ((e = CookieExpiredError \/ e = ImageUploadError)
               /\ images <> [] /\ image_paths = None
               /\ trace w' = trace w ++ uploads
               \/ e = PlainException
                  /\ exists rq, trace w' = trace w ++ uploads ++ [rq]
                                /\ is_chat_post rq = true)
       end.
Proof.
  unfold _send_stream_request.
  unfold bindM at 1, get_self at 1. unfold bindM at 1, draw at 1.
  cbv beta iota zeta. cbn [self trace draws].
  set (w0 := {| self := self w; trace := trace w; draws := S (draws w) |}).
  unfold bindM at 1.
  assert (Hup : exists r w1 uploads,
             match image_paths with
             | Some paths => ret paths
             | None =>
                 match images with
                 | _ :: _ =>
                     if negb (opt_truthy (push_id (self w))) then raise CookieExpiredError
                     else catch (upload_all E images) (fun _ => raise ImageUploadError)
                 | [] => ret []
                 end
             end w0 = (r, w1)
             /\ self w1 = self w /\ trace w1 = trace w ++ uploads
             /\ no_chat_post uploads
             /\ match r with
                | Ok _ => True
                | Raise e => (e = CookieExpiredError \/ e = ImageUploadError)
                             /\ images <> [] /\ image_paths = None
                end).
  { destruct image_paths as [paths|].
    - exists (Ok paths), w0, []. cbn. rewrite app_nil_r. repeat split. constructor.
    - pose proof (@upload_phase E images (self w) _ w0 stream_handler_wraps) as H.
      cbv zeta in H.
      match type of H with
      | context [fst (?ph w0)] => destruct (ph w0) as [r w1] eqn:Hph
      end. cbn [fst snd] in H.
      destruct H as (Hs1 & (uploads & Ht1 & Hnc & _) & Herr).
      exists r, w1, uploads. split; [reflexivity|]. split; [exact Hs1|].
      split; [exact Ht1|]. split; [exact Hnc|].
      destruct r; [exact I|]. destruct Herr. auto. }
  destruct Hup as (r1 & w1 & uploads & Hph & Hs1 & Ht1 & Hnc & Herr).
  rewrite Hph. exists uploads. split; [exact Hnc|].
  destruct r1 as [paths|e].
  2:{ destruct Herr as (Hor & Hne & Hnone). split; [exact Hs1|]. left. auto. }
  destruct (build_request_data_value E text images paths w1)
    as (image_data & sid & ts & w2 & Hb & _ & Hs2 & Ht2).
  unfold bindM at 1. rewrite Hb. unfold bindM at 1, get_self at 1.
  unfold catch. unfold bindM at 1, http at 1.
  set (rq := Post STREAM_URL _ _ _).
  assert (Hrq : is_chat_post rq = true) by reflexivity.
  destruct (net E (List.length (trace w2)) rq) as [resp|e0].
  2:{ unfold raise. cbn [self trace]. split; [now rewrite Hs2, Hs1|].
      right. split; [reflexivity|].
      exists rq. split; [|exact Hrq]. rewrite Ht2, Ht1. now rewrite app_assoc. }
  unfold bindM at 1, raise_for_status at 1.
  destruct ((200 <=? status_code resp)%Z && (status_code resp <? 300)%Z).
  2:{ unfold raise. cbn [self trace]. split; [now rewrite Hs2, Hs1|].
      right. split; [reflexivity|].
      exists rq. split; [|exact Hrq]. rewrite Ht2, Ht1. now rewrite app_assoc. }
  unfold ret at 1. unfold bindM at 1, modify at 1. cbn [self trace draws].
  set (w4 := {| self := set_request_count _ _; trace := _; draws := _ |}).
  cbv zeta.
  destruct (stream_loop_run E (split_on 10 (resp_text resp)) w4)
    as (out & w5 & Hloop & [Hne _] & Ht5 & Hm5 & Hc5 & Hset5).
  unfold bindM at 1.
  change (for_each (split_on 10 (resp_text resp)) ([], []) _ w4)
    with (for_each (split_on 10 (resp_text resp)) ([], []) (stream_round E) w4).
  rewrite Hloop. unfold ret.
  exists rq. destruct Hset5 as (Hbl & Hsn & Hpu & Hrc & Hmax).
  rewrite Hm5, Hc5, Hrc, Hbl, Hsn, Hpu, Ht5.
  unfold w4. cbn [self trace messages choice_id request_count bl snlm0e push_id
                  set_request_count].
  rewrite Hs2, Hs1, Ht2, Ht1.
  repeat split; try reflexivity; try assumption.
  now rewrite app_assoc.
Qed.

(** X10.  The generator of [_send_stream_request], run to its end without an
    exception, has sent the chat request last and counted it; none of the
    chunks it yields is empty; unlike [_send_request] it does not add the
    reply to the history, and it leaves the choice identifier and the tokens
    alone. *)
Theorem stream_request_chunks (text : pystr) (images : list image_entry)
    (image_paths : option (list pystr)) (w : world) (chunks : list pystr) :
  fst (_send_stream_request E text images image_paths w) = Ok chunks ->
  exists uploads rq,
    Forall (fun chunk => nonempty chunk = true) chunks
    /\ messages (self (snd (_send_stream_request E text images image_paths w)))
       = messages (self w)
    /\ choice_id (self (snd (_send_stream_request E text images image_paths w)))
       = choice_id (self w)
    /\ request_count (self (snd (_send_stream_request E text images image_paths w)))
       = (request_count (self w) + 1)%Z
    /\ snlm0e (self (snd (_send_stream_request E text images image_paths w)))
       = snlm0e (self w)
    /\ trace (snd (_send_stream_request E text images image_paths w))
       = trace w ++ uploads ++ [rq]
    /\ is_chat_post rq = true
    /\ no_chat_post uploads.
Proof.
  intro Hok.
  destruct (send_stream_run text images image_paths w) as (uploads & Hnc & Hrun).
  destruct (_send_stream_request E text images image_paths w) as [[out|e] w'];
    cbn [fst snd] in *; [|discriminate Hok].
  injection Hok as ->.
  destruct Hrun as (rq & Hne & Hm & Hc & Hrc & _ & Hsn & _ & Ht & Hrq).
  exists uploads, rq. repeat split; assumption.
Qed.

(** X11.  A generator of [_send_stream_request] that ends in an exception leaves
    the client as it was.  [CookieExpiredError] and [ImageUploadError] come
    up only when images are to be uploaded, before any chat request; a
    failure of the chat request is raised as a plain [Exception]. *)
Theorem stream_request_failure (text : pystr) (images : list image_entry)
    (image_paths : option (list pystr)) (w : world) (e : exn) :
  fst (_send_stream_request E text images image_paths w) = Raise e ->
  self (snd (_send_stream_request E text images image_paths w)) = self w
  /\ exists uploads,
       no_chat_post uploads
       /\ ((e = CookieExpiredError \/ e = ImageUploadError)
           /\ images <> [] /\ image_paths = None
           /\ trace (snd (_send_stream_request E text images image_paths w))
              = trace w ++ uploads
           \/ e = PlainException
              /\ exists rq,
                   trace (snd (_send_stream_request E text images image_paths w))
                   = trace w ++ uploads ++ [rq]
                   /\ is_chat_post rq = true).
Proof.
  intro Hfail.
  destruct (send_stream_run text images image_paths w) as (uploads & Hnc & Hrun).
  destruct (_send_stream_request E text images image_paths w) as [[out|e0] w'];
    cbn [fst snd] in *; [discriminate Hfail|].
  injection Hfail as ->.
  destruct Hrun as [Hself Hcases].
  split; [exact Hself|]. exists uploads. split; [exact Hnc|exact Hcases].
Qed.

End SendStream.

Lemma stream_request_chunks_witness :
  fst (_send_stream_request stream_env (lit "hi") [] None example_world)
  = Ok [lit "Hel"; lit "lo"]
  /\ exists uploads rq,
       Forall (fun chunk => nonempty chunk = true) [lit "Hel"; lit "lo"]
       /\ messages (self (snd (_send_stream_request stream_env (lit "hi") [] None
                                 example_world))) = []
       /\ trace (snd (_send_stream_request stream_env (lit "hi") [] None example_world))
          = uploads ++ [rq]
       /\ is_chat_post rq = true.
Proof.
  assert (Hrun : fst (_send_stream_request stream_env (lit "hi") [] None example_world)
                 = Ok [lit "Hel"; lit "lo"]) by (vm_compute; reflexivity).
  split; [exact Hrun|].
  destruct (@stream_request_chunks stream_env (lit "hi") [] None example_world _ Hrun)
    as (uploads & rq & H1 & H2 & _ & _ & _ & H6 & H7 & _).
  exists uploads, rq. repeat split; assumption.
Defined.

Lemma stream_request_failure_witness :
  self (snd (_send_stream_request offline_env (lit "hi") [] None example_world))
  = example_client.
Proof.
  apply (@stream_request_failure offline_env (lit "hi") [] None example_world
           PlainException).
  vm_compute. reflexivity.
Defined.

(** ** [_parse_content] *)

Section ParseContent.

Variable E : environment.

Lemma parse_item_texts (item : pyval) (text_parts : list pyval)
    (images : list image_entry) :
  yields (fun acc => fst acc = text_parts ++ text_fields [item])
         (parse_item E item (text_parts, images)).
Proof.
  unfold parse_item. cbn [text_fields].
  intros w acc w' Hrun. unfold bindM at 1, lift at 1 in Hrun.
  destruct (py_get item (lit "type") PNone) as [ty|e]; [|discriminate Hrun].
  destruct (eq_str ty (lit "text")).
  - unfold bindM, lift, ret in Hrun.
    destruct (py_get item (lit "text") (PStr [])) as [t|e]; [|discriminate Hrun].
    injection Hrun as <- _. reflexivity.
  - revert w acc w' Hrun.
    change (yields (fun acc => fst acc = text_parts ++ [])
              (if eq_str ty (lit "image_url")
               then bindM (lift (py_get item (lit "image_url") (PDict [])))
                      (fun image_url_data =>
                         bindM (if isinstance_str image_url_data then ret image_url_data
                                else lift (py_get image_url_data (lit "url") (PStr [])))
                           (fun url =>
                              if negb (truthy url) then ret (text_parts, images)
                              else bindM (lift (as_str url))
                                     (fun u =>
                                        if startswith u (lit "data:")
                                        then match match_data_url u with
                                             | Some (mime, d) =>
                                                 ret (text_parts,
                                                      images ++ [{| mime_type := mime;
                                                                    data := d |}])
                                             | None => ret (text_parts, images)
                                             end
                                        else if startswith u (lit "http://")
                                                || startswith u (lit "https://")
                                        then catch
                                               (bindM (http E (Get u))
                                                  (fun resp =>
                                                     if (status_code resp =? 200)%Z
                                                     then ret (text_parts,
                                                               images
                                                               ++ [downloaded_image E resp])
                                                     else ret (text_parts, images)))
                                               (fun _ => ret (text_parts, images))
                                        else match b64decode E (firstn 100 u) with
                                             | Some _ =>
                                                 ret (text_parts,
                                                      images ++ [{| mime_type := lit "image/png";
                                                                    data := u |}])
                                             | None => ret (text_parts, images)
                                             end)))
               else ret (text_parts, images))).
    rewrite app_nil_r.
    repeat first
      [ apply yields_ret; reflexivity
      | apply yields_bind; intro
      | apply yields_catch; [|intro]
      | match goal with
        | |- yields _ (match ?x with _ => _ end) => destruct x
        end ].
Qed.

Lemma text_fields_cons (item : pyval) (rest : list pyval) :
  text_fields (item :: rest) = text_fields [item] ++ text_fields rest.
Proof.
  cbn [text_fields].
  destruct (py_get item (lit "type") PNone) as [ty|e]; [|reflexivity].
  destruct (eq_str ty (lit "text")); [|reflexivity].
  destruct (py_get item (lit "text") (PStr [])); reflexivity.
Qed.

Lemma parse_items_texts (items : list pyval) :
  forall text_parts images,
    yields (fun acc => fst acc = text_parts ++ text_fields items)
           (for_each items (text_parts, images) (parse_item E)).
Proof.
  induction items as [|item rest IH]; intros text_parts images; cbn [for_each].
  - apply yields_ret. cbn. now rewrite app_nil_r.
  - intros w acc w' Hrun. unfold bindM in Hrun.
    destruct (parse_item E item (text_parts, images) w) as [[[tp1 im1]|e] w1] eqn:Hitem;
      [|discriminate Hrun].
    pose proof (parse_item_texts item text_parts images w Hitem) as H1.
    cbn [fst] in H1. subst tp1.
    rewrite (IH _ _ w1 acc w' Hrun), (text_fields_cons item rest), app_assoc.
    reflexivity.
Qed.

(** X12.  The text [_parse_content] derives from a content that is a list: the
    [text] fields of its parts of type [text], in order, joined by single
    spaces (the empty string when there is no such part).  The other parts
    and the outcome of the image downloads have no influence on it. *)
Theorem parse_content_text (items : list pyval) (w w' : world) (text : pystr)
    (images : list image_entry) :
  _parse_content E (PList items) w = (Ok (text, images), w') ->
  match text_fields items with
  | [] => text = []
  | fields => exists strings,
                join_values fields = Ok strings /\ text = join (lit " ") strings
  end.
Proof.
  intro Hrun. unfold _parse_content in Hrun.
  unfold bindM at 1, lift at 1 in Hrun. cbn [py_iter] in Hrun.
  unfold bindM at 1 in Hrun.
  destruct (for_each items ([], []) (parse_item E) w) as [[[tp im]|e] w1] eqn:Hloop;
    [|discriminate Hrun].
  pose proof (parse_items_texts items [] [] w Hloop) as Htp. cbn in Htp. subst tp.
  destruct (text_fields items) as [|t ts].
  - injection Hrun as <- _ _. reflexivity.
  - unfold bindM, lift, ret in Hrun.
    destruct (join_values (t :: ts)) as [strings|e]; [|discriminate Hrun].
    injection Hrun as <- _ _. exists strings. split; reflexivity.
Qed.

End ParseContent.

Lemma parse_content_text_witness :
  exists strings,
    join_values [PStr (lit "see"); PStr (lit "this")] = Ok strings
    /\ lit "see this" = join (lit " ") strings.
Proof.
  apply (@parse_content_text offline_env
           [text_part (lit "see"); image_part (lit "http://example.com/a.png");
            text_part (lit "this")]
           example_world
           {| self := example_client;
              trace := [Get (lit "http://example.com/a.png")]; draws := 0 |}
           (lit "see this") []).
  vm_compute. reflexivity.
Defined.

(** ** The history limit *)

(** The loop of [chat] over a [messages] list adds to the history the
    messages of its items of role [user] and [assistant], in order, and
    changes nothing else of the client. *)
Lemma take_message_appends (E : environment) (msg : pyval)
    (acc acc1 : pystr * list image_entry) (w w1 : world) :
  take_message E msg acc w = (Ok acc1, w1) ->
  self w1 = set_messages (messages (self w) ++ taken_message msg) (self w).
Proof.
  intro Hrun. unfold take_message in Hrun. unfold taken_message.
  unfold bindM at 1, lift at 1 in Hrun.
  destruct (py_get msg (lit "role") (PStr [])) as [r|e]; [|discriminate Hrun].
  unfold bindM at 1, lift at 1 in Hrun.
  destruct (py_get msg (lit "content") (PStr [])) as [c|e]; [|discriminate Hrun].
  assert (Hsame : forall c0 : client, set_messages (messages c0 ++ []) c0 = c0).
  { intro c0. rewrite app_nil_r. destruct c0; reflexivity. }
  destruct (eq_str r (lit "user")).
  - unfold bindM at 1, modify at 1 in Hrun.
    match type of Hrun with
    | _parse_content E c ?w2 = _ =>
        destruct (@parse_content_emits E (fun c0 => c0 = self w2) c w2 _ w1
                    eq_refl Hrun) as [Hs _];
        rewrite Hs; reflexivity
    end.
  - destruct (eq_str r (lit "assistant")).
    + unfold bindM, modify, ret in Hrun. injection Hrun as _ <-. reflexivity.
    + unfold ret in Hrun. injection Hrun as _ <-. cbn [self].
      symmetry. apply Hsame.
Qed.

Lemma take_messages_append (E : environment) (items : list pyval) :
  forall acc acc1 w w1,
    for_each items acc (take_message E) w = (Ok acc1, w1) ->
    self w1 = set_messages (messages (self w) ++ taken_messages items) (self w).
Proof.
  induction items as [|msg rest IH]; intros acc acc1 w w1 Hrun; cbn [for_each] in Hrun.
  - unfold ret in Hrun. injection Hrun as _ <-. cbn [taken_messages flat_map].
    rewrite app_nil_r. destruct (self w); reflexivity.
  - unfold bindM at 1 in Hrun.
    destruct (take_message E msg acc w) as [[acc0|e] w0] eqn:Htake;
      [|discriminate Hrun].
    rewrite (IH _ _ _ _ Hrun), (take_message_appends E msg acc w Htake).
    cbn [taken_messages flat_map messages set_messages].
    rewrite <- app_assoc. reflexivity.
Qed.

(** X13.  With a history limit of at least two, the intake of a [messages]
    list in [chat] leaves as history the most recent part of the old
    history followed by the messages taken in (one for each item of role
    [user] or [assistant], in order): nothing is dropped while that list
    fits the limit, and otherwise its last entries are kept, as many as the
    limit, or one less for an odd limit.  The limit itself is unchanged. *)
Theorem intake_keeps_recent_history (E : environment) (msgs : pyval)
    (message : option pystr) (image : option pybytes) (image_url : option pystr)
    (w w' : world) (r : pystr * list image_entry) :
  truthy msgs = true ->
  (2 <= max_history_messages (self w))%Z ->
  intake E msgs message image image_url w = (Ok r, w') ->
  exists items dropped,
    py_iter msgs = Ok items
    /\ messages (self w) ++ taken_messages items = dropped ++ messages (self w')
    /\ max_history_messages (self w') = max_history_messages (self w)
    /\ (Z.of_nat (List.length (messages (self w'))) <= max_history_messages (self w))%Z
    /\ if (max_history_messages (self w)
           <? Z.of_nat (List.length (messages (self w) ++ taken_messages items)))%Z
       then Z.of_nat (List.length (messages (self w')))
            = (max_history_messages (self w) - max_history_messages (self w) mod 2)%Z
       else dropped = [].
Proof.
  intros Ht Hmax Hrun. unfold intake in Hrun. rewrite Ht in Hrun.
  unfold bindM at 1, lift in Hrun.
  destruct (py_iter msgs) as [items|e]; [|discriminate Hrun].
  unfold bindM at 1 in Hrun.
  destruct (for_each items ([], []) (take_message E) w) as [[acc|e] w1] eqn:Hloop;
    [|discriminate Hrun].
  pose proof (take_messages_append E items _ w Hloop) as Hself.
  unfold bindM, modify, ret in Hrun. injection Hrun as _ <-. cbn [self].
  rewrite limit_history_max.
  assert (Hm1 : max_history_messages (self w1) = max_history_messages (self w))
    by now rewrite Hself.
  assert (Hmsgs : messages (self w1) = messages (self w) ++ taken_messages items)
    by now rewrite Hself.
  assert (Hmax1 : (2 <= max_history_messages (self w1))%Z) by now rewrite Hm1.
  destruct (limit_history_holds (self w1) Hmax1) as (Hlen & (dropped & Hdrop) & Hcut).
  rewrite Hm1, Hmsgs in Hcut. rewrite Hm1 in Hlen. rewrite Hmsgs in Hdrop.
  destruct (max_history_messages (self w)
            <? Z.of_nat (List.length (messages (self w) ++ taken_messages items)))%Z
    eqn:Hlt.
  - destruct (Hcut (proj1 (Z.ltb_lt _ _) Hlt)) as [_ Hkeep].
    exists items, dropped. rewrite Hlt. split; [reflexivity|]. split; [exact Hdrop|].
    split; [exact Hm1|]. split; [exact Hlen|exact Hkeep].
  - exists items, []. rewrite Hlt. split; [reflexivity|].
    assert (Hsame : limit_history (self w1) = self w1).
    { unfold limit_history. now rewrite Hm1, Hmsgs, Hlt. }
    rewrite Hsame, Hmsgs. cbn [app].
    split; [reflexivity|]. split; [exact Hm1|].
    split; [apply Z.ltb_ge in Hlt; exact Hlt|reflexivity].
Qed.

Lemma intake_keeps_recent_history_witness :
  exists items dropped,
    py_iter (PList [text_message "user" (lit "a"); text_message "assistant" (lit "b");
                    text_message "user" (lit "c")]) = Ok items
    /\ [] ++ taken_messages items
       = dropped
         ++ [{| role := PStr (lit "assistant"); content := PStr (lit "b") |};
             {| role := PStr (lit "user"); content := PStr (lit "c") |}]
    /\ 2%Z = 2%Z
    /\ (2 <= 2)%Z
    /\ if (2 <? Z.of_nat (List.length ([] ++ taken_messages items)))%Z
       then 2%Z = (2 - 2 mod 2)%Z
       else dropped = [].
Proof.
  apply (@intake_keeps_recent_history example_env
           (PList [text_message "user" (lit "a"); text_message "assistant" (lit "b");
                   text_message "user" (lit "c")])
           None None None
           {| self := example_client_limit_two; trace := []; draws := 0 |}
           (snd (intake example_env
                   (PList [text_message "user" (lit "a");
                           text_message "assistant" (lit "b");
                           text_message "user" (lit "c")])
                   None None None
                   {| self := example_client_limit_two; trace := []; draws := 0 |}))
           (lit "c", [])).
  - reflexivity.
  - cbn. lia.
  - reflexivity.
Defined.

(** * Facts about the cookie strings of the server *)

(** ** Stripping *)

Lemma lstrip_fixed (c : N) (r : pystr) : is_space c = false -> lstrip (c :: r) = c :: r.
Proof. intro H. cbn [lstrip]. now rewrite H. Qed.

Lemma lstrip_idem (s : pystr) : lstrip (lstrip s) = lstrip s.
Proof.
  destruct (lstrip s) as [|c r] eqn:H; [reflexivity|].
  apply lstrip_fixed. exact (lstrip_head s H).
Qed.

Lemma rstrip_idem (s : pystr) : rstrip (rstrip s) = rstrip s.
Proof. unfold rstrip. now rewrite rev_involutive, lstrip_idem. Qed.

Lemma strip_idem (s : pystr) : strip (strip s) = strip s.
Proof.
  unfold strip at 1.
  assert (Hl : lstrip (strip s) = strip s).
  { destruct (strip s) as [|c r] eqn:H; [reflexivity|].
    apply lstrip_fixed. exact (strip_head s H). }
  rewrite Hl. unfold strip. apply rstrip_idem.
Qed.

Lemma rstrip_length (s : pystr) : (List.length (rstrip s) <= List.length s)%nat.
Proof.
  unfold rstrip. rewrite length_rev.
  etransitivity; [apply lstrip_length|]. now rewrite length_rev.
Qed.

Lemma strip_fixed_parts (s : pystr) : strip s = s -> lstrip s = s /\ rstrip s = s.
Proof.
  intro H. unfold strip in H.
  destruct (lstrip_suffix s) as [p Hp].
  pose proof (rstrip_length (lstrip s)) as Hr. rewrite H in Hr.
  assert (Hlen : List.length s = (List.length p + List.length (lstrip s))%nat)
    by (rewrite Hp at 1; apply length_app).
  assert (p = []) by (destruct p; [reflexivity|cbn in Hlen; lia]).
  subst p. cbn in Hp. split; [now symmetry|]. now rewrite Hp at 1.
Qed.

Lemma rstrip_last (v : pystr) :
  v <> [] -> rstrip v = v -> exists x t, rev v = x :: t /\ is_space x = false.
Proof.
  intros Hne Hr. unfold rstrip in Hr.
  assert (Hl : lstrip (rev v) = rev v) by (rewrite <- Hr at 2; now rewrite rev_involutive).
  destruct (rev v) as [|x t] eqn:Hv.
  - exfalso. apply Hne. apply (f_equal (@rev N)) in Hv.
    now rewrite rev_involutive in Hv.
  - exists x, t. split; [reflexivity|]. exact (lstrip_head _ Hl).
Qed.

Lemma rstrip_app_fixed (p v : pystr) :
  v <> [] -> rstrip v = v -> rstrip (p ++ v) = p ++ v.
Proof.
  intros Hne Hr. destruct (rstrip_last Hne Hr) as (x & t & Hv & Hx).
  unfold rstrip. rewrite rev_app_distr, Hv. cbn [app].
  rewrite lstrip_fixed by exact Hx.
  change (x :: t ++ rev p) with ((x :: t) ++ rev p).
  now rewrite <- Hv, <- rev_app_distr, rev_involutive.
Qed.

Lemma lstrip_pad (pad body : pystr) (c : N) (r : pystr) :
  forallb is_space pad = true -> body = c :: r -> is_space c = false ->
  lstrip (pad ++ body) = body.
Proof.
  intros Hpad -> Hc. induction pad as [|x pad IH]; cbn [app].
  - now apply lstrip_fixed.
  - cbn [forallb] in Hpad. apply andb_true_iff in Hpad as [Hx Hpad].
    cbn [lstrip]. rewrite Hx. now apply IH.
Qed.

(** ** Splitting at separators *)

Lemma split_on_none (sep : N) (a : pystr) :
  forallb (fun c => negb (c =? sep)) a = true -> split_on sep a = [a].
Proof.
  induction a as [|c a IH]; [reflexivity|]. cbn [forallb split_on].
  intro H. apply andb_true_iff in H as [Hc Ha].
  apply negb_true_iff in Hc. rewrite Hc, (IH Ha). reflexivity.
Qed.

Lemma split_on_first (sep : N) (a b : pystr) :
  forallb (fun c => negb (c =? sep)) a = true ->
  split_on sep (a ++ sep :: b) = a :: split_on sep b.
Proof.
  induction a as [|c a IH]; cbn [forallb app split_on].
  - intros _. now rewrite N.eqb_refl.
  - intro H. apply andb_true_iff in H as [Hc Ha].
    apply negb_true_iff in Hc. rewrite Hc, (IH Ha). reflexivity.
Qed.

Lemma span_stop_at (p : N -> bool) (k : pystr) (c : N) (v : pystr) :
  forallb p k = true -> p c = false -> span p (k ++ c :: v) = (k, c :: v).
Proof.
  intros Hk Hc. induction k as [|x k IH]; cbn [app span].
  - now rewrite Hc.
  - cbn [forallb] in Hk. apply andb_true_iff in Hk as [Hx Hk].
    rewrite Hx, (IH Hk). reflexivity.
Qed.

Lemma split_on_clean (sep : N) (s item : pystr) :
  In item (split_on sep s) -> forallb (fun c => negb (c =? sep)) item = true.
Proof.
  revert item. induction s as [|c s IH]; intros item Hin; cbn [split_on] in Hin.
  - destruct Hin as [<-|[]]. reflexivity.
  - destruct (c =? sep) eqn:Hc.
    + destruct Hin as [<-|Hin]; [reflexivity|now apply IH].
    + destruct (split_on sep s) as [|l ls] eqn:Hs.
      * destruct Hin as [<-|[]]. cbn. now rewrite Hc.
      * destruct Hin as [<-|Hin].
        -- cbn [forallb]. rewrite Hc. cbn. apply IH. now left.
        -- apply IH. now right.
Qed.

(** ** One cookie *)

Lemma cookie_value_parts (v : pystr) :
  cookie_value v -> lstrip v = v /\ rstrip v = v
                    /\ forallb (fun c => negb (c =? 59)) v = true.
Proof. intros [Hs Hv]. destruct (strip_fixed_parts Hs). auto. Qed.

Lemma cookie_name_parts (k : pystr) :
  cookie_name k = true ->
  (exists c r, k = c :: r /\ is_space c = false)
  /\ forallb (fun c => negb (c =? 61)) k = true
  /\ forallb (fun c => negb (c =? 59)) k = true.
Proof.
  unfold cookie_name. intro H. apply andb_true_iff in H as [Hh Hall].
  split; [|split].
  - destruct k as [|c r]; [discriminate Hh|]. exists c, r.
    split; [reflexivity|]. now apply negb_true_iff.
  - apply forallb_forall. intros x Hx.
    rewrite forallb_forall in Hall. specialize (Hall x Hx).
    now apply andb_true_iff in Hall.
  - apply forallb_forall. intros x Hx.
    rewrite forallb_forall in Hall. specialize (Hall x Hx).
    now apply andb_true_iff in Hall.
Qed.

(** An item [name=value] of a cookie string, after at most white space, is
    read back as the name and the value. *)
Lemma cookie_item_read (pad k v : pystr) :
  forallb is_space pad = true ->
  cookie_name k = true -> strip k = k ->
  cookie_value v -> v <> [] ->
  split_at_equals (strip (pad ++ k ++ 61 :: v)) = Some (k, v).
Proof.
  intros Hpad Hk Hks Hv Hne.
  destruct (cookie_name_parts k Hk) as ((c & r & -> & Hc) & Heq & _).
  destruct (cookie_value_parts Hv) as (_ & Hr & _).
  unfold strip.
  rewrite (@lstrip_pad pad ((c :: r) ++ 61 :: v) c (r ++ 61 :: v) Hpad eq_refl Hc).
  replace ((c :: r) ++ 61 :: v) with (((c :: r) ++ [61]) ++ v)
    by (rewrite <- app_assoc; reflexivity).
  rewrite (rstrip_app_fixed _ Hne Hr). rewrite <- app_assoc. cbn [app].
  unfold split_at_equals.
  change (c :: r ++ 61 :: v) with ((c :: r) ++ 61 :: v).
  rewrite (@span_stop_at (fun c => negb (c =? 61)) (c :: r) 61 v Heq eq_refl).
  reflexivity.
Qed.

Lemma parse_cookie_item_pair (result : list (pystr * pyval)) (pad k v : pystr) :
  forallb is_space pad = true ->
  cookie_name k = true -> strip k = k ->
  cookie_value v -> v <> [] ->
  parse_cookie_item result (pad ++ k ++ 61 :: v)
  = match cookie_field COOKIE_FIELD_MAP k with
    | Some field => dict_set result field (PStr v)
    | None => result
    end.
Proof.
  intros Hpad Hk Hks Hv Hne. unfold parse_cookie_item. cbv zeta.
  rewrite (cookie_item_read pad Hpad Hk Hks Hv Hne).
  rewrite Hks. destruct Hv as [Hvs _]. now rewrite Hvs.
Qed.

Lemma set_cookie_item_pair (jar : list (pystr * pyval)) (pad k v : pystr) :
  forallb is_space pad = true ->
  cookie_name k = true -> strip k = k ->
  cookie_value v -> v <> [] ->
  set_cookie_item jar (pad ++ k ++ 61 :: v) = dict_set jar k (PStr v).
Proof.
  intros Hpad Hk Hks Hv Hne. unfold set_cookie_item. cbv zeta.
  rewrite (cookie_item_read pad Hpad Hk Hks Hv Hne).
  rewrite Hks. destruct Hv as [Hvs _]. now rewrite Hvs.
Qed.

(** ** A cookie string, item by item *)

Lemma space_not_semicolon (pad : pystr) :
  forallb is_space pad = true -> forallb (fun c => negb (c =? 59)) pad = true.
Proof.
  intro H. apply forallb_forall. intros x Hx.
  rewrite forallb_forall in H. specialize (H x Hx).
  destruct (N.eqb_spec x 59) as [->|]; [discriminate H|reflexivity].
Qed.

Lemma cookie_item_clean (pad k v : pystr) :
  forallb is_space pad = true -> cookie_name k = true -> cookie_value v ->
  forallb (fun c => negb (c =? 59)) (pad ++ k ++ 61 :: v) = true.
Proof.
  intros Hpad Hk Hv.
  destruct (cookie_name_parts k Hk) as (_ & _ & Hk59).
  destruct Hv as [_ Hv59].
  rewrite !forallb_app. cbn [forallb].
  now rewrite (space_not_semicolon _ Hpad), Hk59, Hv59.
Qed.

Section CookieFold.

Variable read : list (pystr * pyval) -> pystr -> list (pystr * pyval).
Variable put : list (pystr * pyval) -> pystr -> pystr -> list (pystr * pyval).

Hypothesis read_pair :
  forall result pad k v,
    forallb is_space pad = true ->
    cookie_name k = true -> strip k = k -> cookie_value v -> v <> [] ->
    read result (pad ++ k ++ 61 :: v) = put result k v.

Lemma cookie_fold (pairs : list (pystr * pystr)) :
  pairs <> [] ->
  Forall (fun kv => cookie_name (fst kv) = true /\ strip (fst kv) = fst kv
                    /\ cookie_value (snd kv) /\ snd kv <> []) pairs ->
  forall pad result,
    forallb is_space pad = true ->
    fold_left read
      (split_on 59 (pad ++ join (lit "; ") (map (fun kv => fst kv ++ 61 :: snd kv) pairs)))
      result
    = fold_left (fun r kv => put r (fst kv) (snd kv)) pairs result.
Proof.
  induction pairs as [|[k v] pairs IH]; [congruence|].
  intros _ Hall pad result Hpad.
  inversion Hall as [|? ? (Hk & Hks & Hv & Hne) Hrest]; subst. cbn [fst snd] in *.
  destruct pairs as [|kv2 pairs].
  - cbn [map join fold_left].
    rewrite split_on_none by now apply cookie_item_clean.
    cbn [fold_left]. now apply read_pair.
  - set (rest := kv2 :: pairs) in *.
    assert (Hjoin : join (lit "; ")
                      (map (fun kv => fst kv ++ 61 :: snd kv) ((k, v) :: rest))
                    = (k ++ 61 :: v) ++ 59 :: [32]
                        ++ join (lit "; ") (map (fun kv => fst kv ++ 61 :: snd kv) rest))
      by reflexivity.
    rewrite Hjoin, app_assoc.
    rewrite split_on_first by now apply cookie_item_clean.
    cbn [fold_left].
    rewrite (read_pair result pad Hpad Hk Hks Hv Hne).
    apply IH; [discriminate|exact Hrest|reflexivity].
Qed.

End CookieFold.

Lemma client_cookies_join (c : config) :
  client_cookies c
  = join (lit "; ") (map (fun kv => fst kv ++ 61 :: snd kv) (client_cookie_pairs c)).
Proof.
  unfold client_cookies, client_cookie_pairs. cbv zeta. cbn [filter snd].
  destruct (nonempty (SECURE_1PSIDTS c)), (nonempty (SAPISID c)), (nonempty (SID c)),
    (nonempty (HSID c)), (nonempty (SSID c)), (nonempty (APISID c));
    cbn [map join fst snd]; rewrite <- ?app_assoc; reflexivity.
Qed.

Lemma join_pairs_rstrip (pairs : list (pystr * pystr)) :
  pairs <> [] ->
  Forall (fun kv => cookie_name (fst kv) = true /\ strip (fst kv) = fst kv
                    /\ cookie_value (snd kv) /\ snd kv <> []) pairs ->
  join (lit "; ") (map (fun kv => fst kv ++ 61 :: snd kv) pairs) <> []
  /\ rstrip (join (lit "; ") (map (fun kv => fst kv ++ 61 :: snd kv) pairs))
     = join (lit "; ") (map (fun kv => fst kv ++ 61 :: snd kv) pairs).
Proof.
  induction pairs as [|[k v] pairs IH]; [congruence|].
  intros _ Hall.
  inversion Hall as [|? ? (Hk & Hks & Hv & Hne) Hrest]; subst. cbn [fst snd] in *.
  destruct (cookie_value_parts Hv) as (_ & Hr & _).
  destruct pairs as [|kv2 pairs].
  - cbn [map join fst snd]. split.
    + destruct k; discriminate.
    + replace (k ++ 61 :: v) with ((k ++ [61]) ++ v)
        by (rewrite <- app_assoc; reflexivity).
      now apply rstrip_app_fixed.
  - set (rest := kv2 :: pairs) in *.
    assert (Hjoin : join (lit "; ")
                      (map (fun kv => fst kv ++ 61 :: snd kv) ((k, v) :: rest))
                    = ((k ++ 61 :: v) ++ lit "; ")
                        ++ join (lit "; ") (map (fun kv => fst kv ++ 61 :: snd kv) rest))
      by (unfold rest; cbn [map join fst snd]; rewrite <- !app_assoc; reflexivity).
    rewrite Hjoin.
    destruct (IH ltac:(discriminate) Hrest) as [Hne2 Hr2].
    split.
    + destruct k; discriminate.
    + now apply rstrip_app_fixed.
Qed.

Lemma client_cookie_pairs_ok (c : config) :
  config_cookies_ok c ->
  client_cookie_pairs c <> []
  /\ Forall (fun kv => cookie_name (fst kv) = true /\ strip (fst kv) = fst kv
                       /\ cookie_value (snd kv) /\ snd kv <> [])
       (client_cookie_pairs c).
Proof.
  intros (Hne & H1 & H2 & H3 & H4 & H5 & H6 & H7).
  split; [discriminate|].
  unfold client_cookie_pairs. cbn [filter snd].
  assert (Hn : forall v, nonempty v = true -> v <> []) by (intros v H ->; discriminate H).
  constructor;
    [cbn [fst snd]; split; [reflexivity|split; [reflexivity|split; assumption]]|].
  destruct (nonempty (SECURE_1PSIDTS c)) eqn:E2, (nonempty (SAPISID c)) eqn:E3,
    (nonempty (SID c)) eqn:E4, (nonempty (HSID c)) eqn:E5,
    (nonempty (SSID c)) eqn:E6, (nonempty (APISID c)) eqn:E7;
    repeat (constructor;
            [cbn [fst snd];
             split; [reflexivity|split; [reflexivity|split; [assumption|auto]]]|]);
    constructor.
Qed.

Lemma client_cookies_clean (c : config) :
  config_cookies_ok c ->
  client_cookies c <> [] /\ clean_cookie_string (client_cookies c) = client_cookies c.
Proof.
  intro Hok. destruct (client_cookie_pairs_ok Hok) as [Hne Hall].
  destruct (join_pairs_rstrip Hne Hall) as [_ Hr].
  rewrite <- client_cookies_join in Hr.
  assert (Hhead : exists rest, client_cookies c = 95 :: rest).
  { unfold client_cookies. cbv zeta.
    destruct (nonempty (SECURE_1PSIDTS c)), (nonempty (SAPISID c)), (nonempty (SID c)),
      (nonempty (HSID c)), (nonempty (SSID c)), (nonempty (APISID c));
      eexists; reflexivity. }
  destruct Hhead as [rest Hhead]. split; [rewrite Hhead; discriminate|].
  unfold clean_cookie_string.
  assert (Hs : strip (client_cookies c) = client_cookies c).
  { unfold strip. rewrite Hhead at 1.
    rewrite (@lstrip_fixed 95 rest eq_refl), <- Hhead. exact Hr. }
  rewrite Hs. rewrite Hhead. reflexivity.
Qed.

(** X14.  Round trip between the two cookie formats of the server: the cookie
    string that [get_client] builds from the configuration is read back by
    [parse_cookie_string] as the non-empty cookie fields of that
    configuration, given that the values hold no semicolon and no white
    space at their ends (as the values that [parse_cookie_string] delivers
    do). *)
Theorem client_cookies_round_trip (c : config) :
  config_cookies_ok c ->
  parse_cookie_string (client_cookies c)
  = field_entry "SECURE_1PSID" (SECURE_1PSID c)
    ++ field_entry "SECURE_1PSIDTS" (SECURE_1PSIDTS c)
    ++ field_entry "SAPISID" (SAPISID c)
    ++ field_entry "SID" (SID c)
    ++ field_entry "HSID" (HSID c)
    ++ field_entry "SSID" (SSID c)
    ++ field_entry "APISID" (APISID c).
Proof.
  intro Hok.
  destruct (client_cookies_clean Hok) as [Hne Hclean].
  destruct (client_cookie_pairs_ok Hok) as [Hpne Hall].
  unfold parse_cookie_string. rewrite Hclean.
  destruct (client_cookies c) as [|x rest] eqn:Hc; [congruence|]. rewrite <- Hc.
  rewrite client_cookies_join.
  pose proof (@cookie_fold parse_cookie_item
                (fun r k v => match cookie_field COOKIE_FIELD_MAP k with
                              | Some field => dict_set r field (PStr v)
                              | None => r
                              end)
                parse_cookie_item_pair _ Hpne Hall [] [] eq_refl) as Hfold.
  cbn [app] in Hfold. rewrite Hfold.
  destruct Hok as (Hfirst & _).
  unfold client_cookie_pairs, field_entry. cbn [filter snd].
  destruct (SECURE_1PSID c) as [|y v1] eqn:E1; [congruence|]. cbn [nonempty].
  destruct (nonempty (SECURE_1PSIDTS c)), (nonempty (SAPISID c)), (nonempty (SID c)),
    (nonempty (HSID c)), (nonempty (SSID c)), (nonempty (APISID c)); reflexivity.
Qed.

Lemma client_cookies_round_trip_witness :
  parse_cookie_string (client_cookies example_config)
  = [(lit "SECURE_1PSID", PStr (lit "g.a000-abc"));
     (lit "SECURE_1PSIDTS", PStr (lit "sidts-1"));
     (lit "SAPISID", PStr (lit "sap/1"));
     (lit "HSID", PStr (lit "h=1"))].
Proof.
  apply (@client_cookies_round_trip example_config).
  repeat split; try reflexivity; discriminate.
Defined.

(** X15.  The client reads the cookie string of [get_client] into its cookie jar
    name by name: [_set_cookies_from_string] sets exactly the cookies the
    server wrote, each to its value. *)
Theorem client_cookies_set (c : config) :
  config_cookies_ok c ->
  _set_cookies_from_string (client_cookies c) []
  = map (fun kv => (fst kv, PStr (snd kv))) (client_cookie_pairs c).
Proof.
  intro Hok.
  destruct (client_cookie_pairs_ok Hok) as [Hpne Hall].
  unfold _set_cookies_from_string. rewrite client_cookies_join.
  pose proof (@cookie_fold set_cookie_item (fun r k v => dict_set r k (PStr v))
                set_cookie_item_pair _ Hpne Hall [] [] eq_refl) as Hfold.
  cbn [app] in Hfold. rewrite Hfold.
  unfold client_cookie_pairs. cbn [filter snd].
  destruct (nonempty (SECURE_1PSIDTS c)), (nonempty (SAPISID c)), (nonempty (SID c)),
    (nonempty (HSID c)), (nonempty (SSID c)), (nonempty (APISID c)); reflexivity.
Qed.

Lemma client_cookies_set_witness :
  _set_cookies_from_string (client_cookies example_config) []
  = [(lit "__Secure-1PSID", PStr (lit "g.a000-abc"));
     (lit "__Secure-1PSIDTS", PStr (lit "sidts-1"));
     (lit "SAPISID", PStr (lit "sap/1"));
     (lit "__Secure-1PAPISID", PStr (lit "sap/1"));
     (lit "HSID", PStr (lit "h=1"))].
Proof.
  apply (@client_cookies_set example_config).
  repeat split; try reflexivity; discriminate.
Defined.

(** ** What [parse_cookie_string] delivers *)

Lemma forallb_lstrip (p : N -> bool) (s : pystr) :
  forallb p s = true -> forallb p (lstrip s) = true.
Proof.
  intro H. destruct (lstrip_suffix s) as [pre Hs]. rewrite Hs in H.
  rewrite forallb_app in H. now apply andb_true_iff in H.
Qed.

Lemma forallb_strip (p : N -> bool) (s : pystr) :
  forallb p s = true -> forallb p (strip s) = true.
Proof.
  intro H. apply forallb_lstrip in H. unfold strip.
  destruct (rstrip_prefix (lstrip s)) as [u Hu]. rewrite Hu in H.
  rewrite forallb_app in H. now apply andb_true_iff in H.
Qed.

Lemma split_at_equals_parts (p : N -> bool) (item key value : pystr) :
  split_at_equals item = Some (key, value) ->
  forallb p item = true -> forallb p key = true /\ forallb p value = true.
Proof.
  unfold split_at_equals. intros H Hall.
  pose proof (span_app (fun c => negb (c =? 61)) item) as Happ.
  destruct (span (fun c => negb (c =? 61)) item) as [k [|e v]]; [discriminate H|].
  injection H as <- <-. cbn [fst snd] in Happ. rewrite <- Happ in Hall.
  rewrite forallb_app in Hall. cbn [forallb] in Hall.
  apply andb_true_iff in Hall as [Hk Hv]. apply andb_true_iff in Hv as [_ Hv]. auto.
Qed.

Lemma cookie_field_in (map : list (pystr * pystr)) (key field : pystr) :
  cookie_field map key = Some field -> In field (List.map snd map).
Proof.
  induction map as [|[k f] map IH]; cbn; [discriminate|].
  destruct (pystr_eqb k key).
  - intro H. injection H as <-. now left.
  - intro H. right. now apply IH.
Qed.

Lemma dict_set_forall (P : pystr * pyval -> Prop) (d : list (pystr * pyval))
    (k : pystr) (v : pyval) :
  Forall P d -> P (k, v) -> Forall P (dict_set d k v).
Proof.
  intros Hd Hp. induction d as [|[k' v'] d IH]; cbn [dict_set].
  - constructor; [exact Hp|constructor].
  - inversion Hd as [|? ? Hh Ht]; subst.
    destruct (pystr_eqb k' k) eqn:Hk.
    + apply pystr_eqb_eq in Hk. subst k'. constructor; assumption.
    + constructor; [exact Hh|now apply IH].
Qed.

(** X16.  Every entry of the dict that [parse_cookie_string] returns is one of the
    seven cookie fields of the configuration, with a value that holds no
    semicolon and no white space at its ends: a value that can be written
    back into a cookie string. *)
Theorem parse_cookie_string_entries (cookie_str : pystr) :
  Forall (fun entry =>
            In (fst entry) (map snd COOKIE_FIELD_MAP)
            /\ exists v, snd entry = PStr v /\ cookie_value v)
         (parse_cookie_string cookie_str).
Proof.
  unfold parse_cookie_string.
  destruct cookie_str as [|c s]; [constructor|].
  set (items := split_on 59 (clean_cookie_string (c :: s))).
  assert (Hitems : Forall (fun item => forallb (fun x => negb (x =? 59)) item = true) items).
  { apply Forall_forall. intros item Hin. exact (split_on_clean _ _ _ Hin). }
  assert (Hgen : forall result,
             Forall (fun entry =>
                       In (fst entry) (map snd COOKIE_FIELD_MAP)
                       /\ exists v, snd entry = PStr v /\ cookie_value v) result ->
             Forall (fun entry =>
                       In (fst entry) (map snd COOKIE_FIELD_MAP)
                       /\ exists v, snd entry = PStr v /\ cookie_value v)
                    (fold_left parse_cookie_item items result)).
  { induction Hitems as [|item items Hitem _ IH]; intros result Hres; cbn [fold_left];
      [exact Hres|].
    apply IH. unfold parse_cookie_item. cbv zeta.
    destruct (split_at_equals (strip item)) as [[key value]|] eqn:Hsplit; [|exact Hres].
    destruct (cookie_field COOKIE_FIELD_MAP (strip key)) as [field|] eqn:Hf; [|exact Hres].
    apply dict_set_forall; [exact Hres|]. cbn [fst snd]. split.
    - exact (cookie_field_in _ _ Hf).
    - exists (strip value). split; [reflexivity|]. split; [apply strip_idem|].
      apply forallb_strip.
      exact (proj2 (split_at_equals_parts _ _ Hsplit (forallb_strip _ _ Hitem))). }
  apply Hgen. constructor.
Qed.

(** ** [clean_cookie_string] *)

Lemma strip_label_stripped (prefixes : list pystr) (s : pystr) :
  strip s = s -> strip (strip_label prefixes s) = strip_label prefixes s.
Proof.
  intro Hs. induction prefixes as [|p prefixes IH]; cbn [strip_label]; [exact Hs|].
  destruct (strip_prefix p s) as [tail|]; [|exact IH].
  unfold drop_colon. destruct (strip tail) as [|x r] eqn:Ht; [reflexivity|].
  destruct (x =? 58); [apply strip_idem|]. rewrite <- Ht. apply strip_idem.
Qed.

(** What [clean_cookie_string] returns has no white space at its ends. *)
Lemma clean_cookie_string_stripped (cookie_str : pystr) :
  strip (clean_cookie_string cookie_str) = clean_cookie_string cookie_str.
Proof.
  unfold clean_cookie_string. destruct cookie_str as [|c s]; [reflexivity|].
  apply strip_label_stripped. apply strip_idem.
Qed.

Lemma strip_labelled (c : N) (r pad s : pystr) :
  is_space c = false -> strip s = s -> s <> [] ->
  strip ((c :: r) ++ pad ++ s) = (c :: r) ++ pad ++ s.
Proof.
  intros Hc Hs Hne. destruct (strip_fixed_parts Hs) as [_ Hr].
  unfold strip. cbn [app]. rewrite lstrip_fixed by exact Hc.
  change (c :: r ++ pad ++ s) with ((c :: r) ++ pad ++ s).
  rewrite app_assoc. now apply rstrip_app_fixed.
Qed.

(** X17.  A label in front of a pasted cookie string is removed: for each of the
    prefixes the function knows, followed by any white space, what remains
    is the cookie string itself (given without white space at its ends and
    not starting with a colon). *)
Theorem clean_cookie_string_label (prefix pad s : pystr) :
  In prefix COOKIE_PREFIXES ->
  forallb is_space pad = true ->
  strip s = s -> s <> [] -> startswith s [58] = false ->
  clean_cookie_string (prefix ++ pad ++ s) = s.
Proof.
  intros Hin Hpad Hs Hne Hcolon.
  destruct (strip_fixed_parts Hs) as [Hl Hr].
  destruct s as [|y s']; [congruence|].
  assert (Hy : (y =? 58) = false).
  { unfold startswith in Hcolon. cbn [strip_prefix] in Hcolon. rewrite N.eqb_sym.
    destruct (58 =? y); [discriminate Hcolon|reflexivity]. }
  assert (Hys : is_space y = false) by exact (lstrip_head _ Hl).
  assert (Hstrip : strip (pad ++ y :: s') = y :: s').
  { unfold strip. rewrite (@lstrip_pad pad (y :: s') y s' Hpad eq_refl Hys). exact Hr. }
  assert (Hh : exists h t', pad ++ y :: s' = h :: t' /\ (58 =? h) = false).
  { destruct pad as [|x pad'].
    - exists y, s'. split; [reflexivity|]. now rewrite N.eqb_sym.
    - exists x, (pad' ++ y :: s'). split; [reflexivity|].
      cbn [forallb] in Hpad. apply andb_true_iff in Hpad as [Hx _].
      destruct (N.eqb_spec 58 x) as [<-|]; [discriminate Hx|reflexivity]. }
  destruct Hh as (h & t' & Heq & Hh).
  assert (Hdrop : drop_colon (strip (pad ++ y :: s')) = y :: s').
  { rewrite Hstrip. unfold drop_colon. now rewrite Hy. }
  unfold COOKIE_PREFIXES in Hin. cbn [In] in Hin.
  repeat (destruct Hin as [<-|Hin]); [..|contradiction];
    (match goal with
     | |- clean_cookie_string (?p ++ _) = _ =>
         change (clean_cookie_string (p ++ pad ++ y :: s'))
           with (strip_label COOKIE_PREFIXES (strip (p ++ pad ++ y :: s')));
         let Hw := fresh "Hw" in
         assert (Hw : strip (p ++ pad ++ y :: s') = p ++ pad ++ y :: s')
           by (apply strip_labelled; [reflexivity|exact Hs|exact Hne]);
         rewrite Hw
     end;
     rewrite Heq; unfold COOKIE_PREFIXES; cbn [strip_label];
     repeat match goal with
            | |- context [strip_prefix ?p ?x] =>
                first
                  [ change (strip_prefix p x) with (@None pystr)
                  | change (strip_prefix p x) with (Some (h :: t'))
                  | change (strip_prefix p x)
                      with (if 58 =? h then Some t' else @None pystr);
                    rewrite Hh ];
                cbv iota beta
            end;
     rewrite <- Heq; exact Hdrop).
Qed.

Lemma clean_cookie_string_label_witness :
  clean_cookie_string (lit "Cookie:" ++ lit " " ++ lit "SID=1; HSID=2")
  = lit "SID=1; HSID=2".
Proof.
  apply (@clean_cookie_string_label (lit "Cookie:") (lit " ") (lit "SID=1; HSID=2")).
  - cbn. tauto.
  - reflexivity.
  - reflexivity.
  - discriminate.
  - reflexivity.
Defined.

(** ** The session tracking of [chat_completions] *)

Lemma user_indices_length (i : nat) (msgs : list server_message) :
  (List.length (user_indices_from i msgs) <= List.length msgs)%nat.
Proof.
  revert i. induction msgs as [|m msgs IH]; intro i; cbn [user_indices_from List.length].
  - lia.
  - destruct (eq_str (message_role m) (lit "user")); cbn [List.length];
      specialize (IH (S i)); lia.
Qed.

(** X18.  [is_continuation] never gets to compare hashes: it answers yes exactly
    when there is a last hash and the request holds an assistant message or
    more than one message, whatever the hash is; it never raises. *)
Theorem is_continuation_value (content_str : pyval -> pystr)
    (md5_hex : pystr -> result pystr)
    (current_messages : list server_message) (last_hash : pystr) :
  is_continuation content_str md5_hex current_messages last_hash
  = Ok (nonempty last_hash
        && (has_assistant current_messages
            || Nat.ltb 1 (List.length current_messages))).
Proof.
  unfold is_continuation.
  destruct (nonempty last_hash); cbn [negb andb]; [|reflexivity].
  destruct (has_assistant current_messages); cbn [orb]; [reflexivity|].
  destruct (Nat.ltb 1 (List.length current_messages)) eqn:Hlen; [reflexivity|].
  cbv zeta.
  replace (Nat.leb (List.length (user_indices_from 0 current_messages)) 1) with true;
    [reflexivity|].
  symmetry. apply Nat.leb_le. apply Nat.ltb_ge in Hlen.
  pose proof (user_indices_length 0 current_messages). lia.
Qed.

(** X19.  The decision of [chat_completions] to reset the conversation does not
    depend on the hash kept from the previous request: the conversation is
    reset exactly when the request holds a single message that is not an
    assistant's, and the client has neither a conversation id nor a
    history. *)
Theorem should_reset_value (content_str : pyval -> pystr)
    (md5_hex : pystr -> result pystr)
    (request_messages : list server_message) (c : client) (last_hash : pystr) :
  should_reset content_str md5_hex request_messages c last_hash
  = Ok (Nat.eqb (List.length request_messages) 1
        && negb (has_assistant request_messages)
        && negb (truthy (conversation_id c))
        && Nat.eqb (List.length (messages c)) 0).
Proof.
  unfold should_reset.
  destruct (Nat.eqb (List.length request_messages) 1) eqn:Hlen; cbn [andb];
    [|reflexivity].
  destruct (has_assistant request_messages) eqn:Ha; cbn [negb andb]; [reflexivity|].
  destruct (negb (truthy (conversation_id c))); cbn [andb]; [|reflexivity].
  destruct (Nat.eqb (List.length (messages c)) 0); [|reflexivity].
  unfold is_continuation. rewrite Ha.
  apply Nat.eqb_eq in Hlen. rewrite Hlen.
  destruct (nonempty last_hash); cbn [negb bind]; [|reflexivity].
  change (Nat.ltb 1 1) with false. cbv iota zeta.
  replace (Nat.leb (List.length (user_indices_from 0 request_messages)) 1) with true;
    [reflexivity|].
  symmetry. apply Nat.leb_le.
  pose proof (user_indices_length 0 request_messages). lia.
Qed.

(** * The default [json.dumps] and the decoder *)

Lemma hex_digit_val (d : N) : d < 16 -> hex_val (hex_digit d) = Some d.
Proof.
  intro H.
  assert (E : exists n, d = N.of_nat n /\ (n < 16)%nat).
  { exists (N.to_nat d). split; [now rewrite N2Nat.id | lia]. }
  destruct E as (n & -> & Hn).
  do 16 (destruct n as [|n]; [reflexivity|]).
  lia.
Qed.

Lemma hex4_digits_val (n : N) :
  n < 65536 ->
  hex4 (hex_digit (n / 4096)) (hex_digit (n / 256 mod 16))
       (hex_digit (n / 16 mod 16)) (hex_digit (n mod 16)) = Some n.
Proof.
  intro H. unfold hex4.
  rewrite !hex_digit_val.
  - f_equal.
    assert (H1 : n / 256 = 16 * (n / 4096) + n / 256 mod 16).
    { replace 4096 with (256 * 16) by reflexivity. rewrite <- N.Div0.div_div.
      apply N.div_mod. lia. }
    assert (H2 : n / 16 = 16 * (n / 256) + n / 16 mod 16).
    { replace 256 with (16 * 16) by reflexivity. rewrite <- N.Div0.div_div.
      apply N.div_mod. lia. }
    pose proof (N.div_mod n 16 ltac:(lia)) as H3.
    lia.
  - apply N.mod_lt. lia.
  - apply N.mod_lt. lia.
  - apply N.mod_lt. lia.
  - apply N.Div0.div_lt_upper_bound. lia.
Qed.

Lemma scanstring_unicode_escape (c : N) (tl : pystr) :
  c < 65536 -> is_high_surrogate c = false ->
  scanstring ((92 :: 117 :: hex4_digits c) ++ tl) = cons_char c (scanstring tl).
Proof.
  intros Hc Hs. unfold hex4_digits. cbn [app scanstring].
  change (92 =? 34) with false. change (92 =? 92) with true.
  change (117 =? 117) with true. cbv iota.
  rewrite (hex4_digits_val Hc), Hs. reflexivity.
Qed.

Lemma scanstring_surrogate_pair (c : N) (tl : pystr) :
  65536 <= c -> c <= 1114111 ->
  scanstring ((92 :: 117 :: hex4_digits (55296 + ((c - 65536) / 1024) mod 1024))
              ++ (92 :: 117 :: hex4_digits (56320 + (c - 65536) mod 1024)) ++ tl)
  = cons_char c (scanstring tl).
Proof.
  intros Hlo Hhi.
  set (n := c - 65536).
  assert (Hn : n < 1048576) by (unfold n; lia).
  assert (Hq : n / 1024 < 1024) by (apply N.Div0.div_lt_upper_bound; lia).
  assert (Hm : n mod 1024 < 1024) by (apply N.mod_lt; lia).
  rewrite (N.mod_small (n / 1024) 1024 Hq).
  set (s1 := 55296 + n / 1024). set (s2 := 56320 + n mod 1024).
  assert (H1 : s1 < 65536) by (subst s1; clearbody n; lia).
  assert (H2 : s2 < 65536) by (subst s2; clearbody n; lia).
  unfold hex4_digits. cbn [app scanstring].
  change (92 =? 34) with false. change (92 =? 92) with true.
  change (117 =? 117) with true. cbv iota.
  rewrite (hex4_digits_val H1).
  assert (Hs1 : is_high_surrogate s1 = true).
  { unfold is_high_surrogate. apply andb_true_iff.
    split; apply N.leb_le; subst s1; clearbody n;
      generalize dependent (n / 1024); intros; lia. }
  assert (Hs2 : is_low_surrogate s2 = true).
  { unfold is_low_surrogate. apply andb_true_iff.
    split; apply N.leb_le; subst s2; clearbody n;
      generalize dependent (n mod 1024); intros; lia. }
  rewrite Hs1. cbn [andb]. rewrite (hex4_digits_val H2), Hs2.
  replace (join_surrogates s1 s2) with c; [reflexivity|].
  unfold join_surrogates, s1, s2.
  pose proof (N.div_mod n 1024 ltac:(lia)) as Hdm.
  assert (Hc : c = n + 65536) by (unfold n; lia).
  clearbody n. clear - Hdm Hc Hq Hm.
  generalize dependent (n / 1024). generalize dependent (n mod 1024).
  intros r Hr q Hq Hdm. subst c.
  replace (55296 + q - 55296) with q by lia.
  replace (56320 + r - 56320) with r by lia. lia.
Qed.

Lemma scanstring_escaped_ascii (c : N) (tl : pystr) :
  is_high_surrogate c = false -> c <= 1114111 ->
  scanstring (escape_char_ascii c ++ tl) = cons_char c (scanstring tl).
Proof.
  intros Hs Hmax. unfold escape_char_ascii.
  destruct (c =? 34) eqn:E34.
  { apply N.eqb_eq in E34; subst c. reflexivity. }
  destruct (c =? 92) eqn:E92.
  { apply N.eqb_eq in E92; subst c. reflexivity. }
  destruct (c =? 8) eqn:E8.
  { apply N.eqb_eq in E8; subst c. reflexivity. }
  destruct (c =? 12) eqn:E12.
  { apply N.eqb_eq in E12; subst c. reflexivity. }
  destruct (c =? 10) eqn:E10.
  { apply N.eqb_eq in E10; subst c. reflexivity. }
  destruct (c =? 13) eqn:E13.
  { apply N.eqb_eq in E13; subst c. reflexivity. }
  destruct (c =? 9) eqn:E9.
  { apply N.eqb_eq in E9; subst c. reflexivity. }
  destruct ((32 <=? c) && (c <=? 126)) eqn:Ep.
  - apply andb_true_iff in Ep as [Hlo _]. apply N.leb_le in Hlo.
    apply scanstring_plain_char; [assumption|assumption|].
    apply N.ltb_ge. exact Hlo.
  - destruct (c <? 65536) eqn:Eb.
    + apply N.ltb_lt in Eb. now apply scanstring_unicode_escape.
    + apply N.ltb_ge in Eb. cbv zeta. rewrite <- app_assoc.
      now apply scanstring_surrogate_pair.
Qed.

Lemma scanstring_encode_ascii (s rest : pystr) :
  text_ok s = true ->
  scanstring (flat_map escape_char_ascii s ++ 34 :: rest) = Some (s, rest).
Proof.
  induction s as [|c s IH]; intro H; [reflexivity|].
  cbn [text_ok forallb] in H. apply andb_true_iff in H as [Hc Hs].
  apply andb_true_iff in Hc as [Hh Hm].
  apply negb_true_iff in Hh. apply N.leb_le in Hm.
  cbn [flat_map]. rewrite <- app_assoc, (scanstring_escaped_ascii _ Hh Hm).
  rewrite (IH Hs). reflexivity.
Qed.

Section DefaultRoundTrip.

Variable float_repr : float -> pystr.
Variable py_float : pystr -> float.

Lemma plain_text_plain (v : pyval) : plain_text v = true -> plain v = true.
Proof.
  induction v as [|b|z|f|s|l IH|d IH] using pyval_ind; cbn [plain_text plain];
    intro H; try reflexivity; try discriminate.
  induction l as [|x xs IHxs]; [reflexivity|].
  cbn [forallb] in *. apply andb_true_iff in H as [Hx Hxs].
  inversion IH as [|? ? IHx IHrest]; subst.
  rewrite (IHx Hx), (IHxs IHrest Hxs). reflexivity.
Qed.

Lemma dumps_default_list (l : list pyval) :
  json_dumps_default float_repr (PList l)
  = 91 :: dumps_default_elems float_repr l ++ [93].
Proof. reflexivity. Qed.

Lemma dumps_default_head (v : pyval) :
  plain_text v = true ->
  exists c r, json_dumps_default float_repr v = c :: r /\ value_start c = true.
Proof.
  destruct v as [|b|z|f|s|l|d]; cbn [plain_text]; intro Hp; try discriminate.
  - eexists; eexists; split; reflexivity.
  - destruct b; eexists; eexists; split; reflexivity.
  - destruct (int_repr_head z) as (c & r & E & Hc).
    exists c, r. split; [exact E|].
    assert (Hrange : 45 <= c <= 57).
    { destruct Hc as [Hc| ->]; [|lia].
      unfold is_ascii_digit in Hc. apply andb_true_iff in Hc.
      destruct Hc as [H1 H2]. apply N.leb_le in H1, H2. lia. }
    unfold value_start, is_json_ws.
    replace (c =? 32) with false by (symmetry; apply N.eqb_neq; lia).
    replace (c =? 9) with false by (symmetry; apply N.eqb_neq; lia).
    replace (c =? 10) with false by (symmetry; apply N.eqb_neq; lia).
    replace (c =? 13) with false by (symmetry; apply N.eqb_neq; lia).
    replace (c =? 93) with false by (symmetry; apply N.eqb_neq; lia).
    reflexivity.
  - eexists; eexists; split; reflexivity.
  - eexists; eexists; split; reflexivity.
Qed.

Lemma dumps_default_elems_head (l : list pyval) (tl : pystr) :
  l <> [] -> forallb plain_text l = true ->
  exists c r, dumps_default_elems float_repr l ++ tl = c :: r /\ value_start c = true.
Proof.
  destruct l as [|x xs]; [congruence|]. intros _ Hp.
  cbn [forallb] in Hp. apply andb_true_iff in Hp. destruct Hp as [Hx _].
  destruct (dumps_default_head x Hx) as (c & r & E & Hc).
  cbn [dumps_default_elems]. rewrite E. eexists; eexists.
  split; [reflexivity|exact Hc].
Qed.

Lemma default_roundtrip_fuel (fuel : nat) :
  (forall v rest, plain_text v = true -> (size v <= fuel)%nat -> terminated rest = true ->
     scan_once py_float fuel (json_dumps_default float_repr v ++ rest) = Some (v, rest))
  /\ (forall l rest, l <> [] -> forallb plain_text l = true -> (size_elems l <= fuel)%nat ->
        parse_elems py_float fuel (dumps_default_elems float_repr l ++ 93 :: rest)
        = Some (l, rest)).
Proof.
  induction fuel as [|fuel [IHv IHl]].
  - split.
    + intros v rest _ Hs _. destruct v; cbn in Hs; lia.
    + intros l rest Hl _ Hs. destruct l; [congruence|cbn in Hs; lia].
  - split.
    + intros v rest Hp Hs Hr.
      destruct v as [|b|z|f|s|l|d]; cbn [plain_text] in Hp; try discriminate.
      * reflexivity.
      * destruct b; reflexivity.
      * destruct (int_repr_head z) as (c & r & E & Hc).
        cbn [json_dumps_default].
        pose proof (scan_number_int py_float z rest Hr) as Hn.
        rewrite E in *. cbn [app] in *.
        rewrite (scan_once_number_start py_float fuel (r ++ rest) Hc), Hn. reflexivity.
      * cbn [json_dumps_default]. unfold encode_basestring_ascii.
        change ((34 :: flat_map escape_char_ascii s ++ [34]) ++ rest)
          with (34 :: ((flat_map escape_char_ascii s ++ [34]) ++ rest)).
        rewrite <- app_assoc. cbn [app scan_once].
        change (34 =? 34) with true. cbv iota.
        rewrite (scanstring_encode_ascii s rest Hp). reflexivity.
      * rewrite dumps_default_list. rewrite size_list in Hs.
        change ((91 :: dumps_default_elems float_repr l ++ [93]) ++ rest)
          with (91 :: ((dumps_default_elems float_repr l ++ [93]) ++ rest)).
        rewrite <- app_assoc. cbn [app].
        destruct l as [|x xs].
        -- reflexivity.
        -- assert (Hne : x :: xs <> []) by discriminate.
           destruct (dumps_default_elems_head (93 :: rest) Hne Hp) as (c & r & E & Hc).
           cbn [scan_once]. change (91 =? 34) with false.
           change (91 =? 123) with false. change (91 =? 91) with true. cbv iota.
           rewrite E, (@skip_ws_value_start c r Hc).
           replace (c =? 93) with false.
           2:{ unfold value_start in Hc. apply andb_true_iff in Hc.
               destruct Hc as [_ Hc]. apply negb_true_iff in Hc. now rewrite Hc. }
           rewrite <- E, (IHl (x :: xs) rest Hne Hp); [reflexivity|lia].
    + intros l rest Hne Hp Hs.
      destruct l as [|x xs]; [congruence|].
      cbn [size_elems] in Hs. cbn [forallb] in Hp.
      apply andb_true_iff in Hp. destruct Hp as [Hx Hxs].
      cbn [parse_elems dumps_default_elems].
      destruct xs as [|y ys].
      * rewrite <- app_assoc. cbn [app].
        rewrite (IHv x (93 :: rest) Hx); [|lia|reflexivity].
        reflexivity.
      * rewrite <- app_assoc.
        change ((44 :: 32 :: dumps_default_elems float_repr (y :: ys)) ++ 93 :: rest)
          with (44 :: 32 :: (dumps_default_elems float_repr (y :: ys) ++ 93 :: rest)).
        rewrite (IHv x _ Hx); [|lia|reflexivity].
        cbn [skip_ws]. change (is_json_ws 44) with false. cbv iota.
        change (44 =? 93) with false. change (44 =? 44) with true. cbv iota.
        change (skip_ws (32 :: dumps_default_elems float_repr (y :: ys)
                                ++ 93 :: rest))
          with (skip_ws (dumps_default_elems float_repr (y :: ys) ++ 93 :: rest)).
        assert (Hne' : y :: ys <> []) by discriminate.
        destruct (dumps_default_elems_head (93 :: rest) Hne' Hxs) as (c & r & E & Hc).
        rewrite E, (@skip_ws_value_start c r Hc), <- E.
        rewrite (IHl (y :: ys) rest Hne' Hxs); [reflexivity|lia].
Qed.

Lemma dumps_default_length (v : pyval) :
  plain_text v = true ->
  (size v <= 2 * List.length (json_dumps_default float_repr v))%nat.
Proof.
  induction v as [|b|z|f|s|l IH|d IH] using pyval_ind; cbn [plain_text]; intro Hp;
    try discriminate.
  - cbn. lia.
  - destruct b; cbn; lia.
  - destruct (int_repr_head z) as (c & r & E & _). cbn [json_dumps_default size].
    rewrite E. cbn [List.length]. lia.
  - cbn [json_dumps_default size]. unfold encode_basestring_ascii.
    cbn [List.length]. lia.
  - rewrite dumps_default_list, size_list. cbn [List.length]. rewrite length_app.
    cbn [List.length].
    assert (H : (size_elems l
                 <= 2 * List.length (dumps_default_elems float_repr l) + 1)%nat).
    { induction l as [|x xs IHxs]; [cbn; lia|].
      cbn [forallb] in Hp. apply andb_true_iff in Hp. destruct Hp as [Hx Hxs].
      inversion IH as [|? ? IHx IHrest]; subst.
      specialize (IHx Hx). specialize (IHxs IHrest Hxs).
      cbn [size_elems dumps_default_elems]. rewrite length_app.
      destruct xs as [|y ys].
      - cbn [size_elems List.length] in *. lia.
      - cbn [List.length]. lia. }
    lia.
Qed.

(** [json.loads] undoes [json.dumps] called with its defaults. *)
Lemma json_default_roundtrip (v : pyval) :
  plain_text v = true ->
  json_loads py_float (json_dumps_default float_repr v) = Some v.
Proof.
  intro Hp. unfold json_loads.
  destruct (dumps_default_head v Hp) as (c & r & E & Hc).
  pose proof (dumps_default_length v Hp) as Hlen.
  destruct (default_roundtrip_fuel (S (2 * List.length (json_dumps_default float_repr v))))
    as [Hv _].
  specialize (Hv v [] Hp).
  rewrite app_nil_r in Hv.
  rewrite E, (@skip_ws_value_start c r Hc), <- E.
  rewrite Hv; [reflexivity|lia|reflexivity].
Qed.

End DefaultRoundTrip.

(** * The terminal chat bot ([quite.py]) *)

(** ** The encoded request is ASCII *)

Lemma uint_digits_ascii (d : Decimal.uint) :
  forallb (fun c => c <? 128) (uint_digits d) = true.
Proof. induction d; cbn [uint_digits forallb]; try rewrite IHd; reflexivity. Qed.

Lemma int_repr_ascii (z : Z) : forallb (fun c => c <? 128) (int_repr z) = true.
Proof.
  unfold int_repr. destruct (Z.to_int z); cbn [forallb];
    rewrite uint_digits_ascii; reflexivity.
Qed.

Lemma hex_digit_ascii (d : N) : d < 16 -> (hex_digit d <? 128) = true.
Proof.
  intro H. unfold hex_digit. apply N.ltb_lt. destruct (d <? 10); lia.
Qed.

Lemma hex4_digits_ascii (n : N) :
  n < 65536 -> forallb (fun c => c <? 128) (hex4_digits n) = true.
Proof.
  intro H. unfold hex4_digits. cbn [forallb].
  rewrite !hex_digit_ascii; try reflexivity.
  - apply N.mod_lt. lia.
  - apply N.mod_lt. lia.
  - apply N.mod_lt. lia.
  - apply N.Div0.div_lt_upper_bound. lia.
Qed.

Lemma escape_char_ascii_ascii (c : N) :
  forallb (fun c => c <? 128) (escape_char_ascii c) = true.
Proof.
  unfold escape_char_ascii.
  repeat match goal with
         | |- context [if ?c =? ?k then _ else _] => destruct (c =? k); [reflexivity|]
         end.
  destruct ((32 <=? c) && (c <=? 126)) eqn:Ep.
  - apply andb_true_iff in Ep as [_ Hhi]. apply N.leb_le in Hhi.
    cbn [forallb]. rewrite andb_true_r. apply N.ltb_lt. lia.
  - destruct (c <? 65536) eqn:Eb.
    + apply N.ltb_lt in Eb. cbn [forallb]. now rewrite hex4_digits_ascii.
    + cbv zeta. rewrite forallb_app. cbn [forallb].
      assert (Hq : (c - 65536) / 1024 mod 1024 < 1024) by (apply N.mod_lt; lia).
      assert (Hm : (c - 65536) mod 1024 < 1024) by (apply N.mod_lt; lia).
      rewrite !hex4_digits_ascii; [reflexivity| |].
      * generalize dependent ((c - 65536) mod 1024). intros; lia.
      * generalize dependent ((c - 65536) / 1024 mod 1024). intros; lia.
Qed.

Lemma encode_basestring_ascii_ascii (s : pystr) :
  forallb (fun c => c <? 128) (encode_basestring_ascii s) = true.
Proof.
  change (encode_basestring_ascii s)
    with ([34] ++ flat_map escape_char_ascii s ++ [34]).
  rewrite !forallb_app.
  replace (forallb (fun c => c <? 128) (flat_map escape_char_ascii s)) with true;
    [reflexivity|symmetry].
  induction s as [|c s IH]; [reflexivity|].
  cbn [flat_map]. rewrite forallb_app, escape_char_ascii_ascii, IH. reflexivity.
Qed.

Lemma ascii_text_ok (s : pystr) :
  forallb (fun c => c <? 128) s = true -> text_ok s = true.
Proof.
  unfold text_ok. intro H. rewrite forallb_forall in *. intros c Hc.
  specialize (H c Hc). apply N.ltb_lt in H.
  apply andb_true_iff. split.
  - apply negb_true_iff. unfold is_high_surrogate.
    apply andb_false_iff. left. apply N.leb_gt. lia.
  - apply N.leb_le. lia.
Qed.

Section DefaultAscii.

Variable float_repr : float -> pystr.

Lemma dumps_default_ascii (v : pyval) :
  plain_text v = true ->
  forallb (fun c => c <? 128) (json_dumps_default float_repr v) = true.
Proof.
  induction v as [|b|z|f|s|l IH|d IH] using pyval_ind; cbn [plain_text]; intro Hp;
    try discriminate.
  - reflexivity.
  - destruct b; reflexivity.
  - apply int_repr_ascii.
  - apply encode_basestring_ascii_ascii.
  - rewrite dumps_default_list.
    change (91 :: dumps_default_elems float_repr l ++ [93])
      with ([91] ++ dumps_default_elems float_repr l ++ [93]).
    rewrite !forallb_app.
    replace (forallb (fun c => c <? 128) (dumps_default_elems float_repr l)) with true;
      [reflexivity|symmetry].
    induction l as [|x xs IHxs]; [reflexivity|].
    cbn [forallb] in Hp. apply andb_true_iff in Hp as [Hx Hxs].
    inversion IH as [|? ? IHx IHrest]; subst.
    cbn [dumps_default_elems]. rewrite forallb_app, (IHx Hx).
    destruct xs as [|y ys]; [reflexivity|].
    cbn [forallb andb]. exact (IHxs IHrest Hxs).
Qed.

End DefaultAscii.

(** ** [send_message]: the request *)

Lemma inner_request_plain (message : pystr) (b : Quite.bot) :
  text_ok message = true ->
  plain_text (Quite.cid b) = true -> plain_text (Quite.rid b) = true ->
  plain_text (Quite.rcid b) = true ->
  plain_text (Quite.inner_request message b) = true.
Proof.
  intros Hm Hc Hr Hrc. unfold Quite.inner_request.
  cbn [plain_text forallb]. rewrite Hm, Hc, Hr, Hrc. reflexivity.
Qed.

(** The call [send_message] makes when the bot holds a key. *)
Lemma send_message_call (E : environment) (remote : nat -> Quite.call -> net_result)
    (exn_str : exn -> pystr) (s : Quite.session) (message token : pystr) :
  Quite.snlm0e (Quite.this s) = Some token -> token <> [] ->
  Quite.calls (snd (Quite.send_message E remote exn_str message s))
  = Quite.calls s
    ++ [Quite.requests_post Quite.URL
          [(lit "bl", lit "boq_assistant-bard-web-server_20240519.16_p0");
           (lit "_reqid", int_repr (randint E (Quite.drawn s) 100000 999999));
           (lit "rt", lit "c")]
          [(lit "f.req",
            Quite.default_dumps E
              (PList [PNone;
                      PStr (Quite.default_dumps E
                              (Quite.inner_request message (Quite.this s)))]));
           (lit "at", token)]
          (Quite.headers (Quite.this s)) (Quite.proxies (Quite.this s))].
Proof.
  intros Hk Hne. unfold Quite.send_message. rewrite Hk.
  destruct token as [|t0 token]; [congruence|].
  unfold Quite.issue. cbn [Quite.this Quite.calls Quite.drawn].
  match goal with |- context [remote ?n ?rq] => destruct (remote n rq) as [resp|e] end.
  - destruct (negb (status_code resp =? 200)%Z); [reflexivity|].
    destruct (Quite.read_lines E (Quite.answer_lines (resp_text resp)) PNone
                (Quite.this s)) as [t b'].
    reflexivity.
  - reflexivity.
Qed.

(** X20.  The terminal bot encodes its request as the client does: the value of
    [f.req] in the one POST [send_message] makes decodes to a two-element
    array, [null] and a string, and that string decodes to the inner array
    whose element [0][0] is the message and whose element 2 holds the three
    context ids of the bot; the field [at] carries the session key. *)
Theorem quite_f_req_doubly_encoded (E : environment)
    (remote : nat -> Quite.call -> net_result) (exn_str : exn -> pystr)
    (s : Quite.session) (message token : pystr) :
  Quite.snlm0e (Quite.this s) = Some token -> token <> [] ->
  text_ok message = true ->
  plain_text (Quite.cid (Quite.this s)) = true ->
  plain_text (Quite.rid (Quite.this s)) = true ->
  plain_text (Quite.rcid (Quite.this s)) = true ->
  exists params f_req inner_json inner_data first,
    Quite.calls (snd (Quite.send_message E remote exn_str message s))
    = Quite.calls s
      ++ [Quite.requests_post Quite.URL params
            [(lit "f.req", f_req); (lit "at", token)]
            (Quite.headers (Quite.this s)) (Quite.proxies (Quite.this s))]
    /\ json_loads (py_float E) f_req = Some (PList [PNone; PStr inner_json])
    /\ json_loads (py_float E) inner_json = Some (PList inner_data)
    /\ nth_error inner_data 0 = Some (PList (PStr message :: first))
    /\ nth_error inner_data 2
       = Some (PList [Quite.cid (Quite.this s); Quite.rid (Quite.this s);
                      Quite.rcid (Quite.this s)]).
Proof.
  intros Hk Hne Hm Hc Hr Hrc.
  pose proof (inner_request_plain message (Quite.this s) Hm Hc Hr Hrc) as Hp.
  do 5 eexists.
  split; [exact (send_message_call E remote exn_str s message Hk Hne)|].
  split; [|split; [|split]].
  - unfold Quite.default_dumps. apply json_default_roundtrip.
    cbn [plain_text forallb]. rewrite andb_true_r.
    apply ascii_text_ok, dumps_default_ascii, Hp.
  - unfold Quite.default_dumps. apply json_default_roundtrip. exact Hp.
  - reflexivity.
  - reflexivity.
Qed.

Lemma quite_f_req_doubly_encoded_witness :
  exists params f_req inner_json inner_data first,
    Quite.calls (snd (Quite.send_message example_env example_remote (fun _ => [])
                        (lit "hi") example_session))
    = Quite.calls example_session
      ++ [Quite.requests_post Quite.URL params
            [(lit "f.req", f_req); (lit "at", lit "key")]
            (Quite.headers (Quite.this example_session))
            (Quite.proxies (Quite.this example_session))]
    /\ json_loads (py_float example_env) f_req = Some (PList [PNone; PStr inner_json])
    /\ json_loads (py_float example_env) inner_json = Some (PList inner_data)
    /\ nth_error inner_data 0 = Some (PList (PStr (lit "hi") :: first))
    /\ nth_error inner_data 2
       = Some (PList [Quite.cid (Quite.this example_session);
                      Quite.rid (Quite.this example_session);
                      Quite.rcid (Quite.this example_session)]).
Proof.
  apply (@quite_f_req_doubly_encoded example_env example_remote (fun _ => [])
           example_session (lit "hi") (lit "key")).
  - reflexivity.
  - discriminate.
  - reflexivity.
  - reflexivity.
  - reflexivity.
  - reflexivity.
Defined.

(** ** [send_message]: the answer *)

Lemma py_path_choice (v text : pyval) :
  Quite.py_path v [4; 0; 1; 0]%nat = Ok text ->
  exists rc, Quite.py_path v [4; 0; 0]%nat = Ok rc.
Proof.
  cbn [Quite.py_path]. unfold bind.
  destruct (py_index v 4) as [x|e]; [|discriminate].
  destruct (py_index x 0) as [y|e]; [|discriminate].
  destruct (py_index y 1) as [z|e] eqn:H1; [|discriminate].
  intros _.
  destruct y as [|b|n|f|t|l|d]; try discriminate.
  - destruct t as [|c0 t]; [discriminate|]. eexists; reflexivity.
  - destruct l as [|x0 l]; [discriminate|]. eexists; reflexivity.
Qed.

(** A line either leaves the bot as it is and passes to the next one, or
    ends the loop with the text and the ids of its frame. *)
Lemma take_reply_outcome (inner_data parsed_text : pyval) (b : Quite.bot) :
  match Quite.take_reply inner_data parsed_text b with
  | (Quite.Next, _, b') => b' = b
  | (Quite.Break, text, b') =>
      exists c rc,
        Quite.py_path inner_data [4; 0; 1; 0]%nat = Ok text
        /\ Quite.py_path inner_data [1; 0]%nat = Ok c
        /\ Quite.py_path inner_data [4; 0; 0]%nat = Ok rc
        /\ b' = Quite.set_rid
                  match Quite.py_path inner_data [4; 0; 1; 1]%nat with
                  | Ok r => r
                  | Raise _ => Quite.rid b
                  end
                  (Quite.set_rcid rc (Quite.set_cid c b))
  end.
Proof.
  unfold Quite.take_reply.
  destruct (Quite.py_path inner_data [4; 0; 1; 0]%nat) as [text|e] eqn:Ht;
    [|reflexivity].
  destruct (Quite.py_path inner_data [1; 0]%nat) as [c|e] eqn:Hc; [|reflexivity].
  destruct (py_path_choice inner_data Ht) as [rc Hrc]. rewrite Hrc.
  destruct (Quite.py_path inner_data [4; 0; 1; 1]%nat) as [r|e] eqn:Hr;
    exists c, rc; repeat split; reflexivity.
Qed.

Section ReadLines.

Variable E : environment.

Lemma read_line_outcome (line : pystr) (parsed_text : pyval) (b : Quite.bot) :
  match Quite.read_line E line parsed_text b with
  | (Quite.Next, _, b') => b' = b
  | (Quite.Break, text, b') =>
      exists inner_data c rc,
        Quite.frame_payload E line = Ok (Some inner_data)
        /\ Quite.py_path inner_data [4; 0; 1; 0]%nat = Ok text
        /\ Quite.py_path inner_data [1; 0]%nat = Ok c
        /\ Quite.py_path inner_data [4; 0; 0]%nat = Ok rc
        /\ b' = Quite.set_rid
                  match Quite.py_path inner_data [4; 0; 1; 1]%nat with
                  | Ok r => r
                  | Raise _ => Quite.rid b
                  end
                  (Quite.set_rcid rc (Quite.set_cid c b))
  end.
Proof.
  unfold Quite.read_line.
  destruct (negb (nonempty (strip line))); [reflexivity|].
  destruct (Quite.frame_payload E line) as [[inner_data|]|e]; try reflexivity.
  destruct (andr (len_gt inner_data 4) (truthy_at inner_data 4)) as [[|]|e];
    try reflexivity.
  pose proof (take_reply_outcome inner_data parsed_text b) as H.
  destruct (Quite.take_reply inner_data parsed_text b) as [[[|] text] b'].
  - exact H.
  - destruct H as (c & rc & H). exists inner_data, c, rc. split; [reflexivity|exact H].
Qed.

Lemma read_lines_outcome (lines : list pystr) (parsed_text : pyval) (b : Quite.bot) :
  match Quite.read_lines E lines parsed_text b with
  | (text, b') =>
      b' = b
      \/ exists line inner_data c rc,
           In line lines
           /\ Quite.frame_payload E line = Ok (Some inner_data)
           /\ Quite.py_path inner_data [4; 0; 1; 0]%nat = Ok text
           /\ Quite.py_path inner_data [1; 0]%nat = Ok c
           /\ Quite.py_path inner_data [4; 0; 0]%nat = Ok rc
           /\ b' = Quite.set_rid
                     match Quite.py_path inner_data [4; 0; 1; 1]%nat with
                     | Ok r => r
                     | Raise _ => Quite.rid b
                     end
                     (Quite.set_rcid rc (Quite.set_cid c b))
  end.
Proof.
  revert parsed_text.
  induction lines as [|line rest IH]; intro parsed_text; cbn [Quite.read_lines].
  - left. reflexivity.
  - pose proof (read_line_outcome line parsed_text b) as H.
    destruct (Quite.read_line E line parsed_text b) as [[[|] text] b1].
    + subst b1. specialize (IH text).
      destruct (Quite.read_lines E rest text b) as [text' b'].
      destruct IH as [IH|(l & inner & c & rc & Hin & IH)]; [left; exact IH|].
      right. exists l, inner, c, rc. split; [right; exact Hin|exact IH].
    + destruct H as (inner & c & rc & H). right.
      exists line, inner, c, rc. split; [left; reflexivity|exact H].
Qed.

End ReadLines.

(** X21.  [send_message] replaces the context ids together or not at all.  Either
    the bot is left as it was (no key, a failed or refused request, no line
    with a complete frame), or the answer had status 200 and one of its
    lines decodes to a frame with payload [inner_data] such that the bot's
    [cid] is [inner_data[1][0]], its [rcid] is [inner_data[4][0][0]], its
    [rid] is [inner_data[4][0][1][1]] when that exists and the old one
    otherwise, and the returned value is that frame's text
    [inner_data[4][0][1][0]], or the message that nothing could be parsed
    when the text is falsy.  Nothing else of the bot changes. *)
Theorem quite_memory_from_answer (E : environment)
    (remote : nat -> Quite.call -> net_result) (exn_str : exn -> pystr)
    (s : Quite.session) (message : pystr) :
  match Quite.send_message E remote exn_str message s with
  | (reply, s') =>
      Quite.this s' = Quite.this s
      \/ exists rq resp line inner_data text c rc,
           Quite.calls s' = Quite.calls s ++ [rq]
           /\ remote (List.length (Quite.calls s)) rq = Responded resp
           /\ status_code resp = 200%Z
           /\ In line (Quite.answer_lines (resp_text resp))
           /\ Quite.frame_payload E line = Ok (Some inner_data)
           /\ Quite.py_path inner_data [4; 0; 1; 0]%nat = Ok text
           /\ Quite.py_path inner_data [1; 0]%nat = Ok c
           /\ Quite.py_path inner_data [4; 0; 0]%nat = Ok rc
           /\ reply = (if truthy text then text else PStr Quite.UNPARSED)
           /\ Quite.this s'
              = Quite.set_rid
                  match Quite.py_path inner_data [4; 0; 1; 1]%nat with
                  | Ok r => r
                  | Raise _ => Quite.rid (Quite.this s)
                  end
                  (Quite.set_rcid rc (Quite.set_cid c (Quite.this s)))
  end.
Proof.
  unfold Quite.send_message.
  destruct (Quite.snlm0e (Quite.this s)) as [[|t0 token]|]; try (left; reflexivity).
  unfold Quite.issue. cbn [Quite.this Quite.calls Quite.drawn].
  match goal with |- context [remote ?n ?rq] =>
    destruct (remote n rq) as [resp|e] eqn:Hnet
  end; [|left; reflexivity].
  destruct (status_code resp =? 200)%Z eqn:Hst; cbn [negb]; [|left; reflexivity].
  apply Z.eqb_eq in Hst.
  pose proof (read_lines_outcome E (Quite.answer_lines (resp_text resp)) PNone
                (Quite.this s)) as H.
  destruct (Quite.read_lines E (Quite.answer_lines (resp_text resp)) PNone
              (Quite.this s)) as [text b'].
  cbn [Quite.this Quite.calls].
  destruct H as [H|(line & inner & c & rc & Hin & Hf & Ht & Hc & Hrc & Hb)];
    [left; exact H|].
  right. eexists. exists resp, line, inner, text, c, rc.
  split; [reflexivity|]. split; [exact Hnet|]. split; [exact Hst|].
  split; [exact Hin|]. split; [exact Hf|]. split; [exact Ht|].
  split; [exact Hc|]. split; [exact Hrc|]. split; [reflexivity|exact Hb].
Qed.

(** On the example answer the reply is the text of the frame and the three
    ids are those of the frame; the next message echoes them. *)
Example quite_two_rounds :
  let r1 := Quite.send_message example_env example_remote (fun _ => [])
              (lit "hi") example_session in
  fst r1 = PStr (lit "Hello")
  /\ Quite.memory (Quite.this (snd r1))
     = (PStr (lit "c_2"), PStr (lit "r_2"), PStr (lit "rc_2"))
  /\ Quite.inner_request (lit "more") (Quite.this (snd r1))
     = PList [PList [PStr (lit "more"); PInt 0; PNone; PList []; PNone; PNone; PInt 0];
              PList [PStr (lit "zh-CN")];
              PList [PStr (lit "c_2"); PStr (lit "r_2"); PStr (lit "rc_2")];
              PNone; PNone; PNone; PList [PNone]; PInt 0; PList []].
Proof. vm_compute. repeat split. Qed.

(** ** [step_1_init] *)

Lemma search_snlm0e_eq (text : pystr) :
  Quite.search_snlm0e text
  = match
      match strip_prefix Quite.SNLM0E_KEY text with
      | Some r =>
          match span (fun c => negb ((c =? 34) || (c =? 10))) r with
          | (run, c :: _) => if c =? 34 then Some run else None
          | (_, []) => None
          end
      | None => None
      end
    with
    | Some m => Some m
    | None =>
        match text with
        | [] => None
        | _ :: r => Quite.search_snlm0e r
        end
    end.
Proof. destruct text; reflexivity. Qed.

(** What the search finds stands in the text between the key and a closing
    quote, and holds neither a quote nor a newline. *)
Lemma search_snlm0e_sound (text key : pystr) :
  Quite.search_snlm0e text = Some key ->
  forallb (fun c => negb ((c =? 34) || (c =? 10))) key = true
  /\ exists before after, text = before ++ Quite.SNLM0E_KEY ++ key ++ 34 :: after.
Proof.
  induction text as [|c text IH]; intro H; rewrite search_snlm0e_eq in H.
  - cbn in H. discriminate.
  - destruct (strip_prefix Quite.SNLM0E_KEY (c :: text)) as [r|] eqn:Hk.
    + pose proof (span_app (fun c => negb ((c =? 34) || (c =? 10))) r) as Happ.
      pose proof (span_all (fun c => negb ((c =? 34) || (c =? 10))) r) as Hall.
      destruct (span (fun c => negb ((c =? 34) || (c =? 10))) r) as [run [|q after]];
        cbn [fst snd] in *.
      * apply IH in H. destruct H as (Hq & before & after' & ->).
        split; [exact Hq|]. exists (c :: before), after'. reflexivity.
      * destruct (N.eqb_spec q 34) as [->|Hne].
        -- injection H as <-. split; [exact Hall|].
           exists [], after. cbn [app].
           apply strip_prefix_app in Hk. rewrite Hk, <- Happ. reflexivity.
        -- apply IH in H. destruct H as (Hq & before & after' & ->).
           split; [exact Hq|]. exists (c :: before), after'. reflexivity.
    + apply IH in H. destruct H as (Hq & before & after & ->).
      split; [exact Hq|]. exists (c :: before), after. reflexivity.
Qed.

(** A key followed on its line by a closing quote is found, it or an
    earlier one. *)
Lemma search_snlm0e_complete (before key after : pystr) :
  forallb (fun c => negb ((c =? 34) || (c =? 10))) key = true ->
  exists found,
    Quite.search_snlm0e (before ++ Quite.SNLM0E_KEY ++ key ++ 34 :: after)
    = Some found.
Proof.
  intro Hkey. induction before as [|c before IH].
  - exists key. rewrite search_snlm0e_eq. cbn [app].
    rewrite (proj2 (strip_prefix_app Quite.SNLM0E_KEY
                      (Quite.SNLM0E_KEY ++ key ++ 34 :: after)
                      (key ++ 34 :: after)) eq_refl).
    rewrite (span_stop_at _ key 34 after Hkey eq_refl). reflexivity.
  - destruct IH as [found IH]. rewrite search_snlm0e_eq.
    match goal with |- context [match ?h with Some m => Some m | None => _ end] =>
      destruct h as [m|]
    end.
    + exists m. reflexivity.
    + exists found. exact IH.
Qed.

(** X22.  [step_1_init] sends one GET for the start page, with the headers of the
    bot but [Content-Type].  It returns [True] exactly when the answer has
    status 200 and its text holds the quoted key [SNlM0e], a colon and a
    quoted value on one line; the bot then holds such a value (free of
    quotes and newlines, possibly empty) as its session key.  When it
    returns [False] the bot is unchanged. *)
Theorem quite_init_key (remote : nat -> Quite.call -> net_result) (s : Quite.session) :
  let b := Quite.this s in
  let rq :=
    Quite.requests_get Quite.INIT_URL
      (filter (fun kv => negb (pystr_eqb (fst kv) (lit "Content-Type")))
              (Quite.headers b))
      (Quite.proxies b) in
  match Quite.step_1_init remote s with
  | (ok, s') =>
      Quite.calls s' = Quite.calls s ++ [rq]
      /\ (ok = true
          <-> exists resp before key after,
                remote (List.length (Quite.calls s)) rq = Responded resp
                /\ status_code resp = 200%Z
                /\ resp_text resp = before ++ Quite.SNLM0E_KEY ++ key ++ 34 :: after
                /\ forallb (fun c => negb ((c =? 34) || (c =? 10))) key = true)
      /\ if ok
         then exists resp before key after,
                remote (List.length (Quite.calls s)) rq = Responded resp
                /\ resp_text resp = before ++ Quite.SNLM0E_KEY ++ key ++ 34 :: after
                /\ forallb (fun c => negb ((c =? 34) || (c =? 10))) key = true
                /\ Quite.this s' = Quite.set_snlm0e (Some key) b
         else Quite.this s' = b
  end.
Proof.
  intros b rq. unfold Quite.step_1_init, Quite.issue. fold b. fold rq.
  destruct (remote (List.length (Quite.calls s)) rq) as [resp|e] eqn:Hnet.
  - destruct (status_code resp =? 200)%Z eqn:Hst; cbn [negb].
    + apply Z.eqb_eq in Hst.
      destruct (Quite.search_snlm0e (resp_text resp)) as [key|] eqn:Hs.
      * cbn [Quite.this Quite.calls].
        destruct (search_snlm0e_sound _ Hs) as (Hkey & before & after & Htext).
        split; [reflexivity|]. split.
        -- split; [intros _|reflexivity].
           exists resp, before, key, after. repeat split; assumption.
        -- exists resp, before, key, after. repeat split; assumption.
      * cbn [Quite.this Quite.calls]. split; [reflexivity|]. split; [|reflexivity].
        split; [discriminate|].
        intros (resp' & before & key & after & Hr & _ & Htext & Hkey).
        injection Hr as <-.
        destruct (search_snlm0e_complete before key after Hkey) as [found Hf].
        rewrite <- Htext in Hf. congruence.
    + cbn [Quite.this Quite.calls]. split; [reflexivity|]. split; [|reflexivity].
      split; [discriminate|].
      intros (resp' & before & key & after & Hr & H200 & _).
      injection Hr as <-. apply Z.eqb_neq in Hst. contradiction.
  - cbn [Quite.this Quite.calls]. split; [reflexivity|]. split; [|reflexivity].
    split; [discriminate|].
    intros (resp' & before & key & after & Hr & _). discriminate.
Qed.

Example quite_init_example :
  let r := Quite.step_1_init example_page_remote
             {| Quite.this := Quite.__init__ (lit " SID=abc ") (lit "Mozilla/5.0") 7897;
                Quite.calls := []; Quite.drawn := 0 |} in
  fst r = true /\ Quite.this (snd r) = example_bot.
Proof. vm_compute. split; reflexivity. Qed.

(** * The simulated stream of [chat_completions] *)

Lemma range_slices (s : pystr) (fuel i : nat) :
  (i <= List.length s)%nat -> (List.length s - i <= fuel)%nat ->
  concat (map (fun i => py_slice s i (i + 10)) (range_from fuel i (List.length s) 10))
  = skipn i s
  /\ Forall (fun c => (1 <= List.length c <= 10)%nat)
            (map (fun i => py_slice s i (i + 10)) (range_from fuel i (List.length s) 10)).
Proof.
  revert i. induction fuel as [|fuel IH]; intros i Hi Hf.
  - assert (i = List.length s) by lia. subst i.
    cbn [range_from map concat]. rewrite skipn_all. split; [reflexivity|constructor].
  - cbn [range_from].
    destruct (Nat.ltb i (List.length s)) eqn:Hlt.
    + apply Nat.ltb_lt in Hlt. cbn [map concat].
      unfold py_slice at 1 3. replace (i + 10 - i)%nat with 10%nat by lia.
      destruct (Nat.le_gt_cases (i + 10) (List.length s)) as [Hle|Hgt].
      * destruct (IH (i + 10)%nat Hle ltac:(lia)) as [Hc Hall].
        rewrite Hc. split.
        -- rewrite <- (firstn_skipn 10 (skipn i s)) at 2.
           rewrite skipn_skipn. f_equal. f_equal. lia.
        -- constructor; [|exact Hall].
           rewrite length_firstn, length_skipn. lia.
      * assert (Hnil : range_from fuel (i + 10) (List.length s) 10 = []).
        { destruct fuel; [reflexivity|]. cbn [range_from].
          replace (Nat.ltb (i + 10) (List.length s)) with false; [reflexivity|].
          symmetry. apply Nat.ltb_ge. lia. }
        rewrite Hnil. cbn [map concat]. rewrite app_nil_r. split.
        -- apply firstn_all2. rewrite length_skipn. lia.
        -- constructor; [|constructor].
           rewrite length_firstn, length_skipn. lia.
    + apply Nat.ltb_ge in Hlt. assert (i = List.length s) by lia. subst i.
      cbn [map concat]. rewrite skipn_all. split; [reflexivity|constructor].
Qed.

(** X23.  The simulated stream delivers the whole reply: between the event that
    names the role and the two closing events, [generate_fake_stream]
    yields one content event per piece of the reply; the pieces, in order,
    make up the reply, and each holds between 1 and 10 characters (so an
    empty reply gives no content event). *)
Theorem fake_stream_complete (float_repr : float -> pystr)
    (completion_id model : pystr) (created_time : Z) (reply_content : pystr) :
  exists chunks,
    generate_fake_stream float_repr completion_id model created_time reply_content
    = role_event float_repr completion_id model created_time
      :: map (content_event float_repr completion_id model created_time) chunks
      ++ [stop_event float_repr completion_id model created_time; DONE_EVENT]
    /\ concat chunks = reply_content
    /\ Forall (fun c => (1 <= List.length c <= 10)%nat) chunks.
Proof.
  exists (map (fun i => py_slice reply_content i (i + 10))
              (py_range 0 (List.length reply_content) 10)).
  split.
  - unfold generate_fake_stream. rewrite map_map. reflexivity.
  - unfold py_range.
    destruct (range_slices reply_content (fuel := List.length reply_content) (i := 0))
      as [Hc Hall]; [lia|lia|].
    split; [exact Hc|exact Hall].
Qed.

Example fake_stream_example :
  exists chunks,
    generate_fake_stream (fun _ => []) (lit "chatcmpl-1") (lit "gemini") 0
      (lit "Hello, world")
    = role_event (fun _ => []) (lit "chatcmpl-1") (lit "gemini") 0
      :: map (content_event (fun _ => []) (lit "chatcmpl-1") (lit "gemini") 0) chunks
      ++ [stop_event (fun _ => []) (lit "chatcmpl-1") (lit "gemini") 0; DONE_EVENT]
    /\ chunks = [lit "Hello, wor"; lit "ld"].
Proof. exists [lit "Hello, wor"; lit "ld"]. split; reflexivity. Qed.

(** * From the Gemini format to the client: [gemini_generate_content] *)

Lemma span_full (p : N -> bool) (s : pystr) :
  forallb p s = true -> span p s = (s, []).
Proof.
  induction s as [|c s IH]; intro H; [reflexivity|].
  cbn [forallb] in H. apply andb_true_iff in H as [Hc Hs].
  cbn [span]. rewrite Hc, (IH Hs). reflexivity.
Qed.

(** A data URL made of a type and of data is read back into them. *)
Lemma match_data_url_build (m d : pystr) :
  part_ok (InlinePart m d) = true ->
  match_data_url (lit "data:" ++ m ++ lit ";base64," ++ d) = Some (m, d).
Proof.
  cbn [part_ok]. rewrite !andb_true_iff. intros [[[Hm Hmc] Hd] Hdc].
  unfold match_data_url.
  change (strip_prefix (lit "data:") (lit "data:" ++ m ++ lit ";base64," ++ d))
    with (Some (m ++ 59 :: (lit "base64," ++ d))).
  cbv beta iota.
  rewrite (span_stop_at _ m 59 (lit "base64," ++ d) Hmc eq_refl).
  destruct m as [|m0 m]; [discriminate Hm|].
  change (strip_prefix (lit ";base64,") (59 :: lit "base64," ++ d)) with (Some d).
  cbv beta iota.
  rewrite (span_full _ d Hdc).
  destruct d as [|d0 d]; [discriminate Hd|]. reflexivity.
Qed.

Section GeminiParts.

Variable E : environment.

Lemma convert_part_json (message_content : list pyval) (p : gemini_part) :
  convert_part E message_content (part_json p) = Ok (message_content ++ [part_item p]).
Proof. destruct p; reflexivity. Qed.

Lemma convert_parts_json (parts : list gemini_part) :
  forall message_content,
    fold_result (convert_part E) (map part_json parts) message_content
    = Ok (message_content ++ map part_item parts).
Proof.
  induction parts as [|p parts IH]; intro mc; cbn [map fold_result].
  - now rewrite app_nil_r.
  - rewrite convert_part_json. cbn [bind]. rewrite IH, <- app_assoc. reflexivity.
Qed.

Lemma parse_item_part (p : gemini_part) (text_parts : list pyval)
    (images : list image_entry) (w : world) :
  part_ok p = true ->
  parse_item E (part_item p) (text_parts, images) w
  = (Ok (text_parts ++ map PStr (part_texts [p]), images ++ part_images [p]), w).
Proof.
  intro Hok. destruct p as [t|m d].
  - cbn. rewrite app_nil_r. reflexivity.
  - unfold parse_item, part_item.
    change (py_get _ (lit "type") PNone) with (Ok (PStr (lit "image_url"))).
    unfold bindM at 1, lift at 1.
    change (eq_str (PStr (lit "image_url")) (lit "text")) with false.
    change (eq_str (PStr (lit "image_url")) (lit "image_url")) with true.
    cbv iota.
    change (py_get _ (lit "image_url") (PDict []))
      with (Ok (PDict [(lit "url", PStr (lit "data:" ++ m ++ lit ";base64," ++ d))])).
    unfold bindM at 1, lift at 1. cbn [isinstance_str].
    change (py_get _ (lit "url") (PStr []))
      with (Ok (PStr (lit "data:" ++ m ++ lit ";base64," ++ d))).
    unfold bindM at 1, lift at 1.
    change (truthy (PStr (lit "data:" ++ m ++ lit ";base64," ++ d))) with true.
    cbn [negb]. unfold bindM at 1, lift at 1. cbn [as_str].
    change (startswith (lit "data:" ++ m ++ lit ";base64," ++ d) (lit "data:")) with true.
    cbv iota. rewrite (match_data_url_build m d Hok).
    cbn [part_texts part_images flat_map map app]. rewrite app_nil_r. reflexivity.
Qed.

Lemma parse_items_parts (parts : list gemini_part) :
  forallb part_ok parts = true ->
  forall text_parts images w,
    for_each (map part_item parts) (text_parts, images) (parse_item E) w
    = (Ok (text_parts ++ map PStr (part_texts parts), images ++ part_images parts), w).
Proof.
  induction parts as [|p parts IH]; intros Hok tp im w; cbn [map for_each].
  - cbn. now rewrite !app_nil_r.
  - cbn [forallb] in Hok. apply andb_true_iff in Hok as [Hp Hps].
    unfold bindM. rewrite (parse_item_part p tp im w Hp), (IH Hps).
    cbn [part_texts part_images flat_map]. rewrite !app_nil_r.
    rewrite map_app, <- !app_assoc. reflexivity.
Qed.

Lemma join_values_strings (l : list pystr) : join_values (map PStr l) = Ok l.
Proof.
  induction l as [|s l IH]; [reflexivity|]. cbn [map join_values].
  rewrite IH. reflexivity.
Qed.

End GeminiParts.

(** X24.  The parts of a Gemini-format message reach the client as they were
    sent.  [gemini_generate_content] turns an entry of [contents] into a
    message with the role [user] or [model], and [_parse_content] reads
    from the content of that message the texts of the text parts, in order
    and joined by single spaces, and the inline images, in order, each with
    its MIME type and its data, without sending any request.  The type of an
    image must be non-empty and free of semicolons, its data non-empty and
    free of newlines. *)
Theorem gemini_parts_reach_client (E : environment) (role : pyval)
    (parts : list gemini_part) (w : world) :
  forallb part_ok parts = true ->
  exists content,
    convert_content E [(lit "role", role); (lit "parts", PList (map part_json parts))]
    = Ok (PDict [(lit "role",
                  PStr (if eq_str role (lit "user") then lit "user" else lit "model"));
                 (lit "content", content)])
    /\ _parse_content E content w
       = (Ok (join (lit " ") (part_texts parts), part_images parts), w).
Proof.
  intro Hok. unfold convert_content.
  change (dict_get _ (lit "role")) with (Some role).
  change (dict_get _ (lit "parts")) with (Some (PList (map part_json parts))).
  cbn [py_iter bind]. rewrite (convert_parts_json E parts []). cbn [bind app].
  assert (Hparse : _parse_content E (PList (map part_item parts)) w
                   = (Ok (join (lit " ") (part_texts parts), part_images parts), w)).
  { unfold _parse_content. unfold bindM at 1, lift at 1. cbn [py_iter].
    unfold bindM at 1. rewrite (parse_items_parts E parts Hok [] [] w).
    cbn [app]. destruct (part_texts parts) as [|t ts]; [reflexivity|].
    cbn [map]. unfold bindM, lift, ret.
    change (PStr t :: map PStr ts) with (map PStr (t :: ts)).
    rewrite join_values_strings. reflexivity. }
  destruct parts as [|[t|m d] [|p2 rest]].
  - exists (PList []). split; [reflexivity|exact Hparse].
  - exists (PStr t). split; reflexivity.
  - exists (PList (map part_item (TextPart t :: p2 :: rest))).
    split; [reflexivity|exact Hparse].
  - exists (PList (map part_item [InlinePart m d])). split; [reflexivity|exact Hparse].
  - exists (PList (map part_item (InlinePart m d :: p2 :: rest))).
    split; [reflexivity|exact Hparse].
Qed.

Lemma gemini_parts_reach_client_witness :
  exists content,
    convert_content example_env
      [(lit "role", PStr (lit "user")); (lit "parts", PList (map part_json example_parts))]
    = Ok (PDict [(lit "role", PStr (lit "user")); (lit "content", content)])
    /\ _parse_content example_env content example_world
       = (Ok (lit "What is this?",
              [{| mime_type := lit "image/png"; data := lit "aGVsbG8=" |}]),
          example_world).
Proof.
  apply (@gemini_parts_reach_client example_env (PStr (lit "user")) example_parts
           example_world).
  reflexivity.
Defined.

(** * The admin sessions *)

Lemma set_mem_in (x : pystr) (s : list pystr) : set_mem x s = true <-> In x s.
Proof.
  unfold set_mem. rewrite existsb_exists. split.
  - intros (y & Hin & Heq). apply pystr_eqb_eq in Heq. now subst y.
  - intro Hin. exists x. split; [exact Hin|]. now apply pystr_eqb_eq.
Qed.

Lemma set_add_in (x y : pystr) (s : list pystr) :
  In y (set_add x s) <-> y = x \/ In y s.
Proof.
  unfold set_add. destruct (set_mem x s) eqn:Hm.
  - apply set_mem_in in Hm. split; [intro H; right; exact H|].
    intros [->|H]; assumption.
  - cbn [In]. split; (intros [H|H]; [left; congruence|right; exact H]).
Qed.

Lemma set_discard_in (x y : pystr) (s : list pystr) :
  In y (set_discard x s) <-> y <> x /\ In y s.
Proof.
  unfold set_discard. rewrite filter_In, negb_true_iff.
  split; intros [H1 H2].
  - split; [|exact H1].
    intros ->. rewrite (proj2 (pystr_eqb_eq x x) eq_refl) in H2. discriminate.
  - split; [exact H2|].
    destruct (pystr_eqb x y) eqn:Heq; [|reflexivity].
    apply pystr_eqb_eq in Heq. congruence.
Qed.

Lemma verify_admin_session_in (st : admin_state) (cookie : option pystr) :
  verify_admin_session st cookie = true
  <-> exists t, cookie = Some t /\ t <> [] /\ In t (_admin_sessions st).
Proof.
  unfold verify_admin_session. destruct cookie as [[|c t]|]; cbn [opt_truthy negb orb].
  - split; [discriminate|]. intros (t & H & Hne & _). injection H as <-. congruence.
  - destruct (set_mem (c :: t) (_admin_sessions st)) eqn:Hm; cbn [negb].
    + apply set_mem_in in Hm. split; [intros _|reflexivity].
      exists (c :: t). split; [reflexivity|]. split; [discriminate|exact Hm].
    + split; [discriminate|]. intros (t' & H & _ & Hin). injection H as <-.
      apply set_mem_in in Hin. congruence.
  - split; [discriminate|]. intros (t & H & _). discriminate.
Qed.

Section AdminFacts.

Variable token_hex : nat -> pystr.



End AdminFacts.



(** X26.  A login with the administrator's name and password sets a cookie that
    [verify_admin_session] accepts from then on, and a logout with that
    cookie ends the session: the cookie is refused afterwards, the other
    sessions are as before. *)
Theorem admin_login_logout (token_hex : nat -> pystr) (st : admin_state) :
  token_hex (tokens_drawn st) <> [] ->
  exists body st1,
    admin_login token_hex (credentials ADMIN_USERNAME ADMIN_PASSWORD) st
    = Ok (LoggedIn body (token_hex (tokens_drawn st)), st1)
    /\ verify_admin_session st1 (Some (token_hex (tokens_drawn st))) = true
    /\ verify_admin_session
         (admin_logout (Some (token_hex (tokens_drawn st))) st1)
         (Some (token_hex (tokens_drawn st))) = false
    /\ forall other,
         other <> token_hex (tokens_drawn st) ->
         verify_admin_session
           (admin_logout (Some (token_hex (tokens_drawn st))) st1) (Some other)
         = verify_admin_session st (Some other).
Proof.
  intro Hne. set (token := token_hex (tokens_drawn st)) in *.
  eexists. eexists. split; [reflexivity|]. fold token.
  set (st1 := {| _admin_sessions := set_add token (_admin_sessions st);
                 tokens_drawn := S (tokens_drawn st) |}).
  assert (Hin : In token (_admin_sessions st1)).
  { cbn [st1 _admin_sessions]. apply set_add_in. now left. }
  assert (Hout : admin_logout (Some token) st1
                 = {| _admin_sessions := set_discard token (_admin_sessions st1);
                      tokens_drawn := tokens_drawn st1 |}).
  { unfold admin_logout. rewrite (proj2 (set_mem_in _ _) Hin).
    destruct token; [congruence|reflexivity]. }
  split; [|split].
  - apply verify_admin_session_in. exists token. repeat split; assumption.
  - rewrite Hout. destruct (verify_admin_session _ (Some token)) eqn:Hv; [|reflexivity].
    apply verify_admin_session_in in Hv. destruct Hv as (t & Ht & _ & Hd).
    injection Ht as <-. cbn [_admin_sessions] in Hd.
    apply set_discard_in in Hd. destruct Hd as [Hd _]. congruence.
  - intros other Hother. rewrite Hout.
    apply eq_true_iff_eq. rewrite !verify_admin_session_in.
    split; intros (t & Ht & Hn & Hd); injection Ht as <-; exists other;
      (split; [reflexivity|]); (split; [exact Hn|]).
    + cbn [_admin_sessions] in Hd. apply set_discard_in in Hd as [_ Hd].
      apply set_add_in in Hd. destruct Hd as [Hd|Hd]; [congruence|exact Hd].
    + cbn [_admin_sessions]. apply set_discard_in. split; [exact Hother|].
      apply set_add_in. now right.
Qed.

Lemma admin_login_logout_witness :
  exists body st1,
    admin_login example_token_hex (credentials ADMIN_USERNAME ADMIN_PASSWORD)
      (admin_run example_token_hex [])
    = Ok (LoggedIn body (example_token_hex 0), st1)
    /\ verify_admin_session st1 (Some (example_token_hex 0)) = true
    /\ verify_admin_session
         (admin_logout (Some (example_token_hex 0)) st1)
         (Some (example_token_hex 0)) = false
    /\ forall other,
         other <> example_token_hex 0 ->
         verify_admin_session
           (admin_logout (Some (example_token_hex 0)) st1) (Some other)
         = verify_admin_session (admin_run example_token_hex []) (Some other).
Proof.
  apply (@admin_login_logout example_token_hex (admin_run example_token_hex [])).
  discriminate.
Defined.

(** * [chat]: what is sent of a [messages] list *)

Section LastUser.

Variable E : environment.

Lemma take_messages_last_user (items : list pyval) :
  forall acc0 w acc w',
    for_each items acc0 (take_message E) w = (Ok acc, w') ->
    match last_user_content items with
    | None => acc = acc0
    | Some c => exists w0 w1, _parse_content E c w0 = (Ok acc, w1)
    end.
Proof.
  induction items as [|msg rest IH]; intros acc0 w acc w' Hrun; cbn [for_each] in Hrun.
  - unfold ret in Hrun. injection Hrun as <- _. reflexivity.
  - unfold bindM at 1 in Hrun.
    destruct (take_message E msg acc0 w) as [[acc1|e] w1] eqn:Htake;
      [|discriminate Hrun].
    specialize (IH acc1 w1 acc w' Hrun). cbn [last_user_content].
    destruct (last_user_content rest) as [c|]; [exact IH|]. subst acc.
    unfold take_message in Htake. unfold bindM at 1, lift at 1 in Htake.
    destruct (py_get msg (lit "role") (PStr [])) as [r|e]; [|discriminate Htake].
    unfold bindM at 1, lift at 1 in Htake.
    destruct (py_get msg (lit "content") (PStr [])) as [c|e]; [|discriminate Htake].
    destruct (eq_str r (lit "user")).
    + unfold bindM at 1, modify at 1 in Htake. eexists. exists w1. exact Htake.
    + destruct (eq_str r (lit "assistant")).
      * unfold bindM, modify, ret in Htake. injection Htake as <- _. reflexivity.
      * unfold ret in Htake. injection Htake as <- _. reflexivity.
Qed.

End LastUser.

(** X27.  Of a [messages] list [chat] sends the last user message only: the text
    and the images it goes on with are those [_parse_content] returned for
    the content of the last message of role [user], whatever the earlier
    messages hold; without a user message the text is empty (and [chat]
    raises [ValueError]). *)
Theorem chat_takes_last_user_message (E : environment) (items : list pyval)
    (message : option pystr) (image : option pybytes) (image_url : option pystr)
    (w w' : world) (text : pystr) (images : list image_entry) :
  items <> [] ->
  intake E (PList items) message image image_url w = (Ok (text, images), w') ->
  match last_user_content items with
  | None => text = [] /\ images = []
  | Some c => exists w0 w1, _parse_content E c w0 = (Ok (text, images), w1)
  end.
Proof.
  intros Hne Hrun. unfold intake in Hrun.
  destruct items as [|msg rest]; [congruence|].
  cbn [truthy] in Hrun. unfold bindM at 1, lift at 1 in Hrun. cbn [py_iter] in Hrun.
  unfold bindM at 1 in Hrun.
  destruct (for_each (msg :: rest) ([], []) (take_message E) w) as [[acc|e] w1]
    eqn:Hloop; [|discriminate Hrun].
  unfold bindM, modify, ret in Hrun. injection Hrun as -> _.
  pose proof (take_messages_last_user E (msg :: rest) ([], []) w Hloop) as H.
  destruct (last_user_content (msg :: rest)) as [c|]; [exact H|].
  injection H as -> ->. split; reflexivity.
Qed.

Lemma chat_takes_last_user_message_witness :
  exists w0 w1,
    _parse_content example_env (PStr (lit "c")) w0 = (Ok (lit "c", []), w1).
Proof.
  apply (@chat_takes_last_user_message example_env
           [text_message "user" (lit "a"); text_message "assistant" (lit "b");
            text_message "user" (lit "c")]
           None None None example_world
           (snd (intake example_env
                   (PList [text_message "user" (lit "a");
                           text_message "assistant" (lit "b");
                           text_message "user" (lit "c")])
                   None None None example_world))
           (lit "c") []).
  - discriminate.
  - reflexivity.
Defined.
